(* ===== verification/_CoqProject ===== *)
-Q . S2P
Prelude.v
GoMonad.v
GoLib.v
Path.v
Types.v
Variables.v
Config.v
TraceBuffer.v
JobTrace.v
GitLabClient.v
Machine.v
BuildsHelper.v
MultiRunner.v
ConfigFile.v
Daemon.v
Build.v
BuildProofs.v
CIParser.v
CIParserProofs.v
CacheKeys.v
CacheBackends.v
HelperCommands.v
Archives.v
ArchivesProofs.v
Session.v
ShellEscape.v
AbstractShell.v
Shells.v
Regex.v
ScrubSecrets.v
Logging.v
VolumeParser.v
Executor.v
DockerImages.v
Docker.v
DockerProofs.v
DockerClaims.v
KubernetesExecutor.v
Kubernetes.v
KubernetesProofs.v
KubernetesClaims.v
VirtualMachines.v
VirtualMachinesProofs.v
RunnerCommands.v
MachineExecutor.v
ShellExecutor.v
MachineCommand.v
DockerClient.v
ClientTLS.v
ServiceCommands.v
Terminals.v
TerminalConns.v
Startup.v
CommandLine.v
DevTools.v
Certificates.v
Metrics.v
