(* ===== verification/Prelude.v ===== *)
(** * GitLab Runner: a verification of its core

    GitLab Runner asks a GitLab server (the coordinator) for CI jobs, runs each job's
    stages in an executor, streams the job's log back and reports the result. This
    development models the parts that carry that logic as executable definitions and
    proves what makes them correct. Source paths are relative to src/.

    ** Parts of the program and the files that model them

    - A daemon with several workers (commands/multi.go) takes runners from a queue,
      reserves a build slot and a request slot (commands/builds_helper.go), checks the
      runner's health (commands/health_helper.go) and requests a job.
      BuildsHelper.v models the bookkeeping as a record of counters and builds with one
      function per method; MultiRunner.v runs [processRunner], [requestJob] and
      [acquireRunnerResources] as interleaved steps of [n] workers ([wstep],
      [schedule]), one step per locked call.
    - The executor data of the docker+machine executor comes from a pool of virtual
      machines (executors/docker/machine). Machine.v models the provider over a store
      of shared machine records, with creation and removal as background goroutines.
    - A job becomes a build (common/build.go). Build.v has its variables, settings and
      directories, and [Run], [run], [retryCreateExecutor], [executeScript] and the
      stages as functions that append to a history of events; the executor, the clock
      and the signals are the record [Env]. BuildProofs.v has the theorems.
      Types.v, Variables.v and Config.v hold the job protocol (common/network.go), the
      job variables (common/variables.go, helpers/featureflags) and the configuration
      (common/config.go).
    - Each stage is a script (shells). AbstractShell.v models shells/abstract.go over the
      class [ShellWriter], with [ShellWriterLaws] as what a writer promises; Shells.v has
      the bash, cmd and PowerShell writers as instances, their laws, and the registry of
      common/shell.go. ShellEscape.v models helpers/shell_escape.go with a reader of bash
      words; CacheKeys.v the cache objects of cache/cache.go and cache/adapter.go, and
      CacheBackends.v the adapters of cache/gcs and cache/s3.
    - The output of the scripts goes through a buffer that masks secrets and limits the
      size (helpers/trace/buffer.go; TraceBuffer.v, Modules [Trie] and [Buffer]) and is
      uploaded piece by piece by the job trace (network/trace.go; JobTrace.v), which
      talks to an interface [TraceNetwork]. JobTrace.v states what it relies on as the
      class [Coordinator]; GitLabClient.v models network/client.go and
      network/gitlab.go over an HTTP parameter and discharges that class for any HTTP
      server that keeps the laws of [JobServer]. ClientTLS.v has the transport of that
      client and when it is made anew from its files.
    - An executor runs the scripts. Executor.v has the registry (common/executor.go), the
      default provider and the preparation all executors share (executors). For Docker
      (executors/docker): Regex.v is a backtracking matcher, VolumeParser.v the volume
      parsers, DockerImages.v the names, services, credentials and helper images, and
      Docker.v the executor with its volumes manager, written in the state and error
      monad of GoMonad.v; DockerProofs.v and DockerClaims.v have the theorems. For
      Kubernetes (executors/kubernetes): KubernetesExecutor.v has overwrites, limits,
      polling and names, Kubernetes.v the pod, credentials, proxy services and the
      executor; KubernetesProofs.v and KubernetesClaims.v have the theorems.
      VirtualMachines.v has the SSH client, the drivers of VirtualBox and Parallels and
      the executors ssh, virtualbox and parallels, with VirtualMachinesProofs.v;
      ShellExecutor.v has the shell executor, and MachineExecutor.v the docker+machine
      executor over Machine.v and an inner executor that is an interface. MachineCommand.v
      has the docker-machine program's commands, the cache of machines that answer and the
      names of machines (helpers/docker, executors/docker/machine/name.go). DockerClient.v
      has the client of the Docker API (helpers/docker), which makes the [Daemon] that
      Docker.v talks to of an engine.
    - The outside of these executors is a record of functions from the history of calls
      to an answer ([Daemon] of Docker.v, the cluster, [Host]): the answers may depend on
      everything that was asked before, failures included, and every call is recorded.
    - The process (commands/multi.go, commands/config.go, log/configuration.go):
      ConfigFile.v loads, checks and reloads the configuration; Daemon.v has the
      goroutines around [processRunner] (feeder, workers, scaling, signals, shutdown) as
      the step function [dstep].
    - The session of a build (session), through which users open a terminal, is Session.v.
      Terminals.v has the goroutines of a terminal connection and the build that waits for
      it ([waitForTerminal]) as the step function [tstep]; TerminalConns.v how the executors
      connect a terminal, how requests for services are forwarded into a cluster, and the
      start of the session server; Certificates.v the certificate that it presents.
    - The commands register, unregister, verify and run-single are RunnerCommands.v. The
      local run (commands/exec.go) and its parser of CI files
      (helpers/gitlab_ci_yaml_parser) are CIParser.v, with CIParserProofs.v. Installing and
      controlling the service, listing runners, the health check of a service, the list of
      jobs and the collected numbers are ServiceCommands.v.
    - The programs (main.go, apps/gitlab-runner-helper): Startup.v has what the packages
      register when they are initialised, as functions on the registries of shells,
      executors, caches and commands, folded over any order that the imports allow;
      CommandLine.v the hooks before and after a command and the exit status.
    - The metrics server (serveMetrics of commands/multi.go) is Metrics.v: the descriptors of
      the collectors, their registration, and the samples of a page.
    - DevTools.v has two scripts of the release process (scripts).
    - Logging: ScrubSecrets.v has the regular expression that removes secrets from URLs,
      Logging.v the logger of a build, the formatter, the hooks and the counters of errors.
    - The helper binary (commands/helpers): HelperCommands.v collects the files of an
      archive, retries, and moves artifacts and caches. Archives.v makes and extracts zip
      archives and gzip streams (helpers/archives) over a file system, with
      ArchivesProofs.v.
    - Prelude.v (this file), GoLib.v and Path.v are the base: results, 64-bit integers,
      byte strings, and the parts of Go's standard library the code uses (strings,
      strconv, os.Expand, unicode/utf8, path, path/filepath on a slash system).

    ** What the theorems show

    - Log delivery: released log bytes never change; the upload survives lost requests,
      lost answers and range mismatches and ends with the server holding exactly the
      masked log and the verdict, first against the interface and then over HTTP; a
      verdict is given once, a cancel function is called once; the log stays bounded;
      what is masked, and which secrets the masking misses.
    - Builds: the order and number of stages, the outcome table, one status and one
      cleanup on every path, how interruptions are classified, who decides a variable,
      where the build directories are, rounding of durations.
    - Concurrency: limits and request concurrency hold and nothing leaks under every
      interleaving of the workers; build ids are unique and lowest; a machine of the
      pool never has two owners; pre-creation fills the pool exactly; what [Acquire]
      may hand out; a machine in use can nevertheless be under removal.
    - Scripts: escaping for bash is lossless; bash evaluates the user's commands letter
      for letter; blocks are balanced in every writer; generation panics in exactly two
      situations; what PowerShell reads back.
    - Executors: every container of a docker job is removed but the caches kept on
      purpose, under any answers of Docker; only permitted images and services reach it;
      the pull policy decides the pulls; no path is mounted twice; the linux volume
      parser is a split at the colons and inverts printing. A kubernetes job makes one
      pod and asks to delete it and its secret; the pod is well formed; the wait for it
      is bounded; overwrites need permission. A virtualbox job destroys only its machine;
      a shell stage leaves no process and no script; a docker+machine job releases the
      machine it took.
    - The process: the pool of workers follows [concurrent]; a stop comes to an end
      within a computed number of steps; SIGQUIT lets builds finish; stopped workers take
      hardly any new work; what a reload keeps and replaces. A session has one terminal,
      for the holder of its token; an interrupted registration leaves no runner behind;
      verify and unregister remove only runners the coordinator does not have. The time
      limit of a terminal reaches the terminal in use, no goroutine of a terminal hangs, and
      when the build that waits nevertheless does; requests find their session and services
      at their declared ports; a transport is made from the files as they are; an installed
      service has its configuration.
    - Start: whatever order the packages are initialised in, nothing panics, every executor
      is registered with a shell that exists and no command twice; a command runs in a
      process that is set up or not at all; the metrics server starts without a conflict, and
      its page fails exactly when two runners share a short token. The session server has a certificate for the host
      its clients are sent to. The client of Docker succeeds exactly where the engine does,
      but loses the type of its errors and the errors of its streams.
    - The scripts: updating the table of flags twice is updating it once, and the rest of the
      page is kept; the deadline worked out for a release is a working day.
    - The helper: retries are bounded, archives hold files of the build directory; a tree
      that is archived and extracted is the same tree, with its links, modes and times.
    - Local runs and logs: a local run is the job its file describes; neither the log of a
      build nor the service's log depends on the value of a secret parameter; a machine that
      is said to answer did so within the life of the cache.
    - Names and text: cache objects stay in the project's directory (up to one flaw),
      variables print and parse, expand once.
    - Some theorems state behaviour that contradicts what the code is meant to do
      (panics, escapes from directories, a shared back-off, mangled tabs); they say so
      in their comments.

    ** Conventions

    A Go function with an error returns [result]; [option] marks a panic where a
    comment says so. 64-bit integers are [Z] with [int64_wrap] where a value can leave
    the range; strings are byte strings. A mutex-protected method is one atomic step.
    Loops: the final upload has fuel, and the theorems give a bound that is enough, from
    the length of the log and the number of faults; the id search of [addBuild] and the
    pre-creation loop compute a fuel that is proved sufficient. Killing a container,
    waiting for it and allocating a port for SSH go on until the outside answers; they
    take the number of turns from the outside ([Daemon], [fuel]) and end in an error of
    their own when it is used up, which the theorems about clean-up and confinement allow
    for. The walk [isParentOf] has the length of the path as fuel, which is enough on a
    slash system; the loops of Daemon.v are steps, with [steps_left] as the measure. The
    health check and the wait for a container take the outcomes of their turns as a list. All
    other loops are structural. Goroutines that run at the same time are interleaved
    steps, or a permutation where only their order matters ([Cleanup] of Docker.v).

    ** Not modelled

    The reading of flags by the command line library, the profiling pages, the dump of
    goroutines, the console mode of Windows, the deprecated settings that nothing reads,
    interfaces and accessors without logic, the script that pulls images, the helpers of
    tests and generated mocks: they are calls of external services and libraries, or have no
    behaviour of their own. Outside code is a parameter: HTTP servers, Docker, clusters,
    hypervisors, docker-machine, the TOML and cron libraries, [url.Parse], the Unicode
    table of printable characters, path/filepath on Windows, YAML, the containers of zip and
    gzip, the signing of URLs, cryptography, service managers, and what is copied through a
    terminal. *)

From Stdlib Require Export Ascii Lia.
From stdpp Require Export base option gmap fin_maps strings numbers.
From stdpp Require Export list.

(** ** Results of fallible Go code *)

(** A Go function that returns [(value, error)] becomes a function into
    [result E A]; [E] is the component's error type. *)
Inductive result (E A : Type) : Type :=
| Ok (a : A)
| Err (e : E).
Arguments Ok {E A} a.
Arguments Err {E A} e.

Definition result_bind {E A B} (r : result E A) (f : A -> result E B) : result E B :=
  match r with
  | Ok a => f a
  | Err e => Err e
  end.

Declare Scope go_scope.
Delimit Scope go_scope with go.

Notation "'let?' x ':=' r 'in' k" := (result_bind r (fun x => k))
  (at level 10, x binder, r at level 100, k at level 200) : go_scope.

(** ** Machine integers *)

(** Go's [int], [int64] and [time.Duration] are 64-bit two's complement on the
    platforms the runner is built for; [uint64] is modulo [2^64]. *)
Definition int64_min : Z := (- 2 ^ 63)%Z.
Definition int64_max : Z := (2 ^ 63 - 1)%Z.
Definition int64_wrap (z : Z) : Z := ((z + 2 ^ 63) mod 2 ^ 64 - 2 ^ 63)%Z.
Definition uint64_wrap (z : Z) : Z := (z mod 2 ^ 64)%Z.
Definition in_int64 (z : Z) : Prop := (int64_min ≤ z ≤ int64_max)%Z.

Lemma int64_wrap_id z : in_int64 z → int64_wrap z = z.
Proof.
  unfold in_int64, int64_min, int64_max, int64_wrap. intros H.
  rewrite Z.mod_small; lia.
Qed.

Lemma int64_wrap_range z : in_int64 (int64_wrap z).
Proof.
  unfold in_int64, int64_min, int64_max, int64_wrap.
  pose proof (Z.mod_pos_bound (z + 2 ^ 63) (2 ^ 64)). lia.
Qed.

Lemma uint64_wrap_id z : (0 ≤ z < 2 ^ 64)%Z → uint64_wrap z = z.
Proof. intros H. unfold uint64_wrap. by rewrite Z.mod_small. Qed.

(** Durations are nanoseconds. *)
Definition Second : Z := 1000000000%Z.
Definition Minute : Z := (60 * Second)%Z.

(** ** Strings as byte sequences *)

Abbreviation slen := String.length.

Lemma string_app_cons c (a b : string) : String c a +:+ b = String c (a +:+ b).
Proof. done. Qed.

Lemma string_app_nil_l (s : string) : "" +:+ s = s.
Proof. done. Qed.

Lemma string_app_nil_r (s : string) : s +:+ "" = s.
Proof. induction s as [|c s IH]; [done|]. by rewrite string_app_cons, IH. Qed.

Lemma string_app_assoc (a b c : string) : a +:+ (b +:+ c) = (a +:+ b) +:+ c.
Proof. induction a as [|x a IH]; [done|]. by rewrite !string_app_cons, IH. Qed.

Lemma slen_app (a b : string) : slen (a +:+ b) = slen a + slen b.
Proof. induction a as [|x a IH]; [done|]. rewrite string_app_cons. simpl. by rewrite IH. Qed.

Lemma string_app_inj_len (a b c d : string) :
  slen a = slen b → a +:+ c = b +:+ d → a = b ∧ c = d.
Proof.
  revert b. induction a as [|x a IH]; intros [|y b] Hl H; [done..|].
  rewrite !string_app_cons in H. injection H as -> H. injection Hl as Hl.
  by destruct (IH b Hl H) as [-> ->].
Qed.

Lemma slen_0 (s : string) : slen s = 0 → s = "".
Proof. by destruct s. Qed.

(** [s[n:]] and [s[:n]] of a Go string, total versions. *)
Fixpoint sdrop (n : nat) (s : string) : string :=
  match n, s with
  | S k, String _ s' => sdrop k s'
  | _, _ => s
  end.

Fixpoint stake (n : nat) (s : string) : string :=
  match n, s with
  | S k, String c s' => String c (stake k s')
  | _, _ => ""
  end.

Lemma stake_sdrop n (s : string) : stake n s +:+ sdrop n s = s.
Proof.
  revert s. induction n as [|n IH]; intros [|c s]; try done.
  simpl. rewrite string_app_cons. by rewrite IH.
Qed.

Lemma slen_sdrop n (s : string) : slen (sdrop n s) = slen s - n.
Proof. revert s. induction n as [|n IH]; intros [|c s]; simpl; auto. Qed.

Lemma slen_stake n (s : string) : slen (stake n s) = n `min` slen s.
Proof. revert s. induction n as [|n IH]; intros [|c s]; simpl; auto. Qed.

Lemma sdrop_app_len (a b : string) : sdrop (slen a) (a +:+ b) = b.
Proof. induction a as [|c a IH]; [by destruct b|]. apply IH. Qed.

Lemma stake_app_len (a b : string) : stake (slen a) (a +:+ b) = a.
Proof. induction a as [|c a IH]; [by destruct b|]. rewrite string_app_cons. simpl. by rewrite IH. Qed.

Lemma sdrop_all n (s : string) : slen s ≤ n → sdrop n s = "".
Proof. intros H. apply slen_0. rewrite slen_sdrop. lia. Qed.

Lemma stake_all n (s : string) : slen s ≤ n → stake n s = s.
Proof.
  intros H. rewrite <- (stake_sdrop n s) at 2. rewrite (sdrop_all n s H).
  by rewrite string_app_nil_r.
Qed.

Lemma sdrop_sdrop n m (s : string) : sdrop n (sdrop m s) = sdrop (m + n) s.
Proof. revert s. induction m as [|m IH]; intros [|c s]; simpl; auto. by destruct n. Qed.

Lemma stake_app_le n (a b : string) : n ≤ slen a → stake n (a +:+ b) = stake n a.
Proof.
  revert a. induction n as [|n IH]; intros [|c a] H; simpl in *; [by destruct b|done|lia|].
  f_equal. apply IH. lia.
Qed.

Lemma sdrop_app_le n (a b : string) : n ≤ slen a → sdrop n (a +:+ b) = sdrop n a +:+ b.
Proof.
  revert a. induction n as [|n IH]; intros [|c a] H; simpl in *; [by destruct b|done|lia|].
  apply IH. lia.
Qed.

Lemma sdrop_0 (s : string) : sdrop 0 s = s.
Proof. by destruct s. Qed.

(** ** Byte values *)

Definition byte_of (z : Z) : ascii := Ascii.ascii_of_N (Z.to_N z).
Definition z_of (a : ascii) : Z := Z.of_N (Ascii.N_of_ascii a).

Lemma z_of_range a : (0 ≤ z_of a < 256)%Z.
Proof.
  unfold z_of. pose proof (Ascii.N_ascii_bounded a). lia.
Qed.

Lemma byte_of_z_of a : byte_of (z_of a) = a.
Proof. unfold byte_of, z_of. by rewrite N2Z.id, Ascii.ascii_N_embedding. Qed.

Lemma z_of_byte_of z : (0 ≤ z < 256)%Z → z_of (byte_of z) = z.
Proof.
  intros H. unfold byte_of, z_of. rewrite Ascii.N_ascii_embedding; lia.
Qed.

Lemma z_of_inj a b : z_of a = z_of b → a = b.
Proof. intros H. by rewrite <- (byte_of_z_of a), <- (byte_of_z_of b), H. Qed.

(** The string of one byte. *)
Definition bstr (z : Z) : string := String (byte_of z) "".

(** ** Tactics of the development *)

(** Destruct the scrutinee of the innermost [match]/[if] of the goal. *)
Ltac split_match :=
  match goal with
  | |- context [match ?x with _ => _ end] =>
      lazymatch x with
      | context [match _ with _ => _ end] => fail
      | _ => destruct x eqn:?
      end
  end.

Ltac split_match_in H :=
  match type of H with
  | context [match ?x with _ => _ end] =>
      lazymatch x with
      | context [match _ with _ => _ end] => fail
      | _ => destruct x eqn:?
      end
  end.

(** Turn boolean guards taken from the code into propositions. *)
Ltac reflect_guards :=
  repeat match goal with
  | H : (_ && _)%bool = true |- _ => apply andb_prop in H; destruct H
  | H : (_ || _)%bool = false |- _ => apply orb_false_elim in H; destruct H
  | H : negb _ = true |- _ => apply negb_true_iff in H
  | H : negb _ = false |- _ => apply negb_false_iff in H
  | H : bool_decide _ = true |- _ => apply bool_decide_eq_true in H
  | H : bool_decide _ = false |- _ => apply bool_decide_eq_false in H
  | H : (_ <? _)%Z = true |- _ => apply Z.ltb_lt in H
  | H : (_ <? _)%Z = false |- _ => apply Z.ltb_ge in H
  | H : (_ <=? _)%Z = true |- _ => apply Z.leb_le in H
  | H : (_ <=? _)%Z = false |- _ => apply Z.leb_gt in H
  | H : (_ =? _)%Z = true |- _ => apply Z.eqb_eq in H
  | H : (_ =? _)%Z = false |- _ => apply Z.eqb_neq in H
  end.

Create HintDb runner.
#[export] Hint Rewrite string_app_nil_r slen_app slen_sdrop slen_stake : runner.
#[export] Hint Resolve z_of_range int64_wrap_range : runner.
