(* ===== verification/GoMonad.v ===== *)
(** Operations of an object with a state and an error: the executors' methods. The state
    they leave is kept on an error too. [triple] states what holds before and after. *)

From S2P Require Import Prelude.

Definition GoM (S E A : Type) : Type := S → result E A * S.

Section Operations.
Context {S E : Type}.

Definition returnM {A} (a : A) : GoM S E A := λ e, (Ok a, e).
Definition failM {A} (err : E) : GoM S E A := λ e, (Err err, e).
Definition bindM {A B} (c : GoM S E A) (k : A → GoM S E B) : GoM S E B :=
  λ e, match c e with
       | (Ok a, e') => k a e'
       | (Err err, e') => (Err err, e')
       end.
(** The result of an operation as a value: the caller looks at the error itself. *)
Definition attempt {A} (c : GoM S E A) : GoM S E (result E A) := λ e, let '(r, e') := c e in (Ok r, e').
Definition mget {A} (f : S → A) : GoM S E A := λ e, (Ok (f e), e).
Definition mupd (f : S → S) : GoM S E unit := λ e, (Ok tt, f e).
Definition lift {A} (r : result E A) : GoM S E A := λ e, (r, e).
Definition of_option (o : option E) : result E unit := match o with None => Ok tt | Some err => Err err end.
End Operations.

Notation "'let!' x ':=' c 'in' k" := (bindM c (λ x, k))
  (at level 10, x binder, c at level 100, k at level 200) : go_scope.
Notation "c ';;!' k" := (bindM c (λ _, k)) (at level 62, right associativity) : go_scope.

(** ** Triples *)

Section Triples.
Context {S Err_ : Type}.
Implicit Types P E : S → Prop.

(** [P] before, [Q] after success, [E] after an error. *)
Definition triple {A} P (c : GoM S Err_ A) (Q : A → S → Prop) E : Prop :=
  ∀ e, P e → match c e with (Ok a, e') => Q a e' | (Err _, e') => E e' end.

Lemma t_ret {A} (a : A) P (Q : A → S → Prop) E : (∀ e, P e → Q a e) → triple P (returnM a) Q E.
Proof. intros H e He. by apply H. Qed.

Lemma t_fail {A} err P E (Q : A → S → Prop) : (∀ e, P e → E e) → triple P (failM err) Q E.
Proof. intros H e He. by apply H. Qed.

Lemma t_bind {A B} (c : GoM S Err_ A) (k : A → GoM S Err_ B) P R Q E :
  triple P c R E → (∀ a, triple (R a) (k a) Q E) → triple P (bindM c k) Q E.
Proof.
  intros Hc Hk e He. unfold bindM. specialize (Hc e He).
  destruct (c e) as [[a|err] e']; [|done]. by apply Hk.
Qed.

(** The same when what holds in between does not depend on the value. *)
Lemma t_seq {A B} (c : GoM S Err_ A) (k : A → GoM S Err_ B) P R Q E :
  triple P c (λ _, R) E → (∀ a, triple R (k a) Q E) → triple P (bindM c k) Q E.
Proof. intros Hc Hk. by eapply t_bind. Qed.

Lemma t_attempt {A} (c : GoM S Err_ A) P (Q : A → S → Prop) E E' :
  triple P c Q E → triple P (attempt c) (λ r e, match r with Ok a => Q a e | Err _ => E e end) E'.
Proof.
  intros Hc e He. unfold attempt. specialize (Hc e He). destruct (c e) as [[a|err] e']; done.
Qed.

Lemma t_mono {A} (c : GoM S Err_ A) P P' E E' (Q Q' : A → S → Prop) :
  triple P c Q E → (∀ e, P' e → P e) → (∀ a e, Q a e → Q' a e) → (∀ e, E e → E' e) → triple P' c Q' E'.
Proof.
  intros Hc HP HQ HE e He. specialize (Hc e (HP e He)). destruct (c e) as [[a|err] e']; auto.
Qed.

Lemma t_get {A} (f : S → A) P E : triple P (mget f) (λ a e, P e ∧ a = f e) E.
Proof. by intros e He. Qed.

(** A read whose value the precondition determines. *)
Lemma t_get_known {A B} (f : S → A) a (k : A → GoM S Err_ B) P Q E :
  (∀ e, P e → f e = a) → triple P (k a) Q E → triple P (bindM (mget f) k) Q E.
Proof. intros Hf Hk e He. unfold bindM, mget. rewrite (Hf e He). by apply Hk. Qed.

Lemma t_exists {A B} (P : A → S → Prop) (c : GoM S Err_ B) Q E :
  (∀ a, triple (P a) c Q E) → triple (λ e, ∃ a, P a e) c Q E.
Proof. intros Hc e [a He]. by apply (Hc a). Qed.

Lemma t_upd f P (Q E : S → Prop) : (∀ e, P e → Q (f e)) → triple P (mupd f) (λ _, Q) E.
Proof. intros H e He. by apply H. Qed.

Lemma t_if {A} (b : bool) (c1 c2 : GoM S Err_ A) P Q E :
  triple P c1 Q E → triple P c2 Q E → triple P (if b then c1 else c2) Q E.
Proof. by destruct b. Qed.

Lemma t_attempt_bind {A B} (c : GoM S Err_ A) (k : result Err_ A → GoM S Err_ B) P R S' Q E :
  triple P c R S' → (∀ a, triple (R a) (k (Ok a)) Q E) → (∀ err, triple S' (k (Err err)) Q E) →
  triple P (bindM (attempt c) k) Q E.
Proof.
  intros Hc Hok Herr. eapply t_bind; [by apply (t_attempt c P R S' E)|].
  intros [a|err]; [apply Hok|apply Herr].
Qed.
End Triples.
