(* ===== verification/GoLib.v ===== *)
(** The parts of Go's standard library the runner's code is written with:
    [strings], [strconv], [os.Expand] and [unicode/utf8]. Go strings are byte
    sequences, so a Rocq [string] (a sequence of 8-bit characters) is exact. *)

From Stdlib Require Import DecimalString DecimalZ.
From S2P Require Import Prelude.

(** ** Package strings *)

Fixpoint HasPrefix (s prefix : string) {struct prefix} : bool :=
  match prefix, s with
  | "", _ => true
  | String c p, String d s' => bool_decide (c = d) && HasPrefix s' p
  | String _ _, "" => false
  end.

Definition HasSuffix (s suffix : string) : bool :=
  bool_decide (slen suffix ≤ slen s) &&
  bool_decide (sdrop (slen s - slen suffix) s = suffix).

Definition TrimPrefix (s prefix : string) : string :=
  if HasPrefix s prefix then sdrop (slen prefix) s else s.

Definition TrimSuffix (s suffix : string) : string :=
  if HasSuffix s suffix then stake (slen s - slen suffix) s else s.

(** [strings.TrimRight(s, cutset)] for a one-byte cutset. *)
Fixpoint TrimRight (s : string) (c : ascii) : string :=
  match s with
  | "" => ""
  | String d s' =>
      let r := TrimRight s' c in
      if bool_decide (r = "") && bool_decide (d = c) then "" else String d r
  end.

(** The text before and after the first occurrence of [sep]. *)
Fixpoint cut (s sep : string) : option (string * string) :=
  if HasPrefix s sep then Some ("", sdrop (slen sep) s)
  else match s with
       | "" => None
       | String c s' =>
           match cut s' sep with
           | Some (a, b) => Some (String c a, b)
           | None => None
           end
       end.

Definition Contains (s sub : string) : bool :=
  match cut s sub with Some _ => true | None => false end.

(** [strings.SplitN(s, sep, 2)] with a non-empty separator. *)
Definition SplitN2 (s sep : string) : list string :=
  match cut s sep with
  | Some (a, b) => [a; b]
  | None => [s]
  end.

(** [strings.SplitAfterN(s, sep, 2)]: the separator stays with the first part. *)
Definition SplitAfterN2 (s sep : string) : list string :=
  match cut s sep with
  | Some (a, b) => [a +:+ sep; b]
  | None => [s]
  end.

(** [strings.Split(s, sep)] for a one-byte separator. *)
Fixpoint Split (s : string) (sep : ascii) : list string :=
  match s with
  | "" => [""]
  | String c s' =>
      if bool_decide (c = sep) then "" :: Split s' sep
      else match Split s' sep with
           | p :: ps => String c p :: ps
           | [] => [String c ""]
           end
  end.

Fixpoint Join (l : list string) (sep : string) : string :=
  match l with
  | [] => ""
  | [s] => s
  | s :: l' => s +:+ sep +:+ Join l' sep
  end.

Fixpoint Repeat (s : string) (n : nat) : string :=
  match n with
  | 0 => ""
  | S k => s +:+ Repeat s k
  end.

(** [strings.Replace(s, old, new, -1)] with a non-empty [old]; [skip] counts the
    bytes of the occurrence just replaced that are still to be passed over. *)
Fixpoint replace_go (old new : string) (skip : nat) (s : string) : string :=
  match s with
  | "" => ""
  | String c s' =>
      match skip with
      | S k => replace_go old new k s'
      | 0 => if HasPrefix s old then new +:+ replace_go old new (slen old - 1) s'
             else String c (replace_go old new 0 s')
      end
  end.
Definition Replace (s old new : string) : string := replace_go old new 0 s.

Lemma HasPrefix_spec (s p : string) : HasPrefix s p = true ↔ ∃ t, s = p +:+ t.
Proof.
  revert s. induction p as [|c p IH]; intros s; simpl.
  - split; [|done]. intros _. by exists s.
  - destruct s as [|d s].
    + split; [done|]. intros [t Ht]. by rewrite string_app_cons in Ht.
    + rewrite andb_true_iff, bool_decide_eq_true, IH. split.
      * intros [-> [t ->]]. by exists t.
      * intros [t Ht]. rewrite string_app_cons in Ht. injection Ht as -> ->. eauto.
Qed.

Lemma HasPrefix_app (p t : string) : HasPrefix (p +:+ t) p = true.
Proof. apply HasPrefix_spec. eauto. Qed.

Lemma HasPrefix_refl (s : string) : HasPrefix s s = true.
Proof. rewrite <- (string_app_nil_r s) at 1. apply HasPrefix_app. Qed.

Lemma HasPrefix_slen (s p : string) : HasPrefix s p = true → slen p ≤ slen s.
Proof. intros [t ->]%HasPrefix_spec. rewrite slen_app. lia. Qed.

Lemma HasPrefix_trans (a b c : string) :
  HasPrefix a b = true → HasPrefix b c = true → HasPrefix a c = true.
Proof.
  intros [t ->]%HasPrefix_spec [u ->]%HasPrefix_spec.
  rewrite <- string_app_assoc. apply HasPrefix_app.
Qed.

Lemma HasPrefix_antisym (a b : string) :
  HasPrefix a b = true → HasPrefix b a = true → a = b.
Proof.
  intros [t Ht]%HasPrefix_spec [u Hu]%HasPrefix_spec.
  assert (t = "") as ->.
  { apply slen_0. apply (f_equal slen) in Ht, Hu. rewrite slen_app in Ht, Hu. lia. }
  by rewrite string_app_nil_r in Ht.
Qed.

Lemma HasSuffix_spec (s p : string) : HasSuffix s p = true ↔ ∃ t, s = t +:+ p.
Proof.
  unfold HasSuffix. rewrite andb_true_iff, !bool_decide_eq_true. split.
  - intros [Hl Hd]. exists (stake (slen s - slen p) s).
    rewrite <- Hd at 2. by rewrite stake_sdrop.
  - intros [t ->]. rewrite slen_app. split; [lia|].
    replace (slen t + slen p - slen p) with (slen t) by lia. apply sdrop_app_len.
Qed.

Lemma TrimSuffix_app (s suffix : string) : TrimSuffix (s +:+ suffix) suffix = s.
Proof.
  unfold TrimSuffix. assert (HasSuffix (s +:+ suffix) suffix = true) as ->.
  { apply HasSuffix_spec. eauto. }
  rewrite slen_app. replace (slen s + slen suffix - slen suffix) with (slen s) by lia.
  apply stake_app_len.
Qed.

Lemma cut_sound (s sep a b : string) : cut s sep = Some (a, b) → s = a +:+ sep +:+ b.
Proof.
  revert a b. induction s as [|c s IH]; intros a b H; simpl in H.
  - destruct (HasPrefix "" sep) eqn:Hp; [|done].
    apply HasPrefix_spec in Hp as [t Ht]. destruct sep; [|done]. by simplify_eq/=.
  - destruct (HasPrefix (String c s) sep) eqn:Hp.
    + apply HasPrefix_spec in Hp as [t Ht]. rewrite Ht in *. simplify_eq.
      by rewrite sdrop_app_len.
    + destruct (cut s sep) as [[x y]|] eqn:Hc; simplify_eq.
      rewrite string_app_cons. f_equal. by apply IH.
Qed.

(** The cut is at the first occurrence: no earlier position starts with [sep]. *)
Lemma cut_first (s sep a b : string) n :
  cut s sep = Some (a, b) → n < slen a → HasPrefix (sdrop n s) sep = false.
Proof.
  revert a b n. induction s as [|c s IH]; intros a b n H Hn; simpl in H.
  - destruct (HasPrefix "" sep); simplify_eq/=. lia.
  - destruct (HasPrefix (String c s) sep) eqn:Hp; [simplify_eq/=; lia|].
    destruct (cut s sep) as [[x y]|] eqn:Hc; simplify_eq. simpl in Hn.
    destruct n as [|n]; [done|]. simpl. apply (IH x b n); [done|lia].
Qed.

Lemma cut_app_absent (a b : string) c :
  (∀ n, n < slen a → HasPrefix (sdrop n (a +:+ String c b)) (String c "") = false) →
  cut (a +:+ String c b) (String c "") = Some (a, b).
Proof.
  induction a as [|d a IH]; intros H.
  - simpl. rewrite bool_decide_eq_true_2 by done. simpl. by destruct b.
  - rewrite string_app_cons in *. simpl cut.
    pose proof (H 0 ltac:(simpl; lia)) as H0. simpl in H0. rewrite H0.
    rewrite IH; [done|]. intros n Hn. apply (H (S n)). simpl. lia.
Qed.

Lemma Split_absent s c : c ∉ String.list_ascii_of_string s → Split s c = [s].
Proof.
  induction s as [|x s IH]; [done|]. simpl. intros [Hx Hs]%not_elem_of_cons.
  rewrite bool_decide_eq_false_2 by congruence. by rewrite IH.
Qed.

Lemma Split_app a b c : c ∉ String.list_ascii_of_string a → Split (a +:+ String c b) c = a :: Split b c.
Proof.
  induction a as [|x a IH]; simpl.
  { intros _. by rewrite bool_decide_eq_true_2. }
  intros [Hx Hs]%not_elem_of_cons.
  rewrite bool_decide_eq_false_2 by congruence. by rewrite IH.
Qed.

Lemma cut_complete (a sep b : string) : cut (a +:+ sep +:+ b) sep ≠ None.
Proof.
  induction a as [|x a IH].
  - rewrite string_app_nil_l. assert (Hp : HasPrefix (sep +:+ b) sep = true) by apply HasPrefix_app.
    destruct (sep +:+ b) as [|y s]; simpl; by rewrite Hp.
  - rewrite string_app_cons. simpl. destruct (HasPrefix _ _); [done|].
    destruct (cut (a +:+ sep +:+ b) sep) as [[? ?]|]; done.
Qed.

Lemma Contains_app (a sep b : string) : Contains (a +:+ sep +:+ b) sep = true.
Proof.
  unfold Contains. pose proof (cut_complete a sep b). by destruct (cut _ _).
Qed.

Lemma Split_nonempty s c : Split s c ≠ [].
Proof. destruct s; simpl; [done|]. case_bool_decide; [done|]. by destruct (Split s c). Qed.

Lemma Split_app_sep a b c : Split (a +:+ String c b) c = Split a c ++ Split b c.
Proof.
  induction a as [|x a IH]; [simpl; by rewrite bool_decide_eq_true_2|].
  rewrite string_app_cons. simpl. rewrite IH. case_bool_decide; [done|].
  pose proof (Split_nonempty a c). by destruct (Split a c).
Qed.

Lemma Join_Split s c : Join (Split s c) (String c "") = s.
Proof.
  induction s as [|d s IH]; [done|]. simpl. pose proof (Split_nonempty s c) as Hne.
  case_bool_decide as Hd; destruct (Split s c) as [|p ps]; try done.
  - subst d. change (Join ("" :: p :: ps) (String c ""))
      with ("" +:+ String c "" +:+ Join (p :: ps) (String c "")). by rewrite IH.
  - destruct ps as [|q ps]; simpl in *; [by subst|].
    rewrite string_app_cons. by subst.
Qed.

(** ** Package strconv *)

(** [strconv.Itoa]. *)
Definition Itoa (z : Z) : string := NilZero.string_of_int (Z.to_int z).

Fixpoint digits_go (acc : Z) (s : string) : option Z :=
  match s with
  | "" => Some acc
  | String c s' =>
      if (48 <=? z_of c)%Z && (z_of c <=? 57)%Z
      then digits_go (10 * acc + (z_of c - 48))%Z s'
      else None
  end.

(** [strconv.Atoi]: the value and whether an error came with it. A value that does
    not fit comes back clamped to the nearest bound, with an error. *)
Definition Atoi (s : string) : Z * bool :=
  let '(neg, body) :=
    match s with
    | String "+"%char s' => (false, s')
    | String "-"%char s' => (true, s')
    | _ => (false, s)
    end in
  match body with
  | "" => (0%Z, true)
  | _ =>
      match digits_go 0 body with
      | None => (0%Z, true)
      | Some v =>
          let v := if neg then (- v)%Z else v in
          if (v <? int64_min)%Z then (int64_min, true)
          else if (int64_max <? v)%Z then (int64_max, true)
          else (v, false)
      end
  end.

(** [strconv.ParseBool]. *)
Definition ParseBool (s : string) : option bool :=
  if bool_decide (s ∈ ["1"; "t"; "T"; "true"; "TRUE"; "True"]) then Some true
  else if bool_decide (s ∈ ["0"; "f"; "F"; "false"; "FALSE"; "False"]) then Some false
  else None.

Lemma digits_go_step k c s acc :
  z_of c = (48 + k)%Z → (0 ≤ k ≤ 9)%Z →
  digits_go acc (String c s) = digits_go (10 * acc + k) s.
Proof.
  intros Hc Hk. simpl. rewrite Hc, (proj2 (Z.leb_le 48 _)), (proj2 (Z.leb_le _ 57)) by lia.
  simpl. f_equal. lia.
Qed.

Ltac digit k := rewrite (digits_go_step k) by (by vm_compute || lia).

Lemma digits_go_acc d acc :
  digits_go (Z.pos acc) (NilEmpty.string_of_uint d) = Some (Z.pos (Pos.of_uint_acc d acc)).
Proof.
  revert acc. induction d; intros acc; [done|..]; cbn [NilEmpty.string_of_uint Pos.of_uint_acc];
    rewrite <- IHd; [digit 0%Z|digit 1%Z|digit 2%Z|digit 3%Z|digit 4%Z|digit 5%Z|digit 6%Z
                    |digit 7%Z|digit 8%Z|digit 9%Z]; f_equal; lia.
Qed.

Lemma digits_go_uint d : digits_go 0 (NilEmpty.string_of_uint d) = Some (Z.of_N (Pos.of_uint d)).
Proof. induction d; [done|apply IHd|..]; apply (digits_go_acc d). Qed.

Lemma Itoa_digits z : (0 ≤ z)%Z →
  ∃ d, d ≠ Decimal.Nil ∧ Itoa z = NilEmpty.string_of_uint d ∧ Z.of_N (Pos.of_uint d) = z.
Proof.
  intros Hz. unfold Itoa. destruct z as [|p|p]; [|..|lia].
  { by exists (Decimal.D0 Decimal.Nil). }
  exists (Pos.to_uint p). simpl.
  assert (Hp : Pos.of_uint (Pos.to_uint p) = N.pos p) by apply DecimalPos.Unsigned.of_to.
  destruct (Pos.to_uint p) eqn:E; [simpl in Hp; discriminate|..]; by rewrite Hp.
Qed.

Lemma Itoa_inj x y : (0 ≤ x)%Z → (0 ≤ y)%Z → Itoa x = Itoa y → x = y.
Proof.
  intros Hx Hy Heq. destruct (Itoa_digits x Hx) as (d & _ & Hd & Hv).
  destruct (Itoa_digits y Hy) as (d' & _ & Hd' & Hv').
  pose proof (digits_go_uint d) as H1. pose proof (digits_go_uint d') as H2.
  rewrite <- Hd, Heq, Hd', H2 in H1. congruence.
Qed.

Lemma Itoa_no_char z c : (0 ≤ z)%Z → (z_of c < 48)%Z → c ∉ String.list_ascii_of_string (Itoa z).
Proof.
  intros Hz Hc. destruct (Itoa_digits z Hz) as (d & _ & -> & _).
  induction d; simpl; [apply not_elem_of_nil|..]; apply not_elem_of_cons; split; try done;
    intros ->; by vm_compute in Hc.
Qed.

Lemma Itoa_no_char_any z c : c ≠ "-"%char → (z_of c < 48)%Z → c ∉ String.list_ascii_of_string (Itoa z).
Proof.
  intros Hd Hc. destruct (decide (0 ≤ z)%Z); [by apply Itoa_no_char|].
  destruct z as [|p|p]; [lia..|].
  assert (Hp : c ∉ String.list_ascii_of_string (Itoa (Z.pos p))) by by apply Itoa_no_char.
  change (Itoa (Z.neg p)) with (String "-" (Itoa (Z.pos p))). simpl.
  apply not_elem_of_cons. by split.
Qed.

Lemma Atoi_Itoa z : (0 ≤ z ≤ int64_max)%Z → Atoi (Itoa z) = (z, false).
Proof.
  intros Hz. destruct (Itoa_digits z) as (d & Hd & -> & Hv); [lia|].
  pose proof (digits_go_uint d) as Hg. rewrite Hv in Hg. unfold Atoi.
  destruct d; [done|..]; simpl NilEmpty.string_of_uint in *; cbv beta iota; rewrite Hg;
    rewrite (proj2 (Z.ltb_ge _ _)) by (unfold int64_min; lia);
    by rewrite (proj2 (Z.ltb_ge _ _)) by lia.
Qed.

Lemma digits_go_range acc s v : (0 ≤ acc)%Z → digits_go acc s = Some v → (0 ≤ v)%Z.
Proof.
  revert acc. induction s as [|c s IH]; intros acc Ha H; simpl in H; [by simplify_eq|].
  destruct ((48 <=? z_of c)%Z && (z_of c <=? 57)%Z) eqn:E; [|done].
  reflect_guards. eapply IH; [|done]. lia.
Qed.

Lemma Atoi_range s : in_int64 (fst (Atoi s)).
Proof.
  unfold Atoi, in_int64, int64_min, int64_max.
  repeat split_match; simpl; reflect_guards; unfold int64_min, int64_max in *; lia.
Qed.

(** ** os.Expand

    The version of the Go release the runner is built with (1.8): a [$] that is the
    last byte is kept, a [$] before a byte that starts no name expands the empty
    name, and an unterminated [${] eats the brace. *)

Definition isShellSpecialVar (c : ascii) : bool :=
  bool_decide (c ∈ ["*"; "#"; "$"; "@"; "!"; "?"; "0"; "1"; "2"; "3"; "4"; "5"; "6";
                    "7"; "8"; "9"]%char).

Definition isAlphaNum (c : ascii) : bool :=
  let z := z_of c in
  bool_decide (c = "_"%char) || ((48 <=? z)%Z && (z <=? 57)%Z)
  || ((97 <=? z)%Z && (z <=? 122)%Z) || ((65 <=? z)%Z && (z <=? 90)%Z).

(** The longest alphanumeric prefix. *)
Fixpoint span_alnum (s : string) : string :=
  match s with
  | String c s' => if isAlphaNum c then String c (span_alnum s') else ""
  | "" => ""
  end.

(** The text before the first closing brace. *)
Fixpoint upto_brace (s : string) : option string :=
  match s with
  | "" => None
  | String c s' =>
      if bool_decide (c = "}"%char) then Some ""
      else match upto_brace s' with
           | Some n => Some (String c n)
           | None => None
           end
  end.

(** [getShellName]: the name and the number of bytes it takes after the [$]. *)
Definition getShellName (s : string) : string * nat :=
  match s with
  | "" => ("", 0)
  | String c s' =>
      if bool_decide (c = "{"%char) then
        match s' with
        | String d (String e _) =>
            if isShellSpecialVar d && bool_decide (e = "}"%char)
            then (String d "", 3)
            else match upto_brace s' with
                 | Some n => (n, slen n + 2)
                 | None => ("", 1)
                 end
        | _ => match upto_brace s' with
               | Some n => (n, slen n + 2)
               | None => ("", 1)
               end
        end
      else if isShellSpecialVar c then (String c "", 1)
      else let n := span_alnum s in (n, slen n)
  end.

(** [skip] counts the bytes of the name just expanded that are still to be passed. *)
Fixpoint expand_go (mapping : string → string) (skip : nat) (s : string) : string :=
  match s with
  | "" => ""
  | String c s' =>
      match skip with
      | S k => expand_go mapping k s'
      | 0 =>
          if bool_decide (c = "$"%char) && bool_decide (s' ≠ "")
          then let '(name, w) := getShellName s' in
               mapping name +:+ expand_go mapping w s'
          else String c (expand_go mapping 0 s')
      end
  end.
Definition Expand (s : string) (mapping : string → string) : string :=
  expand_go mapping 0 s.

(** A text without [$] is left as it is. *)
Lemma Expand_no_dollar s mapping :
  (∀ n c, String.get n s = Some c → c ≠ "$"%char) → Expand s mapping = s.
Proof.
  unfold Expand. induction s as [|c s IH]; intros H; [done|]. simpl.
  rewrite bool_decide_eq_false_2 by (by apply (H 0 c)). simpl.
  rewrite IH; [done|]. intros n d Hd. by apply (H (S n)).
Qed.

Lemma span_alnum_all s :
  (∀ n c, String.get n s = Some c → isAlphaNum c = true) → span_alnum s = s.
Proof.
  induction s as [|c s IH]; intros H; [done|]. simpl. rewrite (H 0 c) by done.
  f_equal. apply IH. intros n d Hd. by apply (H (S n)).
Qed.

Lemma expand_go_skip mapping (a b : string) :
  expand_go mapping (slen a) (a +:+ b) = expand_go mapping 0 b.
Proof. induction a as [|c a IH]; [done|]. rewrite string_app_cons. apply IH. Qed.

Lemma upto_brace_app (n t : string) :
  (∀ i c, String.get i n = Some c → c ≠ "}"%char) →
  upto_brace (n +:+ String "}"%char t) = Some n.
Proof.
  induction n as [|c n IH]; intros H; [done|]. rewrite string_app_cons. simpl.
  rewrite bool_decide_eq_false_2 by (by apply (H 0 c)).
  rewrite IH; [done|]. intros i d Hd. by apply (H (S i)).
Qed.

(** ** Package unicode/utf8 *)

Definition RuneError : Z := 0xFFFD%Z.

Definition valid_rune (r : Z) : bool :=
  (0 <=? r)%Z && (r <=? 0x10FFFF)%Z && negb ((0xD800 <=? r)%Z && (r <=? 0xDFFF)%Z).

(** [utf8.EncodeRune] and [bytes.Buffer.WriteRune]: an invalid rune is written as
    [RuneError]. *)
Definition EncodeRune (r : Z) : string :=
  let r := if valid_rune r then r else RuneError in
  (if (r <=? 0x7F) then bstr r
   else if (r <=? 0x7FF) then bstr (0xC0 + r / 64) +:+ bstr (0x80 + r mod 64)
   else if (r <=? 0xFFFF) then
     bstr (0xE0 + r / 4096) +:+ bstr (0x80 + (r / 64) mod 64) +:+ bstr (0x80 + r mod 64)
   else bstr (0xF0 + r / 262144) +:+ bstr (0x80 + (r / 4096) mod 64)
        +:+ bstr (0x80 + (r / 64) mod 64) +:+ bstr (0x80 + r mod 64))%Z.

Definition is_cont (b : Z) : bool := ((0x80 <=? b) && (b <=? 0xBF))%Z.

(** [utf8.DecodeRune]: the rune and its width; a byte that starts no well-formed
    encoding decodes to [(RuneError, 1)], the empty string to [(RuneError, 0)]. *)
Definition DecodeRune (s : string) : Z * nat :=
  match s with
  | "" => (RuneError, 0)
  | String a s1 =>
      let b0 := z_of a in
      if (b0 <? 0x80)%Z then (b0, 1)
      else if ((0xC2 <=? b0) && (b0 <=? 0xDF))%Z then
        match s1 with
        | String c1 _ =>
            if is_cont (z_of c1)
            then ((b0 - 0xC0) * 64 + (z_of c1 - 0x80), 2%nat)%Z else (RuneError, 1)
        | "" => (RuneError, 1)
        end
      else if ((0xE0 <=? b0) && (b0 <=? 0xEF))%Z then
        match s1 with
        | String c1 (String c2 _) =>
            let lo := if (b0 =? 0xE0)%Z then 0xA0%Z else 0x80%Z in
            let hi := if (b0 =? 0xED)%Z then 0x9F%Z else 0xBF%Z in
            if ((lo <=? z_of c1) && (z_of c1 <=? hi))%Z && is_cont (z_of c2)
            then ((b0 - 0xE0) * 4096 + (z_of c1 - 0x80) * 64 + (z_of c2 - 0x80), 3%nat)%Z
            else (RuneError, 1)
        | _ => (RuneError, 1)
        end
      else if ((0xF0 <=? b0) && (b0 <=? 0xF4))%Z then
        match s1 with
        | String c1 (String c2 (String c3 _)) =>
            let lo := if (b0 =? 0xF0)%Z then 0x90%Z else 0x80%Z in
            let hi := if (b0 =? 0xF4)%Z then 0x8F%Z else 0xBF%Z in
            if ((lo <=? z_of c1) && (z_of c1 <=? hi))%Z && is_cont (z_of c2)
               && is_cont (z_of c3)
            then ((b0 - 0xF0) * 262144 + (z_of c1 - 0x80) * 4096
                  + (z_of c2 - 0x80) * 64 + (z_of c3 - 0x80), 4%nat)%Z
            else (RuneError, 1)
        | _ => (RuneError, 1)
        end
      else (RuneError, 1)
  end.

(** The runes a [bufio.Reader] delivers over a byte stream: repeated
    [DecodeRune] until the stream is empty. [skip] counts the continuation bytes of
    the rune just delivered. *)
Fixpoint runes_go (skip : nat) (s : string) : list Z :=
  match s with
  | "" => []
  | String _ s' =>
      match skip with
      | S k => runes_go k s'
      | 0 => let '(r, w) := DecodeRune s in r :: runes_go (w - 1) s'
      end
  end.
Definition runes (s : string) : list Z := runes_go 0 s.

Definition encode_all (rs : list Z) : string := foldr (λ r acc, EncodeRune r +:+ acc) "" rs.

Ltac div_lia := first [lia | Z.to_euclidean_division_equations; lia].

Lemma EncodeRune_slen r : 1 ≤ slen (EncodeRune r) ≤ 4.
Proof. unfold EncodeRune, bstr. repeat split_match; simpl; lia. Qed.

(** Encoding is inverted by decoding, whatever follows. *)
Lemma DecodeRune_EncodeRune r t :
  valid_rune r = true →
  DecodeRune (EncodeRune r +:+ t) = (r, slen (EncodeRune r)).
Proof.
  intros Hv. unfold EncodeRune. rewrite Hv.
  unfold valid_rune in Hv. reflect_guards.
  rewrite andb_false_iff, !Z.leb_gt in *.
  destruct (r <=? 0x7F)%Z eqn:E1; [|destruct (r <=? 0x7FF)%Z eqn:E2;
    [|destruct (r <=? 0xFFFF)%Z eqn:E3]]; reflect_guards; unfold bstr;
    rewrite ?string_app_cons, ?string_app_nil_l; unfold DecodeRune, is_cont; simpl;
    repeat (rewrite z_of_byte_of; [|div_lia]).
  - rewrite (proj2 (Z.ltb_lt _ _)) by lia. done.
  - repeat split_match; reflect_guards; try (f_equal; div_lia);
      rewrite ?andb_false_iff, ?Z.leb_gt in *; div_lia.
  - repeat split_match; reflect_guards; try (f_equal; div_lia);
      rewrite ?andb_false_iff, ?Z.leb_gt in *; div_lia.
  - repeat split_match; reflect_guards; try (f_equal; div_lia);
      rewrite ?andb_false_iff, ?Z.leb_gt in *; div_lia.
Qed.

Lemma byte_of_eq z a : z = z_of a → byte_of z = a.
Proof. intros ->. apply byte_of_z_of. Qed.

(** A decoded rune that is not an error is the one whose encoding starts the text. *)
Lemma DecodeRune_sound s r w :
  s ≠ "" → DecodeRune s = (r, w) →
  (r = RuneError ∧ w = 1) ∨
  (valid_rune r = true ∧ w = slen (EncodeRune r) ∧ s = EncodeRune r +:+ sdrop w s).
Proof.
  assert (Hvalid : ∀ z, (0 ≤ z)%Z → (z ≤ 0x10FFFF)%Z → (z < 0xD800 ∨ 0xDFFF < z)%Z →
                   valid_rune z = true).
  { intros z ???. unfold valid_rune. rewrite !andb_true_iff, negb_true_iff, andb_false_iff,
      !Z.leb_le, !Z.leb_gt. lia. }
  intros Hne H. destruct s as [|a s1]; [done|]. unfold DecodeRune, is_cont in H.
  pose proof (z_of_range a) as Ha.
  repeat split_match_in H; simplify_eq; auto; right; reflect_guards;
    repeat match goal with
    | c : ascii |- _ =>
        lazymatch goal with H : (0 ≤ z_of c < 256)%Z |- _ => fail | _ => pose proof (z_of_range c) end
    end;
    rewrite Hvalid by lia;
    (split; [done|]); unfold EncodeRune; rewrite Hvalid by lia; unfold bstr.
  all: repeat match goal with
    | |- context [if (?x <=? ?y)%Z then _ else _] =>
        destruct (Z.leb_spec x y); [try lia|try lia]
    end; simpl; try (split; [done|]);
    repeat first [rewrite string_app_cons | rewrite string_app_nil_l];
    rewrite ?sdrop_0; repeat f_equal; symmetry; apply byte_of_eq; div_lia.
Qed.

Lemma runes_go_skip (a b : string) : runes_go (slen a) (a +:+ b) = runes b.
Proof. induction a as [|c a IH]; [done|]. rewrite string_app_cons. apply IH. Qed.

Lemma runes_EncodeRune r t :
  valid_rune r = true → runes (EncodeRune r +:+ t) = r :: runes t.
Proof.
  intros Hv. pose proof (DecodeRune_EncodeRune r t Hv) as Hd.
  pose proof (EncodeRune_slen r) as Hl.
  destruct (EncodeRune r) as [|c e] eqn:He; simpl in Hl; [lia|].
  rewrite string_app_cons in *. unfold runes.
  change (runes_go 0 (String c (e +:+ t))) with
    (let '(r, w) := DecodeRune (String c (e +:+ t)) in r :: runes_go (w - 1) (e +:+ t)).
  rewrite Hd. simpl. by rewrite Nat.sub_0_r, runes_go_skip.
Qed.

(** Decoding the encoding of a list of valid runes gives the list back. *)
Lemma runes_encode_all rs :
  Forall (λ r, valid_rune r = true) rs → runes (encode_all rs) = rs.
Proof.
  induction 1 as [|r rs Hv _ IH]; [done|]. simpl. by rewrite runes_EncodeRune, IH.
Qed.

(** Well-formed UTF-8: the encoding of some list of valid runes. *)
Definition utf8_text (s : string) : Prop :=
  ∃ rs, Forall (λ r, valid_rune r = true) rs ∧ s = encode_all rs.

Lemma utf8_text_encode s : utf8_text s → encode_all (runes s) = s.
Proof. intros (rs & Hrs & ->). by rewrite runes_encode_all. Qed.

Lemma encode_all_app l k : encode_all (l ++ k) = encode_all l +:+ encode_all k.
Proof. induction l as [|r l IH]; [done|]. simpl. by rewrite IH, string_app_assoc. Qed.

(** ASCII text is UTF-8 text, one rune per byte. *)
Fixpoint ascii_text (s : string) : bool :=
  match s with
  | "" => true
  | String c s' => (z_of c <? 0x80)%Z && ascii_text s'
  end.

Lemma ascii_text_utf8 s : ascii_text s = true → utf8_text s.
Proof.
  induction s as [|c s IH]; simpl; [by exists []|].
  intros [Hc Hs]%andb_prop. destruct (IH Hs) as (rs & Hrs & ->).
  reflect_guards. pose proof (z_of_range c) as Hr.
  assert (Hv : valid_rune (z_of c) = true).
  { unfold valid_rune. rewrite !andb_true_iff, negb_true_iff, andb_false_iff,
      !Z.leb_le, !Z.leb_gt. lia. }
  exists (z_of c :: rs). split; [by constructor|]. simpl. unfold EncodeRune. rewrite Hv.
  destruct (Z.leb_spec (z_of c) 0x7F); [|lia]. unfold bstr. by rewrite byte_of_z_of.
Qed.

#[export] Hint Resolve HasPrefix_refl HasPrefix_app : runner.

(** ** strings.Fields *)

(** [unicode.IsSpace]. *)
Definition IsSpace (r : Z) : bool :=
  bool_decide (r ∈ [9; 10; 11; 12; 13; 32; 0x85; 0xA0; 0x1680; 0x2028; 0x2029; 0x202F; 0x205F; 0x3000]%Z)
  || ((0x2000 <=? r) && (r <=? 0x200A))%Z.

(** [cur] is the field being read, [skip] the bytes of the current rune still to pass
    and [keep] whether that rune belongs to the field. *)
Fixpoint fields_go (cur : string) (skip : nat) (keep : bool) (s : string) : list string :=
  match s with
  | "" => if bool_decide (cur = "") then [] else [cur]
  | String c s' =>
      match skip with
      | S k => fields_go (if keep then cur +:+ String c "" else cur) k keep s'
      | 0 =>
          let '(r, w) := DecodeRune s in
          if IsSpace r
          then if bool_decide (cur = "") then fields_go "" (pred w) false s'
               else cur :: fields_go "" (pred w) false s'
          else fields_go (cur +:+ String c "") (pred w) true s'
      end
  end.

(** [strings.Fields]. *)
Definition Fields (s : string) : list string := fields_go "" 0 false s.

Example Fields_example : Fields "  -ffdx   -e cache " = ["-ffdx"; "-e"; "cache"].
Proof. vm_compute. reflexivity. Qed.

(** ** strings.TrimSpace *)

Fixpoint trim_left_go (skip : nat) (s : string) : string :=
  match s with
  | "" => ""
  | String _ s' =>
      match skip with
      | S k => trim_left_go k s'
      | 0 => let '(r, w) := DecodeRune s in
             if IsSpace r then trim_left_go (pred w) s' else s
      end
  end.

(** [pending] holds the space read since the last character to keep. *)
Fixpoint trim_right_go (pending : string) (skip : nat) (space : bool) (s : string) : string :=
  match s with
  | "" => ""
  | String c s' =>
      match skip with
      | S k => if space then trim_right_go (pending +:+ String c "") k space s'
               else String c (trim_right_go "" k space s')
      | 0 => let '(r, w) := DecodeRune s in
             if IsSpace r then trim_right_go (pending +:+ String c "") (pred w) true s'
             else pending +:+ String c (trim_right_go "" (pred w) false s')
      end
  end.

Definition TrimSpace (s : string) : string := trim_right_go "" 0 false (trim_left_go 0 s).

Example TrimSpace_example : TrimSpace "  a b  " = "a b".
Proof. vm_compute. reflexivity. Qed.

(** ** [strconv.Quote] and [time.Duration.String] *)

Definition hexdigit (d : Z) : string := bstr (if (d <? 10)%Z then 48 + d else 87 + d)%Z.

(** The lowest [n] hexadecimal digits of [v]. *)
Fixpoint hexdigits (n : nat) (v : Z) : string :=
  match n with
  | 0 => ""
  | S k => hexdigits k (v / 16)%Z +:+ hexdigit (v mod 16)%Z
  end.

(** The named escapes of control characters. *)
Definition control_escape (r : Z) : option string :=
  (if r =? 7 then Some "a" else if r =? 8 then Some "b" else if r =? 12 then Some "f"
   else if r =? 10 then Some "n" else if r =? 13 then Some "r" else if r =? 9 then Some "t"
   else if r =? 11 then Some "v" else None)%Z.

(** [appendEscapedRune] for a double quote; [isPrint] is [unicode.IsPrint] above ASCII. *)
Definition escaped_rune (isPrint : Z → bool) (r : Z) : string :=
  let bs := bstr 92 in
  (if (r =? 34) || (r =? 92) then bs +:+ bstr r
   else if (if r <? 128 then (32 <=? r) && (r <=? 126) else isPrint r) then EncodeRune r
   else match control_escape r with
        | Some e => bs +:+ e
        | None => if r <? 32 then bs +:+ "x" +:+ hexdigits 2 r
                  else if r <? 0x10000 then bs +:+ "u" +:+ hexdigits 4 r
                  else bs +:+ "U" +:+ hexdigits 8 r
        end)%Z.

Fixpoint quote_go (isPrint : Z → bool) (skip : nat) (s : string) : string :=
  match s with
  | "" => ""
  | String c s' =>
      match skip with
      | S k => quote_go isPrint k s'
      | 0 => let '(r, width) := DecodeRune s in
             (if bool_decide (width = 1) && (r =? RuneError)%Z
              then bstr 92 +:+ "x" +:+ hexdigits 2 (z_of c) else escaped_rune isPrint r)
             +:+ quote_go isPrint (pred width) s'
      end
  end.

Definition QuoteWith (isPrint : Z → bool) (s : string) : string :=
  bstr 34 +:+ quote_go isPrint 0 s +:+ bstr 34.

(** The decimal digits of the lowest [n] places of [v], without trailing zeros. *)
Fixpoint frac_digits (n : nat) (v : Z) (seen : bool) : string :=
  match n with
  | 0 => ""
  | S k => let digit := (v mod 10)%Z in
           let seen := seen || negb (digit =? 0)%Z in
           frac_digits k (v / 10)%Z seen +:+ (if seen then bstr (48 + digit) else "")
  end.

(** [fmtFrac] followed by the unit: the rest of [v] above the places and the text. *)
Definition fmtFrac (v : Z) (prec : nat) : Z * string :=
  let f := frac_digits prec v false in
  ((v / 10 ^ Z.of_nat prec)%Z, if bool_decide (f = "") then "" else "." +:+ f).

Definition DurationString (d : Z) : string :=
  let u := Z.abs d in
  let text :=
    if (u =? 0)%Z then "0s"
    else if (u <? Second)%Z then
      let '(unit, prec) := if (u <? 1000)%Z then ("ns", 0)
                           else if (u <? 1000000)%Z then (bstr 194 +:+ bstr 181 +:+ "s", 3)
                           else ("ms", 6) in
      let '(v, f) := fmtFrac u prec in Itoa v +:+ f +:+ unit
    else
      let '(v, f) := fmtFrac u 9 in
      let seconds := Itoa (v mod 60)%Z +:+ f +:+ "s" in
      let v := (v / 60)%Z in
      if (v =? 0)%Z then seconds
      else let minutes := Itoa (v mod 60)%Z +:+ "m" in
           let v := (v / 60)%Z in
           if (v =? 0)%Z then minutes +:+ seconds else Itoa v +:+ "h" +:+ minutes +:+ seconds in
  if (d <? 0)%Z then "-" +:+ text else text.

Example quote_example : QuoteWith (λ _, true) ("a" +:+ bstr 10 +:+ bstr 34) =
  bstr 34 +:+ "a" +:+ bstr 92 +:+ "n" +:+ bstr 92 +:+ bstr 34 +:+ bstr 34.
Proof. reflexivity. Qed.

Example duration_example :
  DurationString (3600 * Second) = "1h0m0s" ∧ DurationString 1500000 = "1.5ms" ∧
  DurationString (90 * Second + 20000000) = "1m30.02s".
Proof. vm_compute. done. Qed.
