(* ===== verification/Path.v ===== *)
(** Go's packages [path] and [path/filepath] (on a slash system), as far as the runner
    uses them: [Clean], [Join], [IsAbs], [Base], [Dir] and [Rel]. *)

From S2P Require Import Prelude GoLib.

Definition slash : ascii := "/"%char.
Definition segments (p : string) : list string := Split p slash.

(** One element of a path against the elements kept so far (last one first). *)
Definition clean_step (rooted : bool) (kept : list string) (e : string) : list string :=
  if bool_decide (e = "") || bool_decide (e = ".") then kept
  else if bool_decide (e = "..") then
    match kept with
    | [] => if rooted then [] else [".."]
    | t :: ts => if bool_decide (t = "..") then ".." :: kept else ts
    end
  else e :: kept.

Definition IsAbs (p : string) : bool := HasPrefix p "/".

(** The elements of the cleaned path. *)
Definition clean_segments (p : string) : list string :=
  reverse (foldl (clean_step (IsAbs p)) [] (segments p)).

(** The cleaned path of a list of elements. *)
Definition render (rooted : bool) (es : list string) : string :=
  if rooted then "/" +:+ Join es "/"
  else match es with [] => "." | _ => Join es "/" end.

Definition Clean (p : string) : string := render (IsAbs p) (clean_segments p).

(** [path.Join]: the elements that are not empty, joined and cleaned. *)
Definition pathJoin (es : list string) : string :=
  match filter (λ e, e ≠ "") es with
  | [] => ""
  | es' => Clean (Join es' "/")
  end.

(** [path.Base]. *)
Definition Base (p : string) : string :=
  if bool_decide (p = "") then "."
  else let t := TrimRight p slash in
       if bool_decide (t = "") then "/" else default "" (last (segments t)).

(** [path.Dir]: everything up to the last slash, cleaned. *)
Definition Dir (p : string) : string :=
  let es := segments p in
  Clean (match removelast es with [] => "" | ds => Join ds "/" +:+ "/" end).

(** [filepath.Rel] of two paths; [None] where it returns an error. A target that cleans
    to [.] is kept as that element. *)
Fixpoint strip_common (base targ : list string) : list string * list string :=
  match base, targ with
  | b :: base', t :: targ' => if bool_decide (b = t) then strip_common base' targ' else (base, targ)
  | _, _ => (base, targ)
  end.

Definition Rel (basepath targpath : string) : option string :=
  if negb (Bool.eqb (IsAbs (Clean basepath)) (IsAbs (Clean targpath))) then None
  else
    let targ := match clean_segments targpath with
                | [] => if IsAbs targpath || bool_decide (clean_segments basepath = []) then [] else ["."]
                | es => es
                end in
    let '(b, t) := strip_common (clean_segments basepath) targ in
    if bool_decide (head b = Some "..") then None
    else match replicate (length b) ".." ++ t with
         | [] => Some "."
         | es => Some (Join es "/")
         end.

(** ** Cleaned paths *)

(** An element a cleaned path may hold. *)
Definition plain (e : string) : Prop :=
  e ≠ "" ∧ e ≠ "." ∧ slash ∉ String.list_ascii_of_string e.

Lemma Split_no_sep s c : Forall (λ e, c ∉ String.list_ascii_of_string e) (Split s c).
Proof.
  induction s as [|x s IH]; simpl; [repeat constructor; apply not_elem_of_nil|].
  case_bool_decide as Hx; [constructor; [apply not_elem_of_nil|done]|].
  destruct (Split s c) as [|p ps]; [repeat constructor|].
  - apply not_elem_of_cons. split; [congruence|apply not_elem_of_nil].
  - apply Forall_cons in IH as [Hp Hps]. constructor; [|done]. simpl.
    apply not_elem_of_cons. split; [congruence|done].
Qed.

Lemma Split_Join (es : list string) c :
  es ≠ [] → Forall (λ e, c ∉ String.list_ascii_of_string e) es →
  Split (Join es (String c "")) c = es.
Proof.
  induction es as [|e es IH]; intros Hne Hf; [done|].
  apply Forall_cons in Hf as [He Hf].
  destruct es as [|e' es]; [by apply Split_absent|].
  change (Join (e :: e' :: es) (String c "")) with (e +:+ String c (Join (e' :: es) (String c ""))).
  rewrite Split_app by done. by rewrite IH.
Qed.

(** The elements kept: plain, and [..] only as a run at the front of a relative path
    (at the end of the reversed list). *)
Fixpoint ups_first (kept : list string) : Prop :=
  match kept with
  | [] => True
  | t :: ts => (t = ".." → Forall (λ e, e = "..") ts) ∧ ups_first ts
  end.

Definition kept_ok (rooted : bool) (kept : list string) : Prop :=
  Forall plain kept ∧ ups_first kept ∧ (rooted = true → ".." ∉ kept).

Lemma clean_step_ok rooted kept e :
  slash ∉ String.list_ascii_of_string e → kept_ok rooted kept → kept_ok rooted (clean_step rooted kept e).
Proof.
  intros He (Hp & Hu & Hr). unfold clean_step.
  destruct (bool_decide (e = "") || bool_decide (e = ".")) eqn:E1; [done|].
  apply orb_false_elim in E1 as [E1 E2]. reflect_guards.
  assert (Hpl : plain "..").
  { split_and!; [done..|]. simpl. intros [[=]|[[=]|H%elem_of_nil]%elem_of_cons]%elem_of_cons; done. }
  case_bool_decide as Hup.
  - destruct kept as [|t ts].
    + destruct rooted; [done|]. split_and!; [by apply Forall_singleton|by split; [constructor|]|done].
    + apply Forall_cons in Hp as [Ht Hts]. destruct Hu as [Hu1 Hu2]. case_bool_decide as Htt; subst.
      * split_and!; [by do 2 (constructor; [done|])|split; [constructor; [done|by apply Hu1]|done]|].
        intros ->. destruct (Hr eq_refl). left.
      * split_and!; [done|done|]. intros ->. specialize (Hr eq_refl). set_solver.
  - split_and!; [by constructor|done|]. intros ->. apply not_elem_of_cons. split; [congruence|by apply Hr].
Qed.

Lemma clean_fold_ok rooted kept es :
  Forall (λ e, slash ∉ String.list_ascii_of_string e) es → kept_ok rooted kept →
  kept_ok rooted (foldl (clean_step rooted) kept es).
Proof.
  intros He. revert kept. induction He as [|e es He _ IH]; intros kept Hk; simpl; [done|].
  by apply IH, clean_step_ok.
Qed.

Lemma clean_segments_ok p : kept_ok (IsAbs p) (reverse (clean_segments p)).
Proof.
  unfold clean_segments. rewrite reverse_involutive.
  apply clean_fold_ok; [apply Split_no_sep|]. split_and!; [constructor|done|]. by intros _ ?%elem_of_nil.
Qed.

(** Elements that are kept as they are. *)
Lemma clean_fold_id rooted kept es :
  kept_ok rooted (reverse es ++ kept) → foldl (clean_step rooted) kept es = reverse es ++ kept.
Proof.
  revert kept. induction es as [|e es IH]; intros kept Hk; [done|].
  rewrite reverse_cons, <- app_assoc in *. simpl in *.
  assert (Hs : clean_step rooted kept e = e :: kept).
  { destruct Hk as (Hp & Hu & Hr). apply Forall_app in Hp as [_ [He _]%Forall_cons].
    assert (Hu' : ups_first (e :: kept)).
    { clear -Hu. induction (reverse es) as [|x l IHl]; [done|]. apply IHl, Hu. }
    destruct He as (H1 & H2 & _). unfold clean_step.
    rewrite !bool_decide_eq_false_2 by done. simpl.
    case_bool_decide as Hup; [subst|done]. destruct Hu' as [Hall _]. specialize (Hall eq_refl).
    destruct kept as [|t ts].
    - destruct rooted; [|done]. destruct (Hr eq_refl). set_solver.
    - apply Forall_cons in Hall as [-> _]. by rewrite bool_decide_eq_true_2. }
  rewrite Hs. by apply IH.
Qed.

Lemma IsAbs_plain e t : plain e → IsAbs (e +:+ t) = false.
Proof.
  intros (Hne & _ & Hs). destruct e as [|c e]; [done|]. unfold IsAbs. simpl.
  simpl in Hs. apply not_elem_of_cons in Hs as [Hs _].
  rewrite bool_decide_eq_false_2; [done|]. unfold slash in Hs. congruence.
Qed.

Lemma IsAbs_render rooted es : Forall plain es → IsAbs (render rooted es) = rooted.
Proof.
  intros Hp. destruct rooted; [done|]. simpl. destruct Hp as [|e es He Hes]; [done|].
  destruct es as [|e' es]; simpl.
  - rewrite <- (string_app_nil_r e). by apply IsAbs_plain.
  - by apply IsAbs_plain.
Qed.

Lemma Clean_render rooted es :
  kept_ok rooted (reverse es) → Clean (render rooted es) = render rooted es.
Proof.
  intros Hk. assert (Hpl : Forall plain es) by (apply Forall_reverse, Hk).
  unfold Clean, clean_segments. rewrite IsAbs_render by done. f_equal.
  rewrite <- (reverse_involutive es) at 2. f_equal.
  assert (Hseg : es ≠ [] → segments (Join es "/") = es).
  { intros Hne. apply Split_Join; [done|]. eapply Forall_impl; [done|]. by intros e (_ & _ & ?). }
  assert (Hid : foldl (clean_step rooted) [] es = reverse es).
  { rewrite clean_fold_id; rewrite app_nil_r; done. }
  destruct es as [|e es']; [by destruct rooted|]. set (es := e :: es') in *.
  destruct rooted; unfold render.
  - unfold segments in *. change (Split ("/" +:+ Join es "/") slash) with ("" :: Split (Join es "/") slash).
    rewrite Hseg by done. apply Hid.
  - change (match es with [] => "." | _ :: _ => Join es "/" end) with (Join es "/").
    rewrite Hseg by done. apply Hid.
Qed.

Lemma Clean_idempotent p : Clean (Clean p) = Clean p.
Proof. apply Clean_render, clean_segments_ok. Qed.

(** A cleaned absolute path cannot climb: it has no [..] element. *)
Lemma clean_abs_no_up p : IsAbs p = true → ".." ∉ clean_segments p.
Proof.
  intros Ha. destruct (clean_segments_ok p) as (_ & _ & H). rewrite Ha in H.
  rewrite <- elem_of_reverse. by apply H.
Qed.

(** *** Going down *)

(** Elements that do not climb are kept after what was kept before. *)
Lemma clean_fold_down rooted kept es :
  ".." ∉ es →
  ∃ more, foldl (clean_step rooted) kept es = more ++ kept ∧ ".." ∉ more.
Proof.
  revert kept. induction es as [|e es IH]; intros kept He; simpl.
  { exists []. split; [done|apply not_elem_of_nil]. }
  apply not_elem_of_cons in He as [He Hes].
  destruct (IH (clean_step rooted kept e) Hes) as (more & -> & Hm).
  unfold clean_step. destruct (_ || _); [by exists more|].
  rewrite bool_decide_eq_false_2 by congruence.
  exists (more ++ [e]). rewrite <- app_assoc. split; [done|].
  rewrite elem_of_app, list_elem_of_singleton. naive_solver.
Qed.

Lemma IsAbs_app p q : IsAbs p = true → IsAbs (p +:+ q) = true.
Proof. unfold IsAbs. intros [t ->]%HasPrefix_spec. apply HasPrefix_spec. exists (t +:+ q). by rewrite string_app_assoc. Qed.

Lemma clean_segments_down root e :
  IsAbs root = true → ".." ∉ segments e →
  clean_segments root `prefix_of` clean_segments (root +:+ "/" +:+ e).
Proof.
  intros Ha He. unfold clean_segments. rewrite (IsAbs_app root), Ha by done.
  assert (Hs : segments (root +:+ "/" +:+ e) = segments root ++ segments e) by apply Split_app_sep.
  rewrite Hs, foldl_app.
  destruct (clean_fold_down true (foldl (clean_step true) [] (segments root)) (segments e) He) as (more & -> & _).
  rewrite reverse_app. by eexists.
Qed.

Lemma clean_segments_plain p : Forall plain (clean_segments p).
Proof.
  destruct (clean_segments_ok p) as [H _]. revert H. generalize (clean_segments p).
  intros l. apply Forall_reverse.
Qed.

Lemma IsAbs_Clean p : IsAbs (Clean p) = IsAbs p.
Proof. apply IsAbs_render, clean_segments_plain. Qed.

Lemma clean_segments_Clean p : clean_segments (Clean p) = clean_segments p.
Proof.
  assert (Hk := clean_segments_ok p). assert (Hpl := clean_segments_plain p).
  unfold clean_segments at 1. rewrite IsAbs_Clean.
  rewrite <- (reverse_involutive (clean_segments p)). f_equal.
  assert (Hid : foldl (clean_step (IsAbs p)) [] (clean_segments p) = reverse (clean_segments p)).
  { rewrite clean_fold_id; rewrite app_nil_r; done. }
  assert (Hseg : clean_segments p ≠ [] → segments (Join (clean_segments p) "/") = clean_segments p).
  { intros Hne. apply Split_Join; [done|]. eapply Forall_impl; [done|]. by intros e (_ & _ & ?). }
  unfold Clean, render. destruct (IsAbs p).
  - change (segments ("/" +:+ Join (clean_segments p) "/")) with ("" :: segments (Join (clean_segments p) "/")).
    simpl foldl. destruct (clean_segments p) as [|e es]; [done|]. rewrite Hseg by done. apply Hid.
  - destruct (clean_segments p) as [|e es]; [done|]. rewrite Hseg by done. apply Hid.
Qed.

(** Joining an absolute directory with elements that do not climb stays below it. *)
Lemma pathJoin_inside root e :
  IsAbs root = true → ".." ∉ segments e →
  clean_segments root `prefix_of` clean_segments (pathJoin [root; e]) ∧ IsAbs (pathJoin [root; e]) = true.
Proof.
  intros Ha He. unfold pathJoin.
  assert (Hroot : root ≠ "") by by intros ->.
  rewrite filter_cons_True by done. rewrite filter_cons. simpl. destruct (decide (e ≠ "")) as [Hne|_]; simpl.
  - rewrite clean_segments_Clean. split; [by apply clean_segments_down|].
    rewrite IsAbs_Clean. by apply IsAbs_app.
  - rewrite clean_segments_Clean. split; [done|]. by rewrite IsAbs_Clean.
Qed.

(** A text without two dots in a row has no climbing element. *)
Lemma Join_elem_app es e : e ∈ es → ∃ a b, Join es "/" = a +:+ e +:+ b.
Proof.
  induction es as [|x es IH]; [by intros ?%elem_of_nil|]. intros [->|Hin]%elem_of_cons.
  - destruct es as [|y es]; [exists "", ""; by rewrite string_app_nil_r|].
    exists "", ("/" +:+ Join (y :: es) "/"). done.
  - destruct (IH Hin) as (a & b & Hj). destruct es as [|y es]; [by apply elem_of_nil in Hin|].
    exists (x +:+ "/" +:+ a), b. change (Join (x :: y :: es) "/") with (x +:+ "/" +:+ Join (y :: es) "/").
    rewrite Hj. by rewrite !string_app_assoc.
Qed.

Lemma no_dots_no_up s : Contains s ".." = false → ".." ∉ segments s.
Proof.
  intros Hc Hin. destruct (Join_elem_app _ _ Hin) as (a & b & Hj).
  pose proof (Join_Split s slash) as Hs. fold (segments s) in Hs.
  change (String slash "") with "/" in Hs. rewrite Hj in Hs. subst s.
  by rewrite Contains_app in Hc.
Qed.
