(* ===== verification/Types.v ===== *)
(** Data shared by the components: the job protocol of common/network.go, the errors
    of common/executor.go and the part of the configuration of common/config.go the
    modelled code reads. Enumerations whose values the runner itself chooses are
    inductive types; strings that arrive from the coordinator stay strings. *)

From S2P Require Import Prelude.

(** ** Job protocol *)

Inductive UpdateState :=
| UpdateSucceeded | UpdateNotFound | UpdateAbort | UpdateFailed | UpdateRangeMismatch.

Inductive UploadState := UploadSucceeded | UploadTooLarge | UploadForbidden | UploadFailed.

Inductive DownloadState :=
| DownloadSucceeded | DownloadForbidden | DownloadFailed | DownloadNotFound.

Inductive JobState := Pending | Running | Failed | Success.

Inductive JobFailureReason :=
| NoneFailure | ScriptFailure | RunnerSystemFailure | JobExecutionTimeout.

#[export] Instance UpdateState_eq_dec : EqDecision UpdateState.
Proof. solve_decision. Defined.
#[export] Instance JobState_eq_dec : EqDecision JobState.
Proof. solve_decision. Defined.
#[export] Instance JobFailureReason_eq_dec : EqDecision JobFailureReason.
Proof. solve_decision. Defined.

Record FeaturesInfo := {
  F_Variables : bool; F_Image : bool; F_Services : bool; F_Artifacts : bool;
  F_Cache : bool; F_Shared : bool; F_UploadMultipleArtifacts : bool;
  F_UploadRawArtifacts : bool; F_Session : bool; F_Terminal : bool;
  F_Refspecs : bool; F_Masking : bool; F_Proxy : bool }.

Definition no_features : FeaturesInfo :=
  Build_FeaturesInfo false false false false false false false false false false
    false false false.

Record JobInfo := {
  JI_Name : string; JI_Stage : string; JI_ProjectID : Z; JI_ProjectName : string }.

Record GitInfo := {
  GI_RepoURL : string; GI_Ref : string; GI_Sha : string; GI_BeforeSha : string;
  GI_RefType : string; GI_Refspecs : list string; GI_Depth : Z }.

Record RunnerInfo := { RI_Timeout : Z }.

Record Step := {
  Step_Name : string; Step_Script : list string; Step_Timeout : Z;
  Step_When : string; Step_AllowFailure : bool }.

Definition StepNameScript : string := "script".
Definition StepNameAfterScript : string := "after_script".

Record Port := { Port_Number : Z; Port_Protocol : string; Port_Name : string }.

Record Image := {
  Image_Name : string; Image_Alias : string; Image_Command : list string;
  Image_Entrypoint : list string; Image_Ports : list Port }.

Definition ArtifactWhenOnFailure : string := "on_failure".
Definition ArtifactWhenOnSuccess : string := "on_success".
Definition ArtifactWhenAlways : string := "always".

Definition OnSuccess (when : string) : bool :=
  bool_decide (when = "") || bool_decide (when = ArtifactWhenOnSuccess)
  || bool_decide (when = ArtifactWhenAlways).

Definition OnFailure (when : string) : bool :=
  bool_decide (when = ArtifactWhenOnFailure) || bool_decide (when = ArtifactWhenAlways).

Record Artifact := {
  Art_Name : string; Art_Untracked : bool; Art_Paths : list string; Art_When : string;
  Art_Type : string; Art_Format : string; Art_ExpireIn : string }.

Definition CachePolicyUndefined : string := "".
Definition CachePolicyPullPush : string := "pull-push".
Definition CachePolicyPull : string := "pull".
Definition CachePolicyPush : string := "push".

Record Cache := {
  Cache_Key : string; Cache_Untracked : bool; Cache_Policy : string;
  Cache_Paths : list string }.

Definition CheckPolicy (c : Cache) (wanted : string) : result string bool :=
  let p := Cache_Policy c in
  if bool_decide (p = CachePolicyUndefined) || bool_decide (p = CachePolicyPullPush)
  then Ok true
  else if bool_decide (p = CachePolicyPull) || bool_decide (p = CachePolicyPush)
  then Ok (bool_decide (wanted = p))
  else Err ("Unknown cache policy " +:+ p).

Record Credentials := {
  Cred_Type : string; Cred_URL : string; Cred_Username : string; Cred_Password : string }.

Record DependencyArtifactsFile := { DAF_Filename : string; DAF_Size : Z }.

Record Dependency := {
  Dep_ID : Z; Dep_Token : string; Dep_Name : string;
  Dep_ArtifactsFile : DependencyArtifactsFile }.

Record GitlabFeatures := { GF_TraceSections : bool }.

Record JobVariable := {
  Key : string; Value : string; Public : bool; Internal : bool; File : bool;
  Masked_ : bool }.

Record JobResponse := {
  JR_ID : Z; JR_Token : string; JR_AllowGitFetch : bool; JR_JobInfo : JobInfo;
  JR_GitInfo : GitInfo; JR_RunnerInfo : RunnerInfo; JR_Variables : list JobVariable;
  JR_Steps : list Step; JR_Image : Image; JR_Services : list Image;
  JR_Artifacts : list Artifact; JR_Cache : list Cache; JR_Credentials : list Credentials;
  JR_Dependencies : list Dependency; JR_Features : GitlabFeatures;
  JR_TLSCAChain : string; JR_TLSAuthCert : string; JR_TLSAuthKey : string }.

Record JobCredentials := {
  JC_ID : Z; JC_Token : string; JC_URL : string; JC_TLSCAFile : string;
  JC_TLSCertFile : string; JC_TLSKeyFile : string }.

Record UpdateJobInfo := {
  UJI_ID : Z; UJI_State : JobState; UJI_FailureReason : JobFailureReason }.

Record ArtifactsOptions := {
  AO_BaseName : string; AO_ExpireIn : string; AO_Format : string; AO_Type : string }.

Record SessionInfo := {
  SI_URL : string; SI_Certificate : string; SI_Authorization : string }.

(** ** Errors *)

(** Go's [error] values as the build code tells them apart: the two context errors,
    a [*BuildError] with its failure reason, and any other error by its text. *)
Inductive error :=
| ErrText (msg : string)
| ErrCanceled
| ErrDeadlineExceeded
| BuildError (inner : error) (reason : JobFailureReason).

#[export] Instance error_eq_dec : EqDecision error.
Proof. solve_decision. Defined.

(** [err.Error()]. A [BuildError] prints its inner error. *)
Fixpoint Error (e : error) : string :=
  match e with
  | ErrText m => m
  | ErrCanceled => "context canceled"
  | ErrDeadlineExceeded => "context deadline exceeded"
  | BuildError inner _ => Error inner
  end.

Definition MakeBuildError (msg : string) : error := BuildError (ErrText msg) NoneFailure.

(** ** Configuration *)

Record RunnerCredentials := {
  RC_URL : string; RC_Token : string; RC_TLSCAFile : string; RC_TLSCertFile : string;
  RC_TLSKeyFile : string }.

(** helpers.ShortenToken *)
Definition ShortenToken (token : string) : string :=
  if bool_decide (8 ≤ slen token) then stake 8 token else token.

Definition ShortDescription (c : RunnerCredentials) : string := ShortenToken (RC_Token c).
Definition UniqueID (c : RunnerCredentials) : string := RC_URL c +:+ RC_Token c.
Definition SameAs (c other : RunnerCredentials) : bool :=
  bool_decide (RC_URL c = RC_URL other) && bool_decide (RC_Token c = RC_Token other).

Lemma ShortenToken_slen token : slen (ShortenToken token) ≤ 8.
Proof.
  unfold ShortenToken. case_bool_decide; [|lia]. rewrite slen_stake. lia.
Qed.
