(* ===== verification/Variables.v ===== *)
(** Job variables (common/variables.go), the feature flags (helpers/featureflags) and
    the variables of the runner's version (common/version.go). *)

From S2P Require Import Prelude GoLib Types.

Definition JobVariables := list JobVariable.

Definition mkVar (key value : string) (public internal file : bool) : JobVariable :=
  {| Key := key; Value := value; Public := public; Internal := internal; File := file;
     Masked_ := false |}.

(** [JobVariable.String]. *)
Definition VarString (b : JobVariable) : string := Key b +:+ "=" +:+ Value b.

Definition PublicOrInternal (b : JobVariables) : JobVariables :=
  filter (λ v, (Public v || Internal v) = true) b.

Definition StringList (b : JobVariables) : list string := VarString <$> b.

Definition shell_special : list string :=
  ["*"; "#"; "@"; "!"; "?"; "0"; "1"; "2"; "3"; "4"; "5"; "6"; "7"; "8"; "9"].

(** The search of [Get] from the last variable back. *)
Fixpoint find_last (b : JobVariables) (key : string) : option string :=
  match b with
  | [] => None
  | v :: b' => match find_last b' key with
               | Some x => Some x
               | None => if bool_decide (Key v = key) then Some (Value v) else None
               end
  end.

Definition Get (b : JobVariables) (key : string) : string :=
  if bool_decide (key = "$") then key
  else if bool_decide (key ∈ shell_special) then ""
  else default "" (find_last b key).

Definition ExpandValue (b : JobVariables) (value : string) : string := Expand value (Get b).

Definition set_value (v : JobVariable) (x : string) : JobVariable :=
  {| Key := Key v; Value := x; Public := Public v; Internal := Internal v; File := File v;
     Masked_ := Masked_ v |}.

(** [JobVariables.Expand]. *)
Definition ExpandAll (b : JobVariables) : JobVariables :=
  (λ v, set_value v (ExpandValue b (Value v))) <$> b.

Definition Masked (b : JobVariables) : list string := Value <$> filter (λ v, Masked_ v = true) b.

Definition ParseVariable (text : string) : result string JobVariable :=
  match SplitN2 text "=" with
  | [k; v] => Ok (mkVar k v false false false)
  | _ => Err "missing ="
  end.

(** *** Feature flags *)

Definition CmdDisableDelayedErrorLevelExpansion : string := "FF_CMD_DISABLE_DELAYED_ERROR_LEVEL_EXPANSION".
Definition UseLegacyBuildsDirForDocker : string := "FF_USE_LEGACY_BUILDS_DIR_FOR_DOCKER".
Definition UseLegacyVolumesMountingOrder : string := "FF_USE_LEGACY_VOLUMES_MOUNTING_ORDER".

(** Name and default value of each flag ([GetAll]). *)
Definition flags : list (string * string) :=
  [(CmdDisableDelayedErrorLevelExpansion, "false"); (UseLegacyBuildsDirForDocker, "false");
   (UseLegacyVolumesMountingOrder, "false")].

(** [None] is the error of [strconv.ParseBool]. *)
Definition IsOn (value : string) : option bool :=
  if bool_decide (value = "") then Some false else ParseBool value.

(** *** The runner's version *)

Record AppVersionInfo := {
  App_Name : string; App_Version : string; App_Revision : string; App_Branch : string;
  App_GOVersion : string; App_OS : string; App_Architecture : string }.

Definition UserAgent (v : AppVersionInfo) : string :=
  App_Name v +:+ " " +:+ App_Version v +:+ " (" +:+ App_Branch v +:+ "; " +:+ App_GOVersion v
  +:+ "; " +:+ App_OS v +:+ "/" +:+ App_Architecture v +:+ ")".

Definition Line (v : AppVersionInfo) : string :=
  App_Name v +:+ " " +:+ App_Version v +:+ " (" +:+ App_Revision v +:+ ")".

Definition VersionVariables (v : AppVersionInfo) : JobVariables :=
  [mkVar "CI_RUNNER_VERSION" (App_Version v) true true false;
   mkVar "CI_RUNNER_REVISION" (App_Revision v) true true false;
   mkVar "CI_RUNNER_EXECUTABLE_ARCH" (App_OS v +:+ "/" +:+ App_Architecture v) true true false].

(** ** Lookup *)

Lemma find_last_app b b' key :
  find_last (b ++ b') key = match find_last b' key with Some x => Some x | None => find_last b key end.
Proof.
  induction b as [|v b IH]; simpl; [by destruct (find_last b' key)|].
  rewrite IH. by destruct (find_last b' key).
Qed.

Lemma find_last_none b key : find_last b key = None ↔ key ∉ (Key <$> b).
Proof.
  induction b as [|v b IH]; simpl; [split; [intros _; apply not_elem_of_nil|done]|].
  rewrite not_elem_of_cons. destruct (find_last b key) eqn:E.
  - split; [done|]. intros [_ H]. apply IH in H. done.
  - case_bool_decide; split; try done; naive_solver.
Qed.

Lemma find_last_elem b key x :
  find_last b key = Some x → ∃ v, v ∈ b ∧ Key v = key ∧ Value v = x.
Proof.
  induction b as [|v b IH]; simpl; [done|]. destruct (find_last b key) eqn:E.
  - intros [= ->]. destruct (IH eq_refl) as (v' & ? & ? & ?). exists v'. set_solver.
  - case_bool_decide; intros [= <-]. exists v. set_solver.
Qed.

(** A name variables can have: not one of the names the shell keeps for itself. *)
Definition ordinary (key : string) : Prop := key ≠ "$" ∧ key ∉ shell_special.

Lemma Get_ordinary b key : ordinary key → Get b key = default "" (find_last b key).
Proof.
  intros [H1 H2]. unfold Get. by rewrite !bool_decide_eq_false_2.
Qed.

(** Later variables override earlier ones: what is appended decides the value of
    its own keys, and every other key keeps the value it had; this is how the job's
    variables override the runner's and those the defaults. *)
Lemma later_variables_win b b' key :
  ordinary key →
  (key ∈ (Key <$> b') → Get (b ++ b') key = Get b' key) ∧
  (key ∉ (Key <$> b') → Get (b ++ b') key = Get b key) ∧
  (key ∉ (Key <$> (b ++ b')) → Get (b ++ b') key = "").
Proof.
  intros Ho. rewrite !(Get_ordinary _ _ Ho), find_last_app. split_and!.
  - intros Hin. destruct (find_last b' key) eqn:E; [done|]. by apply find_last_none in E.
  - intros ->%find_last_none. done.
  - intros H%find_last_none. rewrite find_last_app in H. by rewrite H.
Qed.

(** ** Expansion *)

(** The text that expands to [s]: every [$] doubled. *)
Fixpoint escape (s : string) : string :=
  match s with
  | "" => ""
  | String c s' => if bool_decide (c = "$"%char) then "$$" +:+ escape s' else String c (escape s')
  end.

Lemma ExpandValue_escape b s : ExpandValue b (escape s) = s.
Proof.
  unfold ExpandValue, Expand. induction s as [|c s IH]; [done|]. simpl.
  case_bool_decide as Hc; [subst|].
  - change ("$$" +:+ escape s) with (String "$" (String "$" (escape s))). simpl.
    rewrite IH. done.
  - simpl. rewrite bool_decide_eq_false_2 by done. simpl. by rewrite IH.
Qed.

(** Letters, digits and underscores, not starting with a digit. *)
Definition name_like (n : string) : Prop :=
  (∃ c, String.get 0 n = Some c ∧ isShellSpecialVar c = false) ∧
  ∀ i c, String.get i n = Some c → isAlphaNum c = true.

Lemma isAlphaNum_no_brace c : isAlphaNum c = true → c ≠ "}"%char ∧ c ≠ "{"%char ∧ c ≠ "$"%char.
Proof. intros H. split_and!; intros ->; by vm_compute in H. Qed.

Lemma getShellName_braces n t :
  name_like n → getShellName ("{" +:+ n +:+ "}" +:+ t) = (n, slen n + 2).
Proof.
  intros [(d0 & Hd0 & Hd) Hn].
  change ("{" +:+ n +:+ "}" +:+ t) with (String "{" (n +:+ String "}" t)).
  assert (Hu : upto_brace (n +:+ String "}" t) = Some n).
  { apply upto_brace_app. intros i c Hc. by destruct (isAlphaNum_no_brace c (Hn i c Hc)) as (? & _). }
  destruct n as [|d n]; [done|]. injection Hd0 as <-.
  rewrite string_app_cons in *. unfold getShellName. rewrite bool_decide_eq_true_2 by done.
  destruct (n +:+ String "}" t) as [|e r]; [by rewrite Hu|]. rewrite Hd. simpl andb.
  by rewrite Hu.
Qed.

(** What a reference to a variable expands to: [${NAME}] anywhere in a text is
    replaced by the value of NAME and nothing else changes (the value itself is not
    expanded again), and a text whose dollars are doubled expands to itself, whatever
    the variables are. *)
Theorem references_expand_once b (s n t : string) :
  name_like n →
  ExpandValue b (escape s) = s ∧
  ExpandValue b (escape s +:+ "${" +:+ n +:+ "}" +:+ t) = s +:+ Get b n +:+ ExpandValue b t.
Proof.
  intros Hn. split; [apply ExpandValue_escape|].
  unfold ExpandValue, Expand. induction s as [|c s IH].
  - rewrite !string_app_nil_l. change ("${" +:+ n +:+ "}" +:+ t) with (String "$" ("{" +:+ n +:+ "}" +:+ t)).
    cbn [expand_go]. rewrite !bool_decide_eq_true_2 by done.
    rewrite getShellName_braces by done. simpl andb. cbv beta iota. f_equal.
    replace (slen n + 2) with (slen ("{" +:+ n +:+ "}")) by (rewrite !slen_app; simpl; lia).
    change ("{" +:+ n +:+ "}" +:+ t) with ("{" +:+ (n +:+ ("}" +:+ t))).
    rewrite !(string_app_assoc _ _ t), expand_go_skip. done.
  - cbn [escape]. case_bool_decide as Hc; [subst|].
    + change (("$$" +:+ escape s) +:+ "${" +:+ n +:+ "}" +:+ t)
        with (String "$" (String "$" (escape s +:+ "${" +:+ n +:+ "}" +:+ t))).
      cbn [expand_go]. rewrite !bool_decide_eq_true_2 by done. simpl andb. simpl getShellName.
      cbv beta iota. cbn [expand_go]. rewrite IH. done.
    + rewrite !(string_app_cons c). cbn [expand_go]. rewrite bool_decide_eq_false_2 by done. simpl andb.
      cbv iota. rewrite IH. done.
Qed.

Lemma references_expand_once_witness :
  ExpandValue [mkVar "X" "$Y" true false false; mkVar "Y" "1" true false false]
    (escape "a$b" +:+ "${" +:+ "X" +:+ "}" +:+ "/$Y") = "a$b$Y/1".
Proof.
  refine (proj2 (references_expand_once
    [mkVar "X" "$Y" true false false; mkVar "Y" "1" true false false] "a$b" "X" "/$Y" _)).
  split; [by exists "X"%char|]. intros [|i] c Hc; [|by destruct i]. injection Hc as <-. reflexivity.
Defined.

(** Printing a variable and parsing the text gives the variable back, when its key
    has no [=]; the value may hold anything. Text without [=] is refused. *)
Theorem variable_roundtrip key value :
  ("="%char ∉ String.list_ascii_of_string key → 
   ParseVariable (VarString (mkVar key value false false false)) = Ok (mkVar key value false false false)) ∧
  ("="%char ∉ String.list_ascii_of_string value → ParseVariable value = Err "missing =").
Proof.
  split; intros Hk.
  - unfold ParseVariable, VarString, SplitN2. simpl Key. simpl Value.
    change ("=" +:+ value) with (String "=" value). rewrite cut_app_absent; [done|].
    intros n Hn. revert n Hn. induction key as [|c key IH]; intros n Hn; [simpl in Hn; lia|].
    simpl in Hk. apply not_elem_of_cons in Hk as [Hc Hk]. rewrite string_app_cons.
    destruct n as [|n]; simpl.
    + rewrite bool_decide_eq_false_2; [done|congruence].
    + apply IH; [done|]. simpl in Hn. lia.
  - unfold ParseVariable, SplitN2.
    assert (Hcut : cut value "=" = None); [|by rewrite Hcut].
    induction value as [|c v IH]; [done|]. simpl in Hk. apply not_elem_of_cons in Hk as [Hc Hk].
    simpl. rewrite bool_decide_eq_false_2 by congruence. simpl. by rewrite IH.
Qed.
