(* ===== verification/Config.v ===== *)
(** The runner's configuration (common/config.go, common/consts.go): the records the
    other components read and the getters that give settings their defaults. *)

From S2P Require Import Prelude GoLib Types Variables.

Definition DefaultTimeout : Z := 7200%Z.
Definition CheckIntervalDefault : Z := (3 * Second)%Z.
Definition HealthyChecks : Z := 3%Z.
Definition HealthCheckInterval : Z := 3600%Z.
Definition KubernetesPollInterval : Z := 3%Z.
Definition KubernetesPollTimeout : Z := 180%Z.
Definition DefaultSessionTimeout : Z := (30 * Minute)%Z.
Definition PreparationRetries : nat := 3.

(** *** Cache *)

Record CacheS3Config := {
  S3_ServerAddress : string; S3_AccessKey : string; S3_SecretKey : string;
  S3_BucketName : string; S3_BucketLocation : string; S3_Insecure : bool }.

Record CacheGCSConfig := {
  GCS_AccessID : string; GCS_PrivateKey : string; GCS_CredentialsFile : string;
  GCS_BucketName : string }.

Record CacheConfig := {
  CC_Type : string; CC_Path : string; CC_Shared : bool;
  CC_S3 : option CacheS3Config; CC_GCS : option CacheGCSConfig }.

Definition ShouldUseIAMCredentials (c : CacheS3Config) : bool :=
  bool_decide (S3_ServerAddress c = "") || bool_decide (S3_AccessKey c = "")
  || bool_decide (S3_SecretKey c = "").

(** *** Docker machine *)

(** [offPeakTimePeriods]: whether the compiled off-peak periods cover a time; [None]
    when there are none. *)
Record DockerMachine := {
  IdleCount : Z; IdleTime : Z; MaxBuilds : Z; MachineDriver : string; MachineName : string;
  MachineOptions : list string; OffPeakPeriods : list string; OffPeakTimezone : string;
  OffPeakIdleCount : Z; OffPeakIdleTime : Z;
  offPeakTimePeriods : option (Z → bool) }.

Definition isOffPeak (c : DockerMachine) (now : Z) : bool :=
  match offPeakTimePeriods c with Some f => f now | None => false end.

Definition GetIdleCount (c : DockerMachine) (now : Z) : Z :=
  if isOffPeak c now then OffPeakIdleCount c else IdleCount c.

Definition GetIdleTime (c : DockerMachine) (now : Z) : Z :=
  if isOffPeak c now then OffPeakIdleTime c else IdleTime c.

(** *** Kubernetes and Docker settings *)

Definition PullPolicyAlways : string := "always".
Definition PullPolicyNever : string := "never".
Definition PullPolicyIfNotPresent : string := "if-not-present".

(** [DockerPullPolicy.Get]. *)
Definition DockerPullPolicy_Get (p : string) : result string string :=
  if bool_decide (p = "") then Ok PullPolicyAlways
  else if bool_decide (p ≠ PullPolicyNever) && bool_decide (p ≠ PullPolicyIfNotPresent)
          && bool_decide (p ≠ PullPolicyAlways)
  then Err ("unsupported docker-pull-policy: " +:+ p)
  else Ok p.

(** [KubernetesPullPolicy.Get]. *)
Definition KubernetesPullPolicy_Get (p : string) : result string string :=
  if bool_decide (p = "") then Ok ""
  else if bool_decide (p = PullPolicyAlways) then Ok "Always"
  else if bool_decide (p = PullPolicyNever) then Ok "Never"
  else if bool_decide (p = PullPolicyIfNotPresent) then Ok "IfNotPresent"
  else Err ("unsupported kubernetes-pull-policy: " +:+ p).

Record PodSecurityContext := {
  FSGroup : option Z; RunAsGroup : option Z; RunAsNonRoot : option bool;
  RunAsUser : option Z; SupplementalGroups : list Z }.

Record KubernetesConfigMap := {
  KCM_Name : string; KCM_MountPath : string; KCM_ReadOnly : bool; KCM_Items : list (string * string) }.
Record KubernetesHostPath := {
  KHP_Name : string; KHP_MountPath : string; KHP_ReadOnly : bool; KHP_HostPath : string }.
Record KubernetesPVC := { KPVC_Name : string; KPVC_MountPath : string; KPVC_ReadOnly : bool }.
Record KubernetesSecret := {
  KS_Name : string; KS_MountPath : string; KS_ReadOnly : bool; KS_Items : list (string * string) }.
Record KubernetesEmptyDir := { KED_Name : string; KED_MountPath : string; KED_Medium : string }.
Record KubernetesVolumes := {
  KV_HostPaths : list KubernetesHostPath; KV_PVCs : list KubernetesPVC;
  KV_ConfigMaps : list KubernetesConfigMap; KV_Secrets : list KubernetesSecret;
  KV_EmptyDirs : list KubernetesEmptyDir }.

(** Maps of the configuration are lists of their entries, in one order of walking them. *)
Record KubernetesConfig := {
  K_Host : string; K_CertFile : string; K_KeyFile : string; K_CAFile : string;
  K_BearerToken : string; K_BearerTokenOverwriteAllowed : bool; K_Image : string;
  K_Namespace : string; K_NamespaceOverwriteAllowed : string; K_Privileged : bool;
  K_CPULimit : string; K_MemoryLimit : string; K_ServiceCPULimit : string; K_ServiceMemoryLimit : string;
  K_HelperCPULimit : string; K_HelperMemoryLimit : string; K_CPURequest : string; K_MemoryRequest : string;
  K_ServiceCPURequest : string; K_ServiceMemoryRequest : string; K_HelperCPURequest : string;
  K_HelperMemoryRequest : string; K_PullPolicy : string; K_NodeSelector : list (string * string);
  K_NodeTolerations : list (string * string); K_ImagePullSecrets : list string; K_HelperImage : string;
  K_TerminationGracePeriodSeconds : Z; K_PollInterval : Z; K_PollTimeout : Z;
  K_PodLabels : list (string * string);
  K_ServiceAccount : string; K_ServiceAccountOverwriteAllowed : string;
  K_PodAnnotations : list (string * string); K_PodAnnotationsOverwriteAllowed : string;
  K_PodSecurityContext : PodSecurityContext; K_Volumes : KubernetesVolumes }.

(** The two getters also store the default they choose. *)
Definition GetPollInterval (PollInterval : Z) : Z :=
  if (PollInterval <=? 0)%Z then KubernetesPollInterval else PollInterval.

(** Go's integer division truncates; both operands are positive here. *)
Definition GetPollAttempts (c : KubernetesConfig) : Z :=
  let timeout := if (K_PollTimeout c <=? 0)%Z then KubernetesPollTimeout else K_PollTimeout c in
  Z.quot timeout (GetPollInterval (K_PollInterval c)).

Inductive TolerationOperator := TolerationOpEqual | TolerationOpExists.
Record Toleration := {
  T_Key : string; T_Operator : TolerationOperator; T_Value : string; T_Effect : string }.

Definition parseToleration (te : string * string) : Toleration :=
  let '(toleration, effect) := te in
  if Contains toleration "=" then
    let parts := Split toleration "=" in
    {| T_Key := hd "" parts; T_Operator := TolerationOpEqual;
       T_Value := match parts with _ :: v :: _ => v | _ => "" end; T_Effect := effect |}
  else {| T_Key := toleration; T_Operator := TolerationOpExists; T_Value := ""; T_Effect := effect |}.

(** The map is walked in any order; the list stands for one. *)
Definition GetNodeTolerations (c : KubernetesConfig) : list Toleration :=
  parseToleration <$> K_NodeTolerations c.

Definition GetPodSecurityContext (c : KubernetesConfig) : option PodSecurityContext :=
  let p := K_PodSecurityContext c in
  match FSGroup p, RunAsGroup p, RunAsNonRoot p, RunAsUser p, SupplementalGroups p with
  | None, None, None, None, [] => None
  | _, _, _, _, _ => Some p
  end.

(** *** Runners *)

(** [CustomBuildDir] is the pointer to its [Enabled] flag. The settings of the ssh,
    docker, parallels and virtualbox executors are theirs alone. *)
Record RunnerConfig := {
  Name : string; Limit : Z; OutputLimit : Z; RequestConcurrency : Z;
  Credentials_ : RunnerCredentials;
  Executor : string; BuildsDir : string; CacheDir : string; CloneURL : string;
  Environment : list string; PreCloneScript : string; PreBuildScript : string;
  PostBuildScript : string; DebugTraceDisabled : bool; Shell : string;
  CustomBuildDir : option bool; CacheCfg : option CacheConfig;
  Machine : option DockerMachine; Kubernetes : option KubernetesConfig }.

Definition Token (c : RunnerConfig) : string := RC_Token (Credentials_ c).

Definition GetRequestConcurrency (c : RunnerConfig) : Z :=
  if (RequestConcurrency c <=? 0)%Z then 1%Z else RequestConcurrency c.

Definition set_internal (v : JobVariable) : JobVariable :=
  {| Key := Key v; Value := Value v; Public := Public v; Internal := true; File := File v;
     Masked_ := Masked_ v |}.

(** [RunnerConfig.GetVariables]: entries that do not parse are dropped. *)
Definition GetVariables (c : RunnerConfig) : JobVariables :=
  omap (λ e, match ParseVariable e with Ok v => Some (set_internal v) | Err _ => None end)
       (Environment c).

Record SessionServer := {
  SS_ListenAddress : string; SS_AdvertiseAddress : string; SessionTimeout : Z }.

(** [time.Duration(c.SessionTimeout) * time.Second] is a 64-bit product. *)
Definition GetSessionTimeout (c : SessionServer) : Z :=
  if (0 <? SessionTimeout c)%Z then int64_wrap (SessionTimeout c * Second)
  else DefaultSessionTimeout.

Record Config := {
  Concurrent : Z; CheckInterval : Z; User : string; Runners : list RunnerConfig;
  Session_ : SessionServer }.

Definition GetCheckInterval (c : Config) : Z :=
  if (0 <? CheckInterval c)%Z then int64_wrap (CheckInterval c * Second) else CheckIntervalDefault.

Definition NewConfig : Config :=
  {| Concurrent := 1; CheckInterval := 0; User := ""; Runners := [];
     Session_ := {| SS_ListenAddress := ""; SS_AdvertiseAddress := "";
                    SessionTimeout := (DefaultSessionTimeout / Second)%Z |} |}.

(** [Interval] of [feedRunners] between two runners. *)
Definition feedInterval (c : Config) : Z :=
  Z.quot (GetCheckInterval c) (Z.of_nat (length (Runners c))).

(** A configuration for witnesses. *)
Definition some_runner (limit concurrency : Z) : RunnerConfig :=
  {| Name := "r"; Limit := limit; OutputLimit := 0; RequestConcurrency := concurrency;
     Credentials_ := {| RC_URL := "https://gitlab.example.com"; RC_Token := "0123456789";
                        RC_TLSCAFile := ""; RC_TLSCertFile := ""; RC_TLSKeyFile := "" |};
     Executor := "shell"; BuildsDir := ""; CacheDir := ""; CloneURL := ""; Environment := [];
     PreCloneScript := ""; PreBuildScript := ""; PostBuildScript := "";
     DebugTraceDisabled := false; Shell := ""; CustomBuildDir := None; CacheCfg := None;
     Machine := None; Kubernetes := None |}.

(** The pull policies of the two executors agree on which settings they accept, and the
    number of poll attempts never is negative. *)
Lemma pull_policies_agree p :
  (∃ x, DockerPullPolicy_Get p = Ok x) ↔ (∃ x, KubernetesPullPolicy_Get p = Ok x).
Proof.
  unfold DockerPullPolicy_Get, KubernetesPullPolicy_Get.
  repeat case_bool_decide; simpl; naive_solver.
Qed.

Lemma GetPollAttempts_range c : (0 ≤ GetPollAttempts c)%Z.
Proof.
  unfold GetPollAttempts, GetPollInterval, KubernetesPollTimeout, KubernetesPollInterval.
  apply Z.quot_pos; repeat split_match; reflect_guards; lia.
Qed.

Lemma GetRequestConcurrency_pos c : (0 < GetRequestConcurrency c)%Z.
Proof. unfold GetRequestConcurrency. split_match; reflect_guards; lia. Qed.
