(* ===== verification/TraceBuffer.v ===== *)
(** The job log buffer of helpers/trace/buffer.go: bytes written by the build are
    decoded into runes, appended one at a time, secret values are replaced by
    [[MASKED]] with the help of a trie (the vendored markelog/trie), and the log is cut
    at a size limit. [Trie] models the trie, [Buffer] the buffer and its goroutine. *)

From S2P Require Import Prelude GoLib.

(** ** The trie of masked values *)
Module Trie.

(** A node's key is the whole prefix it stands for and [Keys] of a node is indexed by
    those prefixes, so a trie is the map from the prefixes it has a node for to the
    node's [Leaf] flag. *)
Abbreviation trie := (gmap string bool).

(** One round of the loop of [Add], for the prefix of length [i]. *)
Definition add_step (key : string) (t : trie) (i : nat) : trie :=
  let sKey := stake i key in
  match t !! sKey with
  | None => <[sKey := bool_decide (sKey = key)]> t
  | Some _ => if bool_decide (sKey = key) then <[sKey := true]> t else t
  end.

Definition Add (t : trie) (key : string) : trie := foldl (add_step key) t (seq 1 (slen key)).

Definition has_node (t : trie) (k : string) : bool := bool_decide (is_Some (t !! k)).

(** [Search]: walk down the prefixes, then collect the keys of the leaves below. *)
Definition Search (t : trie) (prefix : string) : list string :=
  if forallb (λ i, has_node t (stake i prefix)) (seq 1 (slen prefix))
  then fst <$> filter (λ kv, kv.2 = true ∧ HasPrefix kv.1 prefix = true) (map_to_list t)
  else [].

Definition add_all (values : list string) : trie := foldl Add ∅ values.

Lemma stake_full_iff i key : i ≤ slen key → stake i key = key ↔ i = slen key.
Proof.
  intros Hi. split; [|intros ->; by apply stake_all].
  intros H. apply (f_equal slen) in H. rewrite slen_stake in H. lia.
Qed.

Lemma add_steps_leaf key t js k :
  Forall (λ i, i ≤ slen key) js →
  foldl (add_step key) t js !! k = Some true ↔
  t !! k = Some true ∨ (k = key ∧ slen key ∈ js).
Proof.
  revert t. induction js as [|i js IH]; intros t Hf; simpl.
  { set_solver. }
  apply Forall_cons_1 in Hf as [Hi Hf]. rewrite IH by done. unfold add_step.
  pose proof (stake_full_iff i key Hi) as Hiff. rewrite elem_of_cons.
  destruct (t !! stake i key) as [b|] eqn:Ht; case_bool_decide as Hk;
    rewrite ?lookup_insert; try case_decide; naive_solver.
Qed.

Lemma add_steps_node key t js k :
  is_Some (foldl (add_step key) t js !! k) ↔
  is_Some (t !! k) ∨ ∃ i, i ∈ js ∧ k = stake i key.
Proof.
  revert t. induction js as [|i js IH]; intros t; simpl.
  { set_solver. }
  rewrite IH. setoid_rewrite elem_of_cons. unfold add_step.
  destruct (t !! stake i key) as [b|] eqn:Ht; [case_bool_decide|];
    rewrite ?lookup_insert; try case_decide; naive_solver.
Qed.

Lemma Add_leaf t key k :
  Add t key !! k = Some true ↔ t !! k = Some true ∨ (k = key ∧ key ≠ "").
Proof.
  unfold Add. rewrite add_steps_leaf.
  - rewrite elem_of_seq. split.
    + intros [?|[-> ?]]; [by left|right]. split; [done|]. intros ->. simpl in *. lia.
    + intros [?|[-> Hk]]; [by left|right]. split; [done|]. destruct key; [done|]. simpl. lia.
  - apply Forall_forall. intros i. rewrite elem_of_seq. lia.
Qed.

Lemma Add_node t key k :
  is_Some (Add t key !! k) ↔
  is_Some (t !! k) ∨ (k ≠ "" ∧ HasPrefix key k = true).
Proof.
  unfold Add. rewrite add_steps_node. setoid_rewrite elem_of_seq. f_equiv. split.
  - intros (i & Hi & ->). split.
    + intros H. apply (f_equal slen) in H. rewrite slen_stake in H. simpl in H. lia.
    + apply HasPrefix_spec. exists (sdrop i key). by rewrite stake_sdrop.
  - intros [Hk Hp]. exists (slen k). pose proof (HasPrefix_slen _ _ Hp).
    apply HasPrefix_spec in Hp as [u ->]. rewrite stake_app_len.
    split; [|done]. destruct k; [done|simpl in *; lia].
Qed.

Lemma add_all_snoc vs v : add_all (vs ++ [v]) = Add (add_all vs) v.
Proof. unfold add_all. by rewrite foldl_app. Qed.

Lemma add_all_leaf vs k : add_all vs !! k = Some true ↔ k ∈ vs ∧ k ≠ "".
Proof.
  induction vs as [|v vs IH] using rev_ind.
  { unfold add_all. simpl. rewrite lookup_empty. set_solver. }
  rewrite add_all_snoc, Add_leaf, IH. set_solver.
Qed.

Lemma add_all_node vs k :
  is_Some (add_all vs !! k) ↔ k ≠ "" ∧ ∃ v, v ∈ vs ∧ HasPrefix v k = true.
Proof.
  induction vs as [|v vs IH] using rev_ind.
  { unfold add_all. simpl. rewrite lookup_empty. split; [by intros [? ?]|set_solver]. }
  rewrite add_all_snoc, Add_node, IH. set_solver.
Qed.

(** [Search] on the trie of [values] returns the non-empty values that start with the
    prefix, each once: the contract the buffer relies on. *)
Lemma Search_spec vs p k :
  k ∈ Search (add_all vs) p ↔ k ∈ vs ∧ k ≠ "" ∧ HasPrefix k p = true.
Proof.
  unfold Search. split.
  - destruct (forallb _ _); [|set_solver].
    intros ([k' b] & -> & [[Hb Hp] Hin]%list_elem_of_filter)%list_elem_of_fmap.
    simpl in *. subst b. apply elem_of_map_to_list, add_all_leaf in Hin as [??]. done.
  - intros (Hin & Hk & Hp).
    assert (forallb (λ i, has_node (add_all vs) (stake i p)) (seq 1 (slen p)) = true) as ->.
    { apply forallb_forall. intros i [Hi1 Hi2]%in_seq. apply bool_decide_eq_true.
      apply add_all_node. split.
      - intros H. apply (f_equal slen) in H. rewrite slen_stake in H. simpl in H. lia.
      - exists k. split; [done|]. apply (HasPrefix_trans k p); [done|].
        apply HasPrefix_spec. exists (sdrop i p). by rewrite stake_sdrop. }
    apply list_elem_of_fmap. exists (k, true). split; [done|].
    apply list_elem_of_filter. split; [done|].
    apply elem_of_map_to_list. by apply add_all_leaf.
Qed.

Lemma Search_nodup t p : NoDup (Search t p).
Proof.
  unfold Search. destruct (forallb _ _); [|constructor].
  apply NoDup_fmap_2_strong; [|apply NoDup_filter, NoDup_map_to_list].
  intros [k b] [k' b'] [_ H%elem_of_map_to_list]%list_elem_of_filter
    [_ H'%elem_of_map_to_list]%list_elem_of_filter Hk.
  simpl in Hk. subst k'. congruence.
Qed.

End Trie.

(** ** The buffer *)
Module Buffer.
Import Trie.

Definition maskedText : string := "[MASKED]".
Definition defaultBytesLimit : Z := (4 * 1024 * 1024)%Z.

(** The mutable part of the struct: [log], [logMaskedSize], [bytesLimit], [maskTree];
    [stopped] is the local of [process] that is set when the limit was reached. *)
Record Buffer := mkBuffer {
  log : string;
  logMaskedSize : nat;
  bytesLimit : Z;
  maskTree : option trie;
  stopped : bool }.

Definition New : Buffer := mkBuffer "" 0 defaultBytesLimit None false.

Definition SetMasked (b : Buffer) (values : list string) : Buffer :=
  mkBuffer (log b) (logMaskedSize b) (bytesLimit b)
    (match values with [] => None | _ => Some (add_all values) end) (stopped b).

Definition SetLimit (b : Buffer) (size : Z) : Buffer :=
  mkBuffer (log b) (logMaskedSize b) size (maskTree b) (stopped b).

Definition ESC : string := bstr 27.
Definition ANSI_BOLD_RED : string := ESC +:+ "[31;1m".
Definition ANSI_RESET : string := ESC +:+ "[0;m".
Definition nl : string := bstr 10.

Definition limitExceededMessage (b : Buffer) : string :=
  nl +:+ ANSI_BOLD_RED +:+ "Job's log exceeded limit of " +:+ Itoa (bytesLimit b)
  +:+ " bytes." +:+ ANSI_RESET +:+ nl.

Definition Bytes (b : Buffer) : string := stake (logMaskedSize b) (log b).

Definition advanceAllUnsafe (b : Buffer) : Buffer :=
  mkBuffer (log b) (slen (log b)) (bytesLimit b) (maskTree b) (stopped b).

Definition set_log (b : Buffer) (l : string) : Buffer :=
  mkBuffer l (logMaskedSize b) (bytesLimit b) (maskTree b) (stopped b).

Definition set_stopped (b : Buffer) : Buffer :=
  mkBuffer (log b) (logMaskedSize b) (bytesLimit b) (maskTree b) true.

(** The bytes not yet released: [b.log.Bytes()[b.logMaskedSize:]]. *)
Definition rest (b : Buffer) : string := sdrop (logMaskedSize b) (log b).

Definition advanceLogUnsafe (b : Buffer) : Buffer :=
  match maskTree b with
  | None => advanceAllUnsafe b
  | Some t =>
      match Search t (rest b) with
      | [] => advanceAllUnsafe b
      | [k] =>
          if bool_decide (k = rest b)
          then advanceAllUnsafe (set_log b (stake (logMaskedSize b) (log b) +:+ maskedText))
          else b
      | _ => b
      end
  end.

(** [writeRune]; the flag is the [io.EOF] the caller turns into [stopped]. *)
Definition writeRune (b : Buffer) (r : Z) : Buffer * bool :=
  let b := advanceLogUnsafe (set_log b (log b +:+ EncodeRune r)) in
  if (Z.of_nat (slen (log b)) <? bytesLimit b)%Z then (b, false)
  else (set_log b (log b +:+ limitExceededMessage b), true).

(** One round of the loop of [process] on a rune read from the pipe. *)
Definition process_rune (b : Buffer) (r : Z) : Buffer :=
  if stopped b then b
  else let '(b', eof) := writeRune b r in if eof then set_stopped b' else b'.

Definition process_runes (b : Buffer) (rs : list Z) : Buffer := foldl process_rune b rs.

(** The whole goroutine on the bytes written before the pipe was closed. *)
Definition process (b : Buffer) (input : string) : Buffer :=
  advanceAllUnsafe (process_runes b (runes input)).

(** What happens to a buffer while a job runs: runes arrive from the pipe, and the
    build changes the masked values or the limit. *)
Inductive event :=
| EvRune (r : Z)
| EvSetMasked (values : list string)
| EvSetLimit (size : Z).

Definition step (b : Buffer) (e : event) : Buffer :=
  match e with
  | EvRune r => process_rune b r
  | EvSetMasked vs => SetMasked b vs
  | EvSetLimit n => SetLimit b n
  end.

Definition run (b : Buffer) (es : list event) : Buffer := foldl step b es.

Definition wf (b : Buffer) : Prop := logMaskedSize b ≤ slen (log b).

(** *** Invariant and monotonicity *)

Definition extends (b' b : Buffer) : Prop :=
  wf b' ∧ HasPrefix (Bytes b') (Bytes b) = true.

Lemma extends_trans b2 b1 b0 : extends b2 b1 → extends b1 b0 → extends b2 b0.
Proof. intros [? ?] [? ?]. split; eauto using HasPrefix_trans. Qed.

Lemma set_log_app_extends b x : wf b → extends (set_log b (log b +:+ x)) b.
Proof.
  intros Hwf. unfold extends, wf, Bytes in *. simpl. rewrite slen_app.
  split; [lia|]. by rewrite stake_app_le, HasPrefix_refl.
Qed.

Lemma advanceAll_extends b : extends (advanceAllUnsafe b) b.
Proof.
  unfold extends, wf, Bytes. simpl. split; [done|]. rewrite stake_all by done.
  apply HasPrefix_spec. exists (rest b). symmetry. apply stake_sdrop.
Qed.

Lemma advanceLog_extends b : wf b → extends (advanceLogUnsafe b) b.
Proof.
  intros Hwf. assert (extends b b) by by (split; [|apply HasPrefix_refl]).
  unfold advanceLogUnsafe.
  destruct (maskTree b) as [t|]; [|apply advanceAll_extends].
  destruct (Search t (rest b)) as [|k [|k' ks]]; [apply advanceAll_extends| |done].
  case_bool_decide; [|done].
  unfold extends, wf, Bytes. simpl. split; [done|]. rewrite stake_all by done.
  apply HasPrefix_app.
Qed.

Lemma process_rune_extends b r : wf b → extends (process_rune b r) b.
Proof.
  intros Hwf. unfold process_rune, writeRune.
  destruct (stopped b); [by split; [|apply HasPrefix_refl]|].
  pose proof (set_log_app_extends b (EncodeRune r) Hwf) as H1.
  pose proof (advanceLog_extends _ (proj1 H1)) as H2.
  set (b1 := advanceLogUnsafe _) in *. destruct (_ <? _)%Z.
  - by eapply extends_trans.
  - pose proof (set_log_app_extends b1 (limitExceededMessage b1) (proj1 H2)) as H3.
    eapply (extends_trans _ (set_log b1 (log b1 +:+ limitExceededMessage b1))); [|by eauto using extends_trans].
    destruct H3 as [Hw _]. by split; [|apply HasPrefix_refl].
Qed.

Lemma step_extends b e : wf b → extends (step b e) b.
Proof.
  intros Hwf. destruct e; simpl; [by apply process_rune_extends| |];
    by split; [|apply HasPrefix_refl].
Qed.

Lemma run_extends b es : wf b → extends (run b es) b.
Proof.
  revert b. induction es as [|e es IH]; intros b Hwf; simpl.
  { by split; [|apply HasPrefix_refl]. }
  pose proof (step_extends b e Hwf) as H. eapply extends_trans; [|done]. apply IH, H.
Qed.

(** C13: The text a buffer has released is never taken back: whatever runes arrive and
    however the masked values and the limit change meanwhile, what [Bytes] returned
    before is a prefix of what it returns later, also after the final flush of [Close].
    (The incremental trace upload sends released bytes once and relies on this.) *)
Theorem released_bytes_are_stable b es es' :
  wf b →
  HasPrefix (Bytes (run b (es ++ es'))) (Bytes (run b es)) = true ∧
  HasPrefix (Bytes (advanceAllUnsafe (run b (es ++ es')))) (Bytes (run b es)) = true.
Proof.
  intros Hwf. pose proof (run_extends b es Hwf) as [Hw _].
  unfold run. rewrite foldl_app. pose proof (run_extends _ es' Hw) as [Hw' Hp].
  split; [done|]. eapply HasPrefix_trans; [|done]. apply advanceAll_extends.
Qed.

Lemma released_bytes_are_stable_witness :
  HasPrefix (Bytes (run New ([EvSetMasked ["ab"]; EvRune 120] ++ [EvRune 97; EvRune 98])))
    (Bytes (run New [EvSetMasked ["ab"]; EvRune 120])) = true.
Proof.
  refine (proj1 (released_bytes_are_stable New [EvSetMasked ["ab"]; EvRune 120]
                   [EvRune 97; EvRune 98] _)).
  unfold wf. simpl. lia.
Defined.

(** *** Masking *)

(** A buffer whose log is [L] released text followed by [p] held-back text. *)
Definition holding (L p : string) (lim : Z) (t : trie) : Buffer :=
  mkBuffer (L +:+ p) (slen L) lim (Some t) false.

Lemma rest_holding L p lim t : rest (holding L p lim t) = p.
Proof. apply sdrop_app_len. Qed.

Lemma process_rune_partial values v L p r lim :
  v ∈ values → v ≠ "" →
  HasPrefix v (p +:+ EncodeRune r) = true → p +:+ EncodeRune r ≠ v →
  (Z.of_nat (slen L + slen v) < lim)%Z →
  process_rune (holding L p lim (add_all values)) r =
  holding L (p +:+ EncodeRune r) lim (add_all values).
Proof.
  intros Hv Hne Hp Hneq Hlim. pose proof (HasPrefix_slen _ _ Hp) as Hlen.
  assert (Hin : v ∈ Search (add_all values) (p +:+ EncodeRune r)) by by apply Search_spec.
  assert (Hadv : advanceLogUnsafe (holding L (p +:+ EncodeRune r) lim (add_all values)) =
                 holding L (p +:+ EncodeRune r) lim (add_all values)).
  { unfold advanceLogUnsafe. simpl maskTree. cbv iota. rewrite rest_holding.
    destruct (Search (add_all values) (p +:+ EncodeRune r)) as [|k [|k' ks]];
      [by apply elem_of_nil in Hin| |done].
    apply list_elem_of_singleton in Hin as ->. by rewrite bool_decide_eq_false_2. }
  unfold process_rune, writeRune. simpl stopped. cbv iota.
  change (set_log (holding L p lim (add_all values))
            (log (holding L p lim (add_all values)) +:+ EncodeRune r)) with
    (mkBuffer ((L +:+ p) +:+ EncodeRune r) (slen L) lim (Some (add_all values)) false).
  rewrite <- string_app_assoc. fold (holding L (p +:+ EncodeRune r) lim (add_all values)).
  rewrite Hadv. simpl log. simpl bytesLimit. rewrite slen_app.
  by rewrite (proj2 (Z.ltb_lt _ _)) by lia.
Qed.

Lemma process_rune_full values v L p r lim :
  v ∈ values → v ≠ "" → p +:+ EncodeRune r = v →
  (∀ w, w ∈ values → HasPrefix w v = true → w = v) →
  (Z.of_nat (slen L + slen maskedText) < lim)%Z →
  process_rune (holding L p lim (add_all values)) r =
  mkBuffer (L +:+ maskedText) (slen (L +:+ maskedText)) lim (Some (add_all values)) false.
Proof.
  intros Hv Hne Hfull Hmax Hlim.
  assert (Hs : Search (add_all values) v = [v]).
  { assert (Hin : v ∈ Search (add_all values) v).
    { apply Search_spec. auto using HasPrefix_refl. }
    pose proof (Search_nodup (add_all values) v) as Hnd.
    assert (Hall : ∀ k, k ∈ Search (add_all values) v → k = v).
    { intros k (?&?&?)%Search_spec. eauto. }
    destruct (Search (add_all values) v) as [|k [|k' ks]].
    - by apply elem_of_nil in Hin.
    - f_equal. apply Hall. set_solver.
    - exfalso. apply NoDup_cons in Hnd as [Hnd _]. apply Hnd.
      rewrite (Hall k), (Hall k') by set_solver. set_solver. }
  unfold process_rune, writeRune. simpl stopped. cbv iota.
  change (set_log (holding L p lim (add_all values))
            (log (holding L p lim (add_all values)) +:+ EncodeRune r)) with
    (mkBuffer ((L +:+ p) +:+ EncodeRune r) (slen L) lim (Some (add_all values)) false).
  rewrite <- string_app_assoc, Hfull. fold (holding L v lim (add_all values)).
  assert (advanceLogUnsafe (holding L v lim (add_all values)) =
    mkBuffer (L +:+ maskedText) (slen (L +:+ maskedText)) lim (Some (add_all values)) false)
    as ->.
  { unfold advanceLogUnsafe. simpl maskTree. cbv iota. rewrite rest_holding, Hs.
    rewrite bool_decide_eq_true_2 by done. unfold holding, advanceAllUnsafe, set_log. simpl.
    by rewrite stake_app_len. }
  simpl log. rewrite slen_app. simpl bytesLimit.
  by rewrite (proj2 (Z.ltb_lt _ _)) by lia.
Qed.

Lemma process_runes_holding values v L p rs lim :
  v ∈ values → v ≠ "" → HasPrefix v (p +:+ encode_all rs) = true →
  p +:+ encode_all rs ≠ v → (Z.of_nat (slen L + slen v) < lim)%Z →
  process_runes (holding L p lim (add_all values)) rs =
  holding L (p +:+ encode_all rs) lim (add_all values).
Proof.
  revert p. induction rs as [|r rs IH]; intros p Hv Hne Hp Hneq Hlim; simpl.
  { simpl in *. by rewrite string_app_nil_r. }
  simpl in Hp, Hneq. rewrite string_app_assoc in Hp, Hneq.
  assert (HasPrefix v (p +:+ EncodeRune r) = true).
  { eapply HasPrefix_trans; [done|apply HasPrefix_app]. }
  rewrite (process_rune_partial values v); [|done..| |done].
  - rewrite string_app_assoc. by apply IH.
  - intros Heq. apply Hneq. apply HasPrefix_antisym; [|done]. rewrite Heq.
    apply HasPrefix_app.
Qed.



(** *** Without masking, and the limit *)

Lemma process_rune_plain L r lim :
  (Z.of_nat (slen L + slen (EncodeRune r)) < lim)%Z →
  process_rune (mkBuffer L (slen L) lim None false) r =
  mkBuffer (L +:+ EncodeRune r) (slen (L +:+ EncodeRune r)) lim None false.
Proof.
  intros Hlim. unfold process_rune, writeRune, advanceLogUnsafe, advanceAllUnsafe. simpl.
  rewrite slen_app. by rewrite (proj2 (Z.ltb_lt _ _)) by lia.
Qed.

Lemma process_runes_plain L rs lim :
  (Z.of_nat (slen L + slen (encode_all rs)) < lim)%Z →
  process_runes (mkBuffer L (slen L) lim None false) rs =
  mkBuffer (L +:+ encode_all rs) (slen (L +:+ encode_all rs)) lim None false.
Proof.
  revert L. induction rs as [|r rs IH]; intros L Hlim; simpl in *.
  { by rewrite string_app_nil_r. }
  rewrite slen_app in Hlim. rewrite process_rune_plain by lia.
  rewrite IH by (rewrite slen_app; lia). by rewrite string_app_assoc.
Qed.

(** With no masked values and below the limit the buffer is a faithful copy: for
    well-formed UTF-8 input, what [Bytes] returns after [Close] is the old log followed
    by exactly the bytes written. *)
Theorem unmasked_log_is_input L lim input :
  utf8_text input → (Z.of_nat (slen L + slen input) < lim)%Z →
  Bytes (process (mkBuffer L (slen L) lim None false) input) = L +:+ input.
Proof.
  intros Hu Hlim. unfold process. pose proof (utf8_text_encode input Hu) as He.
  rewrite process_runes_plain by by rewrite He. rewrite He.
  unfold Bytes, advanceAllUnsafe. simpl. by apply stake_all.
Qed.

Lemma unmasked_log_is_input_witness :
  Bytes (process (mkBuffer "a" 1 100 None false) "hello") = "ahello".
Proof.
  apply (unmasked_log_is_input "a" 100 "hello").
  - apply ascii_text_utf8. reflexivity.
  - vm_compute. reflexivity.
Defined.

(** What the limit allows: below it while running, and at most a replaced secret and
    the message above it once stopped. *)
Definition within_limit (b : Buffer) : Prop :=
  wf b ∧
  (if stopped b
   then Z.of_nat (slen (log b)) ≤ bytesLimit b + 7 + Z.of_nat (slen (limitExceededMessage b))
   else Z.of_nat (slen (log b)) < bytesLimit b)%Z.

Lemma advanceLog_fields b :
  bytesLimit (advanceLogUnsafe b) = bytesLimit b ∧
  stopped (advanceLogUnsafe b) = stopped b ∧
  (slen (log (advanceLogUnsafe b)) ≤ slen (log b) `max` (logMaskedSize b + 8)).
Proof.
  unfold advanceLogUnsafe. destruct (maskTree b) as [t|]; [|split_and!; simpl; [done..|lia]].
  destruct (Search t (rest b)) as [|k [|k' ks]]; [| |by split_and!; simpl; [..|lia]].
  { split_and!; simpl; [done..|lia]. }
  case_bool_decide; split_and!; simpl; [done..| |done|done|lia].
  rewrite slen_app, slen_stake. simpl. lia.
Qed.

Lemma process_rune_within b r : within_limit b → within_limit (process_rune b r).
Proof.
  intros [Hwf Hl]. split; [by apply process_rune_extends|].
  unfold process_rune, writeRune. destruct (stopped b) eqn:Hs; [by rewrite Hs|].
  pose proof (advanceLog_fields (set_log b (log b +:+ EncodeRune r))) as (Hb & Hst & Hlen).
  set (b1 := advanceLogUnsafe _) in *. simpl in Hb, Hst, Hlen.
  rewrite slen_app in Hlen. pose proof (EncodeRune_slen r). unfold wf in Hwf.
  destruct (Z.ltb_spec (Z.of_nat (slen (log b1))) (bytesLimit b1)).
  - rewrite Hst, Hs. lia.
  - change (limitExceededMessage (set_stopped ?x)) with (limitExceededMessage b1).
    simpl stopped. simpl log. simpl bytesLimit. cbv iota.
    rewrite slen_app. rewrite Hb in *. lia.
Qed.

(** C33: The log stays within the limit: from a fresh buffer under the limit, whatever
    is written, the log never exceeds the limit by more than the replacement text of one
    secret and the limit message, and once the limit was reached nothing is added. *)
Theorem log_size_is_bounded b rs :
  within_limit b →
  within_limit (process_runes b rs) ∧
  (stopped (process_runes b rs) = true → ∀ rs', process_runes (process_runes b rs) rs' = process_runes b rs).
Proof.
  intros Hb. split.
  - revert b Hb. induction rs as [|r rs IH]; intros b Hb; simpl; [done|].
    by apply IH, process_rune_within.
  - generalize (process_runes b rs) as c. intros c Hc rs'.
    induction rs' as [|r rs' IH]; simpl; [done|].
    assert (process_rune c r = c) as -> by (unfold process_rune; by rewrite Hc). done.
Qed.

Lemma log_size_is_bounded_witness : within_limit (process_runes New [97; 98]%Z).
Proof.
  refine (proj1 (log_size_is_bounded New [97; 98]%Z _)). split; [unfold wf; simpl; lia|].
  vm_compute. reflexivity.
Defined.

(** *** Where masking misses *)

(** Secrets the masking misses. The scan does not restart inside a failed match: with
    [aab] masked, the input [aaab] contains the secret and is released unchanged,
    because the first [a] is held back, the third [a] ends the match and everything held
    back is released together. And a secret that is a proper prefix of another secret
    is not masked unless the longer one follows: with [abc] and [abcd] masked, [abcx] is
    released unchanged. *)
Theorem masking_misses_secrets :
  Bytes (process (SetMasked New ["aab"]) "aaab") = "aaab" ∧ Contains "aaab" "aab" = true ∧
  Bytes (process (SetMasked New ["abc"; "abcd"]) "abcx") = "abcx" ∧ Contains "abcx" "abc" = true.
Proof. vm_compute. done. Qed.

End Buffer.
