(* ===== verification/JobTrace.v ===== *)
(** The job trace of network/trace.go: the client side of the incremental log upload and
    of the job status updates. The network is an interface ([TraceNetwork]); what a
    coordinator promises about it is the class [Coordinator], against which the upload
    is proved complete. GitLabClient.v discharges the interface. *)

From S2P Require Import Prelude GoLib Types TraceBuffer.
Import TraceBuffer.Buffer.

(** The methods of [common.Network] the trace calls, for one job: the first argument is
    the state of the world. *)
Class TraceNetwork (W : Type) := {
  PatchTrace : W → string → Z → (Z * UpdateState) * W;
  UpdateJob : W → JobState → JobFailureReason → UpdateState * W }.

Definition DefaultOutputLimit : Z := (4 * 1024 * 1024)%Z.
Definition DefaultTracePatchLimit : Z := (1024 * 1024)%Z.
Definition ForceTraceSentInterval : Z := (30 * Second)%Z.

(** [failures] is what the failures collector was told; [cancelFunc] is whether a
    cancel function is set, [canceled] how often one was called. *)
Record clientJobTrace := mkTrace {
  buffer : Buffer;
  state : JobState;
  failureReason : JobFailureReason;
  sentTrace : Z;
  sentTime : Z;
  sentState : JobState;
  cancelFunc : bool;
  canceled : nat;
  hasCollector : bool;
  failures : list JobFailureReason;
  maxTracePatchSize : Z;
  forceSendInterval : Z }.

Definition set_buffer (c : clientJobTrace) (b : Buffer) : clientJobTrace :=
  mkTrace b (state c) (failureReason c) (sentTrace c) (sentTime c) (sentState c)
    (cancelFunc c) (canceled c) (hasCollector c) (failures c) (maxTracePatchSize c)
    (forceSendInterval c).

Definition set_state (c : clientJobTrace) (s : JobState) : clientJobTrace :=
  mkTrace (buffer c) s (failureReason c) (sentTrace c) (sentTime c) (sentState c)
    (cancelFunc c) (canceled c) (hasCollector c) (failures c) (maxTracePatchSize c)
    (forceSendInterval c).

Definition set_sent (c : clientJobTrace) (off : Z) (now : Z) : clientJobTrace :=
  mkTrace (buffer c) (state c) (failureReason c) off now (sentState c)
    (cancelFunc c) (canceled c) (hasCollector c) (failures c) (maxTracePatchSize c)
    (forceSendInterval c).

Definition set_sentState (c : clientJobTrace) (s : JobState) (now : Z) : clientJobTrace :=
  mkTrace (buffer c) (state c) (failureReason c) (sentTrace c) now s
    (cancelFunc c) (canceled c) (hasCollector c) (failures c) (maxTracePatchSize c)
    (forceSendInterval c).

(** [newJobTrace]; Go's zero values for the rest. The zero [JobState] is the empty
    string, which is no state of the enumeration; [start] sets both states before
    anything reads them, so [Pending] stands for it here. *)
Definition newJobTrace : clientJobTrace :=
  mkTrace New Pending NoneFailure 0 0 Pending false 0 false [] DefaultTracePatchLimit
    ForceTraceSentInterval.

Definition setupLogLimit (c : clientJobTrace) (OutputLimit : Z) : clientJobTrace :=
  let bytesLimit := int64_wrap (OutputLimit * 1024) in
  let bytesLimit := if (bytesLimit =? 0)%Z then DefaultOutputLimit else bytesLimit in
  set_buffer c (SetLimit (buffer c) bytesLimit).

Definition start (c : clientJobTrace) (OutputLimit : Z) : clientJobTrace :=
  let c := mkTrace (buffer c) Running (failureReason c) (sentTrace c) (sentTime c) Running
             (cancelFunc c) (canceled c) (hasCollector c) (failures c)
             (maxTracePatchSize c) (forceSendInterval c) in
  setupLogLimit c OutputLimit.

Definition SetCancelFunc (c : clientJobTrace) : clientJobTrace :=
  mkTrace (buffer c) (state c) (failureReason c) (sentTrace c) (sentTime c) (sentState c)
    true (canceled c) (hasCollector c) (failures c) (maxTracePatchSize c)
    (forceSendInterval c).

Definition SetFailuresCollector (c : clientJobTrace) : clientJobTrace :=
  mkTrace (buffer c) (state c) (failureReason c) (sentTrace c) (sentTime c) (sentState c)
    (cancelFunc c) (canceled c) true (failures c) (maxTracePatchSize c)
    (forceSendInterval c).

Definition setFailure (c : clientJobTrace) (reason : JobFailureReason) : clientJobTrace :=
  mkTrace (buffer c) Failed reason (sentTrace c) (sentTime c) (sentState c)
    (cancelFunc c) (canceled c) (hasCollector c)
    (if hasCollector c then failures c ++ [reason] else failures c)
    (maxTracePatchSize c) (forceSendInterval c).

(** [abort]: call the cancel function once. *)
Definition abort (c : clientJobTrace) : bool * clientJobTrace :=
  if cancelFunc c
  then (true, mkTrace (buffer c) (state c) (failureReason c) (sentTrace c) (sentTime c)
                (sentState c) false (S (canceled c)) (hasCollector c) (failures c)
                (maxTracePatchSize c) (forceSendInterval c))
  else (false, c).

Definition traceLen (c : clientJobTrace) : Z := Z.of_nat (slen (Bytes (buffer c))).

Definition anyTraceToSend (c : clientJobTrace) : bool := negb (traceLen c =? sentTrace c)%Z.

(** The slice [trace[sentTrace:]] cut to the patch size; [None] where Go panics because
    the offset is outside the slice. *)
Definition patchContent (c : clientJobTrace) : option string :=
  if ((sentTrace c <? 0) || (traceLen c <? sentTrace c))%Z then None
  else let content := sdrop (Z.to_nat (sentTrace c)) (Bytes (buffer c)) in
       Some (if (maxTracePatchSize c <? Z.of_nat (slen content))%Z
             then stake (Z.to_nat (maxTracePatchSize c)) content else content).

Section Network.
Context {W : Type} `{!TraceNetwork W}.

(** [sendPatch]; [None] is the panic of the slice expression. *)
Definition sendPatch (c : clientJobTrace) (w : W) (now : Z)
    : option (UpdateState * clientJobTrace * W) :=
  if (traceLen c =? sentTrace c)%Z then Some (UpdateSucceeded, c, w)
  else match patchContent c with
       | None => None
       | Some content =>
           let '((sentOffset, st), w') := PatchTrace w content (sentTrace c) in
           match st with
           | UpdateSucceeded | UpdateRangeMismatch => Some (st, set_sent c sentOffset now, w')
           | _ => Some (st, c, w')
           end
       end.

Definition sendUpdate (c : clientJobTrace) (w : W) (now : Z) (force : bool)
    : UpdateState * clientJobTrace * W :=
  let shouldUpdateState := bool_decide (state c ≠ sentState c) in
  let shouldRefresh := (forceSendInterval c <? now - sentTime c)%Z in
  if negb force && negb shouldUpdateState && negb shouldRefresh
  then (UpdateSucceeded, c, w)
  else let '(status, w') := UpdateJob w (state c) (failureReason c) in
       match status with
       | UpdateSucceeded => (status, set_sentState c (state c) now, w')
       | _ => (status, c, w')
       end.

Definition incrementalUpdate (c : clientJobTrace) (w : W) (now : Z)
    : option (UpdateState * clientJobTrace * W) :=
  match sendPatch c w now with
  | None => None
  | Some (UpdateSucceeded, c', w') => Some (sendUpdate c' w' now false)
  | Some r => Some r
  end.

(** The loops sleep [finishRetryInterval] between rounds; the clock argument of a round
    is given by [clock]. [fuel] bounds the rounds: [OutOfFuel] is "still running". *)
Inductive loop (A : Type) := Finished (a : A) | Panicked | OutOfFuel.
Arguments Finished {A} a.
Arguments Panicked {A}.
Arguments OutOfFuel {A}.

Fixpoint finalTraceUpdate (fuel : nat) (clock : nat → Z) (c : clientJobTrace) (w : W)
    : loop (clientJobTrace * W) :=
  match fuel with
  | 0 => OutOfFuel
  | S k =>
      if anyTraceToSend c then
        match sendPatch c w (clock k) with
        | None => Panicked
        | Some (st, c', w') =>
            match st with
            | UpdateAbort | UpdateNotFound => Finished (c', w')
            | UpdateSucceeded | UpdateRangeMismatch | UpdateFailed =>
                finalTraceUpdate k clock c' w'
            end
        end
      else Finished (c, w)
  end.

Fixpoint finalStatusUpdate (fuel : nat) (clock : nat → Z) (c : clientJobTrace) (w : W)
    : loop (clientJobTrace * W) :=
  match fuel with
  | 0 => OutOfFuel
  | S k =>
      let '(st, c', w') := sendUpdate c w (clock k) true in
      match st with
      | UpdateFailed => finalStatusUpdate k clock c' w'
      | _ => Finished (c', w')
      end
  end.

(** [finish]: the buffer is closed (its goroutine flushes what it held back and what
    was still in the pipe, [input]), the watcher is stopped, then the two final loops. *)
Definition finish (fuel : nat) (clock : nat → Z) (input : string) (c : clientJobTrace) (w : W)
    : loop (clientJobTrace * W) :=
  let c := set_buffer c (process (buffer c) input) in
  match finalTraceUpdate fuel clock c w with
  | Finished (c', w') => finalStatusUpdate fuel clock c' w'
  | r => r
  end.

(** [Fail]; [err] is whether the error is not nil. *)
Definition Fail (fuel : nat) (clock : nat → Z) (input : string) (err : bool)
    (reason : JobFailureReason) (c : clientJobTrace) (w : W) : loop (clientJobTrace * W) :=
  match state c with
  | Running =>
      let c := if err then setFailure c reason else set_state c Success in
      finish fuel clock input c w
  | _ => Finished (c, w)
  end.

(** One round of [watch] on the ticker; the flag tells whether the goroutine now only
    waits for [finished]. *)
Definition watch_tick (c : clientJobTrace) (w : W) (now : Z)
    : option (bool * clientJobTrace * W) :=
  match incrementalUpdate c w now with
  | None => None
  | Some (st, c', w') =>
      match st with
      | UpdateAbort => let '(aborted, c'') := abort c' in Some (aborted, c'', w')
      | _ => Some (false, c', w')
      end
  end.

End Network.
Arguments Finished {A} a.
Arguments Panicked {A}.
Arguments OutOfFuel {A}.

(** ** The upload against a coordinator *)

(** What the upload relies on: the coordinator keeps the trace it accepted ([remote]);
    a patch at its end is appended, one elsewhere is answered with the offset to
    continue from, and a request may fail, also after the patch was stored, but only
    [faults] many times. [reported] is the last status it recorded. The promise covers
    patches that are not empty and whose offsets fit a Go [int]. *)
Class Coordinator (W : Type) `{!TraceNetwork W} := {
  ready : W → Prop;
  remote : W → string;
  faults : W → nat;
  reported : W → option (JobState * JobFailureReason);
  patch_outcome : ∀ w content off r st w',
    ready w → content ≠ "" → (0 ≤ off)%Z →
    (off + Z.of_nat (slen content) ≤ int64_max)%Z →
    (Z.of_nat (slen (remote w)) ≤ int64_max)%Z →
    PatchTrace w content off = ((r, st), w') →
    ready w' ∧
    ((st = UpdateSucceeded ∧ off = Z.of_nat (slen (remote w)) ∧
     remote w' = remote w +:+ content ∧ r = Z.of_nat (slen (remote w')) ∧
     faults w' ≤ faults w) ∨
    (st = UpdateRangeMismatch ∧ off ≠ Z.of_nat (slen (remote w)) ∧
     remote w' = remote w ∧ r = Z.of_nat (slen (remote w)) ∧ faults w' ≤ faults w) ∨
    (st = UpdateFailed ∧ faults w' < faults w ∧
     (remote w' = remote w ∨
      off = Z.of_nat (slen (remote w)) ∧ remote w' = remote w +:+ content)));
  update_outcome : ∀ w s reason st w',
    ready w → UpdateJob w s reason = (st, w') →
    ready w' ∧ remote w' = remote w ∧
    ((st = UpdateSucceeded ∧ reported w' = Some (s, reason) ∧ faults w' ≤ faults w) ∨
     (st = UpdateFailed ∧ faults w' < faults w)) }.

Section Upload.
Context {W : Type} `{!TraceNetwork W} `{!Coordinator W}.
Implicit Types (c : clientJobTrace) (w : W).

(** The coordinator holds a prefix of the released trace, at least as long as the
    runner believes. *)
Definition synced c w : Prop :=
  ready w ∧ wf (buffer c) ∧ HasPrefix (Bytes (buffer c)) (remote w) = true ∧
  (0 ≤ sentTrace c ≤ Z.of_nat (slen (remote w)))%Z.

Lemma synced_bounds c w :
  synced c w → slen (remote w) ≤ slen (Bytes (buffer c)) ∧ (0 ≤ sentTrace c ≤ traceLen c)%Z.
Proof.
  intros (_ & _ & Hp & Hs). pose proof (HasPrefix_slen _ _ Hp). unfold traceLen. lia.
Qed.

Lemma synced_done c w :
  synced c w → sentTrace c = traceLen c → remote w = Bytes (buffer c).
Proof.
  intros (_ & _ & Hp & Hs) Heq. apply HasPrefix_spec in Hp as [u Hu].
  unfold traceLen in Heq. rewrite Hu, slen_app in Heq.
  assert (slen u = 0) as ->%slen_0 by lia. by rewrite Hu, string_app_nil_r.
Qed.

(** The patch is the next chunk of the trace, and it is not empty. *)
Lemma patchContent_spec c :
  (0 ≤ sentTrace c < traceLen c)%Z → (0 < maxTracePatchSize c)%Z →
  ∃ content, patchContent c = Some content ∧ content ≠ "" ∧
    (sentTrace c + Z.of_nat (slen content) ≤ traceLen c)%Z ∧
    (Z.of_nat (slen content) ≤ maxTracePatchSize c)%Z ∧
    HasPrefix (sdrop (Z.to_nat (sentTrace c)) (Bytes (buffer c))) content = true.
Proof.
  intros Hs Hm. unfold patchContent. unfold traceLen in *.
  rewrite (proj2 (Z.ltb_ge _ _)), (proj2 (Z.ltb_ge _ _)) by lia. simpl.
  set (rest := sdrop _ _).
  assert (Hr : slen rest = slen (Bytes (buffer c)) - Z.to_nat (sentTrace c)) by apply slen_sdrop.
  eexists. split; [done|].
  destruct (Z.ltb_spec (maxTracePatchSize c) (Z.of_nat (slen rest))).
  - split_and!; [|rewrite slen_stake; lia..|].
    + intros Hc. apply (f_equal slen) in Hc. rewrite slen_stake in Hc. simpl in Hc. lia.
    + apply HasPrefix_spec. eexists. symmetry. apply stake_sdrop.
  - split_and!; [|lia..|apply HasPrefix_refl].
    intros Hc. rewrite Hc in Hr. simpl in Hr. lia.
Qed.

Lemma append_chunk (B r x : string) n :
  HasPrefix B r = true → n = slen r → HasPrefix (sdrop n B) x = true →
  HasPrefix B (r +:+ x) = true.
Proof.
  intros [u ->]%HasPrefix_spec -> Hx. rewrite sdrop_app_len in Hx.
  apply HasPrefix_spec in Hx as [v ->]. apply HasPrefix_spec. exists v. apply string_app_assoc.
Qed.

(** How much is left to do: each round of the final loop makes it smaller. *)
Definition remaining c w : nat :=
  2 * (slen (Bytes (buffer c)) - slen (remote w)) + 2 * faults w +
  (if (sentTrace c =? Z.of_nat (slen (remote w)))%Z then 0 else 1).

Lemma sendPatch_synced c w now :
  synced c w → (0 < maxTracePatchSize c)%Z → (traceLen c ≤ int64_max)%Z →
  sentTrace c ≠ traceLen c →
  ∃ st c' w', sendPatch c w now = Some (st, c', w') ∧
    (st = UpdateSucceeded ∨ st = UpdateRangeMismatch ∨ st = UpdateFailed) ∧
    synced c' w' ∧ buffer c' = buffer c ∧ state c' = state c ∧
    failureReason c' = failureReason c ∧ sentState c' = sentState c ∧
    maxTracePatchSize c' = maxTracePatchSize c ∧
    faults w' ≤ faults w ∧ remaining c' w' < remaining c w.
Proof.
  intros Hsy Hm Hmax Hne. pose proof (synced_bounds _ _ Hsy) as [Hlen Hb].
  destruct Hsy as (Hrd & Hwf & Hp & Hs).
  destruct (patchContent_spec c) as (content & Hc & Hne' & Hend & _ & Hpre); [lia|done|].
  assert (Hpos : 0 < slen content) by (destruct content; [done|simpl; lia]).
  unfold sendPatch. rewrite (proj2 (Z.eqb_neq _ _)) by congruence. rewrite Hc.
  assert (Happ : sentTrace c = Z.of_nat (slen (remote w)) →
                 HasPrefix (Bytes (buffer c)) (remote w +:+ content) = true).
  { intros Heq. eapply append_chunk; [done| |done]. lia. }
  destruct (PatchTrace w content (sentTrace c)) as [[r st] w'] eqn:HP.
  unfold remaining, synced.
  apply patch_outcome in HP as [Hrd' HP]; [|done|done|lia|lia|unfold traceLen in *; lia].
  destruct HP as [(-> & Ho & Hr & -> & Hf)|[(-> & Ho & Hr & -> & Hf)|(-> & Hf & Hr)]].
  - specialize (Happ Ho). pose proof (HasPrefix_slen _ _ Happ) as Hl. rewrite slen_app in Hl.
    eexists _, _, _. split_and!; [done|tauto|done|done|simpl; by rewrite Hr|simpl; try done; lia..|].
    simpl. rewrite Hr, slen_app, Z.eqb_refl. split_match; lia.
  - eexists _, _, _. split_and!; [done|tauto|done|done|simpl; by rewrite Hr|simpl; try done; rewrite ?Hr; lia..|].
    simpl. rewrite Hr, Z.eqb_refl, (proj2 (Z.eqb_neq _ _)) by done. lia.
  - eexists _, _, _.
    assert (Hr' : HasPrefix (Bytes (buffer c)) (remote w') = true ∧ slen (remote w) ≤ slen (remote w')).
    { destruct Hr as [->|[Ho ->]]; [by split|]. rewrite slen_app. split; [by apply Happ|lia]. }
    destruct Hr' as [Hr1 Hr2].
    split_and!; [done|tauto|try done; lia..|].
    repeat split_match; lia.
Qed.

Lemma finalTraceUpdate_complete fuel clock c w :
  synced c w → (0 < maxTracePatchSize c)%Z → (traceLen c ≤ int64_max)%Z → remaining c w < fuel →
  ∃ c' w', finalTraceUpdate fuel clock c w = Finished (c', w') ∧
    synced c' w' ∧ remote w' = Bytes (buffer c) ∧ buffer c' = buffer c ∧
    state c' = state c ∧ failureReason c' = failureReason c ∧ faults w' ≤ faults w.
Proof.
  revert c w. induction fuel as [|k IH]; intros c w Hsy Hm Hmax Hf; [lia|].
  simpl. unfold anyTraceToSend.
  destruct (Z.eqb_spec (traceLen c) (sentTrace c)) as [Heq|Hne]; simpl.
  { exists c, w. split_and!; try done. by apply synced_done. }
  destruct (sendPatch_synced c w (clock k)) as (st & c' & w' & -> & Hst & Hsy' & Hb & Hs & Hr & _ & Hmx & Hfa & Hrem);
    [done|done|done|congruence|].
  destruct (IH c' w') as (c'' & w'' & Hrun & Hsy'' & Hrem' & Hb' & Hs' & Hr' & Hfa'); [done|by rewrite Hmx|by unfold traceLen; rewrite Hb|lia|].
  exists c'', w''. rewrite Hb, Hs, Hr in *.
  split_and!; try done; [|lia]. by destruct Hst as [->|[->| ->]].
Qed.

Lemma finalStatusUpdate_complete fuel clock c w :
  ready w → faults w < fuel →
  ∃ c' w', finalStatusUpdate fuel clock c w = Finished (c', w') ∧
    remote w' = remote w ∧ reported w' = Some (state c, failureReason c) ∧
    sentState c' = state c' ∧ state c' = state c ∧ buffer c' = buffer c.
Proof.
  revert c w. induction fuel as [|k IH]; intros c w Hrd Hf; [lia|].
  simpl. unfold sendUpdate. simpl.
  destruct (UpdateJob w (state c) (failureReason c)) as [st w'] eqn:HU.
  destruct (update_outcome _ _ _ _ _ Hrd HU) as (Hrd' & Hr & [(-> & Hrep & _)|(-> & Hlt)]).
  { eexists _, _. by split_and!. }
  destruct (IH c w') as (c'' & w'' & ? & ? & ? & ? & ? & ?); [done|lia|].
  exists c'', w''. split_and!; try done; by etrans.
Qed.

(** *** A whole job: writes, ticks of the watcher, and the end *)

Inductive action := ABuffer (e : event) | ATick (now : Z).

(** [None] is a panic of the watcher. *)
Definition act (s : clientJobTrace * W) (a : action) : option (clientJobTrace * W) :=
  let '(c, w) := s in
  match a with
  | ABuffer e => Some (set_buffer c (step (buffer c) e), w)
  | ATick now => match watch_tick c w now with
                 | Some (_, c', w') => Some (c', w')
                 | None => None
                 end
  end.

Definition acts (s : clientJobTrace * W) (l : list action) : option (clientJobTrace * W) :=
  foldl (λ o a, match o with Some s => act s a | None => None end) (Some s) l.

Lemma synced_buffer c w b : synced c w → extends b (buffer c) → synced (set_buffer c b) w.
Proof.
  intros (Hrd & Hwf & Hp & Hs) [Hwf' Hp'].
  do 2 (split; [done|]). split; [|done]. by eapply HasPrefix_trans.
Qed.

Lemma sendUpdate_synced c w now force st c' w' :
  sendUpdate c w now force = (st, c', w') → synced c w →
  st ≠ UpdateAbort ∧ synced c' w' ∧ buffer c' = buffer c ∧ state c' = state c ∧
  maxTracePatchSize c' = maxTracePatchSize c ∧ failureReason c' = failureReason c ∧
  faults w' ≤ faults w.
Proof.
  unfold sendUpdate. intros H Hsy. destruct (negb force && _ && _).
  { by simplify_eq. }
  destruct (UpdateJob w (state c) (failureReason c)) as [st0 w0] eqn:HU.
  destruct (update_outcome _ _ _ _ _ (proj1 Hsy) HU) as (Hrd & Hr & [(-> & _ & ?)|(-> & ?)]);
    simplify_eq; unfold synced in *; rewrite Hr; split_and!; try done; try apply Hsy; lia.
Qed.

Lemma watch_tick_synced c w now :
  synced c w → (0 < maxTracePatchSize c)%Z → (traceLen c ≤ int64_max)%Z →
  ∃ c' w', watch_tick c w now = Some (false, c', w') ∧ synced c' w' ∧
    buffer c' = buffer c ∧ state c' = state c ∧
    maxTracePatchSize c' = maxTracePatchSize c ∧ failureReason c' = failureReason c ∧
    faults w' ≤ faults w.
Proof.
  intros Hsy Hm Hmax. unfold watch_tick, incrementalUpdate.
  assert (∃ st c' w', sendPatch c w now = Some (st, c', w') ∧
    (st = UpdateSucceeded ∨ st = UpdateRangeMismatch ∨ st = UpdateFailed) ∧
    synced c' w' ∧ buffer c' = buffer c ∧ state c' = state c ∧
    maxTracePatchSize c' = maxTracePatchSize c ∧ failureReason c' = failureReason c ∧
    faults w' ≤ faults w) as (st & c' & w' & -> & Hst & Hsy' & Hb & Hs & Hmx & Hr & Hf).
  { destruct (decide (sentTrace c = traceLen c)) as [Heq|Hne].
    - unfold sendPatch. rewrite Heq, Z.eqb_refl. eexists _, _, _. split_and!; try done. tauto.
    - destruct (sendPatch_synced c w now) as (st & c' & w' & ? & ? & ? & ? & ? & ? & ? & ? & ? & ?); [done..|].
      exists st, c', w'. by split_and!. }
  destruct Hst as [->|[->| ->]]; [|by exists c', w'..].
  destruct (sendUpdate c' w' now false) as [[st2 c2] w2] eqn:HU.
  pose proof (sendUpdate_synced _ _ _ _ _ _ _ HU Hsy') as (Hna & ? & Hb2 & Hs2 & Hm2 & Hr2 & Hf2).
  exists c2, w2. rewrite Hb2, Hs2, Hm2, Hr2. split_and!; try done; [by destruct st2|lia].
Qed.

(** The events of the log among the actions; the log does not depend on the network. *)
Definition written (l : list action) : list event :=
  omap (λ a, match a with ABuffer e => Some e | ATick _ => None end) l.

Lemma acts_synced c w l :
  synced c w → (0 < maxTracePatchSize c)%Z →
  (Z.of_nat (slen (Bytes (run (buffer c) (written l)))) ≤ int64_max)%Z →
  ∃ c' w', acts (c, w) l = Some (c', w') ∧ synced c' w' ∧ state c' = state c ∧
    maxTracePatchSize c' = maxTracePatchSize c ∧ failureReason c' = failureReason c ∧
    faults w' ≤ faults w ∧ buffer c' = run (buffer c) (written l).
Proof.
  revert c w. induction l as [|a l IH]; intros c w Hsy Hm Hmax.
  { exists c, w. by do 6 (split; [done|]). }
  destruct a as [e|now].
  - pose proof (step_extends (buffer c) e (proj1 (proj2 Hsy))) as Hx.
    apply (IH (set_buffer c (step (buffer c) e)) w); [by apply synced_buffer|done|done].
  - assert (Hlen : (traceLen c ≤ int64_max)%Z).
    { destruct (run_extends (buffer c) (written l)) as [_ Hp]; [apply Hsy|].
      apply HasPrefix_slen in Hp. unfold traceLen. simpl in Hmax. lia. }
    destruct (watch_tick_synced c w now Hsy Hm Hlen)
      as (c1 & w1 & Ht & Hsy1 & Hb1 & Hs1 & Hm1 & Hr1 & Hf1).
    destruct (IH c1 w1) as (c' & w' & Ha & ? & Hs' & Hm' & Hr' & Hf' & Hx');
      [done|by rewrite Hm1|by rewrite Hb1|].
    exists c', w'. rewrite <- Hs1, <- Hm1, <- Hr1. simpl. rewrite <- Hb1.
    (split; [unfold acts; simpl; by rewrite Ht|]). do 4 (split; [done|]). by split; [lia|].
Qed.

End Upload.

(** ** A coordinator to run against *)

(** It stores patches at its end; [schedule] says which of the next requests fail,
    and whether the patch of a failing request was stored before the answer got lost. *)
Module Scripted.
Inductive fault := Healthy | LostRequest | LostAnswer.
Record world := mkWorld {
  stored : string; schedule : list fault; status : option (JobState * JobFailureReason) }.

Definition store (w : world) (content : string) (off : Z) : (Z * UpdateState) * string :=
  let n := Z.of_nat (slen (stored w)) in
  if (off =? n)%Z
  then ((n + Z.of_nat (slen content), UpdateSucceeded)%Z, stored w +:+ content)
  else ((n, UpdateRangeMismatch), stored w).

#[global] Instance network : TraceNetwork world := {
  PatchTrace w content off :=
    let '(answer, s) := store w content off in
    match schedule w with
    | LostRequest :: fs => ((off, UpdateFailed), mkWorld (stored w) fs (status w))
    | LostAnswer :: fs => ((off, UpdateFailed), mkWorld s fs (status w))
    | fs => (answer, mkWorld s (tail fs) (status w))
    end;
  UpdateJob w s reason :=
    match schedule w with
    | Healthy :: fs => (UpdateSucceeded, mkWorld (stored w) fs (Some (s, reason)))
    | _ :: fs => (UpdateFailed, mkWorld (stored w) fs (status w))
    | [] => (UpdateSucceeded, mkWorld (stored w) [] (Some (s, reason)))
    end }.

Lemma patch_ok w content off r st w' :
  True → content ≠ "" → (0 ≤ off)%Z → (off + Z.of_nat (slen content) ≤ int64_max)%Z →
  (Z.of_nat (slen (stored w)) ≤ int64_max)%Z →
  PatchTrace w content off = ((r, st), w') →
  True ∧
  ((st = UpdateSucceeded ∧ off = Z.of_nat (slen (stored w)) ∧
   stored w' = stored w +:+ content ∧ r = Z.of_nat (slen (stored w')) ∧
   length (schedule w') ≤ length (schedule w)) ∨
  (st = UpdateRangeMismatch ∧ off ≠ Z.of_nat (slen (stored w)) ∧
   stored w' = stored w ∧ r = Z.of_nat (slen (stored w)) ∧
   length (schedule w') ≤ length (schedule w)) ∨
  (st = UpdateFailed ∧ length (schedule w') < length (schedule w) ∧
   (stored w' = stored w ∨
    off = Z.of_nat (slen (stored w)) ∧ stored w' = stored w +:+ content))).
Proof.
  intros _ _ _ _ _. destruct w as [s fs t]. unfold PatchTrace, network, store. simpl.
  destruct (Z.eqb_spec off (Z.of_nat (slen s))); destruct fs as [|[| |] fs];
    intros [= <- <- <-]; simpl; rewrite ?slen_app, ?Nat2Z.inj_add; (split; [done|]);
    first [left; split_and!; (done || lia) | right; left; split_and!; (done || lia)
          | right; right; split_and!; [done|lia|tauto]].
Qed.

Lemma update_ok w js reason st w' :
  True → UpdateJob w js reason = (st, w') →
  True ∧ stored w' = stored w ∧
  ((st = UpdateSucceeded ∧ status w' = Some (js, reason) ∧
    length (schedule w') ≤ length (schedule w)) ∨
   (st = UpdateFailed ∧ length (schedule w') < length (schedule w))).
Proof.
  intros _. destruct w as [s fs t]. unfold UpdateJob, network. simpl.
  destruct fs as [|[| |] fs]; intros [= <- <-]; simpl; (split; [done|]); (split; [done|]);
    first [left; split_and!; (done || lia) | right; split; (done || lia)].
Qed.

#[global] Instance coordinator : Coordinator world := {
  ready _ := True; remote := stored; faults w := length (schedule w); reported := status;
  patch_outcome := patch_ok; update_outcome := update_ok }.
End Scripted.

Section Delivery.
Context {W : Type} `{!TraceNetwork W} `{!Coordinator W}.

Lemma process_extends b input : wf b → extends (process b input) b.
Proof.
  intros Hwf. eapply extends_trans; [apply advanceAll_extends|].
  unfold process_runes. generalize (runes input) as rs. intros rs.
  pose proof (run_extends b (EvRune <$> rs) Hwf) as H. unfold run in H.
  by rewrite foldl_fmap in H.
Qed.

Lemma Fail_delivers fuel clock input err reason (c : clientJobTrace) (w : W) :
  synced c w → (0 < maxTracePatchSize c)%Z → state c = Running →
  (Z.of_nat (slen (Bytes (process (buffer c) input))) ≤ int64_max)%Z →
  2 * slen (Bytes (process (buffer c) input)) + 2 * faults w + 2 ≤ fuel →
  ∃ c' w', Fail fuel clock input err reason c w = Finished (c', w') ∧
    remote w' = Bytes (process (buffer c) input) ∧
    buffer c' = process (buffer c) input ∧
    reported w' = Some (if err then (Failed, reason) else (Success, failureReason c)) ∧
    sentState c' = state c'.
Proof.
  intros Hsy Hm Hrun Hmax Hf. unfold Fail, finish. rewrite Hrun.
  set (c1 := set_buffer _ _).
  assert (Hc1 : buffer c1 = process (buffer c) input) by by subst c1; destruct err.
  assert (Hs1 : synced c1 w).
  { subst c1. destruct err; (apply synced_buffer; [apply Hsy|by apply process_extends, Hsy]). }
  assert (Hm1 : (0 < maxTracePatchSize c1)%Z) by by subst c1; destruct err.
  destruct (finalTraceUpdate_complete fuel clock c1 w Hs1 Hm1) as (c2 & w2 & -> & Hs2 & Hr2 & Hb2 & Hst2 & Hre2 & Hf2).
  { unfold traceLen. by rewrite Hc1. }
  { unfold remaining. rewrite Hc1. split_match; lia. }
  destruct (finalStatusUpdate_complete fuel clock c2 w2) as (c3 & w3 & -> & Hr3 & Hrep & Hss & Hst & Hb3); [apply Hs2|lia|].
  exists c3, w3. rewrite Hr3, Hr2, Hb3, Hb2, Hc1, Hrep, Hst2, Hre2, Hss.
  split_and!; try done. by subst c1; destruct err.
Qed.

Lemma trace_delivery (w0 : W) limit l input err reason clock :
  let c0 := start newJobTrace limit in
  let log := Bytes (process (run (buffer c0) (written l)) input) in
  ready w0 → remote w0 = "" → (Z.of_nat (slen log) ≤ int64_max)%Z →
  ∃ c1 w1, acts (c0, w0) l = Some (c1, w1) ∧
  ∀ fuel, 2 * slen log + 2 * faults w0 + 2 ≤ fuel →
    ∃ c2 w2, Fail fuel clock input err reason c1 w1 = Finished (c2, w2) ∧
      remote w2 = log ∧
      reported w2 = Some (if err then (Failed, reason) else (Success, NoneFailure)).
Proof.
  intros c0 log Hrd Hw0 Hmax.
  assert (Hwf : wf (run (buffer c0) (written l))).
  { apply run_extends. unfold wf. simpl. lia. }
  destruct (acts_synced c0 w0 l) as (c1 & w1 & Ha & Hsy & Hs & Hm & Hr & Hf & Hb).
  { do 2 (split; [done || (unfold wf; simpl; lia)|]). rewrite Hw0. split; [done|]. simpl. lia. }
  { by vm_compute. }
  { destruct (process_extends _ input Hwf) as [_ Hp]. apply HasPrefix_slen in Hp. subst log. lia. }
  exists c1, w1. split; [done|]. intros fuel Hfuel.
  destruct (Fail_delivers fuel clock input err reason c1 w1) as (c2 & w2 & ? & Hr2 & _ & Hrep & _);
    [done|by rewrite Hm|by rewrite Hs|rewrite Hb; subst log; lia..|].
  exists c2, w2. rewrite Hrep, Hr2, Hb, Hr. done.
Qed.

(** C2: The end-to-end guarantee of the job trace. From a freshly started job, under
    any interleaving of log input, changes of the masked values or the limit, and
    watcher ticks, the watcher never panics; and when the build then ends, the final
    update terminates with the coordinator holding exactly the masked log (everything,
    nothing twice, in order) and the job's final state and reason, although requests
    may fail and answers to stored patches may get lost. *)
Theorem job_trace_is_delivered (w0 : W) limit l input err reason clock :
  let c0 := start newJobTrace limit in
  let log := Bytes (process (run (buffer c0) (written l)) input) in
  ready w0 → remote w0 = "" → (Z.of_nat (slen log) ≤ int64_max)%Z →
  ∃ c1 w1, acts (c0, w0) l = Some (c1, w1) ∧
  ∀ fuel, 2 * slen log + 2 * faults w0 + 2 ≤ fuel →
    ∃ c2 w2, Fail fuel clock input err reason c1 w1 = Finished (c2, w2) ∧
      remote w2 = log ∧
      reported w2 = Some (if err then (Failed, reason) else (Success, NoneFailure)).
Proof. apply trace_delivery. Qed.

End Delivery.

Lemma job_trace_is_delivered_witness :
  ∃ c1 w1, acts (start newJobTrace 0, Scripted.mkWorld "" [Scripted.LostAnswer; Scripted.LostRequest] None)
             [ABuffer (EvRune 97); ATick 5; ABuffer (EvRune 98)] = Some (c1, w1).
Proof.
  destruct (job_trace_is_delivered
    (Scripted.mkWorld "" [Scripted.LostAnswer; Scripted.LostRequest] None) 0
    [ABuffer (EvRune 97); ATick 5; ABuffer (EvRune 98)] "c" false NoneFailure (λ _, 7%Z))
    as (c1 & w1 & H & _); [exact I|reflexivity|vm_compute; discriminate|].
  exists c1, w1. exact H.
Defined.

(** ** What holds on any network *)

Section AnyNetwork.
Context {W : Type} `{!TraceNetwork W}.
Implicit Types (c : clientJobTrace) (w : W).

(** The part of the trace that only the job's end may change. *)
Definition verdict c : JobState * JobFailureReason * list JobFailureReason :=
  (state c, failureReason c, failures c).

Lemma sendPatch_keeps c w now st c' w' :
  sendPatch c w now = Some (st, c', w') →
  verdict c' = verdict c ∧ buffer c' = buffer c ∧
  cancelFunc c' = cancelFunc c ∧ canceled c' = canceled c.
Proof.
  unfold sendPatch. destruct (_ =? _)%Z; [by intros [= <- <- <-]|].
  destruct (patchContent c); [|done].
  destruct (PatchTrace w _ _) as [[r []] w1]; by intros [= <- <- <-].
Qed.

Lemma sendUpdate_keeps c w now force st c' w' :
  sendUpdate c w now force = (st, c', w') →
  verdict c' = verdict c ∧ buffer c' = buffer c ∧
  cancelFunc c' = cancelFunc c ∧ canceled c' = canceled c.
Proof.
  unfold sendUpdate. destruct (negb force && _ && _); [by intros [= <- <- <-]|].
  destruct (UpdateJob w _ _) as [[] w1]; by intros [= <- <- <-].
Qed.

Lemma finalTraceUpdate_keeps fuel clock c w c' w' :
  finalTraceUpdate fuel clock c w = Finished (c', w') → verdict c' = verdict c.
Proof.
  revert c w. induction fuel as [|k IH]; intros c w; simpl; [done|].
  destruct (anyTraceToSend c); [|by intros [= <- <-]].
  destruct (sendPatch c w (clock k)) as [[[st c1] w1]|] eqn:HP; [|done].
  destruct (sendPatch_keeps _ _ _ _ _ _ HP) as [<- _].
  destruct st; intros H; try (by apply (IH _ _ H)); by simplify_eq.
Qed.

Lemma finalStatusUpdate_keeps fuel clock c w c' w' :
  finalStatusUpdate fuel clock c w = Finished (c', w') → verdict c' = verdict c.
Proof.
  revert c w. induction fuel as [|k IH]; intros c w; simpl; [done|].
  destruct (sendUpdate c w (clock k) true) as [[st c1] w1] eqn:HP.
  destruct (sendUpdate_keeps _ _ _ _ _ _ _ HP) as [<- _].
  destruct st; intros H; try (by apply (IH _ _ H)); by simplify_eq.
Qed.

Lemma finish_keeps fuel clock input c w c' w' :
  finish fuel clock input c w = Finished (c', w') → verdict c' = verdict c.
Proof.
  unfold finish. destruct (finalTraceUpdate _ _ _ _) as [[c1 w1]| |] eqn:HT; try done.
  intros H. apply finalStatusUpdate_keeps in H as ->.
  by apply finalTraceUpdate_keeps in HT as ->.
Qed.


(** The cancel function of a job is called at most once per registration, on any
    network: a tick calls it exactly when the coordinator answers with an abort and it
    is still set, and then it is cleared. *)
Theorem abort_cancels_once c w now b c' w' :
  watch_tick c w now = Some (b, c', w') →
  canceled c' + Nat.b2n (cancelFunc c') = canceled c + Nat.b2n (cancelFunc c) ∧
  verdict c' = verdict c ∧
  (b = true ↔ canceled c' = S (canceled c)) ∧
  (b = true ↔ cancelFunc c = true ∧
     ∃ c1 w1, incrementalUpdate c w now = Some (UpdateAbort, c1, w1)).
Proof.
  unfold watch_tick. destruct (incrementalUpdate c w now) as [[[st c1] w1]|] eqn:HI; [|done].
  assert (Hk : verdict c1 = verdict c ∧ cancelFunc c1 = cancelFunc c ∧ canceled c1 = canceled c).
  { unfold incrementalUpdate in HI.
    destruct (sendPatch c w now) as [[[s2 c2] w2]|] eqn:HP; [|done].
    destruct (sendPatch_keeps _ _ _ _ _ _ HP) as (<- & _ & <- & <-).
    destruct s2; simplify_eq; try done.
    destruct (sendUpdate_keeps c2 w2 now false st c1 w1) as (? & _ & ? & ?); [congruence|done]. }
  destruct Hk as (<- & <- & <-). intros H.
  destruct st; unfold abort in H; try destruct (cancelFunc c1) eqn:Hc; simplify_eq; simpl;
    rewrite ?Hc; split_and!; try done; simpl; try lia; naive_solver lia.
Qed.

(** The coordinator decides the offset of the next patch, and the runner does not
    check it: after a range mismatch that names an offset beyond the runner's trace,
    the trace still counts as unsent and the next patch slices out of range, which
    panics the process. *)
Theorem offset_beyond_trace_panics c w now content off w' :
  sentTrace c ≠ traceLen c → patchContent c = Some content →
  PatchTrace w content (sentTrace c) = ((off, UpdateRangeMismatch), w') →
  (traceLen c < off)%Z →
  ∃ c', sendPatch c w now = Some (UpdateRangeMismatch, c', w') ∧
        anyTraceToSend c' = true ∧ sendPatch c' w' now = None.
Proof.
  intros Hne Hc HP Hoff. unfold sendPatch at 1.
  rewrite (proj2 (Z.eqb_neq _ _)) by congruence. rewrite Hc, HP. eexists. split; [done|].
  unfold anyTraceToSend, sendPatch, patchContent, set_sent, traceLen in *. simpl in *.
  rewrite (proj2 (Z.eqb_neq _ _)) by lia. split; [done|].
  by rewrite (proj2 (Z.ltb_lt (Z.of_nat (slen _)) off)), orb_true_r by lia.
Qed.

End AnyNetwork.


Lemma abort_cancels_once_witness :
  ∃ c' w', watch_tick (SetCancelFunc (start newJobTrace 0)) (Scripted.mkWorld "" [] None) 99
             = Some (false, c', w') ∧ canceled c' + Nat.b2n (cancelFunc c') = 1.
Proof.
  eexists _, _. split; [vm_compute; reflexivity|].
  refine (proj1 (abort_cancels_once (SetCancelFunc (start newJobTrace 0))
                   (Scripted.mkWorld "" [] None) 99 false _ _ _)); vm_compute; reflexivity.
Defined.

Lemma offset_beyond_trace_panics_witness :
  ∃ c', sendPatch (set_buffer newJobTrace (process New "ab")) (Scripted.mkWorld "longer" [] None) 0
          = Some (UpdateRangeMismatch, c', Scripted.mkWorld "longer" [] None) ∧
        anyTraceToSend c' = true ∧ sendPatch c' (Scripted.mkWorld "longer" [] None) 0 = None.
Proof.
  apply (offset_beyond_trace_panics (set_buffer newJobTrace (process New "ab"))
           (Scripted.mkWorld "longer" [] None) 0 "ab" 6); vm_compute; congruence.
Defined.
