(* ===== verification/GitLabClient.v ===== *)
(** The API client of network/client.go, network/gitlab.go, network/patch_response.go
    and network/remote_job_state_response.go: how requests are made, how answers are
    classified, and that the client is the network the job trace relies on. *)

From S2P Require Import Prelude GoLib Path Types JobTrace.

(** ** HTTP as the client sees it *)

Record Certificate := mkCert { Signature : string; Raw : string }.

Record Response := mkResponse {
  StatusCode : Z;
  Status : string;
  Header : gmap string string;
  Body : string;
  VerifiedChains : option (list (list Certificate)) }.

(** [Header.Get] of a header that is not there is the empty string. *)
Definition Get (h : gmap string string) (key : string) : string := default "" (h !! key).

Definition StatusOK : Z := 200%Z.
Definition StatusCreated : Z := 201%Z.
Definition StatusAccepted : Z := 202%Z.
Definition StatusNoContent : Z := 204%Z.
Definition StatusForbidden : Z := 403%Z.
Definition StatusNotFound : Z := 404%Z.
Definition StatusRequestEntityTooLarge : Z := 413%Z.
Definition StatusRequestedRangeNotSatisfiable : Z := 416%Z.

Record VersionInfo := mkVersionInfo {
  VI_Name : string; VI_Version : string; VI_Revision : string; VI_Platform : string;
  VI_Architecture : string; VI_Executor : string; VI_Shell : string;
  VI_Features : FeaturesInfo }.

Record RegisterRunnerParameters := mkRegister {
  RR_Description : string; RR_Tags : string; RR_RunUntagged : bool; RR_Locked : bool;
  RR_AccessLevel : string; RR_MaximumTimeout : Z; RR_Active : bool }.

(** Request bodies, before they are marshalled. *)
Inductive Payload :=
| NoBody
| RegisterRunnerRequest (p : RegisterRunnerParameters) (token : string) (info : VersionInfo)
| VerifyRunnerRequest (token : string)
| UnregisterRunnerRequest (token : string)
| JobRequest (info : VersionInfo) (token lastUpdate : string) (session : option SessionInfo)
| UpdateJobRequest (info : VersionInfo) (token : string) (st : JobState) (reason : JobFailureReason)
| TraceContent (content : string)
| ArtifactsForm (baseName content : string).

Record Request := mkRequest {
  method : string; target : string; headers : gmap string string; body : Payload }.

(** What [http.Client.Do] does, for a state of the world. *)
Class HTTP (W : Type) := Do : W → Request → result string Response * W.

(** ** Answers about a job *)

Record RemoteJobStateResponse := mkRemote { R_StatusCode : Z; RemoteState : string }.

Definition IsAborted (r : RemoteJobStateResponse) : bool :=
  if bool_decide (RemoteState r = "canceled") || bool_decide (RemoteState r = "failed") then true
  else if (R_StatusCode r =? StatusForbidden)%Z then true
  else false.

Definition NewRemoteJobStateResponse (response : option Response) : RemoteJobStateResponse :=
  match response with
  | None => mkRemote 0 ""
  | Some res => mkRemote (StatusCode res) (Get (Header res) "Job-Status")
  end.

Record TracePatchResponse := mkPatch { state_ : RemoteJobStateResponse; RemoteRange : string }.

Definition NewOffset (p : TracePatchResponse) : Z :=
  match Split (RemoteRange p) "-" with
  | [_; b] => fst (Atoi b)
  | _ => 0%Z
  end.

Definition NewTracePatchResponse (response : Response) : TracePatchResponse :=
  mkPatch (NewRemoteJobStateResponse (Some response)) (Get (Header response) "Range").

(** ** The client of one server *)

(** [requestBackOffs] keeps the attempt counter of each back-off. *)
Record client := mkClient {
  url : string; caFile : string; certFile : string; keyFile : string; caData : string;
  lastUpdate : string; requestBackOffs : gmap string nat }.

Record ResponseTLSData := mkTLS { CAChain : string; CertFile : string; KeyFile : string }.
Definition noTLS : ResponseTLSData := mkTLS "" "" "".

Definition setLastUpdate (n : client) (h : gmap string string) : client :=
  let lu := Get h "X-Gitlab-Last-Update" in
  if bool_decide (0 < slen lu)
  then mkClient (url n) (caFile n) (certFile n) (keyFile n) (caData n) lu (requestBackOffs n)
  else n.

Definition ensureBackoff (n : client) (method uri : string) : client :=
  let key := method +:+ "_" +:+ uri in
  match requestBackOffs n !! key with
  | Some _ => n
  | None => mkClient (url n) (caFile n) (certFile n) (keyFile n) (caData n) (lastUpdate n)
              (<[key := 0]> (requestBackOffs n))
  end.

Definition backoffRequired (res : Response) : bool :=
  ((400 <=? StatusCode res) && (StatusCode res <? 600))%Z.

(** [Duration] adds an attempt, [Reset] clears them. *)
Definition set_backoff (n : client) (key : string) (f : nat → nat) : client :=
  mkClient (url n) (caFile n) (certFile n) (keyFile n) (caData n) (lastUpdate n)
    (alter f key (requestBackOffs n)).

Definition fixCIURL (u : string) : string :=
  let u := TrimRight u "/" in
  if HasSuffix u "/ci" then TrimSuffix u "/ci" else u.

(** What the client takes from outside of it: [url.Parse] of an absolute URL (scheme,
    host, printed form); resolution of a reference against it, with [http.NewRequest];
    [mime.ParseMediaType]; [json.Decode] into a job; [pem.Encode]; [url.QueryEscape];
    the files (existence and content) and the certificate directory; the registered
    executors (what they add to the features, their default shell) and shells; and the
    build information of the binary. *)
Class ClientEnv := {
  urlParse : string → result string (string * string * string);
  urlResolve : string → string → result string string;
  parseMediaType : string → result string string;
  decodeJob : string → result string JobResponse;
  pemEncode : string → string;
  QueryEscape : string → string;
  Stat : string → bool;
  ReadFile : string → option string;
  CertificateDirectory : string;
  GetExecutor : string → option ((FeaturesInfo → FeaturesInfo) * string);
  GetShell : string → option (FeaturesInfo → FeaturesInfo);
  build_info : VersionInfo }.

Section Client.
Context {W : Type} `{!HTTP W} `{!ClientEnv}.

(** [doBackoffRequest]. [req.RequestURI] is only set on requests a server received, so
    on the client it is the empty string. *)
Definition doBackoffRequest (n : client) (w : W) (req : Request) : result string Response * client * W :=
  let '(r, w) := Do w req in
  match r with
  | Err err => (Err ("couldn't execute " +:+ method req +:+ " against " +:+ target req +:+ ": " +:+ err), n, w)
  | Ok res =>
      let RequestURI := "" in
      let key := method req +:+ "_" +:+ RequestURI in
      let n := ensureBackoff n (method req) RequestURI in
      let n := if backoffRequired res then set_backoff n key S else set_backoff n key (λ _, 0) in
      (Ok res, n, w)
  end.

Definition do (n : client) (w : W) (uri meth : string) (request : Payload) (requestType : string)
    (hs : gmap string string) : result string Response * client * W :=
  match urlResolve (url n) uri with
  | Err err => (Err err, n, w)
  | Ok u =>
      let hs := match request with
                | NoBody => hs
                | _ => <["User-Agent" := "gitlab-runner"]> (<["Content-Type" := requestType]> hs)
                end in
      doBackoffRequest n w (mkRequest meth u hs request)
  end.

Definition isResponseApplicationJSON (res : Response) : result string unit :=
  let contentType := Get (Header res) "Content-Type" in
  match parseMediaType contentType with
  | Err err => Err ("Content-Type parsing error: " +:+ err)
  | Ok mimetype =>
      if bool_decide (mimetype = "application/json") then Ok tt
      else Err ("Server should return application/json. Got: " +:+ contentType)
  end.

(** The certificates of the verified chains, each once, in order. *)
Definition add_cert (st : list string * list Certificate) (c : Certificate) : list string * list Certificate :=
  let '(seen, certificates) := st in
  if bool_decide (Signature c ∈ seen) then st
  else (Signature c :: seen, certificates ++ [c]).

Definition getCAChain (n : client) (chains : option (list (list Certificate))) : string :=
  if negb (bool_decide (slen (caData n) = 0)) then caData n
  else match chains with
       | None => ""
       | Some cs => let '(_, certs) := foldl (foldl add_cert) ([], []) cs in
                    foldr (λ c acc, pemEncode (Raw c) +:+ acc) "" certs
       end.

(** [doJSON]; [decode] reads the response body into the caller's value, and is [None]
    when the caller passed no value. *)
Definition doJSON {A} (n : client) (w : W) (uri meth : string) (statusCode : Z) (request : Payload)
    (decode : option (string → result string A))
    : (Z * string * ResponseTLSData * option Response * option A) * client * W :=
  let hs := match decode with
            | Some _ => {["Accept" := "application/json"]}
            | None => ∅
            end in
  let '(r, n, w) := do n w uri meth request "application/json" hs in
  match r with
  | Err err => (((-1)%Z, err, noTLS, None, None), n, w)
  | Ok res =>
      let decoded :=
        if (StatusCode res =? statusCode)%Z then
          match decode with
          | None => Ok None
          | Some d =>
              match isResponseApplicationJSON res with
              | Err err => Err err
              | Ok _ => match d (Body res) with
                        | Err err => Err ("Error decoding json payload " +:+ err)
                        | Ok a => Ok (Some a)
                        end
              end
          end
        else Ok None in
      match decoded with
      | Err err => (((-1)%Z, err, noTLS, None, None), n, w)
      | Ok v =>
          let n := setLastUpdate n (Header res) in
          let tls := mkTLS (getCAChain n (VerifiedChains res)) (certFile n) (keyFile n) in
          ((StatusCode res, Status res, tls, Some res, v), n, w)
      end
  end.

Definition findCertificate (certificate base name : string) : string :=
  if negb (bool_decide (certificate = "")) then certificate
  else let p := pathJoin [base; name] in if Stat p then p else certificate.

(** [host := strings.Split(url.Host, ":")[0]] *)
Definition host_name (host : string) : string := hd "" (Split host ":").

Definition newClient (cred : RunnerCredentials) : result string client :=
  match urlParse (fixCIURL (RC_URL cred) +:+ "/api/v4/") with
  | Err err => Err err
  | Ok (scheme, host, u) =>
      if negb (bool_decide (scheme = "http")) && negb (bool_decide (scheme = "https"))
      then Err "only http or https scheme supported"
      else
        let host := host_name host in
        let find f suffix :=
          if negb (bool_decide (CertificateDirectory = ""))
          then findCertificate f CertificateDirectory (host +:+ suffix) else f in
        Ok (mkClient u (find (RC_TLSCAFile cred) ".crt") (find (RC_TLSCertFile cred) ".auth.crt")
              (find (RC_TLSKeyFile cred) ".auth.key") "" "" ∅)
  end.

(** ** The client of all servers *)

Definition clientError : Z := (-100)%Z.
Definition APIEndpointRequestJob : string := "request_job".
Definition APIEndpointUpdateJob : string := "update_job".
Definition APIEndpointPatchTrace : string := "patch_trace".

Definition APIRequestStatusesMap := gmap (string * string * Z) Z.

Definition Append (m : APIRequestStatusesMap) (runnerID endpoint : string) (status : Z)
    : APIRequestStatusesMap :=
  let permutation := (runnerID, endpoint, status) in
  let m := match m !! permutation with Some _ => m | None => <[permutation := 0%Z]> m end in
  alter (λ n, n + 1)%Z permutation m.

Record GitLabClient := mkGitLab {
  clients : gmap string client; requestsStatusesMap : APIRequestStatusesMap }.

Definition set_client (g : GitLabClient) (key : string) (n : client) : GitLabClient :=
  mkGitLab (<[key := n]> (clients g)) (requestsStatusesMap g).

Definition count_request (g : GitLabClient) (cred : RunnerCredentials) (endpoint : string) (status : Z)
    : GitLabClient :=
  mkGitLab (clients g) (Append (requestsStatusesMap g) (ShortDescription cred) endpoint status).

Definition client_key (cred : RunnerCredentials) : string :=
  RC_URL cred +:+ "_" +:+ RC_Token cred +:+ "_" +:+ RC_TLSCAFile cred +:+ "_" +:+ RC_TLSCertFile cred.

Definition getClient (g : GitLabClient) (cred : RunnerCredentials) : result string client * GitLabClient :=
  match clients g !! client_key cred with
  | Some c => (Ok c, g)
  | None => match newClient cred with
            | Err err => (Err err, g)
            | Ok c => (Ok c, set_client g (client_key cred) c)
            end
  end.

Definition getLastUpdate (g : GitLabClient) (cred : RunnerCredentials) : string * GitLabClient :=
  match getClient g cred with
  | (Err _, g) => ("", g)
  | (Ok c, g) => (lastUpdate c, g)
  end.

Definition doRaw (g : GitLabClient) (w : W) (cred : RunnerCredentials) (meth uri : string)
    (request : Payload) (requestType : string) (hs : gmap string string)
    : result string Response * GitLabClient * W :=
  match getClient g cred with
  | (Err err, g) => (Err err, g, w)
  | (Ok c, g) => let '(r, c, w) := do c w uri meth request requestType hs in
                 (r, set_client g (client_key cred) c, w)
  end.

Definition g_doJSON {A} (g : GitLabClient) (w : W) (cred : RunnerCredentials) (meth uri : string)
    (statusCode : Z) (request : Payload) (decode : option (string → result string A))
    : (Z * string * ResponseTLSData * option Response * option A) * GitLabClient * W :=
  match getClient g cred with
  | (Err err, g) => ((clientError, err, noTLS, None, None), g, w)
  | (Ok c, g) => let '(r, c, w) := doJSON c w uri meth statusCode request decode in
                 (r, set_client g (client_key cred) c, w)
  end.

Definition getRunnerVersion (executor shell : string) : VersionInfo :=
  let '(f, sh) :=
    match GetExecutor executor with
    | None => (no_features, shell)
    | Some (feat, default_shell) =>
        (feat no_features, if bool_decide (shell = "") then default_shell else shell)
    end in
  let f := match GetShell sh with None => f | Some feat => feat f end in
  mkVersionInfo (VI_Name build_info) (VI_Version build_info) (VI_Revision build_info)
    (VI_Platform build_info) (VI_Architecture build_info) executor sh f.

(** [RegisterRunner]: the token of the new runner; [decodeRegister] reads the answer. *)
Definition RegisterRunner (decodeRegister : string → result string string) (g : GitLabClient) (w : W)
    (runner : RunnerCredentials) (parameters : RegisterRunnerParameters)
    : option string * GitLabClient * W :=
  let request := RegisterRunnerRequest parameters (RC_Token runner) (getRunnerVersion "" "") in
  let '((result, _, _, _, response), g, w) :=
    g_doJSON g w runner "POST" "runners" StatusCreated request (Some decodeRegister) in
  if (result =? StatusCreated)%Z then (response, g, w) else (None, g, w).

Definition VerifyRunner (g : GitLabClient) (w : W) (runner : RunnerCredentials) : bool * GitLabClient * W :=
  let '((result, _, _, _, _), g, w) :=
    g_doJSON (A:=unit) g w runner "POST" "runners/verify" StatusOK
      (VerifyRunnerRequest (RC_Token runner)) None in
  let alive :=
    if (result =? StatusOK)%Z then true
    else if (result =? StatusForbidden)%Z then false
    else if (result =? clientError)%Z then true
    else true in
  (alive, g, w).

Definition UnregisterRunner (g : GitLabClient) (w : W) (runner : RunnerCredentials) : bool * GitLabClient * W :=
  let '((result, _, _, _, _), g, w) :=
    g_doJSON (A:=unit) g w runner "DELETE" "runners" StatusNoContent
      (UnregisterRunnerRequest (RC_Token runner)) None in
  let gone :=
    if (result =? StatusNoContent)%Z then true
    else if (result =? StatusForbidden)%Z then false
    else if (result =? clientError)%Z then false
    else false in
  (gone, g, w).

Definition set_tls (r : JobResponse) (chain cert key : string) : JobResponse :=
  {| JR_ID := JR_ID r; JR_Token := JR_Token r; JR_AllowGitFetch := JR_AllowGitFetch r;
     JR_JobInfo := JR_JobInfo r; JR_GitInfo := JR_GitInfo r; JR_RunnerInfo := JR_RunnerInfo r;
     JR_Variables := JR_Variables r; JR_Steps := JR_Steps r; JR_Image := JR_Image r;
     JR_Services := JR_Services r; JR_Artifacts := JR_Artifacts r; JR_Cache := JR_Cache r;
     JR_Credentials := JR_Credentials r; JR_Dependencies := JR_Dependencies r;
     JR_Features := JR_Features r; JR_TLSCAChain := chain; JR_TLSAuthCert := cert;
     JR_TLSAuthKey := key |}.

Definition addTLSData (response : JobResponse) (tlsData : ResponseTLSData) : JobResponse :=
  let chain := if bool_decide (CAChain tlsData = "") then JR_TLSCAChain response else CAChain tlsData in
  if bool_decide (CertFile tlsData ≠ "") && bool_decide (KeyFile tlsData ≠ "")
  then set_tls response chain
         (default (JR_TLSAuthCert response) (ReadFile (CertFile tlsData)))
         (default (JR_TLSAuthKey response) (ReadFile (KeyFile tlsData)))
  else set_tls response chain (JR_TLSAuthCert response) (JR_TLSAuthKey response).

(** The job, if one was handed out, and whether the runner counts as healthy. *)
Definition RequestJob (g : GitLabClient) (w : W) (config : RunnerCredentials) (executor shell : string)
    (sessionInfo : option SessionInfo) : (option JobResponse * bool) * GitLabClient * W :=
  let '(lu, g) := getLastUpdate g config in
  let request := JobRequest (getRunnerVersion executor shell) (RC_Token config) lu sessionInfo in
  let '((result, _, tlsData, _, response), g, w) :=
    g_doJSON g w config "POST" "jobs/request" StatusCreated request (Some decodeJob) in
  let g := count_request g config APIEndpointRequestJob result in
  let answer :=
    if (result =? StatusCreated)%Z
    then ((λ r, addTLSData r tlsData) <$> response, true)
    else if (result =? StatusForbidden)%Z then (None, false)
    else if (result =? StatusNoContent)%Z then (None, true)
    else if (result =? clientError)%Z then (None, false)
    else (None, true) in
  (answer, g, w).

Definition g_UpdateJob (g : GitLabClient) (w : W) (config : RunnerCredentials) (executor shell : string)
    (cred : JobCredentials) (info : UpdateJobInfo) : UpdateState * GitLabClient * W :=
  let request := UpdateJobRequest (getRunnerVersion executor shell) (JC_Token cred)
                   (UJI_State info) (UJI_FailureReason info) in
  let '((result, _, _, response, _), g, w) :=
    g_doJSON (A:=unit) g w config "PUT" ("jobs/" +:+ Itoa (UJI_ID info)) StatusOK request None in
  let g := count_request g config APIEndpointUpdateJob result in
  let st :=
    if IsAborted (NewRemoteJobStateResponse response) then UpdateAbort
    else if (result =? StatusOK)%Z then UpdateSucceeded
    else if (result =? StatusNotFound)%Z then UpdateAbort
    else if (result =? StatusForbidden)%Z then UpdateAbort
    else if (result =? clientError)%Z then UpdateAbort
    else UpdateFailed in
  (st, g, w).

Definition contentRange (startOffset endOffset : Z) : string :=
  Itoa startOffset +:+ "-" +:+ Itoa (int64_wrap (endOffset - 1)).

Definition g_PatchTrace (g : GitLabClient) (w : W) (config : RunnerCredentials) (cred : JobCredentials)
    (content : string) (startOffset : Z) : (Z * UpdateState) * GitLabClient * W :=
  if bool_decide (slen content = 0) then ((startOffset, UpdateSucceeded), g, w)
  else
    let endOffset := int64_wrap (startOffset + Z.of_nat (slen content)) in
    let hs := <["Job-Token" := JC_Token cred]> {["Content-Range" := contentRange startOffset endOffset]} in
    let uri := "jobs/" +:+ Itoa (JC_ID cred) +:+ "/trace" in
    let '(r, g, w) := doRaw g w config "PATCH" uri (TraceContent content) "text/plain" hs in
    match r with
    | Err _ => ((startOffset, UpdateFailed), g, w)
    | Ok response =>
        let g := count_request g config APIEndpointPatchTrace (StatusCode response) in
        let p := NewTracePatchResponse response in
        let answer :=
          if IsAborted (state_ p) then (startOffset, UpdateAbort)
          else if (StatusCode response =? StatusAccepted)%Z then (endOffset, UpdateSucceeded)
          else if (StatusCode response =? StatusNotFound)%Z then (startOffset, UpdateNotFound)
          else if (StatusCode response =? StatusRequestedRangeNotSatisfiable)%Z
          then (NewOffset p, UpdateRangeMismatch)
          else if (StatusCode response =? clientError)%Z then (startOffset, UpdateAbort)
          else (startOffset, UpdateFailed) in
        (answer, g, w)
    end.

(** [uploadRawArtifactsQuery] and its [Encode], which sorts by key. *)
Definition uploadRawArtifactsQuery (options : ArtifactsOptions) : list (string * string) :=
  (if bool_decide (AO_Format options = "") then [] else [("artifact_format", AO_Format options)]) ++
  (if bool_decide (AO_Type options = "") then [] else [("artifact_type", AO_Type options)]) ++
  (if bool_decide (AO_ExpireIn options = "") then [] else [("expire_in", AO_ExpireIn options)]).

Definition Encode (q : list (string * string)) : string :=
  Join ((λ '(k, v), QueryEscape k +:+ "=" +:+ QueryEscape v) <$> q) "&".

(** [config] is used as the request credentials here, so the job token is the key. *)
Definition job_as_credentials (c : JobCredentials) : RunnerCredentials :=
  {| RC_URL := JC_URL c; RC_Token := JC_Token c; RC_TLSCAFile := JC_TLSCAFile c;
     RC_TLSCertFile := JC_TLSCertFile c; RC_TLSKeyFile := JC_TLSKeyFile c |}.

Definition UploadRawArtifacts (g : GitLabClient) (w : W) (config : JobCredentials)
    (formType content : string) (options : ArtifactsOptions) : UploadState * GitLabClient * W :=
  let uri := "jobs/" +:+ Itoa (JC_ID config) +:+ "/artifacts?" +:+ Encode (uploadRawArtifactsQuery options) in
  let '(r, g, w) := doRaw g w (job_as_credentials config) "POST" uri
                      (ArtifactsForm (AO_BaseName options) content) formType
                      {["Job-Token" := JC_Token config]} in
  let st :=
    match r with
    | Err _ => UploadFailed
    | Ok res =>
        if (StatusCode res =? StatusCreated)%Z then UploadSucceeded
        else if (StatusCode res =? StatusForbidden)%Z then UploadForbidden
        else if (StatusCode res =? StatusRequestEntityTooLarge)%Z then UploadTooLarge
        else UploadFailed
    end in
  (st, g, w).

(** Writing the artifacts file: creating it may fail, and so may copying into it. *)
Inductive file_outcome := CreateFails | CopyFails | Written.

(** [DownloadArtifacts] on the files on disk. [None] is a panic: when [os.Create] fails
    its [*os.File] is nil, and the error path calls [file.Name()] on it. *)
Definition DownloadArtifacts (g : GitLabClient) (w : W) (config : JobCredentials) (artifactsFile : string)
    (outcome : file_outcome) (files : gmap string string)
    : option (DownloadState * gmap string string) * GitLabClient * W :=
  let '(r, g, w) := doRaw g w (job_as_credentials config) "GET"
                      ("jobs/" +:+ Itoa (JC_ID config) +:+ "/artifacts") NoBody ""
                      {["Job-Token" := JC_Token config]} in
  let answer :=
    match r with
    | Err _ => Some (DownloadFailed, files)
    | Ok res =>
        if (StatusCode res =? StatusOK)%Z then
          match outcome with
          | CreateFails => None
          | CopyFails => Some (DownloadFailed, delete artifactsFile files)
          | Written => Some (DownloadSucceeded, <[artifactsFile := Body res]> files)
          end
        else if (StatusCode res =? StatusForbidden)%Z then Some (DownloadForbidden, files)
        else if (StatusCode res =? StatusNotFound)%Z then Some (DownloadNotFound, files)
        else Some (DownloadFailed, files)
    end in
  (answer, g, w).

(** [ProcessJob]: the trace of a job, with this client as its network. *)
Definition ProcessJob (OutputLimit : Z) : clientJobTrace := start newJobTrace OutputLimit.

End Client.

(** ** The client as the network of the job trace *)

(** What the trace relies on at the HTTP level. A server that still runs the job keeps
    the bytes it accepted; a [PATCH] whose content range starts at their end is
    accepted (202), another is refused with 416 and the range it has; a [PUT] records
    the job's state (200). Any request may instead fail, by a transport error or a
    5xx, [s_faults] many times, and a failed [PATCH] may have been stored. *)
Definition not_aborted (res : Response) : Prop :=
  IsAborted (NewRemoteJobStateResponse (Some res)) = false.

Definition request_failed (r : result string Response) : Prop :=
  (∃ e, r = Err e) ∨
  (∃ res, r = Ok res ∧ not_aborted res ∧ (500 ≤ StatusCode res < 600)%Z).

Class JobServer (W : Type) `{!HTTP W} := {
  s_remote : W → string;
  s_faults : W → nat;
  s_reported : W → option (JobState * JobFailureReason);
  serve_patch : ∀ w req content a r w',
    method req = "PATCH" → body req = TraceContent content → content ≠ "" → (0 ≤ a)%Z →
    headers req !! "Content-Range" =
      Some (Itoa a +:+ "-" +:+ Itoa (a + Z.of_nat (slen content) - 1)) →
    Do w req = (r, w') →
    (a = Z.of_nat (slen (s_remote w)) ∧ s_remote w' = s_remote w +:+ content ∧
     s_faults w' ≤ s_faults w ∧
     ∃ res, r = Ok res ∧ StatusCode res = StatusAccepted ∧ not_aborted res) ∨
    (a ≠ Z.of_nat (slen (s_remote w)) ∧ s_remote w' = s_remote w ∧ s_faults w' ≤ s_faults w ∧
     ∃ res, r = Ok res ∧ StatusCode res = StatusRequestedRangeNotSatisfiable ∧ not_aborted res ∧
            Get (Header res) "Range" = "0-" +:+ Itoa (Z.of_nat (slen (s_remote w)))) ∨
    (request_failed r ∧ s_faults w' < s_faults w ∧
     (s_remote w' = s_remote w ∨
      a = Z.of_nat (slen (s_remote w)) ∧ s_remote w' = s_remote w +:+ content));
  serve_put : ∀ w req info token st reason r w',
    method req = "PUT" → body req = UpdateJobRequest info token st reason →
    Do w req = (r, w') →
    s_remote w' = s_remote w ∧
    ((s_reported w' = Some (st, reason) ∧ s_faults w' ≤ s_faults w ∧
      ∃ res, r = Ok res ∧ StatusCode res = StatusOK ∧ not_aborted res) ∨
     (request_failed r ∧ s_faults w' < s_faults w)) }.

Section Job.
Context {W : Type} `{!HTTP W} `{!ClientEnv}.
(** One job of one runner. *)
Context (config : RunnerCredentials) (executor shell : string) (cred : JobCredentials).

Definition patch_uri : string := "jobs/" +:+ Itoa (JC_ID cred) +:+ "/trace".
Definition put_uri : string := "jobs/" +:+ Itoa (JC_ID cred).

#[local] Instance job_network : TraceNetwork (GitLabClient * W) := {
  PatchTrace '(g, w) content off :=
    let '(answer, g, w) := g_PatchTrace g w config cred content off in (answer, (g, w));
  UpdateJob '(g, w) st reason :=
    let '(answer, g, w) := g_UpdateJob g w config executor shell cred
                             {| UJI_ID := JC_ID cred; UJI_State := st; UJI_FailureReason := reason |} in
    (answer, (g, w)) }.

(** The client for this runner exists and can form the two URLs of the job. *)
Definition reachable (g : GitLabClient) : Prop :=
  ∃ n u1 u2, clients g !! client_key config = Some n ∧
    urlResolve (url n) patch_uri = Ok u1 ∧ urlResolve (url n) put_uri = Ok u2.

Lemma doBackoffRequest_spec (n : client) (w : W) req r n' w' :
  doBackoffRequest n w req = (r, n', w') →
  url n' = url n ∧
  ∃ r0, Do w req = (r0, w') ∧ (∀ res, r = Ok res ↔ r0 = Ok res) ∧ ((∃ e, r = Err e) ↔ ∃ e, r0 = Err e).
Proof.
  unfold doBackoffRequest. destruct (Do w req) as [[res|e] w1].
  - unfold ensureBackoff. intros Hq.
    assert (Hn : url n' = url n) by (destruct (requestBackOffs n !! _), (backoffRequired res); by simplify_eq).
    split; [done|]. exists (Ok res). by simplify_eq.
  - intros [= <- <- <-]. split; [done|]. exists (Err e). naive_solver.
Qed.

Lemma do_spec (n : client) (w : W) uri meth p ty hs u r n' w' :
  urlResolve (url n) uri = Ok u → p ≠ NoBody →
  do n w uri meth p ty hs = (r, n', w') →
  url n' = url n ∧
  ∃ r0, Do w (mkRequest meth u (<["User-Agent" := "gitlab-runner"]> (<["Content-Type" := ty]> hs)) p) = (r0, w') ∧
    (∀ res, r = Ok res ↔ r0 = Ok res) ∧ ((∃ e, r = Err e) ↔ ∃ e, r0 = Err e).
Proof.
  intros Hu Hp. unfold do. rewrite Hu. intros Hq. apply doBackoffRequest_spec in Hq.
  by destruct p.
Qed.

(** What a request against this runner's server gives, seen from the whole client. *)
Lemma doRaw_spec g (w : W) meth uri p ty hs n u r g' w' :
  clients g !! client_key config = Some n → urlResolve (url n) uri = Ok u → p ≠ NoBody →
  doRaw g w config meth uri p ty hs = (r, g', w') →
  (∃ n', clients g' !! client_key config = Some n' ∧ url n' = url n) ∧
  ∃ r0, Do w (mkRequest meth u (<["User-Agent" := "gitlab-runner"]> (<["Content-Type" := ty]> hs)) p) = (r0, w') ∧
    (∀ res, r = Ok res ↔ r0 = Ok res) ∧ ((∃ e, r = Err e) ↔ ∃ e, r0 = Err e).
Proof.
  intros Hn Hu Hp. unfold doRaw, getClient. rewrite Hn.
  destruct (do n w uri meth p ty hs) as [[r1 n1] w1] eqn:Hd.
  apply (do_spec _ _ _ _ _ _ _ u) in Hd as [Hurl Hr0]; [|done|done].
  intros [= <- <- <-]. split; [|done]. exists n1. simpl. by rewrite lookup_insert_eq.
Qed.

Lemma int64_offsets off (content : string) :
  (0 ≤ off)%Z → content ≠ "" → (off + Z.of_nat (slen content) ≤ int64_max)%Z →
  int64_wrap (off + Z.of_nat (slen content)) = (off + Z.of_nat (slen content))%Z ∧
  int64_wrap (off + Z.of_nat (slen content) - 1) = (off + Z.of_nat (slen content) - 1)%Z.
Proof.
  intros H0 Hne Hmax. destruct content; [done|]. simpl slen in *.
  split; apply int64_wrap_id; unfold in_int64, int64_min in *; lia.
Qed.

Lemma NewOffset_range res n :
  (0 ≤ n ≤ int64_max)%Z → Get (Header res) "Range" = "0-" +:+ Itoa n →
  NewOffset (NewTracePatchResponse res) = n.
Proof.
  intros Hn Hr. unfold NewOffset, NewTracePatchResponse. simpl RemoteRange. rewrite Hr.
  change ("0-" +:+ Itoa n) with ("0" +:+ String "-" (Itoa n)).
  rewrite Split_app, Split_absent.
  - by rewrite Atoi_Itoa.
  - apply Itoa_no_char; [lia|by vm_compute].
  - simpl. by intros [[=]|?%elem_of_nil]%elem_of_cons.
Qed.

Lemma reachable_keeps g g' n n' :
  reachable g → clients g !! client_key config = Some n →
  clients g' !! client_key config = Some n' → url n' = url n → reachable g'.
Proof.
  intros (n0 & u1 & u2 & H0 & H1 & H2) Hn Hn' Hurl. simplify_eq.
  exists n', u1, u2. by rewrite Hurl.
Qed.

Context `{!JobServer W}.

Lemma g_PatchTrace_outcome (s : GitLabClient * W) content off r st s' :
  reachable (fst s) → content ≠ "" → (0 ≤ off)%Z →
  (off + Z.of_nat (slen content) ≤ int64_max)%Z →
  (Z.of_nat (slen (s_remote (snd s))) ≤ int64_max)%Z →
  PatchTrace s content off = ((r, st), s') →
  reachable (fst s') ∧
  ((st = UpdateSucceeded ∧ off = Z.of_nat (slen (s_remote (snd s))) ∧
    s_remote (snd s') = s_remote (snd s) +:+ content ∧
    r = Z.of_nat (slen (s_remote (snd s'))) ∧ s_faults (snd s') ≤ s_faults (snd s)) ∨
   (st = UpdateRangeMismatch ∧ off ≠ Z.of_nat (slen (s_remote (snd s))) ∧
    s_remote (snd s') = s_remote (snd s) ∧ r = Z.of_nat (slen (s_remote (snd s))) ∧
    s_faults (snd s') ≤ s_faults (snd s)) ∨
   (st = UpdateFailed ∧ s_faults (snd s') < s_faults (snd s) ∧
    (s_remote (snd s') = s_remote (snd s) ∨
     off = Z.of_nat (slen (s_remote (snd s))) ∧ s_remote (snd s') = s_remote (snd s) +:+ content))).
Proof.
  destruct s as [g w], s' as [g' w']. simpl fst. simpl snd.
  intros Hre Hne H0 Hmax Hlen. pose proof (int64_offsets off content H0 Hne Hmax) as [Hw1 Hw2].
  pose proof Hre as (n & u & _ & Hn & Hu & _). unfold PatchTrace, job_network, g_PatchTrace.
  rewrite bool_decide_eq_false_2 by (intros ?%slen_0; done).
  destruct (doRaw _ _ _ _ _ _ _ _) as [[r1 g1] w1] eqn:Hd.
  apply (doRaw_spec _ _ _ _ _ _ _ n u) in Hd as [(n' & Hn' & Hurl) (r0 & HDo & Hok & Herr)]; [|done..].
  assert (Hre1 : reachable g1) by by eapply reachable_keeps.
  apply (serve_patch _ _ content off) in HDo; [|done..| |]; last first.
  { simpl. unfold contentRange. simplify_map_eq. by rewrite Hw1, Hw2. }
  { done. }
  destruct HDo as [(Ha & Hr & Hf & res & -> & Hc & Hna)|[(Ha & Hr & Hf & res & -> & Hc & Hna & Hrg)|(Hfail & Hf & Hr)]].
  - rewrite (proj2 (Hok res) eq_refl). cbv beta iota zeta. unfold not_aborted in Hna.
    change (state_ (NewTracePatchResponse res)) with (NewRemoteJobStateResponse (Some res)).
   
    rewrite Hna, Hc. simpl. intros [= <- <- <- <-]. split; [done|]. left.
    rewrite Hr, slen_app, Hw1. split_and!; done || lia.
  - rewrite (proj2 (Hok res) eq_refl). cbv beta iota zeta. unfold not_aborted in Hna.
    change (state_ (NewTracePatchResponse res)) with (NewRemoteJobStateResponse (Some res)).
   
    rewrite Hna, Hc. simpl. intros [= <- <- <- <-]. split; [done|]. right. left.
    split_and!; try done. apply NewOffset_range; [lia|done].
  - destruct Hfail as [Hfail|(res & -> & Hna & Hcode)].
    + apply (proj2 Herr) in Hfail as [e ->]. intros [= <- <- <- <-]. split; [done|]. tauto.
    + rewrite (proj2 (Hok res) eq_refl). cbv beta iota zeta. unfold not_aborted in Hna.
    change (state_ (NewTracePatchResponse res)) with (NewRemoteJobStateResponse (Some res)).
    rewrite Hna.
      rewrite !(proj2 (Z.eqb_neq _ _)) by
        (unfold StatusAccepted, StatusNotFound, StatusRequestedRangeNotSatisfiable, clientError; lia).
      intros [= <- <- <- <-]. split; [done|]. tauto.
Qed.

Lemma g_doJSON_none g (w : W) meth uri code p n u res st g' w' :
  clients g !! client_key config = Some n → urlResolve (url n) uri = Ok u → p ≠ NoBody →
  g_doJSON (A:=unit) g w config meth uri code p None = (res, g', w') →
  res.1.1.1.1 = st →
  (∃ n', clients g' !! client_key config = Some n' ∧ url n' = url n) ∧
  ∃ r0, Do w (mkRequest meth u (<["User-Agent" := "gitlab-runner"]>
                (<["Content-Type" := "application/json"]> ∅)) p) = (r0, w') ∧
    match r0 with
    | Ok answer => st = StatusCode answer ∧ res.1.2 = Some answer
    | Err _ => st = (-1)%Z ∧ res.1.2 = None
    end.
Proof.
  intros Hn Hu Hp. unfold g_doJSON, getClient, doJSON. rewrite Hn.
  destruct (do n w uri meth p _ _) as [[r1 n1] w1] eqn:Hd.
  apply (do_spec _ _ _ _ _ _ _ u) in Hd as [Hurl (r0 & HDo & Hok & Herr)]; [|done|done].
  destruct r0 as [answer|e].
  - rewrite (proj2 (Hok answer) eq_refl).
    assert (Hif : (if (StatusCode answer =? code)%Z then Ok (None : option unit) else Ok None)
                  = (Ok None : result string (option unit))) by by destruct (_ =? _)%Z.
    cbv zeta. rewrite Hif. intros [= <- <- <-] <-. split; [|by exists (Ok answer)].
    eexists. simpl. rewrite lookup_insert_eq. split; [done|].
    unfold setLastUpdate. by destruct (bool_decide _).
  - destruct (proj2 Herr) as [e' ->]; [by exists e|].
    intros [= <- <- <-] <-. split; [|by exists (Err e)].
    exists n1. simpl. by rewrite lookup_insert_eq.
Qed.

Lemma g_UpdateJob_outcome (s : GitLabClient * W) js reason st s' :
  reachable (fst s) →
  UpdateJob s js reason = (st, s') →
  reachable (fst s') ∧ s_remote (snd s') = s_remote (snd s) ∧
  ((st = UpdateSucceeded ∧ s_reported (snd s') = Some (js, reason) ∧
    s_faults (snd s') ≤ s_faults (snd s)) ∨
   (st = UpdateFailed ∧ s_faults (snd s') < s_faults (snd s))).
Proof.
  destruct s as [g w], s' as [g' w']. simpl fst. simpl snd. intros Hre.
  pose proof Hre as (n & _ & u & Hn & _ & Hu). unfold UpdateJob, job_network, g_UpdateJob.
  destruct (g_doJSON _ _ _ _ _ _ _ _) as [[res g1] w1] eqn:Hd.
  eapply g_doJSON_none in Hd as [(n' & Hn' & Hurl) (r0 & HDo & Hr0)]; [|done..].
  assert (Hre1 : reachable g1) by by eapply reachable_keeps.
  eapply serve_put in HDo as [Hrem Hcase]; [|done..].
  destruct res as [[[[code txt] tls] answer] dec]. simpl in Hr0.
  assert (Hre2 : reachable (count_request g1 config APIEndpointUpdateJob code)) by done.
  destruct Hcase as [(Hrep & Hf & res & -> & Hc & Hna)|[Hfail Hf]].
  - destruct Hr0 as [-> ->]. unfold not_aborted in Hna. rewrite Hna, Hc. simpl.
    intros [= <- <- <-]. split_and!; [by rewrite <- Hc|done|]. by left.
  - destruct Hfail as [[e ->]|(res & -> & Hna & Hcode)]; destruct Hr0 as [-> ->].
    + simpl. intros [= <- <- <-]. split_and!; [done|done|]. by right.
    + unfold not_aborted in Hna. rewrite Hna.
      rewrite !(proj2 (Z.eqb_neq _ _)) by
        (unfold StatusOK, StatusNotFound, StatusForbidden, clientError; lia).
      intros [= <- <- <-]. split_and!; [done|done|]. by right.
Qed.

(** The client implements the interface the job trace was proved against. *)
#[local] Instance job_coordinator : Coordinator (GitLabClient * W) := {
  ready s := reachable (fst s);
  remote s := s_remote (snd s);
  faults s := s_faults (snd s);
  reported s := s_reported (snd s);
  patch_outcome := g_PatchTrace_outcome;
  update_outcome := g_UpdateJob_outcome }.

(** C1: The trace and the API client composed, over HTTP: from the start of a job whose
    server has no log yet, whatever is written and whenever the watcher runs, the end
    of the job leaves the server with exactly the masked log and the job's state. The
    patches carry the content ranges the server checks, a range mismatch is resolved
    from the [Range] header, transport errors and 5xx answers are retried. *)
Theorem log_reaches_the_server g (w : W) limit l input err reason clock :
  let c0 := ProcessJob limit in
  let log := TraceBuffer.Buffer.Bytes (TraceBuffer.Buffer.process
               (TraceBuffer.Buffer.run (buffer c0) (written l)) input) in
  reachable g → s_remote w = "" → (Z.of_nat (slen log) ≤ int64_max)%Z →
  ∃ c1 s1, acts (c0, (g, w)) l = Some (c1, s1) ∧
  ∀ fuel, 2 * slen log + 2 * s_faults w + 2 ≤ fuel →
    ∃ c2 s2, JobTrace.Fail fuel clock input err reason c1 s1 = Finished (c2, s2) ∧
      s_remote (snd s2) = log ∧
      s_reported (snd s2) = Some (if err then (Failed, reason) else (Success, NoneFailure)).
Proof. intros c0 log. apply (@trace_delivery _ job_network job_coordinator (g, w) limit l input err reason clock). Qed.

End Job.

(** ** A server to run against *)

Module DemoServer.
Import JobTrace.Scripted.

Definition answer (code : Z) (hs : gmap string string) : Response :=
  mkResponse code "" (<["Job-Status" := "running"]> hs) "" None.

(** What the server does with a request that reaches it. *)
Definition handle (w : world) (req : Request) : Response * world :=
  let n := Z.of_nat (slen (stored w)) in
  match body req with
  | TraceContent content =>
      if bool_decide (hd "" (Split (Get (headers req) "Content-Range") "-") = Itoa n)
      then (answer StatusAccepted ∅, mkWorld (stored w +:+ content) (schedule w) (status w))
      else (answer StatusRequestedRangeNotSatisfiable {["Range" := "0-" +:+ Itoa n]}, w)
  | UpdateJobRequest _ _ st reason => (answer StatusOK ∅, mkWorld (stored w) (schedule w) (Some (st, reason)))
  | _ => (answer StatusNotFound ∅, w)
  end.

#[global] Instance http : HTTP world := λ w req,
  match schedule w with
  | LostRequest :: fs => (Ok (answer 502 ∅), mkWorld (stored w) fs (status w))
  | LostAnswer :: fs => let '(_, w') := handle w req in
                        (Err "connection reset", mkWorld (stored w') fs (status w'))
  | fs => let '(res, w') := handle w req in (Ok res, mkWorld (stored w') (tail fs) (status w'))
  end.

Lemma answer_not_aborted code hs : code ≠ StatusForbidden → not_aborted (answer code hs).
Proof.
  intros Hc. unfold not_aborted, answer, IsAborted, NewRemoteJobStateResponse. simpl.
  unfold Get. rewrite lookup_insert_eq. simpl. by rewrite (proj2 (Z.eqb_neq _ _)).
Qed.

Lemma content_range_start a b : (0 ≤ a)%Z → hd "" (Split (Itoa a +:+ "-" +:+ Itoa b) "-") = Itoa a.
Proof.
  intros Ha. change ("-" +:+ Itoa b) with (String "-" (Itoa b)).
  rewrite Split_app; [done|]. apply Itoa_no_char; [done|by vm_compute].
Qed.

Lemma handle_patch w req content a :
  body req = TraceContent content → (0 ≤ a)%Z →
  headers req !! "Content-Range" = Some (Itoa a +:+ "-" +:+ Itoa (a + Z.of_nat (slen content) - 1)) →
  handle w req =
    (if (a =? Z.of_nat (slen (stored w)))%Z
     then (answer StatusAccepted ∅, mkWorld (stored w +:+ content) (schedule w) (status w))
     else (answer StatusRequestedRangeNotSatisfiable
             {["Range" := "0-" +:+ Itoa (Z.of_nat (slen (stored w)))]}, w)).
Proof.
  intros Hb Ha Hh. unfold handle, Get. rewrite Hb, Hh. simpl default. rewrite content_range_start by done.
  destruct (Z.eqb_spec a (Z.of_nat (slen (stored w)))) as [<-|Hne].
  - by rewrite bool_decide_eq_true_2.
  - rewrite bool_decide_eq_false_2; [done|]. intros Heq. apply Itoa_inj in Heq; [done|done|lia].
Qed.

Lemma demo_serve_patch w req content a r w' :
  method req = "PATCH" → body req = TraceContent content → content ≠ "" → (0 ≤ a)%Z →
  headers req !! "Content-Range" =
    Some (Itoa a +:+ "-" +:+ Itoa (a + Z.of_nat (slen content) - 1)) →
  Do w req = (r, w') →
  (a = Z.of_nat (slen (stored w)) ∧ stored w' = stored w +:+ content ∧
   length (schedule w') ≤ length (schedule w) ∧
   ∃ res, r = Ok res ∧ StatusCode res = StatusAccepted ∧ not_aborted res) ∨
  (a ≠ Z.of_nat (slen (stored w)) ∧ stored w' = stored w ∧
   length (schedule w') ≤ length (schedule w) ∧
   ∃ res, r = Ok res ∧ StatusCode res = StatusRequestedRangeNotSatisfiable ∧ not_aborted res ∧
          Get (Header res) "Range" = "0-" +:+ Itoa (Z.of_nat (slen (stored w)))) ∨
  (request_failed r ∧ length (schedule w') < length (schedule w) ∧
   (stored w' = stored w ∨
    a = Z.of_nat (slen (stored w)) ∧ stored w' = stored w +:+ content)).
Proof.
  intros _ Hb _ Ha Hh. pose proof (handle_patch w req content a Hb Ha Hh) as Hd.
  unfold Do, http. rewrite Hd. destruct w as [s fs t]. simpl in *.
  destruct (Z.eqb_spec a (Z.of_nat (slen s))) as [Heq|Hne]; destruct fs as [|[| |] fs];
    intros [= <- <-]; simpl.
  1, 2: left; split_and!; [done|done|lia|]; eexists; (split; [done|]); split; [done|by apply answer_not_aborted].
  3, 4: right; left; split_and!; [done|done|lia|]; eexists; do 2 (split; [done|]);
        (split; [by apply answer_not_aborted|done]).
  all: right; right; split_and!; [|lia|tauto]; first [by left; eexists|
    right; eexists; split; [done|]; split; [by apply answer_not_aborted|simpl; lia]].
Qed.

Lemma demo_serve_put w req info token st reason r w' :
  method req = "PUT" → body req = UpdateJobRequest info token st reason →
  Do w req = (r, w') →
  stored w' = stored w ∧
  ((status w' = Some (st, reason) ∧ length (schedule w') ≤ length (schedule w) ∧
    ∃ res, r = Ok res ∧ StatusCode res = StatusOK ∧ not_aborted res) ∨
   (request_failed r ∧ length (schedule w') < length (schedule w))).
Proof.
  intros _ Hb. unfold Do, http, handle. rewrite Hb. destruct w as [s fs t].
  destruct fs as [|[| |] fs]; intros [= <- <-]; simpl; (split; [done|]).
  1, 2: left; split_and!; [done|lia|]; eexists; (split; [done|]); split; [done|by apply answer_not_aborted].
  all: right; (split; [|lia]); first [by left; eexists|
    right; eexists; split; [done|]; split; [by apply answer_not_aborted|simpl; lia]].
Qed.

#[global] Instance server : JobServer world := {
  s_remote := stored; s_faults w := length (schedule w); s_reported := status;
  serve_patch := demo_serve_patch; serve_put := demo_serve_put }.

Definition no_build_info : VersionInfo := mkVersionInfo "" "" "" "" "" "" "" no_features.

#[global] Instance env : ClientEnv := {
  urlParse u := Ok ("https", "gitlab.example.com", u);
  urlResolve base uri := Ok (base +:+ uri);
  parseMediaType t := Ok t;
  decodeJob _ := Err "not a job";
  pemEncode s := s;
  QueryEscape s := s;
  Stat _ := false;
  ReadFile _ := None;
  CertificateDirectory := "";
  GetExecutor _ := None;
  GetShell _ := None;
  build_info := no_build_info }.

Definition runner : RunnerCredentials :=
  {| RC_URL := "https://gitlab.example.com/ci"; RC_Token := "runner-token"; RC_TLSCAFile := "";
     RC_TLSCertFile := ""; RC_TLSKeyFile := "" |}.
Definition job : JobCredentials :=
  {| JC_ID := 42; JC_Token := "job-token"; JC_URL := "https://gitlab.example.com/ci";
     JC_TLSCAFile := ""; JC_TLSCertFile := ""; JC_TLSKeyFile := "" |}.
Definition fresh : GitLabClient := mkGitLab ∅ ∅.
(** The client after a first request opened the connection. *)
Definition connected : GitLabClient := snd (getClient fresh runner).
End DemoServer.

Lemma log_reaches_the_server_witness :
  ∃ c1 s1,
    @acts _ (job_network DemoServer.runner "" "" DemoServer.job)
      (ProcessJob 0, (DemoServer.connected,
         Scripted.mkWorld "" [Scripted.LostAnswer; Scripted.LostRequest] None))
      [ABuffer (TraceBuffer.Buffer.EvRune 97); ATick 5; ABuffer (TraceBuffer.Buffer.EvRune 98)]
    = Some (c1, s1).
Proof.
  destruct (log_reaches_the_server DemoServer.runner "" "" DemoServer.job DemoServer.connected
    (Scripted.mkWorld "" [Scripted.LostAnswer; Scripted.LostRequest] None) 0
    [ABuffer (TraceBuffer.Buffer.EvRune 97); ATick 5; ABuffer (TraceBuffer.Buffer.EvRune 98)]
    "c" false NoneFailure (λ _, 7%Z)) as (c1 & s1 & Hacts & _).
  - eexists _, _, _. split; [vm_compute; reflexivity|]. split; reflexivity.
  - reflexivity.
  - vm_compute. discriminate.
  - exists c1, s1. exact Hacts.
Defined.

(** ** What the answers mean *)

Section Answers.
Context {W : Type} `{!HTTP W} `{!ClientEnv}.

(** The back-off of a request is kept under its method alone: the URI that should
    tell requests apart is [req.RequestURI], which is empty on a client. So a failing
    request to one URL delays every other request with that method, and a succeeding
    one resets it. *)
Theorem backoff_ignores_the_uri (n : client) (w : W) req k :
  k ≠ method req +:+ "_" →
  requestBackOffs (doBackoffRequest n w req).1.2 !! k = requestBackOffs n !! k.
Proof.
  intros Hk. unfold doBackoffRequest. destruct (Do w req) as [[res|e] w1]; [|done].
  rewrite string_app_nil_r. simpl.
  assert (Hn : requestBackOffs (ensureBackoff n (method req) "") !! k = requestBackOffs n !! k).
  { unfold ensureBackoff. destruct (requestBackOffs n !! _); [done|]. simpl.
    rewrite string_app_nil_r. by rewrite lookup_insert_ne. }
  destruct (backoffRequired res); simpl; by rewrite lookup_alter_ne.
Qed.

(** Artifacts cannot be downloaded to a path that cannot be created: the error
    path dereferences the nil file, so the helper panics instead of reporting a failed
    download; in every other case the download ends with a state, and the file is on
    disk exactly when that state is success. *)
Theorem download_panics_iff_create_fails (g : GitLabClient) (w : W) config file outcome files :
  let '(answer, _, _) := DownloadArtifacts g w config file outcome files in
  match answer with
  | None => outcome = CreateFails
  | Some (st, files') =>
      st = DownloadSucceeded ↔
        outcome = Written ∧
        ∃ res, (doRaw g w (job_as_credentials config) "GET"
                 ("jobs/" +:+ Itoa (JC_ID config) +:+ "/artifacts") NoBody ""
                 {["Job-Token" := JC_Token config]}).1.1 = Ok res ∧
               StatusCode res = StatusOK ∧ files' = <[file := Body res]> files
  end.
Proof.
  unfold DownloadArtifacts. destruct (doRaw _ _ _ _ _ _ _ _) as [[r g1] w1]. simpl.
  destruct r as [res|e]; [|naive_solver].
  destruct (Z.eqb_spec (StatusCode res) StatusOK) as [Hok|Hno].
  - destruct outcome; naive_solver.
  - repeat (destruct (_ =? _)%Z); split; try done; intros (_ & res' & [= <-] & ? & _); done.
Qed.

End Answers.

Lemma backoff_ignores_the_uri_witness :
  requestBackOffs (doBackoffRequest (mkClient "" "" "" "" "" "" {["POST_" := 3]})
    (Scripted.mkWorld "" [] None) (mkRequest "GET" "https://a/b" ∅ NoBody)).1.2 !! "POST_" = Some 3.
Proof.
  rewrite (backoff_ignores_the_uri (mkClient "" "" "" "" "" "" {["POST_" := 3]})
    (Scripted.mkWorld "" [] None) (mkRequest "GET" "https://a/b" ∅ NoBody) "POST_").
  - reflexivity.
  - vm_compute. congruence.
Defined.
