(* ===== verification/Machine.v ===== *)
(** The machine pool of the docker+machine executor (executors/docker/machine: state.go,
    data.go, details.go, provider.go, collector.go): machines are created ahead of
    need, handed to builds, and removed when they are used up, dead or too many. The
    operations work on a store of shared [machineDetails], as the code's goroutines
    share pointers to them; creation and removal go on in the background and are
    separate steps. Theorems: a machine is never handed to two builds at once, however
    the steps interleave; what pre-creation leaves; what [Acquire] may hand out; and
    that a machine in use can be under removal. *)

From S2P Require Import Prelude GoLib Types Variables Config.

(** ** Machines *)

Inductive machineState :=
| machineStateIdle | machineStateAcquired | machineStateCreating | machineStateUsed
| machineStateRemoving.

#[export] Instance machineState_eq_dec : EqDecision machineState.
Proof. solve_decision. Defined.

Definition stateString (t : machineState) : string :=
  match t with
  | machineStateIdle => "Idle" | machineStateAcquired => "Acquired"
  | machineStateCreating => "Creating" | machineStateUsed => "Used"
  | machineStateRemoving => "Removing"
  end.

Definition machineDeadInterval : Z := (20 * Minute)%Z.
Definition removeRetryTries : Z := 3.

Record machineDetails := mkDetails {
  d_Name : string; Created : Z; Used : Z; UsedCount : Z; State : machineState;
  Reason : string; RetryCount : Z; LastSeen : Z }.

Definition isUsed (d : machineDetails) : bool := bool_decide (State d ≠ machineStateIdle).

Definition isStuckOnRemove (d : machineDetails) : bool :=
  bool_decide (State d = machineStateRemoving) && (removeRetryTries <=? RetryCount d)%Z.

Definition isDead (d : machineDetails) (now : Z) : bool :=
  bool_decide (State d = machineStateIdle) && (machineDeadInterval <? now - LastSeen d)%Z.

Definition canBeUsed (d : machineDetails) : bool := bool_decide (State d = machineStateAcquired).

(** Assignments to fields. *)
Definition set_state (s : machineState) (d : machineDetails) : machineDetails :=
  mkDetails (d_Name d) (Created d) (Used d) (UsedCount d) s (Reason d) (RetryCount d) (LastSeen d).
Definition set_used (t : Z) (d : machineDetails) : machineDetails :=
  mkDetails (d_Name d) (Created d) t (UsedCount d) (State d) (Reason d) (RetryCount d) (LastSeen d).
Definition set_usedCount (n : Z) (d : machineDetails) : machineDetails :=
  mkDetails (d_Name d) (Created d) (Used d) n (State d) (Reason d) (RetryCount d) (LastSeen d).
Definition set_retryCount (n : Z) (d : machineDetails) : machineDetails :=
  mkDetails (d_Name d) (Created d) (Used d) (UsedCount d) (State d) (Reason d) n (LastSeen d).
Definition set_lastSeen (t : Z) (d : machineDetails) : machineDetails :=
  mkDetails (d_Name d) (Created d) (Used d) (UsedCount d) (State d) (Reason d) (RetryCount d) t.
Definition set_reason (r : string) (d : machineDetails) : machineDetails :=
  mkDetails (d_Name d) (Created d) (Used d) (UsedCount d) (State d) r (RetryCount d) (LastSeen d).

(** ** Counting machines *)

Record machinesData := mkData {
  md_Runner : string; md_Acquired : Z; md_Creating : Z; md_Idle : Z; md_Used : Z;
  md_Removing : Z; StuckOnRemoving : Z }.

Definition Available (d : machinesData) : Z := (md_Acquired d + md_Creating d + md_Idle d)%Z.

Definition Total (d : machinesData) : Z :=
  (md_Acquired d + md_Creating d + md_Idle d + md_Used d + md_Removing d + StuckOnRemoving d)%Z.

Definition Add (d : machinesData) (x : machineDetails) : machinesData :=
  let '(mkData r a c i u rm s) := d in
  (match State x with
   | machineStateIdle => mkData r a c (i + 1) u rm s
   | machineStateCreating => mkData r a (c + 1) i u rm s
   | machineStateAcquired => mkData r (a + 1) c i u rm s
   | machineStateUsed => mkData r a c i (u + 1) rm s
   | machineStateRemoving =>
       if isStuckOnRemove x then mkData r a c i u rm (s + 1) else mkData r a c i u (rm + 1) s
   end)%Z.

(** ** The provider *)

(** [heap] holds every [machineDetails] ever allocated (a build may keep a pointer to one
    that the map has forgotten), [fresh] is the next free pointer, [creations] and
    [removals] are the goroutines of [create] (with the state they will set) and of
    [finalizeRemoval] still running, [actions] is the counter of the actions metric. *)
Record machineProvider := mkProvider {
  heap : gmap nat machineDetails; fresh : nat; details : gmap string nat;
  creations : list (nat * machineState); removals : list nat; actions : gmap string Z }.

Definition newMachineProvider : machineProvider := mkProvider ∅ 0 ∅ [] [] ∅.

Definition modify (m : machineProvider) (p : nat) (f : machineDetails → machineDetails) : machineProvider :=
  mkProvider (alter f p (heap m)) (fresh m) (details m) (creations m) (removals m) (actions m).

Definition count_action (m : machineProvider) (a : string) : machineProvider :=
  mkProvider (heap m) (fresh m) (details m) (creations m) (removals m)
    (<[a := default 0 (actions m !! a) + 1]> (actions m))%Z.

Definition set_creations (m : machineProvider) (l : list (nat * machineState)) : machineProvider :=
  mkProvider (heap m) (fresh m) (details m) l (removals m) (actions m).

Definition set_removals (m : machineProvider) (l : list nat) : machineProvider :=
  mkProvider (heap m) (fresh m) (details m) (creations m) l (actions m).

Definition set_details (m : machineProvider) (l : gmap string nat) : machineProvider :=
  mkProvider (heap m) (fresh m) l (creations m) (removals m) (actions m).

Definition read (m : machineProvider) (p : nat) : option machineDetails := heap m !! p.

(** Delete the first occurrence. *)
Fixpoint drop_first {A} `{!EqDecision A} (x : A) (l : list A) : list A :=
  match l with
  | [] => []
  | y :: l => if bool_decide (x = y) then l else y :: drop_first x l
  end.

(** [machineDetails]: the lookup that allocates unknown names; [None] is the nil a caller
    gets that wanted to acquire a machine in use. *)
Definition allocate (m : machineProvider) (now : Z) (name : string) : nat * machineProvider :=
  match details m !! name with
  | Some p => (p, m)
  | None => (fresh m, mkProvider
               (<[fresh m := mkDetails name now now 1 machineStateIdle "" 0 now]> (heap m))
               (S (fresh m)) (<[name := fresh m]> (details m)) (creations m) (removals m) (actions m))
  end.

Definition getDetails (m : machineProvider) (now : Z) (name : string) (acquire : bool)
    : option nat * machineProvider :=
  let '(p, m) := allocate m now name in
  if acquire then
    if from_option isUsed true (read m p) then (None, m)
    else (Some p, modify m p (set_state machineStateAcquired))
  else (Some p, m).

(** [remove]; the flag is false for the error. The removal goes on in the background. *)
Definition remove (m : machineProvider) (now : Z) (machineName reason : string) : bool * machineProvider :=
  match details m !! machineName with
  | None => (false, m)
  | Some p =>
      let m := modify m p (λ d,
        set_used now (set_retryCount 0 (set_state machineStateRemoving (set_reason reason d)))) in
      (true, set_removals m (removals m ++ [p]))
  end.

(** [removeMachine] succeeds when the machine does not exist or could be removed. *)
Definition removeMachine (m : machineProvider) (p : nat) (exists_ removed : bool) : bool * machineProvider :=
  if negb exists_ then (true, m)
  else if removed then (true, m)
  else (false, modify m p (λ d, set_retryCount (RetryCount d + 1) d)).

(** One round of the loop of [finalizeRemoval]; a success ends the loop and the goroutine. *)
Definition finalizeRemoval (m : machineProvider) (p : nat) (exists_ removed : bool) : machineProvider :=
  let '(ok, m) := removeMachine m p exists_ removed in
  match ok, read m p with
  | true, Some d =>
      let m := set_details m (delete (d_Name d) (details m)) in
      count_action (set_removals m (drop_first p (removals m))) "removed"
  | _, _ => m
  end.

(** [create] up to the start of its goroutine; [None] is the nil dereference when the new
    name is that of a machine in use. *)
Definition create (m : machineProvider) (now : Z) (name : string) (state : machineState)
    : option (nat * machineProvider) :=
  match getDetails m now name true with
  | (None, _) => None
  | (Some p, m) =>
      let m := modify m p (λ d,
        set_lastSeen now (set_retryCount 0 (set_usedCount 0 (set_state machineStateCreating d)))) in
      Some (p, set_creations m (creations m ++ [(p, state)]))
  end.

(** The attempts of the goroutine: after a failed creation, up to [n] provisionings. *)
Fixpoint provision (n i : nat) (failed : bool) (provisioned : nat → bool) (m : machineProvider) (p : nat)
    : bool * machineProvider :=
  match n with
  | 0 => (failed, m)
  | S k => if failed
           then provision k (S i) (negb (provisioned i)) provisioned
                  (modify m p (λ d, set_retryCount (RetryCount d + 1) d)) p
           else (failed, m)
  end.

(** The goroutine of [create]; the flag is whether it failed. *)
Definition created (m : machineProvider) (now : Z) (p : nat) (state : machineState)
    (ok : bool) (provisioned : nat → bool) : bool * machineProvider :=
  let m := set_creations m (drop_first (p, state) (creations m)) in
  let '(failed, m) := provision 3 0 (negb ok) provisioned m p in
  if failed then
    match read m p with
    | Some d => (true, snd (remove m now (d_Name d) "Failed to create"))
    | None => (true, m)
    end
  else (false, count_action (modify m p (λ d, set_used now (set_state state d))) "created").

(** ** Acquire, Use, Release *)

(** What docker-machine answers while an operation runs, which of its machines belong to
    the runner (the name matches the runner's template), and the names of new ones. *)
Record Env := {
  List_ : result string (list string); matchesMachineFilter : string → bool;
  CanConnect : string → bool; CredentialsOK : string → bool; newMachineName : nat → string;
  create_ok : string → bool; provision_ok : string → nat → bool }.

Definition updateMachine (config : RunnerConfig) (machine : DockerMachine) (now : Z)
    (data : machinesData) (d : machineDetails) : option string :=
  if isUsed d then None
  else if ((0 <? MaxBuilds machine) && (MaxBuilds machine <=? UsedCount d))%Z then Some "Too many builds"
  else if ((Limit config <=? Total data) && (0 <? Limit config))%Z then Some "Too many machines"
  else if (int64_wrap (Second * GetIdleTime machine now) <? now - Used d)%Z
          && (GetIdleCount machine now <=? md_Idle data)%Z
  then Some "Too many idle machines"
  else None.

(** The loop body of [updateMachines]. *)
Definition update_one (config : RunnerConfig) (machine : DockerMachine) (now : Z)
    (st : machinesData * list string * machineProvider) (name : string)
    : machinesData * list string * machineProvider :=
  let '(data, valid, m) := st in
  let '(p, m) := allocate m now name in
  let m := modify m p (set_lastSeen now) in
  match read m p with
  | None => st
  | Some d =>
      let '(valid, m) := match updateMachine config machine now data d with
                         | None => (valid ++ [name], m)
                         | Some err => (valid, snd (remove m now (d_Name d) err))
                         end in
      (from_option (Add data) data (read m p), valid, m)
  end.

Definition updateMachines (config : RunnerConfig) (machine : DockerMachine) (now : Z)
    (machines : list string) (m : machineProvider) : machinesData * list string * machineProvider :=
  foldl (update_one config machine now)
    (mkData (ShortDescription (Credentials_ config)) 0 0 0 0 0 0, [], m) machines.

Definition add_creating (d : machinesData) : machinesData :=
  mkData (md_Runner d) (md_Acquired d) (md_Creating d + 1) (md_Idle d) (md_Used d) (md_Removing d)
    (StuckOnRemoving d).

(** The loop of [createMachines]; [k] counts the machines created. [None] is a panic of
    [create] or, with too little fuel, a loop that is not over ([createMachines_spec]
    shows that [fuel] machines missing need no more). *)
Fixpoint createMachines (fuel k : nat) (env : Env) (config : RunnerConfig) (machine : DockerMachine)
    (now : Z) (data : machinesData) (m : machineProvider) : option (machinesData * machineProvider) :=
  if (GetIdleCount machine now <=? Available data)%Z then Some (data, m)
  else if ((Limit config <=? Total data) && (0 <? Limit config))%Z then Some (data, m)
  else match fuel with
       | 0 => None
       | S fuel => match create m now (newMachineName env k) machineStateIdle with
                   | None => None
                   | Some (_, m) => createMachines fuel (S k) env config machine now (add_creating data) m
                   end
       end.

Definition loadMachines (env : Env) : result string (list string) :=
  match List_ env with
  | Err e => Err e
  | Ok l => Ok (filter (λ n, matchesMachineFilter env n = true) l)
  end.

(** The loop of [findFreeMachine] over the machines in reverse order. *)
Fixpoint find_free (env : Env) (now : Z) (names : list string) (m : machineProvider)
    : option nat * machineProvider :=
  match names with
  | [] => (None, m)
  | name :: names =>
      match getDetails m now name true with
      | (None, m) => find_free env now names m
      | (Some p, m) => if CanConnect env name then (Some p, m)
                       else find_free env now names (snd (remove m now name "machine is unavailable"))
      end
  end.

Definition findFreeMachine (env : Env) (now : Z) (machines : list string) (m : machineProvider)
    : option nat * machineProvider := find_free env now (reverse machines) m.

(** [Acquire]; the pointer is nil when there is no machine but one will be created later. *)
Definition Acquire (env : Env) (now : Z) (config : RunnerConfig) (m : machineProvider)
    : option (result string (option nat) * machineProvider) :=
  match Machine config with
  | None => Some (Err "Missing Machine options", m)
  | Some machine =>
      if bool_decide (MachineName machine = "") then Some (Err "Missing Machine options", m)
      else match loadMachines env with
           | Err e => Some (Err e, m)
           | Ok machines =>
               let '(data, valid, m) := updateMachines config machine now machines m in
               match createMachines (Z.to_nat (GetIdleCount machine now - Available data)) 0
                       env config machine now data m with
               | None => None
               | Some (data, m) =>
                   let '(p, m) := findFreeMachine env now valid m in
                   match p with
                   | Some p => Some (Ok (Some p), m)
                   | None => if negb (GetIdleCount machine now =? 0)%Z && (md_Idle data =? 0)%Z
                             then Some (Err "No free machines that can process builds", m)
                             else Some (Ok None, m)
                   end
               end
           end
  end.

(** [Release]; [data] is nil or a pointer. *)
Definition Release (now : Z) (config : RunnerConfig) (data : option nat) (m : machineProvider)
    : machineProvider :=
  match data ≫= λ p, pair p <$> read m p with
  | None => m
  | Some (p, d) =>
      let m := if bool_decide (State d = machineStateUsed) then modify m p (set_used now) else m in
      let worn := match Machine config with
                  | Some machine => ((0 <? MaxBuilds machine) && (MaxBuilds machine <=? UsedCount d))%Z
                  | None => false
                  end in
      let '(removed, m) := if worn then remove m now (d_Name d) "Too many builds" else (false, m) in
      if removed then m else modify m p (set_state machineStateIdle)
  end.

(** [useMachine]: a free machine of the pool, or a new one, whose creation is awaited. *)
Definition useMachine (env : Env) (now : Z) (m : machineProvider)
    : option (result string nat * machineProvider) :=
  match loadMachines env with
  | Err e => Some (Err e, m)
  | Ok machines =>
      match findFreeMachine env now machines m with
      | (Some p, m) => Some (Ok p, m)
      | (None, m) =>
          let name := newMachineName env 0 in
          match create m now name machineStateAcquired with
          | None => None
          | Some (p, m) =>
              let '(failed, m) := created m now p machineStateAcquired (create_ok env name) (provision_ok env name) in
              Some (if failed then Err "machine creation failed" else Ok p, m)
          end
      end
  end.

(** [retryUseMachine]: [tries] attempts, the error of the last one. *)
Fixpoint retryUseMachine (tries i : nat) (envs : nat → Env) (now : Z) (last : string) (m : machineProvider)
    : option (result string nat * machineProvider) :=
  match tries with
  | 0 => Some (Err last, m)
  | S k => match useMachine (envs i) now m with
           | None => None
           | Some (Ok p, m) => Some (Ok p, m)
           | Some (Err e, m) => retryUseMachine k (S i) envs now e m
           end
  end.

(** What marks a machine as used at the end of [Use]. *)
Definition markUsed (now : Z) (p : nat) (m : machineProvider) : machineProvider :=
  count_action (modify m p (λ d,
    set_usedCount (UsedCount d + 1) (set_used now (set_state machineStateUsed d)))) "used".

(** [Use]; the pointer is the machine in use, the flag tells whether it is a new one (then
    it is returned as the new data). *)
Definition Use (envs : nat → Env) (now : Z) (config : RunnerConfig) (data : option nat) (m : machineProvider)
    : option (result string (nat * bool) * machineProvider) :=
  let usable := data ≫= λ p, read m p ≫= λ d,
    if canBeUsed d && CanConnect (envs 0) (d_Name d) then Some p else None in
  let chosen := match usable with
                | Some p => Some (Ok (p, false), m)
                | None => match retryUseMachine 3 0 envs now "" m with
                          | None => None
                          | Some (Ok p, m) => Some (Ok (p, true), m)
                          | Some (Err e, m) => Some (Err e, m)
                          end
                end in
  match chosen with
  | None => None
  | Some (Err e, m) => Some (Err e, m)
  | Some (Ok (p, new), m) =>
      if from_option (λ d, CredentialsOK (envs 3) (d_Name d)) false (read m p)
      then Some (Ok (p, new), markUsed now p m)
      else Some (Err "no credentials", if new then Release now config (Some p) m else m)
  end.

(** [collectDetails]: the machines of the map that are not dead. *)
Definition collectDetails (now : Z) (m : machineProvider) : machinesData :=
  foldl Add (mkData "" 0 0 0 0 0 0)
    (filter (λ d, isDead d now = false) (omap (λ p, read m p) ((map_to_list (details m)).*2))).

(** [Collect]: the gauge of each state. *)
Definition states_Collect (now : Z) (m : machineProvider) : list (string * Z) :=
  let data := collectDetails now m in
  [("acquired", md_Acquired data); ("creating", md_Creating data); ("idle", md_Idle data); ("used", md_Used data);
   ("removing", md_Removing data); ("stuck-on-removing", StuckOnRemoving data)].

Lemma Total_foldl_Add l d : Total (foldl Add d l) = (Total d + Z.of_nat (length l))%Z.
Proof.
  revert d. induction l as [|x l IH]; intros d; simpl; [lia|]. rewrite IH.
  destruct d. unfold Add. destruct (State x); [..|destruct (isStuckOnRemove x)]; unfold Total; simpl; lia.
Qed.

(** The gauges count every machine that is not dead once. *)
Lemma collected_states_add_up now m :
  foldr (λ x acc, snd x + acc)%Z 0%Z (states_Collect now m) =
  Z.of_nat (length (filter (λ d, isDead d now = false) (omap (λ p, read m p) ((map_to_list (details m)).*2)))).
Proof.
  transitivity (Total (collectDetails now m)); [unfold Total; simpl; lia|]. unfold collectDetails. by rewrite Total_foldl_Add.
Qed.

(** ** Interleaving *)

(** The atomic steps of the goroutines: those under [m.lock], and the assignments without
    it. [held] lists the machines that are with a build (acquired, or being created for
    one, or in use); [doomed] the names (and reasons) some [updateMachines] has decided to
    remove but not removed yet: the state is checked without the lock. *)
Record world := mkWorld {
  provider : machineProvider; held : list nat; doomed : list (string * string) }.

Inductive action :=
| ATake (name : string)                     (* findFreeMachine takes a machine *)
| ADiscard (p : nat)                        (* it cannot connect and removes it *)
| ADecide (name : string) (data : machinesData)  (* updateMachines looks at a machine *)
| ADoom (name reason : string)              (* and removes it *)
| ACreate (name : string) (state : machineState) (* create *)
| ACreated (p : nat) (state : machineState) (ok : bool) (provisioned : nat → bool)
| AUse (p : nat)                            (* the end of Use *)
| ARelease (p : nat)                        (* Release *)
| AFinalize (p : nat) (exists_ removed : bool). (* a round of finalizeRemoval *)

Section Steps.
Context (config : RunnerConfig) (machine : DockerMachine).

Definition mstep (now : Z) (w : world) (a : action) : option world :=
  let m := provider w in
  match a with
  | ATake name =>
      let '(p, m) := getDetails m now name true in
      Some (mkWorld m (option_list p ++ held w) (doomed w))
  | ADiscard p =>
      if bool_decide (p ∈ held w) then
        let m := from_option (λ d, snd (remove m now (d_Name d) "machine is unavailable")) m (read m p) in
        Some (mkWorld m (drop_first p (held w)) (doomed w))
      else None
  | ADecide name data =>
      let '(p, m) := allocate m now name in
      let m := modify m p (set_lastSeen now) in
      let bad := from_option (λ d, updateMachine config machine now data d) None (read m p) in
      Some (mkWorld m (held w) (match bad with Some err => (name, err) :: doomed w | None => doomed w end))
  | ADoom name reason =>
      if bool_decide ((name, reason) ∈ doomed w)
      then Some (mkWorld (snd (remove m now name reason)) (held w) (drop_first (name, reason) (doomed w)))
      else None
  | ACreate name state =>
      match state, create m now name state with
      | machineStateIdle, Some (p, m) | machineStateAcquired, Some (p, m) => Some (mkWorld m (held w) (doomed w))
      | _, _ => None
      end
  | ACreated p state ok provisioned =>
      if bool_decide ((p, state) ∈ creations m) then
        let '(failed, m) := created m now p state ok provisioned in
        let mine := negb failed && bool_decide (state = machineStateAcquired) in
        Some (mkWorld m (if mine then p :: held w else held w) (doomed w))
      else None
  | AUse p => if bool_decide (p ∈ held w) then Some (mkWorld (markUsed now p m) (held w) (doomed w)) else None
  | ARelease p =>
      if bool_decide (p ∈ held w)
      then Some (mkWorld (Release now config (Some p) m) (drop_first p (held w)) (doomed w)) else None
  | AFinalize p exists_ removed =>
      if bool_decide (p ∈ removals m)
      then Some (mkWorld (finalizeRemoval m p exists_ removed) (held w) (doomed w)) else None
  end.

(** A run: steps that are not enabled are skipped. *)
Definition mrun (w : world) (l : list (Z * action)) : world :=
  foldl (λ w '(now, a), default w (mstep now w a)) w l.

Definition new_world : world := mkWorld newMachineProvider [] [].

End Steps.

(** ** One owner per machine *)

(** The machines with a build or under creation. *)
Definition owned (w : world) : list nat := held w ++ (creations (provider w)).*1.

(** A provider whose machines [own] have an owner each. *)
Record safe (m : machineProvider) (own : list nat) : Prop := {
  safe_fresh p : fresh m ≤ p → heap m !! p = None;
  safe_details name p : details m !! name = Some p → is_Some (heap m !! p);
  safe_once : NoDup own;
  safe_busy p : p ∈ own → ∃ d, heap m !! p = Some d ∧ State d ≠ machineStateIdle }.

#[export] Instance safe_perm m : Proper (Permutation ==> iff) (safe m).
Proof.
  enough (∀ l k, l ≡ₚ k → safe m l → safe m k) as H by (intros l k Hp; split; apply H; done).
  intros l k Hp [H1 H2 H3 H4]. split; [done|done|by rewrite <- Hp|]. intros p. rewrite <- Hp. apply H4.
Qed.

(** The fields [safe] does not look at. *)
Lemma safe_same m m' own :
  heap m' = heap m → fresh m' = fresh m → (∀ n p, details m' !! n = Some p → details m !! n = Some p) →
  safe m own → safe m' own.
Proof.
  intros Hh Hf Hd [H1 H2 H3 H4]. split; rewrite ?Hh, ?Hf; [done| |done|done]. intros n p H%Hd. eauto.
Qed.

Lemma safe_count m own a : safe (count_action m a) own ↔ safe m own.
Proof. split; apply safe_same; done. Qed.
Lemma safe_creations m own l : safe (set_creations m l) own ↔ safe m own.
Proof. split; apply safe_same; done. Qed.
Lemma safe_removals m own l : safe (set_removals m l) own ↔ safe m own.
Proof. split; apply safe_same; done. Qed.

Lemma safe_less m own p : safe m (p :: own) → safe m own.
Proof. intros [H1 H2 [_ H3]%NoDup_cons H4]. split; try done. intros q Hq. apply H4. set_solver. Qed.

Lemma safe_modify m own p f :
  (p ∈ own → ∀ d, heap m !! p = Some d → State (f d) ≠ machineStateIdle) →
  safe m own → safe (modify m p f) own.
Proof.
  intros Hf [H1 H2 H3 H4]. split; simpl; [| |done|].
  - intros q Hq. rewrite lookup_alter_None. auto.
  - intros n q Hq. rewrite lookup_alter_is_Some. eauto.
  - intros q Hq. destruct (H4 q Hq) as (d & Hd & Hs). destruct (decide (p = q)) as [->|Hne].
    + exists (f d). rewrite lookup_alter_eq, Hd. split; [done|]. eauto.
    + exists d. by rewrite lookup_alter_ne.
Qed.

(** Assignments that leave the state alone, or do not make the machine idle. *)
Lemma safe_keep m own p f : (∀ d, State (f d) = State d) → safe m own → safe (modify m p f) own.
Proof.
  intros Hf Hs. apply safe_modify; [|done]. intros Hp d Hd. rewrite Hf.
  destruct (safe_busy _ _ Hs p Hp) as (d' & Hd' & ?). congruence.
Qed.

Lemma safe_busy_state m own p f s :
  s ≠ machineStateIdle → (∀ d, State (f d) = s) → safe m own → safe (modify m p f) own.
Proof. intros Hs Hf. apply safe_modify. intros _ d _. by rewrite Hf. Qed.

Lemma drop_first_perm {A} `{!EqDecision A} (x : A) l : x ∈ l → l ≡ₚ x :: drop_first x l.
Proof.
  induction l as [|y l IH]; intros Hx; [by apply elem_of_nil in Hx|]. simpl.
  case_bool_decide; [by subst|]. apply elem_of_cons in Hx as [->|Hx]; [done|].
  rewrite (IH Hx) at 1. by rewrite Permutation_swap.
Qed.

Lemma safe_allocate m now name p m' own :
  allocate m now name = (p, m') → safe m own →
  safe m' own ∧ details m' !! name = Some p ∧ is_Some (heap m' !! p) ∧
  creations m' = creations m.
Proof.
  unfold allocate. destruct (details m !! name) as [q|] eqn:Hd; intros [= <- <-] Hs.
  { split; [done|]. split; [done|]. split; [|done]. by eapply safe_details. }
  destruct Hs as [H1 H2 H3 H4]. simpl. rewrite !lookup_insert_eq. split; [|eauto].
  assert (Hf : heap m !! fresh m = None) by (by apply H1).
  split; simpl; [| |done|].
  - intros q Hq. rewrite lookup_insert_ne by lia. apply H1. lia.
  - intros n q. rewrite lookup_insert_Some. intros [[_ <-]|[_ Hq]]; [by rewrite lookup_insert_eq|].
    rewrite lookup_insert_is_Some. destruct (decide (fresh m = q)); eauto.
  - intros q Hq. destruct (H4 q Hq) as (d & Hq' & ?). exists d.
    rewrite lookup_insert_ne by congruence. done.
Qed.

(** A machine that is handed out had no owner; it has one now. *)
Lemma safe_acquire m now name p m' own :
  getDetails m now name true = (p, m') → safe m own →
  safe m' (option_list p ++ own) ∧ creations m' = creations m.
Proof.
  unfold getDetails. destruct (allocate m now name) as [q m1] eqn:Ha. intros Hg Hs.
  destruct (safe_allocate _ _ _ _ _ _ Ha Hs) as (Hs1 & _ & [d Hd] & Hc).
  unfold read in Hg. rewrite Hd in Hg. simpl in Hg. unfold isUsed in Hg. case_bool_decide as Hi.
  { injection Hg as <- <-. done. }
  injection Hg as <- <-. simpl. split; [|done].
  assert (Hq : q ∉ own).
  { intros Hq. destruct (safe_busy _ _ Hs1 q Hq) as (d' & Hd' & ?).
    assert (d' = d) by congruence. subst. destruct (decide (State d = machineStateIdle)); tauto. }
  assert (Hm : safe (modify m1 q (set_state machineStateAcquired)) own) by (by apply safe_modify).
  destruct Hm as [H1 H2 H3 H4]. split; [done|done|by constructor|].
  intros r [->|Hr]%elem_of_cons; [|eauto]. simpl. rewrite lookup_alter_eq, Hd.
  eexists. split; [reflexivity|done].
Qed.

Lemma safe_remove m now name reason own : safe m own → safe (remove m now name reason).2 own.
Proof.
  intros Hs. unfold remove. destruct (details m !! name) as [p|]; [|done]. simpl.
  apply safe_removals. by eapply safe_busy_state with (s := machineStateRemoving).
Qed.

Lemma creations_remove m now name reason : creations (remove m now name reason).2 = creations m.
Proof. unfold remove. by destruct (details m !! name). Qed.

Lemma safe_finalize m p e r own :
  safe m own → safe (finalizeRemoval m p e r) own ∧ creations (finalizeRemoval m p e r) = creations m.
Proof.
  intros Hs. unfold finalizeRemoval, removeMachine.
  assert (Hd : ∀ d, safe (set_details m (delete (d_Name d) (details m))) own).
  { intros d. eapply safe_same; [| | |apply Hs]; simpl; try done. intros n q. rewrite lookup_delete_Some. naive_solver. }
  destruct e, r; simpl;
    repeat match goal with |- context [match read ?m ?p with _ => _ end] => destruct (read m p) end;
    rewrite ?safe_count, ?safe_removals; try (split; [done|done]); split; try done; by apply safe_keep.
Qed.

Lemma safe_create m now name s p m' own :
  create m now name s = Some (p, m') → safe m own →
  safe m' (p :: own) ∧ creations m' = creations m ++ [(p, s)].
Proof.
  unfold create. destruct (getDetails m now name true) as [[q|] m1] eqn:Hg; [|done].
  intros [= <- <-] Hs. destruct (safe_acquire _ _ _ _ _ _ Hg Hs) as [Hs1 Hc]. simpl in *. rewrite Hc.
  split; [|done]. rewrite safe_creations. by eapply safe_busy_state with (s := machineStateCreating).
Qed.

Lemma safe_provision n i b f m p own :
  safe m own → safe (provision n i b f m p).2 own ∧ creations (provision n i b f m p).2 = creations m.
Proof.
  revert i b m. induction n as [|n IH]; intros i b m Hs; [done|]. simpl. destruct b; [|done].
  destruct (IH (S i) (negb (f i)) (modify m p (λ d, set_retryCount (RetryCount d + 1) d))) as [H1 H2].
  { by apply safe_keep. }
  by rewrite H2.
Qed.

Lemma safe_created m now p s ok f own failed m' :
  created m now p s ok f = (failed, m') → safe m (p :: own) →
  safe m' (if negb failed && bool_decide (s = machineStateAcquired) then p :: own else own) ∧
  creations m' = drop_first (p, s) (creations m).
Proof.
  unfold created. set (m1 := set_creations m _). intros Hc Hs.
  assert (Hs1 : safe m1 (p :: own)) by (by apply safe_creations).
  destruct (safe_provision 3 0 (negb ok) f m1 p _ Hs1) as [Hs2 Hc2].
  destruct (provision 3 0 (negb ok) f m1 p) as [[|] m2]; simpl in *.
  - assert (failed = true ∧ safe m' (p :: own) ∧ creations m' = creations m2) as (-> & Hs3 & Hc3).
    { destruct (read m2 p); injection Hc as <- <-; [|done].
      split; [done|]. split; [by apply safe_remove|apply creations_remove]. }
    simpl. split; [by eapply safe_less|]. by rewrite Hc3, Hc2.
  - injection Hc as <- <-. simpl. split; [|done]. rewrite safe_count.
    case_bool_decide as Ha; [by subst; eapply safe_busy_state with (s := machineStateAcquired)|].
    apply safe_modify; [|by eapply safe_less]. intros Hp.
    pose proof (safe_once _ _ Hs2) as [Hn _]%NoDup_cons. done.
Qed.

Lemma safe_release now config m p own :
  safe m (p :: own) →
  safe (Release now config (Some p) m) own ∧ creations (Release now config (Some p) m) = creations m.
Proof.
  intros Hs. unfold Release. simpl. destruct (read m p) as [d|]; simpl; [|split; [by eapply safe_less|done]].
  set (m1 := if bool_decide _ then _ else m).
  assert (safe m1 (p :: own) ∧ creations m1 = creations m) as [Hs1 Hc1].
  { unfold m1. case_bool_decide; [|done]. split; [by apply safe_keep|done]. }
  set (worn := match Machine config with Some _ => _ | None => _ end).
  assert (safe (if worn then remove m1 now (d_Name d) "Too many builds" else (false, m1)).2 (p :: own) ∧
    creations (if worn then remove m1 now (d_Name d) "Too many builds" else (false, m1)).2 = creations m) as [Hs2 Hc2].
  { destruct worn; [|done]. rewrite creations_remove. split; [by apply safe_remove|done]. }
  destruct (if worn then _ else _) as [[|] m2]; simpl in *; split; try done; [by eapply safe_less|].
  apply safe_modify; [|by eapply safe_less]. intros Hp.
  pose proof (safe_once _ _ Hs2) as [Hn _]%NoDup_cons. done.
Qed.

Section OneOwner.
Context (config : RunnerConfig) (machine : DockerMachine).

Lemma safe_step now w a w' :
  mstep config machine now w a = Some w' → safe (provider w) (owned w) → safe (provider w') (owned w').
Proof.
  unfold owned. destruct w as [m h dm], a; simpl; intros Hst Hs.
  - destruct (getDetails m now name true) as [p m1] eqn:Hg. injection Hst as <-. simpl.
    destruct (safe_acquire _ _ _ _ _ _ Hg Hs) as [H1 ->]. by rewrite <- app_assoc.
  - case_bool_decide as Hp; [|done]. injection Hst as <-. simpl.
    rewrite (drop_first_perm p h Hp) in Hs. simpl in Hs. apply safe_less in Hs.
    destruct (read m p); simpl; [|done]. rewrite creations_remove. by apply safe_remove.
  - destruct (allocate m now name) as [p m1] eqn:Ha. injection Hst as <-. simpl.
    destruct (safe_allocate _ _ _ _ _ _ Ha Hs) as (H1 & _ & _ & ->). by apply safe_keep.
  - case_bool_decide; [|done]. injection Hst as <-. simpl. rewrite creations_remove. by apply safe_remove.
  - assert (∃ p m1, create m now name state = Some (p, m1) ∧ w' = mkWorld m1 h dm) as (p & m1 & Hc & ->).
    { destruct state; try done; destruct (create m now name _) as [[p m1]|]; naive_solver. }
    simpl. destruct (safe_create _ _ _ _ _ _ _ Hc Hs) as [H1 ->].
    rewrite fmap_app, app_assoc. simpl. by rewrite <- Permutation_cons_append.
  - case_bool_decide as Hp; [|done].
    destruct (created m now p state ok provisioned) as [failed m1] eqn:Hc. injection Hst as <-. simpl.
    pose proof (fmap_Permutation fst _ _ (drop_first_perm _ _ Hp)) as Hperm. simpl in Hperm.
    rewrite Hperm, <- Permutation_middle in Hs.
    destruct (safe_created _ _ _ _ _ _ _ _ _ Hc Hs) as [H1 ->]. by destruct (negb failed && _).
  - case_bool_decide; [|done]. injection Hst as <-. cbn [provider held].
    change (creations (markUsed now p m)) with (creations m). apply safe_count.
    by eapply safe_busy_state with (s := machineStateUsed).
  - case_bool_decide as Hp; [|done]. injection Hst as <-. cbn [provider held].
    rewrite (drop_first_perm p h Hp) in Hs. simpl in Hs.
    destruct (safe_release now config _ _ _ Hs) as [H1 ->]. done.
  - case_bool_decide; [|done]. injection Hst as <-. simpl.
    destruct (safe_finalize m p exists_ removed _ Hs) as [H1 ->]. done.
Qed.

Lemma safe_run l w : safe (provider w) (owned w) →
  safe (provider (mrun config machine w l)) (owned (mrun config machine w l)).
Proof.
  revert w. induction l as [|[now a] l IH]; intros w Hs; [done|]. simpl. apply IH.
  destruct (mstep config machine now w a) eqn:Ha; [by eapply safe_step|done].
Qed.

Lemma safe_new : safe (provider new_world) (owned new_world).
Proof. split; simpl; [done|done|constructor|]. intros p H%elem_of_nil. done. Qed.


End OneOwner.

(** ** Pre-creation *)

(** All names of the future machines are new. *)
Definition names_free (env : Env) (k : nat) (m : machineProvider) : Prop :=
  (∀ i, k ≤ i → details m !! newMachineName env i = None) ∧
  (∀ i j, newMachineName env i = newMachineName env j → i = j).

Definition fresh_ok (m : machineProvider) : Prop := ∀ p, fresh m ≤ p → heap m !! p = None.

Lemma create_free env k m now :
  names_free env k m → fresh_ok m →
  ∃ m', create m now (newMachineName env k) machineStateIdle = Some (fresh m, m') ∧
    names_free env (S k) m' ∧ fresh_ok m' ∧ creations m' = creations m ++ [(fresh m, machineStateIdle)].
Proof.
  intros [Hn Hinj] Hf. unfold create, getDetails, allocate. rewrite Hn by done.
  unfold read. simpl. rewrite lookup_insert_eq. unfold isUsed. simpl.
  eexists. split; [reflexivity|]. split; [|split; [|done]].
  - split; [|done]. intros i Hi. simpl. rewrite lookup_insert_ne; [apply Hn; lia|].
    intros He%Hinj. lia.
  - intros p Hp. simpl in *. rewrite !lookup_alter_ne, lookup_insert_ne by lia. apply Hf. lia.
Qed.

(** How many machines are missing. *)
Definition missing (limit idle available total : Z) : Z :=
  Z.max 0 (if (0 <? limit)%Z then Z.min (idle - available) (limit - total) else idle - available).

Lemma createMachines_spec fuel k env config machine now data m :
  names_free env k m → fresh_ok m →
  (GetIdleCount machine now - Available data ≤ Z.of_nat fuel)%Z →
  ∃ data' m', createMachines fuel k env config machine now data m = Some (data', m') ∧
    let n := missing (Limit config) (GetIdleCount machine now) (Available data) (Total data) in
    Available data' = (Available data + n)%Z ∧ Total data' = (Total data + n)%Z ∧
    md_Idle data' = md_Idle data ∧
    Z.of_nat (length (creations m')) = (Z.of_nat (length (creations m)) + n)%Z.
Proof.
  revert k data m. induction fuel as [|fuel IH]; intros k data m Hn Hf Hfuel;
    simpl; unfold missing;
    destruct (Z.leb_spec (GetIdleCount machine now) (Available data)) as [Ha|Ha];
    try (destruct (Z.leb_spec (Limit config) (Total data)) as [Hl|Hl],
                  (Z.ltb_spec 0 (Limit config)) as [Hz|Hz]; simpl);
    try (eexists _, _; split; [reflexivity|]; split_and!; lia); try lia.
  all: destruct (create_free env k m now Hn Hf) as (m1 & -> & Hn1 & Hf1 & Hc1).
  all: destruct (IH (S k) (add_creating data) m1 Hn1 Hf1) as (data' & m' & -> & Hd);
    [unfold Available, add_creating in *; simpl; lia|].
  all: exists data', m'; split; [done|]; revert Hd; rewrite Hc1, length_app; unfold missing, Available, Total, add_creating in *;
    simpl; destruct (Z.ltb_spec 0 (Limit config)); intros; split_and!; lia.
Qed.

(** C31: Pre-creation fills the pool exactly: it ends, starting as many background
    creations as machines are missing to the configured idle count, but, when the
    runner has a limit, never so many that the machines counted go beyond it. *)
Theorem precreation_fills_the_pool env config machine now data m :
  names_free env 0 m → fresh_ok m →
  ∃ data' m',
    createMachines (Z.to_nat (GetIdleCount machine now - Available data)) 0 env config machine now data m
      = Some (data', m') ∧
    let n := missing (Limit config) (GetIdleCount machine now) (Available data) (Total data) in
    Z.of_nat (length (creations m')) = (Z.of_nat (length (creations m)) + n)%Z ∧
    (0 < Limit config → Total data' ≤ Z.max (Limit config) (Total data))%Z ∧
    (Available data' = Z.max (Available data) (GetIdleCount machine now) ∨
     (0 < Limit config ≤ Total data')%Z).
Proof.
  intros Hn Hf.
  destruct (createMachines_spec (Z.to_nat (GetIdleCount machine now - Available data)) 0 env config machine now data m)
    as (data' & m' & He & Ha & Ht & _ & Hc); [done|done|lia|].
  exists data', m'. split; [done|]. cbv zeta. unfold missing in *.
  destruct (Z.ltb_spec 0 (Limit config)); split_and!; lia.
Qed.

(** ** What [Acquire] hands out *)

(** Names keep their machines, and no machine becomes idle or, while idle, used more. *)
Definition calm (m m' : machineProvider) : Prop :=
  (∀ n p, details m !! n = Some p → details m' !! n = Some p) ∧
  (∀ p d, heap m !! p = Some d → ∃ d', heap m' !! p = Some d' ∧
     (State d' = machineStateIdle → State d = machineStateIdle ∧ UsedCount d' = UsedCount d)).

#[local] Instance calm_preorder : PreOrder calm.
Proof.
  split.
  - intros m. split; [done|]. intros p d Hd. by exists d.
  - intros m1 m2 m3 [H1 H2] [H3 H4]. split; [naive_solver|]. intros p d Hd.
    destruct (H2 p d Hd) as (d2 & Hd2 & Hi2). destruct (H4 p d2 Hd2) as (d3 & Hd3 & Hi3).
    exists d3. split; [done|]. intros Hi. destruct (Hi3 Hi) as [Hi' ->]. auto.
Qed.

Lemma calm_modify m p f :
  (∀ d, State (f d) = machineStateIdle → State d = machineStateIdle ∧ UsedCount (f d) = UsedCount d) →
  calm m (modify m p f).
Proof.
  intros Hf. split; [done|]. intros q d Hd. simpl. destruct (decide (p = q)) as [->|Hne].
  - rewrite lookup_alter_eq, Hd. exists (f d). split; [done|apply Hf].
  - rewrite lookup_alter_ne by done. by exists d.
Qed.

Lemma calm_allocate m now name p m' :
  safe m [] → allocate m now name = (p, m') → calm m m' ∧ safe m' [] ∧ details m' !! name = Some p.
Proof.
  intros Hs Ha. destruct (safe_allocate _ _ _ _ _ _ Ha Hs) as (Hs' & Hn & _). split; [|done].
  unfold allocate in Ha. destruct (details m !! name) as [q|] eqn:Hd; injection Ha as <- <-; [done|].
  split; simpl.
  - intros n q Hq. rewrite lookup_insert_ne; [done|]. congruence.
  - intros q d Hq. exists d. rewrite lookup_insert_ne; [done|]. intros <-.
    rewrite (safe_fresh _ _ Hs) in Hq; done.
Qed.

Lemma calm_get m now name p m' :
  safe m [] → getDetails m now name true = (p, m') → calm m m' ∧ safe m' [].
Proof.
  intros Hs Hg. pose proof (safe_acquire _ _ _ _ _ _ Hg Hs) as [Hs' _]. unfold getDetails in Hg.
  destruct (allocate m now name) as [q m1] eqn:Ha. destruct (calm_allocate _ _ _ _ _ Hs Ha) as (Hc & Hs1 & _).
  destruct (from_option isUsed true (read m1 q)); injection Hg as <- <-; [done|].
  split; [|exact (safe_less _ _ _ Hs')]. etransitivity; [done|]. by apply calm_modify.
Qed.

Lemma calm_remove m now name reason : calm m (remove m now name reason).2.
Proof.
  unfold remove. destruct (details m !! name) as [p|]; [|done]. simpl.
  pose proof (calm_modify m p (λ d, set_used now
    (set_retryCount 0 (set_state machineStateRemoving (set_reason reason d))))) as Hc.
  apply Hc. done.
Qed.

Lemma calm_create m now name s p m' :
  safe m [] → create m now name s = Some (p, m') → calm m m' ∧ safe m' [].
Proof.
  unfold create. destruct (getDetails m now name true) as [[q|] m1] eqn:Hg; [|done]. intros Hs [= <- <-].
  destruct (calm_get _ _ _ _ _ Hs Hg) as [Hc Hs1]. split.
  - etransitivity; [done|].
    pose proof (calm_modify m1 q (λ d, set_lastSeen now
      (set_retryCount 0 (set_usedCount 0 (set_state machineStateCreating d))))) as H. apply H. done.
  - rewrite safe_creations. by eapply safe_busy_state with (s := machineStateCreating).
Qed.

Lemma calm_createMachines fuel k env config machine now data m data' m' :
  safe m [] → createMachines fuel k env config machine now data m = Some (data', m') → calm m m' ∧ safe m' [].
Proof.
  revert k data m. induction fuel as [|fuel IH]; intros k data m Hs; simpl;
    (destruct (_ <=? _)%Z; [by intros [= <- <-]|]); (destruct (_ && _); [by intros [= <- <-]|]); [done|].
  destruct (create m now _ _) as [[p m1]|] eqn:Hc; [|done]. intros He.
  destruct (calm_create _ _ _ _ _ _ Hs Hc) as [Hc1 Hs1]. destruct (IH _ _ _ Hs1 He) as [Hc2 Hs2].
  split; [|done]. by etransitivity.
Qed.

Section Fit.
Context (config : RunnerConfig) (machine : DockerMachine) (now : Z).

(** An idle machine may take another build. *)
Definition fit (d : machineDetails) : Prop :=
  (State d = machineStateIdle → 0 < MaxBuilds machine → UsedCount d < MaxBuilds machine)%Z.

Definition good (m : machineProvider) (name : string) : Prop :=
  ∃ p d, details m !! name = Some p ∧ heap m !! p = Some d ∧ fit d.

Lemma good_calm m m' name : calm m m' → good m name → good m' name.
Proof.
  intros [H1 H2] (p & d & Hp & Hd & Hf). destruct (H2 p d Hd) as (d' & Hd' & Hi).
  exists p, d'. split; [auto|]. split; [done|]. intros Hs. destruct (Hi Hs) as [Hs' ->]. auto.
Qed.

Lemma update_one_good data valid m name data' valid' m' :
  safe m [] → (∀ n, n ∈ valid → good m n) →
  update_one config machine now (data, valid, m) name = (data', valid', m') →
  safe m' [] ∧ (∀ n, n ∈ valid' → good m' n) ∧ (∀ n, n ∈ valid' → n ∈ valid ∨ n = name).
Proof.
  intros Hs Hv. unfold update_one. destruct (allocate m now name) as [p m1] eqn:Ha.
  destruct (calm_allocate _ _ _ _ _ Hs Ha) as (Hc1 & Hs1 & Hn1).
  set (m2 := modify m1 p (set_lastSeen now)).
  assert (Hc2 : calm m m2) by (etransitivity; [done|]; by apply calm_modify).
  assert (Hs2 : safe m2 []) by (by apply safe_keep).
  assert (Hv2 : ∀ n, n ∈ valid → good m2 n) by (intros n Hn; eapply good_calm; eauto).
  destruct (read m2 p) as [d|] eqn:Hd.
  2: { destruct (safe_details _ _ Hs2 name p Hn1) as [d Hd']. unfold read in Hd. congruence. }
  destruct (updateMachine config machine now data d) as [err|] eqn:Hu; intros [= _ <- <-].
  - split; [by apply safe_remove|]. split; [|auto]. intros n Hn. eapply good_calm; [apply calm_remove|auto].
  - split; [done|]. split; [|intros n; set_solver]. intros n [Hn| ->%list_elem_of_singleton]%elem_of_app; [auto|].
    exists p, d. split; [done|]. split; [done|]. intros Hi Hm. unfold updateMachine, isUsed in Hu.
    rewrite bool_decide_eq_false_2 in Hu by naive_solver.
    destruct (Z.ltb_spec 0 (MaxBuilds machine)), (Z.leb_spec (MaxBuilds machine) (UsedCount d)); simpl in Hu; done || lia.
Qed.

Lemma updateMachines_good machines data valid m data' valid' m' :
  safe m [] → (∀ n, n ∈ valid → good m n) →
  foldl (update_one config machine now) (data, valid, m) machines = (data', valid', m') →
  safe m' [] ∧ (∀ n, n ∈ valid' → good m' n) ∧ (∀ n, n ∈ valid' → n ∈ valid ∨ n ∈ machines).
Proof.
  revert data valid m. induction machines as [|name l IH]; intros data valid m Hs Hv; cbn [foldl].
  { intros [= _ <- <-]. auto. }
  destruct (update_one config machine now (data, valid, m) name) as [[data1 valid1] m1] eqn:Hu.
  destruct (update_one_good _ _ _ _ _ _ _ Hs Hv Hu) as (Hs1 & Hv1 & Hin). intros Hf.
  destruct (IH _ _ _ Hs1 Hv1 Hf) as (Hs2 & Hv2 & Hin2). split; [done|]. split; [done|].
  intros n Hn. destruct (Hin2 n Hn) as [H|H]; [|set_solver]. destruct (Hin n H); set_solver.
Qed.

Lemma find_free_good env names m p m' :
  safe m [] → (∀ n, n ∈ names → good m n) → find_free env now names m = (Some p, m') →
  ∃ name d, name ∈ names ∧ CanConnect env name = true ∧ details m' !! name = Some p ∧
    read m' p = Some d ∧ State d = machineStateAcquired ∧
    (0 < MaxBuilds machine → UsedCount d < MaxBuilds machine)%Z.
Proof.
  revert m. induction names as [|name names IH]; intros m Hs Hv; simpl; [done|].
  destruct (getDetails m now name true) as [[q|] m1] eqn:Hg;
    destruct (calm_get _ _ _ _ _ Hs Hg) as [Hc Hs1].
  - destruct (CanConnect env name) eqn:Hcc.
    + intros [= <- <-]. destruct (Hv name) as (q' & d & Hq & Hd & Hf); [set_solver|].
      unfold getDetails, allocate in Hg. rewrite Hq in Hg. unfold read in Hg. rewrite Hd in Hg. simpl in Hg.
      unfold isUsed in Hg. case_bool_decide as Hi; [done|]. injection Hg as <- <-.
      exists name, (set_state machineStateAcquired d). unfold read. simpl. rewrite lookup_alter_eq, Hd.
      split; [set_solver|]. split_and!; try done. apply Hf. by destruct (State d); naive_solver.
    + intros Hf. destruct (IH (remove m1 now name "machine is unavailable").2) as (n & d & ? & ?); try done.
      * by apply safe_remove.
      * intros n Hn. eapply good_calm; [apply calm_remove|]. eapply good_calm; [done|]. apply Hv. set_solver.
      * exists n, d. split; [set_solver|done].
  - intros Hf. destruct (IH m1) as (n & d & ? & ?); try done.
    + intros n Hn. eapply good_calm; [done|]. apply Hv. set_solver.
    + exists n, d. split; [set_solver|done].
Qed.

(** What [Acquire] hands out: a machine of the runner's list that answers, marked as
    acquired, and, when the number of builds per machine is limited, one that has not
    had all its builds yet, found machines counting as used once. *)
Theorem acquired_machine_is_fit env m p m' :
  Machine config = Some machine → safe m [] →
  Acquire env now config m = Some (Ok (Some p), m') →
  ∃ name d l, List_ env = Ok l ∧ name ∈ l ∧ matchesMachineFilter env name = true ∧
    CanConnect env name = true ∧ details m' !! name = Some p ∧
    read m' p = Some d ∧ State d = machineStateAcquired ∧
    (0 < MaxBuilds machine → UsedCount d < MaxBuilds machine)%Z.
Proof.
  intros Hm Hs. unfold Acquire, loadMachines. rewrite Hm. case_bool_decide; [done|].
  destruct (List_ env) as [l|e] eqn:Hl; [|done]. unfold updateMachines.
  set (names := filter _ l). destruct (foldl _ _ names) as [[data valid] m1] eqn:Hu.
  destruct (updateMachines_good _ _ _ _ _ _ _ Hs (λ n Hn, False_rect _ (proj1 (elem_of_nil n) Hn)) Hu)
    as (Hs1 & Hv1 & Hin).
  destruct (createMachines _ _ _ _ _ _ _ _) as [[data2 m2]|] eqn:Hc; [|done].
  destruct (calm_createMachines _ _ _ _ _ _ _ _ _ _ Hs1 Hc) as [Hc2 Hs2]. unfold findFreeMachine.
  destruct (find_free env now (reverse valid) m2) as [[q|] m3] eqn:Hf; [|by destruct (_ && _)].
  intros [= <- <-]. eapply find_free_good in Hf as (name & d & Hn & Hr); [|done|].
  - rewrite elem_of_reverse in Hn. destruct (Hin name Hn) as [Hx|Hx]; [by apply elem_of_nil in Hx|].
    unfold names in Hx. apply list_elem_of_filter in Hx as [Hx1 Hx2]. exists name, d, l. naive_solver.
  - intros n Hn. rewrite elem_of_reverse in Hn. eapply good_calm; eauto.
Qed.

End Fit.

(** ** A small pool *)

Module DemoMachine.
Definition machine : DockerMachine :=
  {| IdleCount := 1; IdleTime := 0; MaxBuilds := 3; MachineDriver := ""; MachineName := "auto-%s";
     MachineOptions := []; OffPeakPeriods := []; OffPeakTimezone := ""; OffPeakIdleCount := 0; OffPeakIdleTime := 0; offPeakTimePeriods := None |}.

Definition config : RunnerConfig :=
  let r := some_runner 2 1 in
  {| Name := Name r; Limit := 2; OutputLimit := 0; RequestConcurrency := 1;
     Credentials_ := Credentials_ r; Executor := "docker+machine"; BuildsDir := ""; CacheDir := "";
     CloneURL := ""; Environment := []; PreCloneScript := ""; PreBuildScript := ""; PostBuildScript := "";
     DebugTraceDisabled := false; Shell := ""; CustomBuildDir := None; CacheCfg := None;
     Machine := Some machine; Kubernetes := None |}.

Fixpoint stars (n : nat) : string := match n with 0 => "" | S k => String "*" (stars k) end.

Lemma stars_inj i j : stars i = stars j → i = j.
Proof. revert j. induction i as [|i IH]; intros [|j]; simpl; naive_solver. Qed.

(** docker-machine knows one machine, which answers. *)
Definition env : Env :=
  {| List_ := Ok ["old"]; matchesMachineFilter _ := true; CanConnect _ := true; CredentialsOK _ := true;
     newMachineName := stars; create_ok _ := true; provision_ok _ _ := true |}.

Definition no_data : machinesData := mkData "" 0 0 0 0 0 0.
End DemoMachine.

Lemma precreation_fills_the_pool_witness :
  ∃ data' m',
    createMachines 1 0 DemoMachine.env DemoMachine.config DemoMachine.machine 0 DemoMachine.no_data
      newMachineProvider = Some (data', m') ∧ length (creations m') = 1.
Proof.
  destruct (precreation_fills_the_pool DemoMachine.env DemoMachine.config DemoMachine.machine 0
    DemoMachine.no_data newMachineProvider) as (data' & m' & H1 & H2 & _).
  - split; [done|]. apply DemoMachine.stars_inj.
  - done.
  - exists data', m'. split; [exact H1|].
    change (Z.of_nat (length (creations m')) = 0 + 1)%Z in H2. lia.
Defined.

Lemma acquired_machine_is_fit_witness :
  ∃ p m', Acquire DemoMachine.env 1 DemoMachine.config newMachineProvider = Some (Ok (Some p), m') ∧
    ∃ d, read m' p = Some d ∧ State d = machineStateAcquired.
Proof.
  eexists _, _. split; [reflexivity|].
  edestruct (acquired_machine_is_fit DemoMachine.config DemoMachine.machine 1 DemoMachine.env newMachineProvider)
    as (name & d & l & _ & _ & _ & _ & _ & Hd & Hs & _); [reflexivity|apply safe_new|reflexivity|].
  exists d. split; [exact Hd|exact Hs].
Defined.

(** The clean-up of [Acquire] checks that a machine is idle without the lock and
    removes it later without checking again: when another worker takes the machine in
    between, the machine runs a build while the background removal stops and deletes
    it, and after the build it even counts as idle again. *)
Theorem machine_in_use_can_be_removed :
  let w := mrun DemoMachine.config DemoMachine.machine new_world
    [(1, ADecide "old" (mkData "" 0 0 2 0 0 0)); (2, ATake "old"); (3, ADoom "old" "Too many machines");
     (4, AUse 0)]%Z in
  held w = [0] ∧ (State <$> read (provider w) 0) = Some machineStateUsed ∧ removals (provider w) = [0] ∧
  let w' := mrun DemoMachine.config DemoMachine.machine w [(5, ARelease 0)]%Z in
  (State <$> read (provider w') 0) = Some machineStateIdle ∧ removals (provider w') = [0].
Proof. vm_compute. done. Qed.
