(* ===== verification/BuildsHelper.v ===== *)
(** The bookkeeping of running builds (commands/builds_helper.go) and of the runners'
    health (commands/health_helper.go). *)

From S2P Require Import Prelude GoLib Types Variables Config.

(** ** Builds *)

(** What the helper reads of a [*common.Build]; [ptr] is the pointer's identity, and
    [b_endpoint] the endpoint of its session, if the build has one. *)
Record BuildRef := mkBuildRef {
  ptr : nat; b_token : string; b_project : Z; RunnerID : Z; ProjectRunnerID : Z;
  b_state : string; b_stage : string; b_executorStage : string; b_endpoint : option string }.

Definition set_ids (b : BuildRef) (rid prid : Z) : BuildRef :=
  mkBuildRef (ptr b) (b_token b) (b_project b) rid prid (b_state b) (b_stage b)
    (b_executorStage b) (b_endpoint b).

Record runnerCounter := mkCounter {
  c_builds : Z; c_requests : Z; requestConcurrencyExceeded : Z }.

Record buildsHelper := mkHelper {
  counters : gmap string runnerCounter;
  builds : list BuildRef;
  jobsTotal : gmap string Z;
  observed : list string }.

Definition newBuildsHelper : buildsHelper := mkHelper ∅ [] ∅ [].

(** A counter that is not there yet is created with zeros. *)
Definition getRunnerCounter (b : buildsHelper) (r : RunnerConfig) : runnerCounter :=
  default (mkCounter 0 0 0) (counters b !! Token r).

Definition set_counter (b : buildsHelper) (r : RunnerConfig) (c : runnerCounter) : buildsHelper :=
  mkHelper (<[Token r := c]> (counters b)) (builds b) (jobsTotal b) (observed b).

(** The search of [findSessionByURL]; it ends in [None] when it meets a build without a
    session, whose endpoint cannot be read: a panic. *)
Fixpoint find_session (url : string) (l : list BuildRef) : option (option BuildRef) :=
  match l with
  | [] => Some None
  | x :: l' =>
      match b_endpoint x with
      | None => None
      | Some e => if HasPrefix url (e +:+ "/") then Some (Some x) else find_session url l'
      end
  end.
Definition findSessionByURL (b : buildsHelper) (url : string) : option (option BuildRef) := find_session url (builds b).

Definition acquireBuild (b : buildsHelper) (r : RunnerConfig) : bool * buildsHelper :=
  let c := getRunnerCounter b r in
  if ((0 <? Limit r) && (Limit r <=? c_builds c))%Z then (false, set_counter b r c)
  else (true, set_counter b r (mkCounter (c_builds c + 1) (c_requests c) (requestConcurrencyExceeded c))).

Definition releaseBuild (b : buildsHelper) (r : RunnerConfig) : bool * buildsHelper :=
  let c := getRunnerCounter b r in
  if (0 <? c_builds c)%Z
  then (true, set_counter b r (mkCounter (c_builds c - 1) (c_requests c) (requestConcurrencyExceeded c)))
  else (false, set_counter b r c).

Definition acquireRequest (b : buildsHelper) (r : RunnerConfig) : bool * buildsHelper :=
  let c := getRunnerCounter b r in
  if (GetRequestConcurrency r <=? c_requests c)%Z
  then (false, set_counter b r (mkCounter (c_builds c) (c_requests c) (requestConcurrencyExceeded c + 1)))
  else (true, set_counter b r (mkCounter (c_builds c) (c_requests c + 1) (requestConcurrencyExceeded c))).

Definition releaseRequest (b : buildsHelper) (r : RunnerConfig) : bool * buildsHelper :=
  let c := getRunnerCounter b r in
  if (0 <? c_requests c)%Z
  then (true, set_counter b r (mkCounter (c_builds c) (c_requests c - 1) (requestConcurrencyExceeded c)))
  else (false, set_counter b r c).

(** The two loops of [addBuild] that count an id up until it is free. [fuel] is one more
    than the number of taken ids; it is never used up ([first_free_spec]). *)
Fixpoint first_free (fuel : nat) (taken : list Z) (id : Z) : Z :=
  match fuel with
  | 0 => id
  | S k => if bool_decide (id ∈ taken) then first_free k taken (int64_wrap (id + 1)) else id
  end.

Definition runners_taken (b : buildsHelper) (x : BuildRef) : list Z :=
  RunnerID <$> filter (λ o, b_token o = b_token x) (builds b).

Definition projects_taken (b : buildsHelper) (x : BuildRef) : list Z :=
  ProjectRunnerID <$> filter (λ o, b_token o = b_token x ∧ b_project o = b_project x) (builds b).

Definition addBuild (b : buildsHelper) (x : BuildRef) : BuildRef * buildsHelper :=
  let rs := runners_taken b x in
  let ps := projects_taken b x in
  let x' := set_ids x (first_free (S (length rs)) rs (RunnerID x))
                      (first_free (S (length ps)) ps (ProjectRunnerID x)) in
  let short := ShortenToken (b_token x) in
  (x', mkHelper (counters b) (builds b ++ [x'])
         (<[short := default 0 (jobsTotal b !! short) + 1]> (jobsTotal b))%Z (observed b)).

(** Remove the first build with this pointer. *)
Fixpoint remove_ptr (p : nat) (l : list BuildRef) : option (list BuildRef) :=
  match l with
  | [] => None
  | x :: l' => if bool_decide (ptr x = p) then Some l'
               else match remove_ptr p l' with Some l'' => Some (x :: l'') | None => None end
  end.

Definition removeBuild (b : buildsHelper) (x : BuildRef) : bool * buildsHelper :=
  let obs := observed b ++ [ShortenToken (b_token x)] in
  match remove_ptr (ptr x) (builds b) with
  | Some l => (true, mkHelper (counters b) l (jobsTotal b) obs)
  | None => (false, mkHelper (counters b) (builds b) (jobsTotal b) obs)
  end.

Definition buildsCount (b : buildsHelper) : nat := length (builds b).

Definition statePermutation : Type := string * string * string * string.

Definition newStatePermutationFromBuild (x : BuildRef) : statePermutation :=
  (ShortenToken (b_token x), b_state x, b_stage x, b_executorStage x).

Definition count_state (data : gmap statePermutation Z) (x : BuildRef) : gmap statePermutation Z :=
  let s := newStatePermutationFromBuild x in
  match data !! s with
  | Some n => <[s := (n + 1)%Z]> data
  | None => <[s := 1%Z]> data
  end.

Definition statesAndStages (b : buildsHelper) : gmap statePermutation Z :=
  foldl count_state ∅ (builds b).

(** [CreateJobURL]: the regular expression removes a final [.git]. *)
Definition CreateJobURL (projectURL : string) (jobID : Z) : string :=
  TrimSuffix projectURL ".git" +:+ "/-/jobs/" +:+ Itoa jobID.

(** ** Health *)

Record healthData := mkHealth { h_failures : Z; lastCheck : Z }.
Abbreviation healthHelper := (gmap string healthData).

Definition getHealth (m : healthHelper) (now : Z) (id : string) : healthData :=
  default (mkHealth 0 now) (m !! id).

Definition isHealthy (m : healthHelper) (now : Z) (id : string) : bool * healthHelper :=
  let h := getHealth m now id in
  if (h_failures h <? HealthyChecks)%Z then (true, <[id := h]> m)
  else if (HealthCheckInterval * Second <? now - lastCheck h)%Z
  then (true, <[id := mkHealth 0 now]> m)
  else (false, <[id := h]> m).

Definition makeHealthy (m : healthHelper) (now : Z) (id : string) (healthy : bool) : healthHelper :=
  let h := getHealth m now id in
  if healthy then <[id := mkHealth 0 now]> m
  else <[id := mkHealth (h_failures h + 1) (lastCheck h)]> m.

(** ** Free ids *)

Lemma first_free_spec fuel taken id :
  (id + Z.of_nat fuel ≤ int64_max)%Z → (int64_min ≤ id)%Z → length taken < fuel →
  first_free fuel taken id ∉ taken ∧ (id ≤ first_free fuel taken id)%Z ∧
  (∀ j, id ≤ j < first_free fuel taken id → j ∈ taken)%Z.
Proof.
  intros Hmax Hmin Hlen.
  (* with too little fuel, a run of ids is taken; otherwise the result is free *)
  assert (Hgen : (id ≤ first_free fuel taken id)%Z ∧
    (∀ j, id ≤ j < first_free fuel taken id → j ∈ taken)%Z ∧
    (first_free fuel taken id ∉ taken ∨ first_free fuel taken id = id + Z.of_nat fuel)%Z).
  { clear Hlen. revert id Hmax Hmin. induction fuel as [|k IH]; intros id Hmax Hmin; simpl.
    { split_and!; [lia|intros; lia|right; lia]. }
    case_bool_decide as Hin; [|split_and!; [lia|intros; lia|by left]].
    rewrite int64_wrap_id by (unfold in_int64; lia).
    destruct (IH (id + 1)%Z) as (H1 & H2 & H3); [lia|lia|].
    split_and!; [lia| |destruct H3; [by left|right; lia]].
    intros j Hj. destruct (decide (j = id)) as [->|]; [done|]. apply H2. lia. }
  destruct Hgen as (H1 & H2 & [H3|H3]); [done|]. exfalso.
  assert (Hincl : ((λ n, id + Z.of_nat n)%Z <$> seq 0 fuel) ⊆ taken).
  { intros j (n & -> & Hn%elem_of_seq)%list_elem_of_fmap. apply H2. lia. }
  assert (Hnd : NoDup ((λ n, id + Z.of_nat n)%Z <$> seq 0 fuel)).
  { apply NoDup_fmap_2; [intros x y ?; lia|apply NoDup_seq]. }
  apply NoDup_submseteq in Hincl; [|done]. apply submseteq_length in Hincl.
  rewrite length_fmap, length_seq in Hincl. lia.
Qed.

Lemma length_taken_le {A} (f : BuildRef → A) P `{!∀ x, Decision (P x)} (l : list BuildRef) :
  length (f <$> filter P l) ≤ length l.
Proof. rewrite length_fmap. apply length_filter. Qed.

(** Ids of the builds one runner processes at the same time are distinct, and so are
    the project ids of its builds of one project. *)
Definition ids_unique (l : list BuildRef) : Prop :=
  NoDup ((λ x, (b_token x, RunnerID x)) <$> l) ∧
  NoDup ((λ x, (b_token x, b_project x, ProjectRunnerID x)) <$> l).

Lemma NoDup_snoc {A} (l : list A) x : NoDup l → x ∉ l → NoDup (l ++ [x]).
Proof.
  intros Hl Hx. apply NoDup_app. split_and!; [done| |apply NoDup_singleton].
  intros y Hy ->%list_elem_of_singleton. done.
Qed.

Definition ids_fit (b : buildsHelper) (x : BuildRef) : Prop :=
  (int64_min ≤ RunnerID x)%Z ∧ (RunnerID x + Z.of_nat (S (buildsCount b)) ≤ int64_max)%Z ∧
  (int64_min ≤ ProjectRunnerID x)%Z ∧
  (ProjectRunnerID x + Z.of_nat (S (buildsCount b)) ≤ int64_max)%Z.

Lemma addBuild_ids b x x' b' :
  ids_fit b x → addBuild b x = (x', b') →
  builds b' = builds b ++ [x'] ∧ counters b' = counters b ∧
  ptr x' = ptr x ∧ b_token x' = b_token x ∧ b_project x' = b_project x ∧
  (RunnerID x' ∉ runners_taken b x ∧ (RunnerID x ≤ RunnerID x')%Z ∧
   ∀ j, (RunnerID x ≤ j < RunnerID x')%Z → j ∈ runners_taken b x) ∧
  (ProjectRunnerID x' ∉ projects_taken b x ∧ (ProjectRunnerID x ≤ ProjectRunnerID x')%Z ∧
   ∀ j, (ProjectRunnerID x ≤ j < ProjectRunnerID x')%Z → j ∈ projects_taken b x).
Proof.
  intros (H1 & H2 & H3 & H4) [= <- <-]. unfold buildsCount in *.
  pose proof (length_taken_le RunnerID (λ o, b_token o = b_token x) (builds b)) as Hr.
  pose proof (length_taken_le ProjectRunnerID
                (λ o, b_token o = b_token x ∧ b_project o = b_project x) (builds b)) as Hp.
  fold (runners_taken b x) in Hr. fold (projects_taken b x) in Hp.
  do 5 (split; [done|]).
  split; [apply (first_free_spec (S (length (runners_taken b x))))
         |apply (first_free_spec (S (length (projects_taken b x))))]; lia.
Qed.

Lemma addBuild_unique b x x' b' :
  ids_fit b x → addBuild b x = (x', b') → ids_unique (builds b) → ids_unique (builds b').
Proof.
  intros Hfit Hadd [Hu1 Hu2].
  destruct (addBuild_ids _ _ _ _ Hfit Hadd) as (-> & _ & _ & Ht & Hp & (Hr & _) & (Hq & _)).
  unfold ids_unique. rewrite !fmap_app. simpl. rewrite Ht, Hp. split; apply NoDup_snoc; try done.
  - intros (o & Heq & Ho)%list_elem_of_fmap. apply Hr. injection Heq as Ho1 Ho2. rewrite Ho2.
    apply list_elem_of_fmap. exists o. split; [done|]. apply list_elem_of_filter. by split.
  - intros (o & Heq & Ho)%list_elem_of_fmap. apply Hq. injection Heq as Ho1 Ho2 Ho3. rewrite Ho3.
    apply list_elem_of_fmap. exists o. split; [done|]. apply list_elem_of_filter. by split.
Qed.

Lemma remove_ptr_sublist p l l' : remove_ptr p l = Some l' → l' `sublist_of` l.
Proof.
  revert l'. induction l as [|x l IH]; intros l' H; simpl in H; [done|].
  case_bool_decide; [simplify_eq; by constructor|].
  destruct (remove_ptr p l) as [l1|]; [|done]. injection H as <-. constructor. by apply IH.
Qed.

Lemma removeBuild_sublist b x r b' :
  removeBuild b x = (r, b') → builds b' `sublist_of` builds b ∧ counters b' = counters b.
Proof.
  unfold removeBuild. destruct (remove_ptr (ptr x) (builds b)) as [l|] eqn:E; intros [= <- <-]; simpl.
  - split; [by eapply remove_ptr_sublist|done].
  - done.
Qed.

Lemma ids_unique_sublist l l' : l' `sublist_of` l → ids_unique l → ids_unique l'.
Proof.
  intros Hs [H1 H2]. split; (eapply sublist_NoDup; [done|by apply fmap_sublist]).
Qed.

(** ** Properties *)

(** A new build gets the lowest free numbers: its runner id is the first one from
    its start value that no running build of the same runner has, its project id
    likewise among the builds of that project, the counting loops end, and numbers
    that were unique stay unique. *)
Theorem build_ids_are_lowest_free b x :
  ids_fit b x → ids_unique (builds b) →
  let '(x', b') := addBuild b x in
  ids_unique (builds b') ∧
  (∀ o, o ∈ builds b → b_token o = b_token x → RunnerID o ≠ RunnerID x') ∧
  (∀ o, o ∈ builds b → b_token o = b_token x → b_project o = b_project x →
        ProjectRunnerID o ≠ ProjectRunnerID x') ∧
  (∀ j, (RunnerID x ≤ j < RunnerID x')%Z →
        ∃ o, o ∈ builds b ∧ b_token o = b_token x ∧ RunnerID o = j).
Proof.
  intros Hfit Hu. destruct (addBuild b x) as [x' b'] eqn:Hadd.
  destruct (addBuild_ids _ _ _ _ Hfit Hadd) as (_ & _ & _ & _ & _ & (Hr & _ & Hl) & (Hq & _)).
  split_and!.
  - by eapply addBuild_unique.
  - intros o Ho Ht Heq. apply Hr. rewrite <- Heq. apply list_elem_of_fmap. exists o.
    split; [done|]. by apply list_elem_of_filter.
  - intros o Ho Ht Hp Heq. apply Hq. rewrite <- Heq. apply list_elem_of_fmap. exists o.
    split; [done|]. by apply list_elem_of_filter.
  - intros j (o & -> & (Ht & Ho)%list_elem_of_filter)%Hl%list_elem_of_fmap. by exists o.
Qed.

Definition demo_build (p : nat) (id : Z) : BuildRef := mkBuildRef p "tok" 1 id id "" "" "" None.

Lemma build_ids_are_lowest_free_witness :
  RunnerID (fst (addBuild (mkHelper ∅ [demo_build 0 0; demo_build 1 2] ∅ []) (demo_build 2 0))) = 1%Z ∧
  ids_unique (builds (snd (addBuild (mkHelper ∅ [demo_build 0 0; demo_build 1 2] ∅ []) (demo_build 2 0)))).
Proof.
  split; [reflexivity|].
  refine (proj1 (build_ids_are_lowest_free (mkHelper ∅ [demo_build 0 0; demo_build 1 2] ∅ [])
                   (demo_build 2 0) _ _)).
  - unfold ids_fit. vm_compute. split_and!; discriminate.
  - split; apply (bool_decide_eq_true_1 _); vm_compute; reflexivity.
Defined.

(** How many of the builds are in a state. *)
Definition in_state (s : statePermutation) (l : list BuildRef) : nat :=
  length (filter (λ x, newStatePermutationFromBuild x = s) l).

Lemma count_states_lookup l data s :
  foldl count_state data l !! s =
  match data !! s, in_state s l with
  | None, 0 => None
  | o, n => Some (default 0 o + Z.of_nat n)%Z
  end.
Proof.
  revert data. induction l as [|x l IH]; intros data; simpl.
  { unfold in_state. simpl. destruct (data !! s) as [v|]; [|done]. simpl. f_equal. lia. }
  rewrite IH. unfold in_state, count_state. rewrite filter_cons.
  set (s' := newStatePermutationFromBuild x). destruct (decide (s' = s)) as [->|Hne].
  - destruct (data !! s) as [v|] eqn:E; rewrite lookup_insert_eq; simpl; f_equal; lia.
  - destruct (data !! s') as [v|]; rewrite lookup_insert_ne by done; done.
Qed.

(** The job metric partitions the running builds: a state is reported exactly when
    some build is in it, with the number of builds in it. *)
Theorem metric_counts_builds b s n :
  statesAndStages b !! s = Some n ↔
  n = Z.of_nat (in_state s (builds b)) ∧ (0 < n)%Z.
Proof.
  unfold statesAndStages. rewrite count_states_lookup, lookup_empty.
  destruct (in_state s (builds b)) as [|k]; simpl; split.
  - done.
  - intros [-> H]. lia.
  - intros [= <-]. lia.
  - by intros [-> _].
Qed.

(** Failed checks at the given times, one after the other. *)
Definition failed_checks (m : healthHelper) (id : string) (times : list Z) : healthHelper :=
  foldl (λ m t, makeHealthy m t id false) m times.

Lemma failed_checks_lookup m id times f t0 :
  m !! id = Some (mkHealth f t0) →
  failed_checks m id times !! id = Some (mkHealth (f + Z.of_nat (length times)) t0).
Proof.
  revert m f. induction times as [|t ts IH]; intros m f H; simpl; [by rewrite Z.add_0_r|].
  rewrite (IH _ (f + 1)%Z); [f_equal; f_equal; lia|].
  unfold makeHealthy, getHealth. rewrite H. simpl. by rewrite lookup_insert_eq.
Qed.

(** A runner is skipped exactly after three failed checks in a row since its last
    good one, and only for an hour after that good one: then it is tried again with
    three new chances. Other runners are not affected. *)
Theorem runner_is_paused_after_three_failures m id t0 times now :
  let m' := failed_checks (makeHealthy m t0 id true) id times in
  fst (isHealthy m' now id) =
    (bool_decide (length times < 3) || (HealthCheckInterval * Second <? now - t0)%Z) ∧
  (∀ id', id' ≠ id → m' !! id' = m !! id' ∧ snd (isHealthy m' now id) !! id' = m !! id') ∧
  (3 ≤ length times → (HealthCheckInterval * Second < now - t0)%Z →
   snd (isHealthy m' now id) !! id = Some (mkHealth 0 now)).
Proof.
  intros m'.
  assert (Hl : m' !! id = Some (mkHealth (Z.of_nat (length times)) t0)).
  { apply (failed_checks_lookup _ _ _ 0). unfold makeHealthy. by rewrite lookup_insert_eq. }
  assert (Ho : ∀ id', id' ≠ id → m' !! id' = m !! id').
  { intros id' Hne. subst m'. clear Hl. unfold failed_checks.
    assert (Hg : ∀ m1 ts, foldl (λ m t, makeHealthy m t id false) m1 ts !! id' = m1 !! id').
    { intros m1 ts. revert m1. induction ts as [|t ts IH]; intros m1; simpl; [done|].
      rewrite IH. unfold makeHealthy. by rewrite lookup_insert_ne. }
    rewrite Hg. unfold makeHealthy. by rewrite lookup_insert_ne. }
  unfold isHealthy, getHealth. rewrite Hl. simpl. unfold HealthyChecks.
  split_and!.
  - destruct (Z.ltb_spec (Z.of_nat (length times)) 3).
    + by rewrite bool_decide_eq_true_2 by lia.
    + rewrite bool_decide_eq_false_2 by lia. by destruct (_ <? _)%Z.
  - intros id' Hne. split; [by apply Ho|]. repeat split_match; simpl;
      rewrite lookup_insert_ne by done; by apply Ho.
  - intros H3 Ht. rewrite (proj2 (Z.ltb_ge _ _)) by lia.
    rewrite (proj2 (Z.ltb_lt _ _)) by lia. simpl. by rewrite lookup_insert_eq.
Qed.
