(* ===== verification/MultiRunner.v ===== *)
(** The workers of the multi-runner (commands/multi.go): [processRunner] run by several
    goroutines at once over the shared bookkeeping. One step is one call that takes a
    lock (or a call to the executor provider); a schedule interleaves the steps of the
    workers in any way. *)

From S2P Require Import Prelude GoLib Types Variables Config BuildsHelper.

(** Where a worker is inside [processRunner]. *)
Inductive phase :=
| WIdle                                    (* waiting for a runner from the channel *)
| WAcquired (r : RunnerConfig)             (* provider.Acquire succeeded *)
| WRejected (r : RunnerConfig)             (* acquireBuild refused: provider.Release is due *)
| WSlot (r : RunnerConfig)                 (* acquireBuild succeeded *)
| WRequesting (r : RunnerConfig)           (* acquireRequest succeeded, RequestJob runs *)
| WAnswered (r : RunnerConfig) (project : option Z) (* answered: releaseRequest is due *)
| WJob (r : RunnerConfig) (project : Z)    (* a job was received *)
| WRunning (r : RunnerConfig) (x : BuildRef) (* addBuild done, build.Run runs *)
| WReleasing (r : RunnerConfig)            (* releaseFn: releaseBuild is due *)
| WReleased (r : RunnerConfig).            (* releaseFn: provider.Release is due *)

(** What the environment decides at a step. *)
Inductive choice :=
| CPick (r : RunnerConfig) (acquired : bool)   (* a runner to process; does Acquire succeed *)
| CSession (ok : bool)                         (* does createSession succeed *)
| CAnswer (project : option Z) (healthy : bool) (now : Z) (* the answer of RequestJob *)
| CNewBuild (ok : bool)                        (* does NewBuild succeed *)
| CGo.                                         (* no choice to make *)

(** [outstanding] counts executors acquired and not released; [next] is the next
    pointer [NewBuild] returns. *)
Record RunCommand := mkRun {
  helper : buildsHelper; health : gmap string healthData; outstanding : Z;
  next : nat; workers : list phase }.

Definition set_worker (m : RunCommand) (i : nat) (p : phase) (h : buildsHelper) (out : Z) : RunCommand :=
  mkRun h (health m) out (next m) (<[i := p]> (workers m)).

(** The session of the build plays no part in the steps and is left out. *)
Definition new_build (p : nat) (r : RunnerConfig) (project : Z) : BuildRef :=
  mkBuildRef p (Token r) project 0 0 "" "" "" None.

(** One step of worker [i]; [None] when the choice does not fit its phase. *)
Definition wstep (m : RunCommand) (i : nat) (c : choice) : option RunCommand :=
  let h := helper m in
  let out := outstanding m in
  match workers m !! i, c with
  | Some WIdle, CPick r ok =>
      Some (if ok then set_worker m i (WAcquired r) h (out + 1)%Z else set_worker m i WIdle h out)
  | Some (WAcquired r), CGo =>
      let '(ok, h) := acquireBuild h r in
      Some (set_worker m i (if ok then WSlot r else WRejected r) h out)
  | Some (WRejected r), CGo => Some (set_worker m i WIdle h (out - 1)%Z)
  | Some (WSlot r), CSession ok =>
      if ok then
        let '(granted, h) := acquireRequest h r in
        Some (set_worker m i (if granted then WRequesting r else WReleasing r) h out)
      else Some (set_worker m i (WReleasing r) h out)
  | Some (WRequesting r), CAnswer project healthy now =>
      Some (mkRun h (makeHealthy (health m) now (UniqueID (Credentials_ r)) healthy) out (next m)
              (<[i := WAnswered r project]> (workers m)))
  | Some (WAnswered r project), CGo =>
      let '(_, h) := releaseRequest h r in
      Some (set_worker m i (match project with Some p => WJob r p | None => WReleasing r end) h out)
  | Some (WJob r project), CNewBuild ok =>
      if ok then
        let '(x, h) := addBuild h (new_build (next m) r project) in
        Some (mkRun h (health m) out (S (next m)) (<[i := WRunning r x]> (workers m)))
      else Some (set_worker m i (WReleasing r) h out)
  | Some (WRunning r x), CGo =>
      let '(_, h) := removeBuild h x in Some (set_worker m i (WReleasing r) h out)
  | Some (WReleasing r), CGo =>
      let '(_, h) := releaseBuild h r in Some (set_worker m i (WReleased r) h out)
  | Some (WReleased r), CGo => Some (set_worker m i WIdle h (out - 1)%Z)
  | _, _ => None
  end.

(** A schedule; steps that do not fit are skipped. *)
Definition schedule (m : RunCommand) (l : list (nat * choice)) : RunCommand :=
  foldl (λ m '(i, c), default m (wstep m i c)) m l.

Definition start_workers (n : nat) : RunCommand :=
  mkRun newBuildsHelper ∅ 0 0 (replicate n WIdle).

(** ** What the workers hold *)

Definition at_token (t : string) (r : RunnerConfig) : nat := if bool_decide (Token r = t) then 1 else 0.

(** Does the phase hold a build slot, or a request slot, of the runner [t]; an executor. *)
Definition slot_of (t : string) (p : phase) : nat :=
  match p with
  | WSlot r | WRequesting r | WAnswered r _ | WJob r _ | WRunning r _ | WReleasing r => at_token t r
  | _ => 0
  end.

Definition request_of (t : string) (p : phase) : nat :=
  match p with WRequesting r | WAnswered r _ => at_token t r | _ => 0 end.

Definition executor_of (p : phase) : nat := match p with WIdle => 0 | _ => 1 end.

Definition build_of (p : phase) : list BuildRef := match p with WRunning _ x => [x] | _ => [] end.

(** The builds the workers run; the runner a worker works for. *)
Definition running (ws : list phase) : list BuildRef := ws ≫= build_of.

Definition runner_of (p : phase) : option RunnerConfig :=
  match p with
  | WIdle => None
  | WAcquired r | WRejected r | WSlot r | WRequesting r | WAnswered r _ | WJob r _
  | WRunning r _ | WReleasing r | WReleased r => Some r
  end.

Lemma insert_perm {A} (l : list A) i x y :
  l !! i = Some x → ∃ rest, l ≡ₚ x :: rest ∧ <[i := y]> l ≡ₚ y :: rest.
Proof.
  revert i. induction l as [|z l IH]; intros [|i] H; simpl in *; [done..| |].
  - simplify_eq. by exists l.
  - destruct (IH i H) as (rest & H1 & H2). exists (z :: rest).
    split; [rewrite H1|rewrite H2]; apply Permutation_swap.
Qed.

Lemma sum_list_with_perm {A} (f : A → nat) l l' :
  l ≡ₚ l' → sum_list_with f l = sum_list_with f l'.
Proof. induction 1; simpl; lia. Qed.

(** Replacing one worker's phase moves what it holds. *)
Lemma sum_insert (f : phase → nat) ws i p p' :
  ws !! i = Some p →
  sum_list_with f (<[i := p']> ws) + f p = sum_list_with f ws + f p'.
Proof.
  intros H. destruct (insert_perm ws i p p' H) as (rest & H1 & H2).
  rewrite (sum_list_with_perm f _ _ H1), (sum_list_with_perm f _ _ H2). simpl. lia.
Qed.

Lemma running_perm ws ws' : ws ≡ₚ ws' → running ws ≡ₚ running ws'.
Proof. intros H. unfold running. by rewrite H. Qed.

Lemma running_insert ws i p p' :
  ws !! i = Some p →
  ∃ rest, running ws ≡ₚ build_of p ++ rest ∧ running (<[i := p']> ws) ≡ₚ build_of p' ++ rest.
Proof.
  intros H. destruct (insert_perm ws i p p' H) as (rest & H1 & H2).
  exists (running rest). split; [rewrite (running_perm _ _ H1)|rewrite (running_perm _ _ H2)]; done.
Qed.

Lemma length_running ws : length (running ws) ≤ length ws.
Proof.
  induction ws as [|p ws IH]; [done|].
  change (running (p :: ws)) with (build_of p ++ running ws). rewrite length_app.
  destruct p; simpl; lia.
Qed.

(** ** The invariant *)

Definition counter (m : RunCommand) (t : string) : runnerCounter :=
  default (mkCounter 0 0 0) (counters (helper m) !! t).

Record consistent (n : nat) (m : RunCommand) : Prop := {
  c_workers : length (workers m) = n;
  c_slots : ∀ t, c_builds (counter m t) = Z.of_nat (sum_list_with (slot_of t) (workers m));
  c_reqs : ∀ t, c_requests (counter m t) = Z.of_nat (sum_list_with (request_of t) (workers m));
  c_executors : outstanding m = Z.of_nat (sum_list_with executor_of (workers m));
  c_running : builds (helper m) ≡ₚ running (workers m);
  c_ptrs : NoDup (ptr <$> builds (helper m));
  c_next : Forall (λ x, ptr x < next m) (builds (helper m));
  c_tokens : Forall (λ p, match p with WRunning r x => b_token x = Token r | _ => True end) (workers m);
  c_unique : ids_unique (builds (helper m)) }.

Lemma counter_set m r c t : 
  default (mkCounter 0 0 0) (counters (set_counter m r c) !! t) =
  if bool_decide (Token r = t) then c else default (mkCounter 0 0 0) (counters m !! t).
Proof.
  unfold set_counter. simpl. case_bool_decide as H; [subst|].
  - by rewrite lookup_insert_eq.
  - by rewrite lookup_insert_ne.
Qed.

Lemma remove_ptr_perm x l :
  x ∈ l → NoDup (ptr <$> l) → ∃ l', remove_ptr (ptr x) l = Some l' ∧ l ≡ₚ x :: l'.
Proof.
  induction l as [|y l IH]; [by intros ?%elem_of_nil|]. intros Hin Hnd. simpl in *.
  apply NoDup_cons in Hnd as [Hy Hnd]. case_bool_decide as Heq.
  - apply elem_of_cons in Hin as [->|Hin]; [by exists l|].
    destruct Hy. rewrite Heq. apply list_elem_of_fmap. by exists x.
  - apply elem_of_cons in Hin as [->|Hin]; [done|].
    destruct (IH Hin Hnd) as (l' & -> & Hp). exists (y :: l'). split; [done|].
    rewrite Hp. by constructor.
Qed.

(** A step that changes neither the list of builds nor the counters but for [r]'s. *)
Lemma consistent_counters n m i p p' h' out' :
  consistent n m → workers m !! i = Some p →
  build_of p = [] → build_of p' = [] →
  builds h' = builds (helper m) →
  (∀ t, c_builds (default (mkCounter 0 0 0) (counters h' !! t)) + Z.of_nat (slot_of t p) =
        c_builds (counter m t) + Z.of_nat (slot_of t p'))%Z →
  (∀ t, c_requests (default (mkCounter 0 0 0) (counters h' !! t)) + Z.of_nat (request_of t p) =
        c_requests (counter m t) + Z.of_nat (request_of t p'))%Z →
  (out' + Z.of_nat (executor_of p) = outstanding m + Z.of_nat (executor_of p'))%Z →
  consistent n (mkRun h' (health m) out' (next m) (<[i := p']> (workers m))).
Proof.
  intros [] Hp Hb Hb' Hbs Hs Hr Ho. split; simpl; rewrite ?Hbs; try done.
  - by rewrite length_insert.
  - intros t. unfold counter. simpl. pose proof (sum_insert (slot_of t) _ _ _ p' Hp).
    specialize (Hs t). rewrite c_slots0 in Hs. lia.
  - intros t. unfold counter. simpl. pose proof (sum_insert (request_of t) _ _ _ p' Hp).
    specialize (Hr t). rewrite c_reqs0 in Hr. lia.
  - pose proof (sum_insert executor_of _ _ _ p' Hp). lia.
  - destruct (running_insert _ _ _ p' Hp) as (rest & H1 & H2).
    rewrite c_running0, H1, H2, Hb, Hb'. done.
  - apply Forall_insert; [done|]. by destruct p'.
Qed.

(** The pieces of a counter step: compare with the runner's own token or not. *)
Ltac counter_step :=
  intros ?t; rewrite ?counter_set; unfold counter, getRunnerCounter, slot_of, request_of, at_token;
  repeat case_bool_decide; simplify_eq; simpl; lia.

Lemma sum_list_with_ge (f : phase → nat) ws i p : ws !! i = Some p → f p ≤ sum_list_with f ws.
Proof.
  intros H. destruct (insert_perm ws i p p H) as (rest & H1 & _).
  rewrite (sum_list_with_perm f _ _ H1). simpl. lia.
Qed.

Lemma slot_held n m i p r :
  consistent n m → workers m !! i = Some p → slot_of (Token r) p = 1 →
  (0 < c_builds (getRunnerCounter (helper m) r))%Z.
Proof.
  intros [] Hp Hs. pose proof (sum_list_with_ge (slot_of (Token r)) _ _ _ Hp).
  specialize (c_slots0 (Token r)). unfold counter in c_slots0. unfold getRunnerCounter. lia.
Qed.

Lemma request_held n m i p r :
  consistent n m → workers m !! i = Some p → request_of (Token r) p = 1 →
  (0 < c_requests (getRunnerCounter (helper m) r))%Z.
Proof.
  intros [] Hp Hs. pose proof (sum_list_with_ge (request_of (Token r)) _ _ _ Hp).
  specialize (c_reqs0 (Token r)). unfold counter in c_reqs0. unfold getRunnerCounter. lia.
Qed.

Lemma at_token_self r : at_token (Token r) r = 1.
Proof. unfold at_token. by rewrite bool_decide_eq_true_2. Qed.

(** [addBuild] by a worker that received a job. *)
Lemma consistent_add n m i r project x h' :
  consistent n m → (Z.of_nat n < int64_max)%Z → workers m !! i = Some (WJob r project) →
  addBuild (helper m) (new_build (next m) r project) = (x, h') →
  consistent n (mkRun h' (health m) (outstanding m) (S (next m)) (<[i := WRunning r x]> (workers m))).
Proof.
  intros [] Hn Hp Hadd.
  assert (Hcount : buildsCount (helper m) ≤ n).
  { unfold buildsCount. rewrite c_running0, <- c_workers0. apply length_running. }
  assert (Hfit : ids_fit (helper m) (new_build (next m) r project)).
  { unfold ids_fit, new_build, int64_min. simpl. lia. }
  pose proof (addBuild_unique _ _ _ _ Hfit Hadd c_unique0) as Hu.
  destruct (addBuild_ids _ _ _ _ Hfit Hadd) as (Hbs & Hcs & Hptr & Htok & _). simpl in Hptr, Htok.
  destruct (running_insert _ _ _ (WRunning r x) Hp) as (rest & H1 & H2). simpl in H1, H2.
  split; simpl; rewrite ?Hbs; unfold counter; simpl; rewrite ?Hcs.
  - by rewrite length_insert.
  - intros t. pose proof (sum_insert (slot_of t) _ _ _ (WRunning r x) Hp) as Hsum. simpl in Hsum.
    specialize (c_slots0 t). unfold counter in c_slots0. lia.
  - intros t. pose proof (sum_insert (request_of t) _ _ _ (WRunning r x) Hp) as Hsum. simpl in Hsum.
    specialize (c_reqs0 t). unfold counter in c_reqs0. lia.
  - pose proof (sum_insert executor_of _ _ _ (WRunning r x) Hp) as Hsum. simpl in Hsum. lia.
  - rewrite c_running0, H1, H2. by rewrite Permutation_app_comm.
  - rewrite fmap_app. apply NoDup_snoc; [done|].
    intros (y & Hy & Hin)%list_elem_of_fmap. rewrite Forall_forall in c_next0.
    specialize (c_next0 y Hin). lia.
  - apply Forall_app. split; [eapply Forall_impl; [done|]; simpl; lia|].
    apply Forall_singleton. lia.
  - by apply Forall_insert.
  - by rewrite Hbs in Hu.
Qed.

(** [removeBuild] by the worker whose build ended. *)
Lemma consistent_remove n m i r x b h' :
  consistent n m → workers m !! i = Some (WRunning r x) →
  removeBuild (helper m) x = (b, h') →
  b = true ∧ consistent n (set_worker m i (WReleasing r) h' (outstanding m)).
Proof.
  intros [] Hp Hrem.
  destruct (running_insert _ _ _ (WReleasing r) Hp) as (rest & H1 & H2). simpl in H1, H2.
  assert (Hin : x ∈ builds (helper m)) by (rewrite c_running0, H1; left).
  destruct (remove_ptr_perm x _ Hin c_ptrs0) as (l' & Hl' & Hperm).
  unfold removeBuild in Hrem. rewrite Hl' in Hrem. simplify_eq. split; [done|].
  pose proof (remove_ptr_sublist _ _ _ Hl') as Hsub.
  split; unfold set_worker, counter; simpl.
  - by rewrite length_insert.
  - intros t. pose proof (sum_insert (slot_of t) _ _ _ (WReleasing r) Hp) as Hsum. simpl in Hsum.
    specialize (c_slots0 t). unfold counter in c_slots0. lia.
  - intros t. pose proof (sum_insert (request_of t) _ _ _ (WReleasing r) Hp) as Hsum. simpl in Hsum.
    specialize (c_reqs0 t). unfold counter in c_reqs0. lia.
  - pose proof (sum_insert executor_of _ _ _ (WReleasing r) Hp) as Hsum. simpl in Hsum. lia.
  - rewrite H2. rewrite c_running0, H1 in Hperm. by apply Permutation_cons_inv in Hperm.
  - eapply sublist_NoDup; [done|by apply fmap_sublist].
  - rewrite Hperm in c_next0. by apply Forall_cons in c_next0 as [_ ?].
  - by apply Forall_insert.
  - by eapply ids_unique_sublist.
Qed.

Lemma consistent_start n : consistent n (start_workers n).
Proof.
  assert (Hs : ∀ f : phase → nat, f WIdle = 0 → sum_list_with f (replicate n WIdle) = 0).
  { intros f Hf. induction n as [|k IH]; simpl; lia. }
  assert (Hr : running (replicate n WIdle) = []).
  { clear Hs. induction n as [|k IH]; [done|]. exact IH. }
  split; unfold counter; simpl; rewrite ?Hr.
  - apply length_replicate.
  - intros t. rewrite lookup_empty. simpl. by rewrite Hs.
  - intros t. rewrite lookup_empty. simpl. by rewrite Hs.
  - by rewrite Hs.
  - done.
  - constructor.
  - constructor.
  - by apply Forall_replicate.
  - split; constructor.
Qed.

Lemma wstep_consistent n m i c m' :
  consistent n m → (Z.of_nat n < int64_max)%Z → wstep m i c = Some m' → consistent n m'.
Proof.
  intros Hc Hn Hstep. unfold wstep in Hstep.
  destruct (workers m !! i) as [p|] eqn:Hp; [|done].
  destruct p as [|r|r|r|r|r o|r project|r x|r|r]; destruct c; try done; simplify_eq.
  - destruct acquired; apply (consistent_counters n m i WIdle); try done; simpl; lia.
  - unfold acquireBuild in Hstep. destruct (_ && _)%bool; simplify_eq;
      apply (consistent_counters n m i (WAcquired r)); try done; counter_step.
  - apply (consistent_counters n m i (WRejected r)); try done; simpl; lia.
  - destruct ok; simplify_eq; [|by apply (consistent_counters n m i (WSlot r))].
    unfold acquireRequest in Hstep. destruct (_ <=? _)%Z; simplify_eq;
      apply (consistent_counters n m i (WSlot r)); try done; counter_step.
  - apply (consistent_counters n (mkRun (helper m) _ (outstanding m) (next m) (workers m)) i (WRequesting r));
      try done. by destruct Hc.
  - unfold releaseRequest in Hstep.
    pose proof (request_held n m i _ r Hc Hp (at_token_self r)) as Hpos.
    rewrite (proj2 (Z.ltb_lt _ _)) in Hstep by done. simplify_eq.
    apply (consistent_counters n m i (WAnswered r o)); try done; destruct o; try done; counter_step.
  - destruct ok.
    + destruct (addBuild _ _) as [x h'] eqn:Hadd. simplify_eq. by eapply consistent_add.
    + simplify_eq. by apply (consistent_counters n m i (WJob r project)).
  - destruct (removeBuild (helper m) x) as [b h'] eqn:Hrem. simplify_eq.
    by destruct (consistent_remove n m i r x b h' Hc Hp Hrem).
  - unfold releaseBuild in Hstep.
    pose proof (slot_held n m i _ r Hc Hp (at_token_self r)) as Hpos.
    rewrite (proj2 (Z.ltb_lt _ _)) in Hstep by done. simplify_eq.
    apply (consistent_counters n m i (WReleasing r)); try done; counter_step.
  - apply (consistent_counters n m i (WReleased r)); try done; simpl; lia.
Qed.

Lemma schedule_consistent n l :
  (Z.of_nat n < int64_max)%Z → consistent n (schedule (start_workers n) l).
Proof.
  intros Hn. unfold schedule. generalize (consistent_start n). generalize (start_workers n).
  induction l as [|[i c] l IH]; intros m Hc; simpl; [done|]. apply IH.
  destruct (wstep m i c) as [m'|] eqn:E; [|done]. by eapply wstep_consistent.
Qed.

(** ** The limits *)

Section Limits.
(** The configured runners; a token identifies a runner. *)
Context (rs : list RunnerConfig).
Hypothesis tokens_differ : ∀ r r', r ∈ rs → r' ∈ rs → Token r = Token r' → r = r'.

Definition picks_from (l : list (nat * choice)) : Prop :=
  Forall (λ '(_, c), match c with CPick r _ => r ∈ rs | _ => True end) l.

Definition known (p : phase) : Prop := match runner_of p with Some r => r ∈ rs | None => True end.

Definition bounded (h : buildsHelper) (r : RunnerConfig) : Prop :=
  (0 < Limit r → c_builds (getRunnerCounter h r) ≤ Limit r)%Z ∧
  (c_requests (getRunnerCounter h r) ≤ GetRequestConcurrency r)%Z.

Definition within (m : RunCommand) : Prop :=
  Forall known (workers m) ∧ ∀ r, r ∈ rs → bounded (helper m) r.

(** A step of runner [r0] that sets its counter to [c]. *)
Lemma within_set_counter m i p r0 c out :
  within m → r0 ∈ rs → runner_of p = Some r0 →
  (0 < Limit r0 → c_builds c ≤ Limit r0)%Z → (c_requests c ≤ GetRequestConcurrency r0)%Z →
  within (set_worker m i p (set_counter (helper m) r0 c) out).
Proof.
  intros [Hk Hb] Hr0 Hp H1 H2. split; simpl.
  { apply Forall_insert; [done|]. unfold known. by rewrite Hp. }
  intros r Hr. unfold bounded, getRunnerCounter. rewrite counter_set. case_bool_decide as Ht.
  - by rewrite <- (tokens_differ _ _ Hr0 Hr Ht).
  - by apply Hb.
Qed.

Lemma within_same_counters m i p h' out hl nx :
  within m → counters h' = counters (helper m) → known p →
  within (mkRun h' hl out nx (<[i := p]> (workers m))).
Proof.
  intros [Hk Hb] Hc Hp. split; simpl; [by apply Forall_insert|].
  intros r Hr. unfold bounded, getRunnerCounter. rewrite Hc. by apply Hb.
Qed.

Lemma wstep_within m i c m' :
  within m → (match c with CPick r _ => r ∈ rs | _ => True end) → wstep m i c = Some m' → within m'.
Proof.
  intros Hw Hc Hstep. unfold wstep in Hstep.
  destruct (workers m !! i) as [p|] eqn:Hp; [|done].
  assert (Hkp : known p) by (eapply Forall_lookup_1; [apply Hw|done]).
  destruct p as [|r|r|r|r|r o|r project|r x|r|r]; destruct c; try done; simplify_eq; unfold known in Hkp; simpl in Hkp;
    try (destruct (proj2 Hw r Hkp) as [Hb1 Hb2]).
  - destruct acquired; by apply within_same_counters.
  - unfold acquireBuild in Hstep. destruct (_ && _)%bool eqn:E; simplify_eq.
    + by apply within_set_counter.
    + apply within_set_counter; try done. simpl. intros Hl.
      rewrite (proj2 (Z.ltb_lt _ _)) in E by done. simpl in E. apply Z.leb_gt in E. lia.
  - by apply within_same_counters.
  - destruct ok; simplify_eq; [|by apply within_same_counters].
    unfold acquireRequest in Hstep. destruct (Z.leb_spec (GetRequestConcurrency r) (c_requests (getRunnerCounter (helper m) r)));
      simplify_eq; apply within_set_counter; try done; simpl; lia.
  - by apply within_same_counters.
  - unfold releaseRequest in Hstep. destruct (_ <? _)%Z; simplify_eq;
      apply within_set_counter; try done; try (by destruct o); simpl; lia.
  - destruct ok; [|simplify_eq; by apply within_same_counters].
    destruct (addBuild _ _) as [x h'] eqn:Hadd. simplify_eq.
    apply within_same_counters; [done|by injection Hadd as <- <-|done].
  - destruct (removeBuild (helper m) x) as [b h'] eqn:Hrem. simplify_eq.
    apply within_same_counters; [done|by apply removeBuild_sublist in Hrem as [_ ?]|done].
  - unfold releaseBuild in Hstep. destruct (_ <? _)%Z; simplify_eq;
      apply within_set_counter; try done; simpl; lia.
  - by apply within_same_counters.
Qed.

Lemma schedule_within n l : picks_from l → within (schedule (start_workers n) l).
Proof.
  intros Hl. unfold schedule.
  assert (H0 : within (start_workers n)).
  { split; simpl; [by apply Forall_replicate|]. intros r _. unfold bounded, getRunnerCounter. simpl.
    rewrite lookup_empty. simpl. pose proof (GetRequestConcurrency_pos r). lia. }
  revert H0. generalize (start_workers n).
  induction Hl as [|[i c] l Hc _ IH]; intros m Hm; simpl; [done|]. apply IH.
  destruct (wstep m i c) as [m'|] eqn:E; [|done]. by eapply wstep_within.
Qed.

Lemma tokens_of_running m n t :
  consistent n m →
  (Z.of_nat (length (filter (λ x, b_token x = t) (builds (helper m)))) ≤ c_builds (counter m t))%Z.
Proof.
  intros []. rewrite c_slots0, c_running0. clear -c_tokens0.
  induction c_tokens0 as [|p ws Hp _ IH]; [done|].
  change (running (p :: ws)) with (build_of p ++ running ws). rewrite filter_app, length_app.
  assert (Hle : length (filter (λ x, b_token x = t) (build_of p)) ≤ slot_of t p).
  { destruct p; simpl; try lia. rewrite filter_cons. unfold at_token. rewrite Hp.
    destruct (decide _) as [Heq|Hne]; [|simpl; lia]. by rewrite bool_decide_eq_true_2. }
  simpl. lia.
Qed.


End Limits.

(** C5: Nothing leaks. However the workers interleave and whatever fails on the way (no
    executor, limit met, no session, no job, no build), the counters of a runner are
    exactly the slots its workers hold, the list of builds is exactly what the workers
    run, and the executors handed out are exactly those of busy workers; so when all
    workers are idle everything was given back. *)
Theorem nothing_leaks n l :
  (Z.of_nat n < int64_max)%Z →
  let m := schedule (start_workers n) l in
  (∀ t, c_builds (counter m t) = Z.of_nat (sum_list_with (slot_of t) (workers m)) ∧
        c_requests (counter m t) = Z.of_nat (sum_list_with (request_of t) (workers m))) ∧
  outstanding m = Z.of_nat (sum_list_with executor_of (workers m)) ∧
  builds (helper m) ≡ₚ running (workers m) ∧
  (workers m = replicate n WIdle →
   (∀ t, c_builds (counter m t) = 0%Z ∧ c_requests (counter m t) = 0%Z) ∧
   outstanding m = 0%Z ∧ builds (helper m) = []).
Proof.
  intros Hn m. pose proof (schedule_consistent n l Hn) as Hc. fold m in Hc.
  pose proof (consistent_start n) as H0. destruct Hc, H0.
  split_and!; [by split|done|done|]. intros Hidle. simpl in *. rewrite Hidle in *. split_and!.
  - intros t. rewrite c_slots0, c_reqs0, <- c_slots1, <- c_reqs1. unfold counter. simpl.
    by rewrite lookup_empty.
  - congruence.
  - apply Permutation_nil_r. by rewrite c_running0, <- c_running1.
Qed.

(** A runner with limit 1, two workers: the second is turned away while the first runs. *)
Definition demo_schedule : list (nat * choice) :=
  let r := some_runner 1 1 in
  [(0, CPick r true); (0, CGo); (1, CPick r true); (1, CGo); (0, CSession true);
   (0, CAnswer (Some 7%Z) true 0); (0, CGo); (0, CNewBuild true); (1, CGo)].


Lemma nothing_leaks_witness :
  outstanding (schedule (start_workers 2) demo_schedule) =
  Z.of_nat (sum_list_with executor_of (workers (schedule (start_workers 2) demo_schedule))).
Proof.
  refine (proj1 (proj2 (nothing_leaks 2 demo_schedule _))). vm_compute. reflexivity.
Defined.
