(* ===== verification/ConfigFile.v ===== *)
(** The configuration of the service: its file (Config.LoadConfig and SaveConfig of
    common/config.go, commands/config.go), the off-peak periods of docker machine
    (helpers/timeperiod), the logging configuration (log/configuration.go), and how the
    running service reloads them (commands/multi.go). *)

From S2P Require Import Prelude GoLib Path Types Variables Config BuildsHelper.

Open Scope go_scope.

(** ** Logging configuration, log/configuration.go *)

Definition FormatRunner : string := "runner".
Definition FormatText : string := "text".
Definition FormatJSON : string := "json".
Definition formats : list string := [FormatRunner; FormatText; FormatJSON].

(** [l_dump] is the presence of [goroutinesDumpStopCh]; [l_logger] what the logger was last
    told. Formatters are named by their key in [formats]. *)
Record LogConfig := mkLog {
  l_level : string; l_format : string; levelSetWithCli : bool; formatSetWithCli : bool;
  l_dump : bool; l_logger : string * string }.

Definition NewLogConfig : LogConfig := mkLog "info" FormatRunner false false false ("", "").

Definition DebugLevel : string := "debug".

Section Logging.
(** [logrus.ParseLevel]: the canonical name of a level. *)
Context (ParseLevel : string → result string string).

Definition SetLevel (l : LogConfig) (levelString : string) : result string LogConfig :=
  match ParseLevel levelString with
  | Err err => Err ("failed to parse log level: " +:+ err)
  | Ok level => Ok (mkLog level (l_format l) (levelSetWithCli l) (formatSetWithCli l) (l_dump l) (l_logger l))
  end.

(** The message names the formatter in use, not the one asked for; the names of the formats
    come from a map, here in one of their orders. *)
Definition SetFormat (l : LogConfig) (format : string) : result string LogConfig :=
  if bool_decide (format ∈ formats)
  then Ok (mkLog (l_level l) format (levelSetWithCli l) (formatSetWithCli l) (l_dump l) (l_logger l))
  else Err ("unknown log format " +:+ QuoteWith (λ _, true) (l_format l) +:+ ", expected one of: [" +:+ Join formats " " +:+ "]").

Definition enableGoroutinesDump (l : LogConfig) : LogConfig :=
  mkLog (l_level l) (l_format l) (levelSetWithCli l) (formatSetWithCli l) true (l_logger l).
Definition disableGoroutinesDump (l : LogConfig) : LogConfig :=
  mkLog (l_level l) (l_format l) (levelSetWithCli l) (formatSetWithCli l) false (l_logger l).

Definition ReloadConfiguration (l : LogConfig) : LogConfig :=
  let l := mkLog (l_level l) (l_format l) (levelSetWithCli l) (formatSetWithCli l) (l_dump l) (l_format l, l_level l) in
  if bool_decide (l_level l = DebugLevel) then enableGoroutinesDump l else disableGoroutinesDump l.

Definition set_cli (l : LogConfig) (level format : bool) : LogConfig :=
  mkLog (l_level l) (l_format l) (level || levelSetWithCli l) (format || formatSetWithCli l) (l_dump l) (l_logger l).

(** The command line: the log level if given, the debug switch, the format if given. *)
Definition handleCliCtx (l : LogConfig) (level : option string) (debug : bool) (format : option string)
    : result string LogConfig :=
  let? l := match level with
            | Some v => let? l := SetLevel l v in Ok (set_cli l true false)
            | None => Ok l
            end in
  let l := if debug
           then set_cli (mkLog DebugLevel (l_format l) (levelSetWithCli l) (formatSetWithCli l) (l_dump l) (l_logger l)) true false
           else l in
  let? l := match format with
            | Some v => let? l := SetFormat l v in Ok (set_cli l false true)
            | None => Ok l
            end in
  Ok (ReloadConfiguration l).
End Logging.

(** ** The configuration file *)

(** The fields of [Config] the other components do not read, around those they do. *)
Record LoadedConfig := mkLoaded {
  lc_config : Config; lc_LogLevel : option string; lc_LogFormat : option string; lc_SentryDSN : option string;
  lc_ListenAddress : string; lc_ModTime : Z; lc_Loaded : bool }.

(** [NewConfig]: the zero time is before any other. *)
Definition zero_time : Z := int64_min.
Definition NewLoaded : LoadedConfig := mkLoaded NewConfig None None None "" zero_time false.

Inductive stat_error := StatNotExist | StatOther (e : error).

(** The file system and the TOML library: [os.Stat] (the time of the last change),
    [toml.DecodeFile] into a configuration with defaults, [toml.Encode], writing the file;
    [cronexpr.Parse] gives the next time of an expression in a location, [LoadLocation]
    says why a time zone is unknown. *)
Class ConfigFiles := {
  os_Stat : string → result stat_error Z;
  DecodeFile : string → LoadedConfig → result error LoadedConfig;
  EncodeFails : LoadedConfig → option error;
  WriteFile : string → LoadedConfig → option error;
  cronexpr_Parse : string → result string (string → Z → Z);
  LoadLocation : string → option string }.

Section Files.
Context `{!ConfigFiles}.

(** *** Off-peak periods, helpers/timeperiod/period.go *)

Fixpoint parse_periods (periods : list string) : result string (list (string → Z → Z)) :=
  match periods with
  | [] => Ok []
  | period :: rest =>
      let? expression := cronexpr_Parse period in
      let? expressions := parse_periods rest in
      Ok (expression :: expressions)
  end.

(** [InPeriod]: the next time of one of the expressions is within a second of now. *)
Definition InPeriod (expressions : list (string → Z → Z)) (location : string) (now : Z) : bool :=
  existsb (λ next, let timeSince := (now - next location now)%Z in
                   (- Second <=? timeSince)%Z && (timeSince <=? Second)%Z) expressions.

Definition TimePeriods (periods : list string) (timezone : string) : result string (Z → bool) :=
  let? expressions := parse_periods periods in
  let timezone := if bool_decide (timezone = "") then "Local" else timezone in
  match LoadLocation timezone with
  | Some err => Err err
  | None => Ok (InPeriod expressions timezone)
  end.

Definition CompileOffPeakPeriods (m : DockerMachine) : option error * DockerMachine :=
  let with_periods p :=
    {| IdleCount := IdleCount m; IdleTime := IdleTime m; MaxBuilds := MaxBuilds m; MachineDriver := MachineDriver m;
       MachineName := MachineName m; MachineOptions := MachineOptions m; OffPeakPeriods := OffPeakPeriods m;
       OffPeakTimezone := OffPeakTimezone m; OffPeakIdleCount := OffPeakIdleCount m;
       OffPeakIdleTime := OffPeakIdleTime m; offPeakTimePeriods := p |} in
  match TimePeriods (OffPeakPeriods m) (OffPeakTimezone m) with
  | Err err => (Some (ErrText ("Invalid OffPeakPeriods value: " +:+ err)), with_periods None)
  | Ok f => (None, with_periods (Some f))
  end.

(** *** Loading *)

Definition set_machine (r : RunnerConfig) (m : DockerMachine) : RunnerConfig :=
  {| Name := Name r; Limit := Limit r; OutputLimit := OutputLimit r; RequestConcurrency := RequestConcurrency r;
     Credentials_ := Credentials_ r; Executor := Executor r; BuildsDir := BuildsDir r; CacheDir := CacheDir r;
     CloneURL := CloneURL r; Environment := Environment r; PreCloneScript := PreCloneScript r;
     PreBuildScript := PreBuildScript r; PostBuildScript := PostBuildScript r;
     DebugTraceDisabled := DebugTraceDisabled r; Shell := Shell r; CustomBuildDir := CustomBuildDir r;
     CacheCfg := CacheCfg r; Machine := Some m; Kubernetes := Kubernetes r |}.

(** The runners with a machine section are compiled in order, up to the first error. *)
Fixpoint compile_all (runners : list RunnerConfig) : option error * list RunnerConfig :=
  match runners with
  | [] => (None, [])
  | runner :: rest =>
      let '(err, runner) := match Machine runner with
                            | None => (None, runner)
                            | Some m => let '(err, m) := CompileOffPeakPeriods m in (err, set_machine runner m)
                            end in
      match err with
      | Some err => (Some err, runner :: rest)
      | None => let '(err, rest) := compile_all rest in (err, runner :: rest)
      end
  end.

Definition set_runners (c : Config) (runners : list RunnerConfig) : Config :=
  {| Concurrent := Concurrent c; CheckInterval := CheckInterval c; User := User c; Runners := runners;
     Session_ := Session_ c |}.

(** [LoadConfig]: the configuration as it is left, and the error. *)
Definition LoadConfig (c : LoadedConfig) (configFile : string) : option error * LoadedConfig :=
  match os_Stat configFile with
  | Err StatNotExist => (None, c)
  | Err (StatOther err) => (Some err, c)
  | Ok modTime =>
      match DecodeFile configFile c with
      | Err err => (Some err, c)
      | Ok c' =>
          let '(err, runners) := compile_all (Runners (lc_config c')) in
          let config := set_runners (lc_config c') runners in
          match err with
          | Some err => (Some err, mkLoaded config (lc_LogLevel c') (lc_LogFormat c') (lc_SentryDSN c')
                                     (lc_ListenAddress c') (lc_ModTime c') (lc_Loaded c'))
          | None => (None, mkLoaded config (lc_LogLevel c') (lc_LogFormat c') (lc_SentryDSN c')
                             (lc_ListenAddress c') modTime true)
          end
      end
  end.

Definition set_loaded (c : LoadedConfig) : LoadedConfig :=
  mkLoaded (lc_config c) (lc_LogLevel c) (lc_LogFormat c) (lc_SentryDSN c) (lc_ListenAddress c) (lc_ModTime c) true.

(** An encoding error is fatal; [None] is that end of the process. *)
Definition SaveConfig (c : LoadedConfig) (configFile : string) : option (option error * LoadedConfig) :=
  match EncodeFails c with
  | Some _ => None
  | None =>
      match WriteFile configFile c with
      | Some err => Some (Some err, c)
      | None => Some (None, set_loaded c)
      end
  end.

(** [configOptions.loadConfig] keeps the old configuration when the file is bad. *)
Definition co_loadConfig (config : LoadedConfig) (configFile : string) : option error * LoadedConfig :=
  match LoadConfig NewLoaded configFile with
  | (Some err, _) => (Some err, config)
  | (None, c) => (None, c)
  end.

Definition touchConfig (config : LoadedConfig) (configFile : string) : option (option error * LoadedConfig) :=
  match co_loadConfig config configFile with
  | (Some err, c) => Some (Some err, c)
  | (None, c) => if lc_Loaded c then Some (None, c) else SaveConfig c configFile
  end.

(** [None] is a configuration that was not loaded. *)
Definition RunnerByName (config : option LoadedConfig) (name : string) : result string RunnerConfig :=
  match config with
  | None => Err "Config has not been loaded"
  | Some c =>
      match list_find (λ r, Name r = name) (Runners (lc_config c)) with
      | Some (_, r) => Ok r
      | None => Err ("Could not find a runner with the name '" +:+ name +:+ "'")
      end
  end.

Definition DefaultMetricsServerPort : Z := 9252.

(** [net.SplitHostPort] is the caller's [split]: the port, or its error with whether it is
    the one of a missing port. *)
Definition listenAddress (split : string → result (string * bool) string) (c : LoadedConfig) (flag : string)
    : result string string :=
  let address := if bool_decide (flag ≠ "") then flag else lc_ListenAddress c in
  if bool_decide (address = "") then Ok ""
  else
    match split address with
    | Err (err, false) => Err err
    | Err (_, true) => Ok (address +:+ ":" +:+ Itoa DefaultMetricsServerPort)
    | Ok port =>
        if bool_decide (port = "") then Ok (address +:+ ":" +:+ Itoa DefaultMetricsServerPort) else Ok address
    end.

(** ** Reloading, multi.go *)

(** What [loadConfig] of the command touches; [m_user] is the value of its flag. *)
Record Service := mkService {
  s_config : LoadedConfig; s_log : LogConfig; s_user : string; s_healthy : gmap string healthData }.

Context (ParseLevel : string → result string string).

Definition updateLoggingConfiguration (c : LoadedConfig) (l : LogConfig) : option string * LogConfig :=
  match (match lc_LogLevel c with
         | Some level => if levelSetWithCli l then Ok (l, false)
                         else let? l := SetLevel ParseLevel l level in Ok (l, true)
         | None => Ok (l, false)
         end) with
  | Err err => (Some err, l)
  | Ok (l, reload) =>
      match (match lc_LogFormat c with
             | Some format => if formatSetWithCli l then Ok (l, reload)
                              else let? l := SetFormat l format in Ok (l, true)
             | None => Ok (l, reload)
             end) with
      | Err err => (Some err, l)
      | Ok (l, reload) => (None, if (reload : bool) then ReloadConfiguration l else l)
      end
  end.

Definition with_user (c : LoadedConfig) (user : string) : LoadedConfig :=
  mkLoaded {| Concurrent := Concurrent (lc_config c); CheckInterval := CheckInterval (lc_config c); User := user;
              Runners := Runners (lc_config c); Session_ := Session_ (lc_config c) |}
    (lc_LogLevel c) (lc_LogFormat c) (lc_SentryDSN c) (lc_ListenAddress c) (lc_ModTime c) (lc_Loaded c).

Definition loadConfig (s : Service) (configFile : string) : option error * Service :=
  match co_loadConfig (s_config s) configFile with
  | (Some err, _) => (Some err, s)
  | (None, c) =>
      match updateLoggingConfiguration c (s_log s) with
      | (Some err, l) => (Some (ErrText err), mkService c l (s_user s) (s_healthy s))
      | (None, l) =>
          let c := if bool_decide (s_user s ≠ "") then with_user c (s_user s) else c in
          (None, mkService c l (s_user s) ∅)
      end
  end.

Definition set_modTime (c : LoadedConfig) (t : Z) : LoadedConfig :=
  mkLoaded (lc_config c) (lc_LogLevel c) (lc_LogFormat c) (lc_SentryDSN c) (lc_ListenAddress c) t (lc_Loaded c).

Definition checkConfig (s : Service) (configFile : string) : option error * Service :=
  match os_Stat configFile with
  | Err StatNotExist => (Some (ErrText ("stat " +:+ configFile +:+ ": no such file or directory")), s)
  | Err (StatOther err) => (Some err, s)
  | Ok modTime =>
      if negb (lc_ModTime (s_config s) <? modTime)%Z then (None, s)
      else
        match loadConfig s configFile with
        | (Some err, s) => (Some err, mkService (set_modTime (s_config s) modTime) (s_log s) (s_user s) (s_healthy s))
        | (None, s) => (None, s)
        end
  end.
End Files.

(** ** What a reload does *)

Section Reload.
Context {CF : ConfigFiles} (ParseLevel : string → result string string).

Lemma loadConfig_modTime s f err s' : loadConfig ParseLevel s f = (err, s') → err = None →
  ∀ t, os_Stat f = Ok t → lc_ModTime (s_config s') = t.
Proof.
  unfold loadConfig, co_loadConfig, LoadConfig. intros H -> t Ht. rewrite Ht in H.
  destruct (DecodeFile f NewLoaded) as [c|]; [|done].
  destruct (compile_all (Runners (lc_config c))) as [[e|] rs]; [done|].
  destruct (updateLoggingConfiguration ParseLevel _ (s_log s)) as [[e|] l]; [done|].
  simplify_eq. simpl. by case_bool_decide.
Qed.

(** Reloading the configuration. [loadConfig] with a file that cannot be read, decoded
    or whose off-peak periods do not compile leaves the service as it is. A file whose
    logging section is good takes over as a whole: the new configuration with the user of
    the command line, and runners no longer marked unhealthy. [checkConfig] of an existing
    file always settles: called again before the file changes it does nothing, whether the
    file was good or bad. *)
Theorem reload_outcome (s : Service) (f : string) :
  (∀ e c, LoadConfig NewLoaded f = (Some e, c) → loadConfig ParseLevel s f = (Some e, s)) ∧
  (∀ c, LoadConfig NewLoaded f = (None, c) → (loadConfig ParseLevel s f).1 = None →
     let s' := (loadConfig ParseLevel s f).2 in
     s_config s' = (if bool_decide (s_user s = "") then c else with_user c (s_user s)) ∧ s_healthy s' = ∅) ∧
  (∀ t, os_Stat f = Ok t → checkConfig ParseLevel (checkConfig ParseLevel s f).2 f
                           = (None, (checkConfig ParseLevel s f).2)).
Proof.
  split_and!.
  - intros e c H. unfold loadConfig, co_loadConfig. by rewrite H.
  - intros c H. unfold loadConfig, co_loadConfig. rewrite H.
    destruct (updateLoggingConfiguration ParseLevel c (s_log s)) as [[e|] l]; [done|]. simpl. intros _.
    split; [|done]. repeat case_bool_decide; done.
  - intros t Ht. assert (∀ s1 : Service, lc_ModTime (s_config s1) = t → checkConfig ParseLevel s1 f = (None, s1)) as Hsame.
    { intros s1 H1. unfold checkConfig. rewrite Ht, H1, Z.ltb_irrefl. done. }
    unfold checkConfig at 2 3. rewrite Ht.
    destruct (lc_ModTime (s_config s) <? t)%Z eqn:El; simpl.
    + destruct (loadConfig ParseLevel s f) as [[e|] s1] eqn:E1; simpl; apply Hsame; [done|].
      by eapply loadConfig_modTime.
    + unfold checkConfig. by rewrite Ht, El.
Qed.

(** A reload of a file with an unknown log level is reported as failed and yet takes
    over its runners and the rest of its settings, without the user given on the command
    line: jobs then run as the user of the service. *)
Theorem bad_log_level_drops_the_user (s : Service) (f : string) (c : LoadedConfig) (level err : string)
    (Hload : LoadConfig NewLoaded f = (None, c)) (Hlevel : lc_LogLevel c = Some level)
    (Hcli : levelSetWithCli (s_log s) = false) (Hbad : ParseLevel level = Err err) :
  (loadConfig ParseLevel s f).1 ≠ None ∧
  s_config (loadConfig ParseLevel s f).2 = c ∧
  s_user (loadConfig ParseLevel s f).2 = s_user s.
Proof.
  unfold loadConfig, co_loadConfig, updateLoggingConfiguration, SetLevel. by rewrite Hload, Hlevel, Hcli, Hbad.
Qed.
End Reload.

Module DemoConfig.
(** A file with one unknown log level, and a service started for the user "ci". *)
Definition bad : LoadedConfig := mkLoaded NewConfig (Some "verbose") None None "" 0 false.
#[global] Instance files : ConfigFiles := {
  os_Stat _ := Ok 7%Z; DecodeFile _ _ := Ok bad; EncodeFails _ := None; WriteFile _ _ := None;
  cronexpr_Parse _ := Err "syntax"; LoadLocation _ := None }.
Definition ParseLevel (l : string) : result string string :=
  if bool_decide (l = "info") then Ok l else Err "not a valid logrus Level".
Definition service : Service :=
  mkService (with_user NewLoaded "ci") NewLogConfig "ci" ∅.
End DemoConfig.

Lemma bad_log_level_drops_the_user_witness :
  (loadConfig DemoConfig.ParseLevel DemoConfig.service "config.toml").1 ≠ None ∧
  User (lc_config (s_config DemoConfig.service)) = "ci" ∧
  User (lc_config (s_config (loadConfig DemoConfig.ParseLevel DemoConfig.service "config.toml").2)) = "".
Proof.
  assert (LoadConfig NewLoaded "config.toml" = (None, (LoadConfig NewLoaded "config.toml").2)) as Hload by reflexivity.
  pose proof (bad_log_level_drops_the_user DemoConfig.ParseLevel DemoConfig.service "config.toml"
    (LoadConfig NewLoaded "config.toml").2 "verbose" "not a valid logrus Level" Hload eq_refl eq_refl eq_refl) as Hbad.
  split; [exact (proj1 Hbad)|]. split; [reflexivity|].
  rewrite (proj1 (proj2 Hbad)). reflexivity.
Defined.
