(* ===== verification/Daemon.v ===== *)
(** The goroutines of the service (commands/multi.go) around [processRunner]: the feeder of
    runners, the pool of workers and its scaling, the reloading of the configuration, and
    the shutdown on signals.

    [processRunner] itself is MultiRunner.v; here a worker that runs it is busy. One step is
    one turn of a loop; a rendezvous on an unbuffered channel is one step of the two
    goroutines together. A schedule interleaves the steps in any way. *)

From S2P Require Import Prelude GoLib Types Variables Config.

(** ** State *)

Inductive osSignal := SIGQUIT | SIGTERM | Interrupt.
#[export] Instance osSignal_eq_dec : EqDecision osSignal.
Proof. solve_decision. Defined.

(** A worker of [processRunners]: in the [select], processing a runner, or past its loop
    and waiting to be stopped. *)
Inductive wstate := Selecting | Busy | Leaving.
Record worker := mkWorker { w_id : Z; w_state : wstate }.

(** The goroutine of [Run]: the test of its loop, [updateWorkers], [updateConfig], stopping
    the workers, and finished; [Fatal] is the end of the process by [Fatalln]. *)
Inductive mainstate := Testing | Scaling | Waiting | Draining | Finished | Fatal.

(** The goroutine of [runWait] and [Stop]. *)
Inductive stopstate :=
| RunWait                                  (* waiting for the first signal *)
| Graceful                                 (* handleGracefulShutdown *)
| Aborting                                 (* handleShutdown: builds are aborted *)
| Stopped (err : option string).           (* Stop returned *)

(** [feeding] is what is left of the round of [feedRunners]; [None] once it returned. *)
Record daemon := mkDaemon {
  dm_config : Config; stopSignal : option osSignal; main : mainstate; workers : list worker;
  currentWorkers : Z; workerIndex : Z; starter : bool; feeding : option (list RunnerConfig);
  stopper : stopstate; runFinished : bool }.

Definition set_main (d : daemon) (m : mainstate) : daemon :=
  mkDaemon (dm_config d) (stopSignal d) m (workers d) (currentWorkers d) (workerIndex d) (starter d) (feeding d)
    (stopper d) (runFinished d).
Definition set_workers (d : daemon) (ws : list worker) : daemon :=
  mkDaemon (dm_config d) (stopSignal d) (main d) ws (currentWorkers d) (workerIndex d) (starter d) (feeding d)
    (stopper d) (runFinished d).
Definition set_feeding (d : daemon) (f : option (list RunnerConfig)) : daemon :=
  mkDaemon (dm_config d) (stopSignal d) (main d) (workers d) (currentWorkers d) (workerIndex d) (starter d) f
    (stopper d) (runFinished d).
Definition set_stop (d : daemon) (sig : option osSignal) (s : stopstate) : daemon :=
  mkDaemon (dm_config d) sig (main d) (workers d) (currentWorkers d) (workerIndex d) (starter d) (feeding d)
    s (runFinished d).

Definition running (d : daemon) : bool := match stopSignal d with None => true | Some _ => false end.

(** ** Steps *)

Inductive event :=
| EFeed (w : nat) (healthy : bool)         (* the feeder offers its next runner; a worker takes it *)
| ERound                                   (* the feeder starts another round, or returns *)
| ERequeue (w w' : nat)                    (* a busy worker hands its runner to another one *)
| EDone (w : nat)                          (* processRunner returns *)
| ETest                                    (* the test of the loop of Run *)
| ETooFew                                  (* updateWorkers finds concurrent below 1 *)
| EStop (w : nat)                          (* a worker receives from stopWorker *)
| EStart                                   (* the starter receives from startWorker *)
| EScaled                                  (* updateWorkers returns nil *)
| EConfig (loaded : option Config)         (* updateConfig returns nil, maybe with a new configuration *)
| EInterrupt                               (* updateWorkers or updateConfig receives from runSignal *)
| EDrained                                 (* all workers are stopped: runFinished *)
| ESignal (s : osSignal)                   (* the process receives a signal *)
| ETimeout                                 (* the shutdown timeout *)
| EFinishedSeen.                           (* Stop receives from runFinished *)

(** The loop test of a worker after it started or finished a runner. *)
Definition next_turn (d : daemon) : wstate := if running d then Selecting else Leaving.

Definition take_runner (d : daemon) (w : nat) : option daemon :=
  match workers d !! w with
  | Some (mkWorker id Selecting) => Some (set_workers d (<[w := mkWorker id Busy]> (workers d)))
  | _ => None
  end.

(** A worker that can receive from [stopWorker]. *)
Definition stoppable (s : wstate) : bool := match s with Busy => false | _ => true end.

(** [stopWorker <- true] with its decrement. *)
Definition stop_worker (d : daemon) (w : nat) : option daemon :=
  match workers d !! w with
  | Some (mkWorker _ s) =>
      if stoppable s
      then Some (mkDaemon (dm_config d) (stopSignal d) (main d) (delete w (workers d)) (currentWorkers d - 1)
                   (workerIndex d) (starter d) (feeding d) (stopper d) (runFinished d))
      else None
  | None => None
  end.

(** [feedRunner] of the next runner of the round: an unhealthy one is passed over. *)
Definition feedRunner (d : daemon) (w : nat) (healthy : bool) : option daemon :=
  match feeding d with
  | Some (_ :: rest) =>
      if healthy then match take_runner d w with Some d' => Some (set_feeding d' (Some rest)) | None => None end
      else Some (set_feeding d (Some rest))
  | _ => None
  end.

(** The loop of [feedRunners]: another round, or its end. *)
Definition feedRunners (d : daemon) : option daemon :=
  match feeding d with
  | Some [] => Some (set_feeding d (if running d then Some (Runners (dm_config d)) else None))
  | _ => None
  end.

(** [processRunner] hands its runner to a worker that is in its [select]. *)
Definition requeueRunner (d : daemon) (w w' : nat) : option daemon :=
  match workers d !! w with
  | Some (mkWorker _ Busy) => take_runner d w'
  | _ => None
  end.

(** The loop of [processRunners] after [processRunner] returned. *)
Definition processRunners (d : daemon) (w : nat) : option daemon :=
  match workers d !! w with
  | Some (mkWorker id Busy) => Some (set_workers d (<[w := mkWorker id (next_turn d)]> (workers d)))
  | _ => None
  end.

(** The loop test of [Run]. *)
Definition Run_test (d : daemon) : option daemon :=
  match main d with
  | Testing => Some (set_main d (if running d then Scaling else Draining))
  | _ => None
  end.

(** [updateWorkers]: the test of the limit, its two loops, and its end. *)
Definition limit_too_low (d : daemon) : option daemon :=
  match main d with
  | Scaling => if (Concurrent (dm_config d) <? 1)%Z then Some (set_main d Fatal) else None
  | _ => None
  end.

(** The loop that stops workers above the limit, and the one of [Run] that stops all. *)
Definition stop_turn (d : daemon) (w : nat) : option daemon :=
  let limit := Concurrent (dm_config d) in
  match main d with
  | Scaling => if (1 <=? limit)%Z && (limit <? currentWorkers d)%Z then stop_worker d w else None
  | Draining => if (0 <? currentWorkers d)%Z then stop_worker d w else None
  | _ => None
  end.

(** The loop that starts workers below the limit, with the turn of [startWorkers]. *)
Definition start_turn (d : daemon) : option daemon :=
  let limit := Concurrent (dm_config d) in
  match main d with
  | Scaling =>
      if (1 <=? limit)%Z && (currentWorkers d <? limit)%Z && starter d
      then Some (mkDaemon (dm_config d) (stopSignal d) (main d)
                   (workers d ++ [mkWorker (workerIndex d) (next_turn d)]) (currentWorkers d + 1)
                   (workerIndex d + 1) (running d) (feeding d) (stopper d) (runFinished d))
      else None
  | _ => None
  end.

Definition workers_updated (d : daemon) : option daemon :=
  let limit := Concurrent (dm_config d) in
  match main d with
  | Scaling => if (1 <=? limit)%Z && (currentWorkers d =? limit)%Z then Some (set_main d Waiting) else None
  | _ => None
  end.

(** [updateConfig] returning nil. *)
Definition updateConfig (d : daemon) (loaded : option Config) : option daemon :=
  match main d with
  | Waiting => Some (mkDaemon (default (dm_config d) loaded) (stopSignal d) Testing (workers d)
                       (currentWorkers d) (workerIndex d) (starter d) (feeding d) (stopper d) (runFinished d))
  | _ => None
  end.

(** [interruptRun] sends to [runSignal] once [Stop] runs: a [select] of [updateWorkers] or
    [updateConfig] receives it. *)
Definition interruptRun (d : daemon) : option daemon :=
  let limit := Concurrent (dm_config d) in
  match stopper d, main d with
  | RunWait, _ => None
  | _, Scaling =>
      if (1 <=? limit)%Z && negb (currentWorkers d =? limit)%Z then Some (set_main d Draining) else None
  | _, Waiting => Some (set_main d Draining)
  | _, _ => None
  end.

(** The end of [Run]. *)
Definition Run_end (d : daemon) : option daemon :=
  match main d with
  | Draining =>
      if (0 <? currentWorkers d)%Z then None
      else Some (mkDaemon (dm_config d) (stopSignal d) Finished (workers d) (currentWorkers d) (workerIndex d)
                   (starter d) (feeding d) (stopper d) true)
  | _ => None
  end.

Definition signal_String (s : osSignal) : string :=
  match s with SIGQUIT => "quit" | SIGTERM => "terminated" | Interrupt => "interrupt" end.

(** [handleGracefulShutdown] tests the signal each time it has one. *)
Definition handleGracefulShutdown (d : daemon) (s : osSignal) : daemon :=
  set_stop d (Some s) (if bool_decide (s = SIGQUIT) then Graceful else Aborting).

(** A signal: [runWait] and [handleGracefulShutdown] take it, [handleShutdown] gives up. *)
Definition receive_signal (d : daemon) (s : osSignal) : option daemon :=
  match stopper d with
  | RunWait => Some (handleGracefulShutdown d s)
  | Graceful => Some (handleGracefulShutdown d s)
  | Aborting => Some (set_stop d (Some s) (Stopped (Some ("forced exit: " +:+ signal_String s))))
  | Stopped _ => None
  end.

Definition shutdown_timeout (d : daemon) : option daemon :=
  match stopper d with
  | Aborting => Some (set_stop d (stopSignal d) (Stopped (Some "shutdown timed out")))
  | _ => None
  end.

(** [handleGracefulShutdown] or [handleShutdown] receives from [runFinished]. *)
Definition receive_finished (d : daemon) : option daemon :=
  if runFinished d then
    match stopper d with
    | Graceful | Aborting =>
        Some (mkDaemon (dm_config d) (stopSignal d) (main d) (workers d) (currentWorkers d) (workerIndex d)
                (starter d) (feeding d) (Stopped None) false)
    | _ => None
    end
  else None.

(** One step; [None] when it cannot happen in the state. *)
Definition dstep (d : daemon) (e : event) : option daemon :=
  match e with
  | EFeed w healthy => feedRunner d w healthy
  | ERound => feedRunners d
  | ERequeue w w' => requeueRunner d w w'
  | EDone w => processRunners d w
  | ETest => Run_test d
  | ETooFew => limit_too_low d
  | EStop w => stop_turn d w
  | EStart => start_turn d
  | EScaled => workers_updated d
  | EConfig loaded => updateConfig d loaded
  | EInterrupt => interruptRun d
  | EDrained => Run_end d
  | ESignal s => receive_signal d s
  | ETimeout => shutdown_timeout d
  | EFinishedSeen => receive_finished d
  end.

(** The service as [Start] and [Run] leave it. *)
Definition start_daemon (c : Config) : daemon :=
  mkDaemon c None Testing [] 0 0 true (Some []) RunWait false.

(** A run of the service; an event that does not fit is skipped. *)
Definition drun (d : daemon) (l : list event) : daemon := foldl (λ d e, default d (dstep d e)) d l.

(** ** Invariants *)

Lemma drun_app d l l' : drun d (l ++ l') = drun (drun d l) l'.
Proof. unfold drun. by rewrite foldl_app. Qed.

Lemma drun_invariant (P : daemon → Prop) d l :
  (∀ d e d', P d → dstep d e = Some d' → P d') → P d → P (drun d l).
Proof.
  intros Hstep. revert d. induction l as [|e l IH]; intros d Hd; [done|]. simpl. apply IH.
  destruct (dstep d e) as [d'|] eqn:E; simpl; eauto.
Qed.

(** The definition of a step, opened; and case analysis of it: one goal per way it can happen. *)
Ltac open_step H :=
  unfold dstep, feedRunner, feedRunners, requeueRunner, processRunners, Run_test, limit_too_low, stop_turn, start_turn,
    workers_updated, updateConfig, interruptRun, Run_end, receive_signal, shutdown_timeout, receive_finished,
    take_runner, stop_worker, handleGracefulShutdown in H; cbv zeta in H.
Ltac step_cases H := open_step H; repeat split_match_in H; simplify_eq; reflect_guards; simpl in *.

Record pool_ok (d : daemon) : Prop := {
  pool_count : currentWorkers d = Z.of_nat (length (workers d));
  pool_ids : NoDup (w_id <$> workers d);
  pool_index : Forall (λ w, (w_id w < workerIndex d)%Z) (workers d);
  pool_waiting : main d = Waiting → (currentWorkers d = Concurrent (dm_config d) ∧ 1 ≤ Concurrent (dm_config d))%Z;
  pool_finished : main d = Finished → workers d = [];
  pool_stop : stopper d ≠ RunWait ↔ is_Some (stopSignal d);
  pool_leaving : (∃ id, mkWorker id Leaving ∈ workers d) → is_Some (stopSignal d);
  pool_starter : stopSignal d = None → starter d = true }.

Lemma pool_set_state d w id s s' :
  pool_ok d → workers d !! w = Some (mkWorker id s) → (s' = Leaving → is_Some (stopSignal d)) →
  pool_ok (set_workers d (<[w := mkWorker id s']> (workers d))).
Proof.
  intros [Hc Hn Hx Hw Hf Hs Hl Hst] Hlook Hs'.
  assert (w_id <$> <[w := mkWorker id s']> (workers d) = w_id <$> workers d) as Hids.
  { rewrite list_fmap_insert. apply list_insert_id. by rewrite list_lookup_fmap, Hlook. }
  constructor; simpl; auto.
  - by rewrite length_insert.
  - by rewrite Hids.
  - apply Forall_insert; [done|]. simpl. eapply Forall_lookup_1 in Hx; [|exact Hlook]. done.
  - intros Hm. rewrite (Hf Hm) in Hlook. done.
  - intros [i Hin]. apply list_elem_of_lookup in Hin as [k Hk].
    destruct (decide (k = w)) as [->|Hne].
    + rewrite list_lookup_insert_eq in Hk by (by eapply lookup_lt_Some). simplify_eq. auto.
    + rewrite list_lookup_insert_ne in Hk by done. apply Hl. exists i. by eapply list_elem_of_lookup_2.
Qed.

Lemma pool_delete d w x d' :
  pool_ok d → workers d !! w = Some x → main d ≠ Waiting →
  d' = mkDaemon (dm_config d) (stopSignal d) (main d) (delete w (workers d)) (currentWorkers d - 1)
         (workerIndex d) (starter d) (feeding d) (stopper d) (runFinished d) →
  pool_ok d'.
Proof.
  intros [Hc Hn Hx Hw Hf Hs Hl Hst] Hlook Hm ->.
  pose proof (lookup_lt_Some _ _ _ Hlook) as Hlt.
  pose proof (delete_Permutation _ _ _ Hlook) as Hp.
  constructor; simpl; auto; try done.
  - rewrite length_delete by (by eexists). lia.
  - rewrite Hp in Hn. rewrite fmap_cons in Hn. by apply NoDup_cons in Hn as [_ Hn].
  - rewrite Hp in Hx. by apply Forall_cons in Hx as [_ Hx].
  - intros Hfin. rewrite (Hf Hfin) in Hlook. done.
  - intros [i Hin]. apply Hl. exists i. rewrite Hp. by right.
Qed.

Lemma pool_append d :
  pool_ok d → main d = Scaling →
  pool_ok (mkDaemon (dm_config d) (stopSignal d) (main d)
             (workers d ++ [mkWorker (workerIndex d) (next_turn d)]) (currentWorkers d + 1)
             (workerIndex d + 1) (running d) (feeding d) (stopper d) (runFinished d)).
Proof.
  intros [Hc Hn Hx Hw Hf Hs Hl Hst] Hm. constructor; simpl; rewrite ?Hm; try done.
  - rewrite length_app. simpl. lia.
  - rewrite fmap_app. apply NoDup_app. split_and!; [done| |by apply NoDup_singleton].
    intros i Hi ->%list_elem_of_singleton. apply list_elem_of_fmap in Hi as (x & Hid & Hi).
    simpl in Hid. rewrite Forall_forall in Hx. specialize (Hx x Hi). lia.
  - apply Forall_app. split; [eapply Forall_impl; [exact Hx|simpl; intros; lia]|]. constructor; [simpl; lia|done].
  - intros [i [Hin|Hin]%elem_of_app]; [by eauto|]. apply list_elem_of_singleton in Hin.
    unfold next_turn, running in Hin. destruct (stopSignal d); [by eexists|done].
  - intros Hsig. unfold running. by rewrite Hsig.
Qed.

Lemma pool_feeding d f : pool_ok d → pool_ok (set_feeding d f).
Proof. by intros []. Qed.

Lemma dstep_pool d e d' : pool_ok d → dstep d e = Some d' → pool_ok d'.
Proof.
  intros Hd Hs. pose proof Hd as [Hc Hn Hx Hw Hf Hst Hl Hsr].
  destruct e; step_cases Hs; try (by constructor; simpl; auto; try congruence; try (by intros; discriminate)).
  - apply pool_feeding. by eapply pool_set_state.
  - by eapply pool_set_state.
  - eapply pool_set_state; [done..|]. unfold next_turn, running. by destruct (stopSignal d).
  - eapply pool_delete; [done..|by rewrite Heqm|by rewrite Heqm].
  - eapply pool_delete; [done..|by rewrite Heqm|by rewrite Heqm].
  - rewrite <- Heqm. by apply pool_append.
  - constructor; simpl; auto; [done|]. intros _. apply length_zero_iff_nil. lia.
  - constructor; simpl; auto; split; [intros _; by apply Hst|done].
  - constructor; simpl; auto; split; [intros _; by apply Hst|done].
  - constructor; simpl; auto; split; [intros _; by apply Hst|done].
Qed.

Lemma start_pool c : pool_ok (start_daemon c).
Proof.
  constructor; simpl; try done; try apply NoDup_nil_2; try apply Forall_nil_2.
  intros [i Hi]. by apply elem_of_nil in Hi.
Qed.

Lemma reachable_pool c l : pool_ok (drun (start_daemon c) l).
Proof. apply drun_invariant; [apply dstep_pool|apply start_pool]. Qed.

(** ** The pool follows the configuration *)

Definition loads_at_most (N : Z) (e : event) : Prop := ∀ c, e = EConfig (Some c) → (Concurrent c ≤ N)%Z.

Lemma drun_bounded N l : ∀ d, Forall (loads_at_most N) l →
  (Concurrent (dm_config d) ≤ N ∧ currentWorkers d ≤ N)%Z → (currentWorkers (drun d l) ≤ N)%Z.
Proof.
  induction l as [|e l IH]; intros d Hl Hd; [apply Hd|]. apply Forall_cons in Hl as [He Hl]. simpl.
  apply IH; [done|]. destruct (dstep d e) as [d'|] eqn:Es; [|done]. simpl.
  destruct e; step_cases Es; try lia. destruct loaded as [c'|]; simpl; [|lia]. specialize (He c' eq_refl). lia.
Qed.

(** C17: The pool of workers follows the configuration. In every state the service can
    reach, the counter [currentWorkers] is the number of worker goroutines, their ids are
    all different, and there never are more of them than the largest [concurrent] setting
    loaded so far; while the service waits for a new configuration there are exactly as
    many as the current setting says; and once [Run] is over there is none. *)
Theorem workers_follow_configuration (c : Config) (l : list event) (N : Z) :
  let d := drun (start_daemon c) l in
  currentWorkers d = Z.of_nat (length (workers d)) ∧ NoDup (w_id <$> workers d) ∧
  ((0 ≤ N)%Z → (Concurrent c ≤ N)%Z → Forall (loads_at_most N) l → (Z.of_nat (length (workers d)) ≤ N)%Z) ∧
  (main d = Waiting → Z.of_nat (length (workers d)) = Concurrent (dm_config d)) ∧
  (main d = Finished → workers d = []).
Proof.
  cbv zeta. destruct (reachable_pool c l) as [Hc Hn _ Hw Hf _ _ _]. split_and!; auto.
  - intros HN Hcc Hl. rewrite <- Hc. by apply drun_bounded.
  - intros Hm. apply Hw in Hm as [Hm _]. lia.
Qed.

(** ** Shutdown *)

(** A run in which every event happens. *)
Fixpoint dsteps (d : daemon) (l : list event) : option daemon :=
  match l with
  | [] => Some d
  | e :: l' => match dstep d e with Some d' => dsteps d' l' | None => None end
  end.

Lemma dsteps_drun l : ∀ d d', dsteps d l = Some d' → drun d l = d'.
Proof.
  induction l as [|e l IH]; intros d d' Hs; simpl in *; [by simplify_eq|].
  destruct (dstep d e) as [d1|]; [|done]. simpl. by apply IH.
Qed.

Lemma dsteps_invariant (P : daemon → Prop) l : ∀ d d',
  (∀ d e d', P d → dstep d e = Some d' → P d') → P d → dsteps d l = Some d' → P d'.
Proof. intros d d' Hi Hd <-%dsteps_drun. by apply drun_invariant. Qed.

Definition is_signal (e : event) : bool := match e with ESignal _ => true | _ => false end.

Definition weight (w : worker) : nat := match w_state w with Selecting => 3 | Busy => 2 | Leaving => 1 end.
Definition main_weight (m : mainstate) : nat :=
  match m with Scaling => 4 | Waiting => 3 | Testing => 2 | Draining => 1 | Finished | Fatal => 0 end.

(** An upper bound on the steps left after a signal to stop. The starter counts for the
    one worker it may still start. *)
Definition steps_left (d : daemon) : nat :=
  sum_list_with weight (workers d) + match feeding d with Some l => S (length l) | None => 0 end
  + main_weight (main d) + (if starter d then 2 else 0)
  + match stopper d with Stopped _ => 0 | _ => 1 end.

Lemma sum_weight_insert (f : worker → nat) ws i w w' :
  ws !! i = Some w → sum_list_with f (<[i := w']> ws) + f w = sum_list_with f ws + f w'.
Proof.
  revert i. induction ws as [|x ws IH]; intros [|i] Hl; simpl in *; [done..| |].
  - simplify_eq. lia.
  - specialize (IH i Hl). lia.
Qed.

Lemma sum_weight_delete (f : worker → nat) ws i w :
  ws !! i = Some w → sum_list_with f (delete i ws) + f w = sum_list_with f ws.
Proof.
  revert i. induction ws as [|x ws IH]; intros [|i] Hl; simpl in *; [done..| |].
  - simplify_eq. lia.
  - specialize (IH i Hl). lia.
Qed.

Lemma sum_weight_snoc (f : worker → nat) ws w : sum_list_with f (ws ++ [w]) = sum_list_with f ws + f w.
Proof. rewrite sum_list_with_app. simpl. lia. Qed.

Lemma stopped_next_turn d : stopSignal d ≠ None → next_turn d = Leaving ∧ running d = false.
Proof. unfold next_turn, running. by destruct (stopSignal d). Qed.

(** Use the weights of the workers a step touches. *)
Ltac weigh :=
  repeat match goal with
  | H : workers ?d !! ?w = Some ?x |- context [sum_list_with ?f (<[?w := ?y]> (workers ?d))] =>
      let E := fresh in pose proof (sum_weight_insert f (workers d) w x y H) as E; revert E;
      generalize (sum_list_with f (<[w := y]> (workers d))); intros ? E
  | H : workers ?d !! ?w = Some ?x |- context [sum_list_with ?f (delete ?w (workers ?d))] =>
      let E := fresh in pose proof (sum_weight_delete f (workers d) w x H) as E; revert E;
      generalize (sum_list_with f (delete w (workers d))); intros ? E
  end; rewrite ?sum_weight_snoc.

Lemma step_after_stop d e d' :
  stopSignal d ≠ None → dstep d e = Some d' →
  stopSignal d' ≠ None ∧
  (if is_signal e then steps_left d' ≤ steps_left d else steps_left d' < steps_left d).
Proof.
  intros Hs He. destruct (stopped_next_turn d Hs) as [Hn Hr]. unfold steps_left.
  destruct e; simpl; step_cases He; (split; [done|]); try congruence; rewrite ?Hn, ?Hr; weigh;
    unfold weight in *; simpl in *; repeat split_match; simpl in *; try lia; try congruence.
  all: match goal with s : wstate |- _ => destruct s; lia end.
Qed.

Definition is_stopped (s : stopstate) : bool := match s with Stopped _ => true | _ => false end.

(** The result of [Stop] and the end of [Run]. *)
Record stop_ok (d : daemon) : Prop := {
  so_pool : pool_ok d;
  so_finished : main d = Finished → runFinished d = true ∨ is_stopped (stopper d) = true;
  so_run : runFinished d = true → main d = Finished;
  so_clean : stopper d = Stopped None → main d = Finished }.

Lemma dstep_stop d e d' : stop_ok d → dstep d e = Some d' → stop_ok d'.
Proof.
  intros [Hp Hf Hr Hc] He. split; [by eapply dstep_pool| | |];
    destruct e; step_cases He; try done; try (by auto); try congruence; try tauto; eauto.
  all: try (intros Hx; rewrite Heqs in Hx; apply Hc in Hx; congruence).
  all: try (intros Hx; apply Hr in Hx; congruence).
  all: repeat split_match; intros Hx; try apply Hf in Hx as [Hx|Hx]; eauto; try congruence.
  all: apply Hc in Hx; congruence.
Qed.

Lemma start_stop c : stop_ok (start_daemon c).
Proof. split; [apply start_pool|done..]. Qed.

Lemma reachable_stop c l : stop_ok (drun (start_daemon c) l).
Proof. apply drun_invariant; [apply dstep_stop|apply start_stop]. Qed.

(** Some step of the service itself is possible until it is over. *)
Lemma stopped_progress d : stop_ok d → stopSignal d ≠ None →
  (∀ e, is_signal e = false → e ≠ ETimeout → dstep d e = None) →
  main d = Fatal ∨ ∃ err, stopper d = Stopped err.
Proof.
  intros [[Hc _ _ _ _ Hs _ _] Hf Hr _] Hstop Hstuck.
  assert (stopper d ≠ RunWait) as Hnw. { apply Hs. by apply not_eq_None_Some. }
  destruct (main d) eqn:Em.
  - specialize (Hstuck ETest eq_refl ltac:(done)). open_step Hstuck. rewrite Em in Hstuck. done.
  - destruct (Z.ltb_spec (Concurrent (dm_config d)) 1) as [Hl|Hl].
    { specialize (Hstuck ETooFew eq_refl ltac:(done)). open_step Hstuck.
      rewrite Em, (proj2 (Z.ltb_lt _ _) Hl) in Hstuck. done. }
    destruct (decide (currentWorkers d = Concurrent (dm_config d))) as [He|He].
    + specialize (Hstuck EScaled eq_refl ltac:(done)). open_step Hstuck.
      rewrite Em, (proj2 (Z.leb_le _ _) Hl), (proj2 (Z.eqb_eq _ _) He) in Hstuck. done.
    + specialize (Hstuck EInterrupt eq_refl ltac:(done)). open_step Hstuck.
      rewrite Em, (proj2 (Z.leb_le _ _) Hl), (proj2 (Z.eqb_neq _ _) He) in Hstuck.
      by destruct (stopper d).
  - specialize (Hstuck EInterrupt eq_refl ltac:(done)). open_step Hstuck. rewrite Em in Hstuck.
    by destruct (stopper d).
  - destruct (Z.ltb_spec 0 (currentWorkers d)) as [Hl|Hl].
    + destruct (workers d) as [|[id s] ws] eqn:Ew; [simpl in Hc; lia|].
      destruct (stoppable s) eqn:Es.
      * specialize (Hstuck (EStop 0) eq_refl ltac:(done)). open_step Hstuck.
        rewrite Em, Ew, (proj2 (Z.ltb_lt _ _) Hl) in Hstuck. simpl in Hstuck. rewrite Es in Hstuck. done.
      * destruct s; try done. specialize (Hstuck (EDone 0) eq_refl ltac:(done)). open_step Hstuck. rewrite Ew in Hstuck.
        done.
    + specialize (Hstuck EDrained eq_refl ltac:(done)). open_step Hstuck.
      rewrite Em, (proj2 (Z.ltb_ge _ _) Hl) in Hstuck. done.
  - right. destruct (Hf eq_refl) as [H1|H1]; [|destruct (stopper d); try done; by eexists].
    specialize (Hstuck EFinishedSeen eq_refl ltac:(done)). open_step Hstuck. rewrite H1 in Hstuck.
    destruct (stopper d); [done..|eauto].
  - by left.
Qed.

(** C11: A stop comes to an end. From any state the service can reach with a stop signal,
    every run makes at most [steps_left] steps besides the receipt of further signals; and
    a run that can go no further, with every running job over and without the timeout, has
    ended: [Stop] returned, or the process died of a [concurrent] setting below one. When
    [Stop] returned without an error, [Run] is over and no worker is left. *)
Theorem shutdown_completes (c : Config) (l l' : list event) (d' : daemon)
    (Hstop : stopSignal (drun (start_daemon c) l) ≠ None)
    (Hrun : dsteps (drun (start_daemon c) l) l' = Some d') :
  length (filter (λ e, is_signal e = false) l') ≤ steps_left (drun (start_daemon c) l) ∧
  ((∀ e, is_signal e = false → e ≠ ETimeout → dstep d' e = None) →
     main d' = Fatal ∨ ∃ err, stopper d' = Stopped err) ∧
  (stopper d' = Stopped None → main d' = Finished ∧ workers d' = []).
Proof.
  pose proof (reachable_stop c l) as Hok. revert Hstop Hrun Hok.
  generalize (drun (start_daemon c) l) as d. intros d Hstop Hrun Hok.
  assert (stop_ok d') as Hok' by (eapply dsteps_invariant; [apply dstep_stop|done..]).
  assert (stopSignal d' ≠ None ∧ length (filter (λ e, is_signal e = false) l') + steps_left d' ≤ steps_left d) as [Hs' Hl].
  { clear Hok Hok'. revert d Hstop Hrun. induction l' as [|e l' IH]; intros d Hstop Hrun; simpl in Hrun.
    { simplify_eq. simpl. split; [done|lia]. }
    destruct (dstep d e) as [d1|] eqn:Ee; [|done].
    destruct (step_after_stop d e d1 Hstop Ee) as [Hs1 Hm]. destruct (IH d1 Hs1 Hrun) as [Hs' Hl].
    split; [done|]. rewrite filter_cons. destruct (is_signal e); [rewrite decide_False by done|rewrite decide_True by done];
      simpl; lia. }
  split_and!; [lia|by apply stopped_progress|].
  intros Hn. destruct Hok' as [Hp _ _ Hc]. split; [auto|]. apply (pool_finished _ Hp). auto.
Qed.

Lemma quit_only d l :
  Forall (λ e, ∀ s, e = ESignal s → s = SIGQUIT) l →
  (stopper d = RunWait ∨ stopper d = Graceful ∨ stopper d = Stopped None) →
  stopper (drun d l) = RunWait ∨ stopper (drun d l) = Graceful ∨ stopper (drun d l) = Stopped None.
Proof.
  revert d. induction l as [|e l IH]; intros d Hl Hd; [done|]. apply Forall_cons in Hl as [He Hl]. simpl.
  apply IH; [done|]. destruct (dstep d e) as [d'|] eqn:Es; [|done]. simpl.
  destruct e; step_cases Es; try tauto; try (right; left; done); try (right; right; done).
  all: try (destruct (He s eq_refl); done). all: naive_solver.
Qed.

(** SIGQUIT lets the running jobs finish. As long as the only stop signals are
    SIGQUIT, the service never starts to abort builds and [Stop] never fails; it returns
    only once every worker has finished its runner and left. *)
Theorem quit_lets_builds_finish (c : Config) (l : list event) :
  Forall (λ e, ∀ s, e = ESignal s → s = SIGQUIT) l →
  let d := drun (start_daemon c) l in
  stopper d ≠ Aborting ∧ (∀ err, stopper d = Stopped err → err = None ∧ main d = Finished ∧ workers d = []).
Proof.
  intros Hl. cbv zeta. pose proof (reachable_stop c l) as [Hp _ _ Hc].
  destruct (quit_only (start_daemon c) l Hl (or_introl eq_refl)) as [Hs|[Hs|Hs]]; rewrite Hs; (split; [done|]);
    intros err [= <-]. split_and!; auto. apply (pool_finished _ Hp). auto.
Qed.

(** *** New work after a stop signal *)

(** A worker takes a runner to process. *)
Definition takes (e : event) : bool := match e with EFeed _ true | ERequeue _ _ => true | _ => false end.
Definition selecting (w : worker) : nat := match w_state w with Selecting => 1 | _ => 0 end.

Lemma take_after_stop d e d' : stopSignal d ≠ None → dstep d e = Some d' →
  stopSignal d' ≠ None ∧
  sum_list_with selecting (workers d') + (if takes e then 1 else 0) ≤ sum_list_with selecting (workers d).
Proof.
  intros Hs He. destruct (stopped_next_turn d Hs) as [Hn Hr].
  destruct e; simpl; step_cases He; (split; [done|]); try congruence; rewrite ?Hn, ?Hr; weigh;
    unfold selecting in *; simpl in *; repeat split_match; simpl in *; try lia; try congruence.
Qed.

(** After a stop signal hardly any new work is begun: the number of runners that
    workers still take, from the feeder or from one another, is at most the number of
    workers that were waiting for one when the signal came; a worker that was busy, or is
    started later, takes none. *)
Theorem stopped_workers_take_no_new_work (c : Config) (l l' : list event) (d' : daemon)
    (Hstop : stopSignal (drun (start_daemon c) l) ≠ None)
    (Hrun : dsteps (drun (start_daemon c) l) l' = Some d') :
  length (filter (λ e, takes e = true) l') ≤ sum_list_with selecting (workers (drun (start_daemon c) l)).
Proof.
  revert Hstop Hrun. generalize (drun (start_daemon c) l) as d. induction l' as [|e l' IH]; intros d Hstop Hrun.
  { simpl. lia. }
  simpl in Hrun. destruct (dstep d e) as [d1|] eqn:Ee; [|done].
  destruct (take_after_stop d e d1 Hstop Ee) as [Hs1 Hm]. specialize (IH d1 Hs1 Hrun).
  rewrite filter_cons. destruct (takes e); [rewrite decide_True by done|rewrite decide_False by done]; simpl; lia.
Qed.

(** ** A concrete service *)

Module DemoDaemon.
Definition config (n : Z) : Config :=
  {| Concurrent := n; CheckInterval := 0; User := ""; Runners := [some_runner 0 0]; Session_ := Session_ NewConfig |}.

(** Two workers start, one takes a runner, and SIGQUIT arrives. *)
Definition before : list event :=
  [ETest; EStart; EStart; EScaled; ERound; EFeed 0 true; ESignal SIGQUIT].
(** The waiting worker takes the requeued runner; all leave and the service ends. *)
Definition after : list event :=
  [ERequeue 0 1; EInterrupt; EDone 0; EStop 0; EDone 0; EStop 0; EDrained; ERound; EFinishedSeen].
Definition over : daemon := drun (drun (start_daemon (config 2)) before) after.
End DemoDaemon.

Lemma demo_stopped : stopSignal (drun (start_daemon (DemoDaemon.config 2)) DemoDaemon.before) ≠ None.
Proof. vm_compute. discriminate. Qed.
Lemma demo_runs :
  dsteps (drun (start_daemon (DemoDaemon.config 2)) DemoDaemon.before) DemoDaemon.after = Some DemoDaemon.over.
Proof. vm_compute. reflexivity. Qed.

Lemma shutdown_completes_witness :
  length (filter (λ e, is_signal e = false) DemoDaemon.after)
    ≤ steps_left (drun (start_daemon (DemoDaemon.config 2)) DemoDaemon.before) ∧
  main DemoDaemon.over = Finished ∧ workers DemoDaemon.over = [].
Proof.
  pose proof (shutdown_completes (DemoDaemon.config 2) DemoDaemon.before DemoDaemon.after DemoDaemon.over
    demo_stopped demo_runs) as Hc.
  split; [exact (proj1 Hc)|]. apply (proj2 (proj2 Hc)). vm_compute. reflexivity.
Defined.

Lemma quit_lets_builds_finish_witness :
  stopper DemoDaemon.over = Stopped None ∧
  stopper (drun (start_daemon (DemoDaemon.config 2)) (DemoDaemon.before ++ DemoDaemon.after)) ≠ Aborting.
Proof.
  split; [vm_compute; reflexivity|].
  assert (Forall (λ e, ∀ s, e = ESignal s → s = SIGQUIT) (DemoDaemon.before ++ DemoDaemon.after)) as Hq.
  { unfold DemoDaemon.before, DemoDaemon.after. repeat (constructor; [intros s Hs; congruence|]). constructor. }
  exact (proj1 (quit_lets_builds_finish (DemoDaemon.config 2) (DemoDaemon.before ++ DemoDaemon.after) Hq)).
Defined.

Lemma stopped_workers_take_no_new_work_witness :
  length (filter (λ e, takes e = true) DemoDaemon.after)
    ≤ sum_list_with selecting (workers (drun (start_daemon (DemoDaemon.config 2)) DemoDaemon.before)) ∧
  length (filter (λ e, takes e = true) DemoDaemon.after) = 1.
Proof.
  split; [|vm_compute; reflexivity].
  exact (stopped_workers_take_no_new_work (DemoDaemon.config 2) DemoDaemon.before DemoDaemon.after DemoDaemon.over
    demo_stopped demo_runs).
Defined.
