(* ===== verification/Build.v ===== *)
(** The build (common/build.go, helpers/build_section.go, common/time.go): the variables
    and settings of a job, its directories, and how a build is run: stages, attempts,
    preparation retries, cancellation, and the status it reports. *)

From S2P Require Import Prelude GoLib Path Types Variables Config.

(** Tables of the standard library: [unicode.IsPrint] above ASCII, and [url.Parse], as
    the host and the path. *)
Class GoText := {
  IsPrint : Z → bool;
  parseURL : string → result string (string * string) }.

(** [strconv.Quote] and the verb [%q]. *)
Definition Quote `{!GoText} (s : string) : string := QuoteWith IsPrint s.

Inductive GitStrategy := GitClone | GitFetch | GitNone.
Inductive SubmoduleStrategy := SubmoduleInvalid | SubmoduleNone | SubmoduleNormal | SubmoduleRecursive.

Inductive BuildRuntimeState :=
| BuildRunStatePending | BuildRunRuntimeRunning | BuildRunRuntimeFinished
| BuildRunRuntimeCanceled | BuildRunRuntimeTerminated | BuildRunRuntimeTimedout.

Inductive BuildStage :=
| BuildStagePrepareExecutor | BuildStagePrepare | BuildStageGetSources | BuildStageRestoreCache
| BuildStageDownloadArtifacts | BuildStageUserScript | BuildStageAfterScript
| BuildStageArchiveCache | BuildStageUploadOnSuccessArtifacts | BuildStageUploadOnFailureArtifacts.

#[export] Instance BuildStage_eq_dec : EqDecision BuildStage.
Proof. solve_decision. Defined.
#[export] Instance GitStrategy_eq_dec : EqDecision GitStrategy.
Proof. solve_decision. Defined.

Definition stage_name (s : BuildStage) : string :=
  match s with
  | BuildStagePrepareExecutor => "prepare_executor"
  | BuildStagePrepare => "prepare_script"
  | BuildStageGetSources => "get_sources"
  | BuildStageRestoreCache => "restore_cache"
  | BuildStageDownloadArtifacts => "download_artifacts"
  | BuildStageUserScript => "build_script"
  | BuildStageAfterScript => "after_script"
  | BuildStageArchiveCache => "archive_cache"
  | BuildStageUploadOnSuccessArtifacts => "upload_artifacts_on_success"
  | BuildStageUploadOnFailureArtifacts => "upload_artifacts_on_failure"
  end.

(** The build; [allVariables] is the cache of [GetAllVariables]. *)
Record Build := mkBuild {
  Job : JobResponse; RootDir : string; BuildDir : string; CacheDir_ : string;
  Runner : RunnerConfig; ExecutorFeatures : FeaturesInfo; RunnerID : Z; ProjectRunnerID : Z;
  CurrentStage : option BuildStage; CurrentState : BuildRuntimeState;
  allVariables : option JobVariables }.

(** [NewBuild], once the copy of the runner's configuration succeeded. *)
Definition NewBuild (jobData : JobResponse) (runner : RunnerConfig) : Build :=
  mkBuild jobData "" "" "" runner no_features 0 0 None BuildRunStatePending None.

Definition set_dirs (b : Build) (root cache dir : string) (vars : option JobVariables) : Build :=
  mkBuild (Job b) root dir cache (Runner b) (ExecutorFeatures b) (RunnerID b) (ProjectRunnerID b)
    (CurrentStage b) (CurrentState b) vars.

Definition set_stage (b : Build) (s : BuildStage) : Build :=
  mkBuild (Job b) (RootDir b) (BuildDir b) (CacheDir_ b) (Runner b) (ExecutorFeatures b) (RunnerID b)
    (ProjectRunnerID b) (Some s) (CurrentState b) (allVariables b).

Definition set_run_state (b : Build) (s : BuildRuntimeState) : Build :=
  mkBuild (Job b) (RootDir b) (BuildDir b) (CacheDir_ b) (Runner b) (ExecutorFeatures b) (RunnerID b)
    (ProjectRunnerID b) (CurrentStage b) s (allVariables b).

(** ** Variables *)

Definition backslash : string := bstr 92.

(** helpers.ToSlash *)
Definition ToSlash (p : string) : string := Replace p backslash "/".

Definition FullProjectDir (b : Build) : string := ToSlash (BuildDir b).
Definition TmpProjectDir (b : Build) : string := ToSlash (BuildDir b) +:+ ".tmp".

(** [filepath.FromSlash] is the identity on a slash system. *)
Definition GetDefaultVariables (b : Build) : JobVariables :=
  [mkVar "CI_BUILDS_DIR" (RootDir b) true true false;
   mkVar "CI_PROJECT_DIR" (FullProjectDir b) true true false;
   mkVar "CI_CONCURRENT_ID" (Itoa (RunnerID b)) true true false;
   mkVar "CI_CONCURRENT_PROJECT_ID" (Itoa (ProjectRunnerID b)) true true false;
   mkVar "CI_SERVER" "yes" true true false].

Definition GetDefaultFeatureFlagsVariables : JobVariables :=
  (λ '(name, value), mkVar name value true true false) <$> flags.

Definition IsSharedEnv (b : Build) : bool := F_Shared (ExecutorFeatures b).

Definition GetSharedEnvVariable (b : Build) : JobVariable :=
  mkVar (if IsSharedEnv b then "CI_SHARED_ENVIRONMENT" else "CI_DISPOSABLE_ENVIRONMENT") "true"
    true true false.

Definition GetTLSVariables (b : Build) (caFile certFile keyFile : string) : JobVariables :=
  (if bool_decide (JR_TLSCAChain (Job b) = "") then []
   else [mkVar caFile (JR_TLSCAChain (Job b)) true true true]) ++
  (if bool_decide (JR_TLSAuthCert (Job b) ≠ "") && bool_decide (JR_TLSAuthKey (Job b) ≠ "")
   then [mkVar certFile (JR_TLSAuthCert (Job b)) true true true;
         mkVar keyFile (JR_TLSAuthKey (Job b)) false true true]
   else []).

Definition GetCITLSVariables (b : Build) : JobVariables :=
  GetTLSVariables b "CI_SERVER_TLS_CA_FILE" "CI_SERVER_TLS_CERT_FILE" "CI_SERVER_TLS_KEY_FILE".

Definition GetGitTLSVariables (b : Build) : JobVariables :=
  GetTLSVariables b "GIT_SSL_CAINFO" "GIT_SSL_CERT" "GIT_SSL_KEY".

(** ** What a build does to the world, and the world's answers *)

(** What a build does to the world, in order. *)
Inductive event :=
| EvSetCancelFunc
| EvSetMasked (values : list string)
| EvSectionStart (name : string)
| EvSectionEnd (name : string)
| EvCreate                                  (* provider.Create returned an executor *)
| EvCreateNil                               (* provider.Create returned nil *)
| EvPrepare
| EvSleep                                   (* PreparationRetryInterval *)
| EvRun (stage : BuildStage) (predefined : bool) (timeout : option Z) (script : string)
| EvWaitForTerminal
| EvFinish (err : option error)
| EvSuccess                                 (* trace.Success() *)
| EvFail (reason : JobFailureReason)        (* trace.Fail(err, reason) *)
| EvCleanup.

Abbreviation history := (list event).

(** How [run] is woken: the script's goroutine delivered its result, the context of the
    job is done, or the system interrupts. *)
Inductive wakeup := BuildFinish | CtxDone (err : error) | SystemInterrupt (signal : string).

(** The world's answers, each depending on everything that happened before. *)
Record Env := {
  executor_found : bool;
  provider_features : FeaturesInfo;
  create_ok : history → bool;
  prepare_result : history → option error;
  context_err : history → option error;
  shell_defined : history → bool;
  generate_script : history → BuildStage → result error string;
  run_result : history → BuildStage → option error;
  woken_by : history → wakeup }.

Section Settings.
Context `{!GoText}.
(** [AppVersion]. *)
Context (app : AppVersionInfo).

Definition rawVariables (b : Build) : JobVariables :=
  GetDefaultFeatureFlagsVariables ++ GetVariables (Runner b) ++ GetDefaultVariables b ++
  GetCITLSVariables b ++ JR_Variables (Job b) ++ [GetSharedEnvVariable b] ++ VersionVariables app.

Definition GetAllVariables (b : Build) : JobVariables :=
  match allVariables b with
  | Some vs => vs
  | None => ExpandAll (rawVariables b)
  end.

(** The build after [GetAllVariables]: the variables are cached. *)
Definition cacheAllVariables (b : Build) : Build :=
  set_dirs b (RootDir b) (CacheDir_ b) (BuildDir b) (Some (GetAllVariables b)).

Definition refreshAllVariables (b : Build) : Build :=
  set_dirs b (RootDir b) (CacheDir_ b) (BuildDir b) None.

Definition setting (b : Build) (key : string) : string := Get (GetAllVariables b) key.

(** [GetRemoteURL]; [None] is the panic of [splits[1]] when there is no scheme
    separator in a clone URL that starts with [http]. *)
Definition GetRemoteURL (b : Build) : option string :=
  let cloneURL := TrimRight (CloneURL (Runner b)) "/" in
  if negb (HasPrefix cloneURL "http") then Some (GI_RepoURL (JR_GitInfo (Job b)))
  else match SplitAfterN2 cloneURL "://" with
       | [s0; s1] => Some (s0 +:+ "gitlab-ci-token:" +:+ setting b "CI_JOB_TOKEN" +:+ "@" +:+ s1
                           +:+ "/" +:+ setting b "CI_PROJECT_PATH" +:+ ".git")
       | _ => None
       end.

Definition GetGitStrategy (b : Build) : GitStrategy :=
  let s := setting b "GIT_STRATEGY" in
  if bool_decide (s = "clone") then GitClone
  else if bool_decide (s = "fetch") then GitFetch
  else if bool_decide (s = "none") then GitNone
  else if JR_AllowGitFetch (Job b) then GitFetch else GitClone.

Definition GetGitCheckout (b : Build) : bool :=
  if bool_decide (GetGitStrategy b = GitNone) then false
  else let s := setting b "GIT_CHECKOUT" in
       if bool_decide (s = "") then true else default true (ParseBool s).

Definition GetSubmoduleStrategy (b : Build) : SubmoduleStrategy :=
  if bool_decide (GetGitStrategy b = GitNone) then SubmoduleNone
  else let s := setting b "GIT_SUBMODULE_STRATEGY" in
       if bool_decide (s = "normal") then SubmoduleNormal
       else if bool_decide (s = "recursive") then SubmoduleRecursive
       else if bool_decide (s = "none") || bool_decide (s = "") then SubmoduleNone
       else SubmoduleInvalid.

Definition GetGitCleanFlags (b : Build) : list string :=
  let fl := setting b "GIT_CLEAN_FLAGS" in
  let fl := if bool_decide (fl = "") then "-ffdx" else fl in
  if bool_decide (fl = "none") then [] else Fields fl.

Definition IsDebugTraceEnabled (b : Build) : bool :=
  let trace := default false (ParseBool (setting b "CI_DEBUG_TRACE")) in
  if DebugTraceDisabled (Runner b) then false else trace.

Definition GetDockerAuthConfig (b : Build) : string := setting b "DOCKER_AUTH_CONFIG".

(** The three attempt settings and the cache timeout: a number, or the default. *)
Definition int_setting (b : Build) (key : string) (dflt : Z) : Z :=
  let '(v, err) := Atoi (setting b key) in if err then dflt else v.

Definition GetGetSourcesAttempts (b : Build) : Z := int_setting b "GET_SOURCES_ATTEMPTS" 1.
Definition GetDownloadArtifactsAttempts (b : Build) : Z := int_setting b "ARTIFACT_DOWNLOAD_ATTEMPTS" 1.
Definition GetRestoreCacheAttempts (b : Build) : Z := int_setting b "RESTORE_CACHE_ATTEMPTS" 1.
Definition GetCacheRequestTimeout (b : Build) : Z := int_setting b "CACHE_REQUEST_TIMEOUT" 10.

Definition IsFeatureFlagOn (b : Build) (name : string) : bool := default false (IsOn (setting b name)).

Definition IsLFSSmudgeDisabled (b : Build) : bool :=
  default false (ParseBool (setting b "GIT_LFS_SKIP_SMUDGE")).

(** [time.Duration(buildTimeout) * time.Second], a 64-bit product. *)
Definition GetBuildTimeout (b : Build) : Z :=
  let t := RI_Timeout (JR_RunnerInfo (Job b)) in
  let t := if (t <=? 0)%Z then DefaultTimeout else t in
  int64_wrap (t * Second).

(** ** Directories *)

Definition ProjectUniqueName (b : Build) : string :=
  "runner-" +:+ ShortDescription (Credentials_ (Runner b)) +:+ "-project-"
  +:+ Itoa (JI_ProjectID (JR_JobInfo (Job b))) +:+ "-concurrent-" +:+ Itoa (ProjectRunnerID b).

Definition ProjectSlug (b : Build) : result string string :=
  match parseURL (GI_RepoURL (JR_GitInfo (Job b))) with
  | Err e => Err e
  | Ok (host, p) =>
      if bool_decide (host = "") then Err "only URI reference supported"
      else let slug := Clean (TrimSuffix p ".git") in
           if bool_decide (slug = ".") then Err "invalid path"
           else if Contains slug ".." then Err "it doesn't look like a valid path"
           else Ok slug
  end.

Definition ProjectUniqueDir (b : Build) (sharedDir : bool) : string :=
  let dir := match ProjectSlug b with
             | Ok s => s
             | Err _ => "project-" +:+ Itoa (JI_ProjectID (JR_JobInfo (Job b)))
             end in
  if sharedDir
  then pathJoin [ShortDescription (Credentials_ (Runner b)); Itoa (ProjectRunnerID b); dir]
  else dir.

Definition getCustomBuildDir (b : Build) (rootDir overrideKey : string)
    (customBuildDirEnabled sharedDir : bool) : result error string :=
  let dir := setting b overrideKey in
  if bool_decide (dir = "") then Ok (pathJoin [rootDir; ProjectUniqueDir b sharedDir])
  else if negb customBuildDirEnabled
  then Err (MakeBuildError ("setting " +:+ overrideKey +:+ " is not allowed, enable `custom_build_dir` feature"))
  else if negb (HasPrefix dir rootDir)
  then Err (MakeBuildError ("the " +:+ overrideKey +:+ "=" +:+ Quote dir +:+ " has to be within " +:+ Quote rootDir))
  else Ok dir.

(** [StartBuild]: the error, and the build with its directories. *)
Definition StartBuild (b : Build) (rootDir cacheDir : string) (customBuildDirEnabled sharedDir : bool)
    : option error * Build :=
  let b := set_dirs b rootDir (pathJoin [cacheDir; ProjectUniqueDir b false]) (BuildDir b) None in
  match getCustomBuildDir b rootDir "GIT_CLONE_PATH" customBuildDirEnabled sharedDir with
  | Err e => (Some e, set_dirs b (RootDir b) (CacheDir_ b) "" (Some (GetAllVariables b)))
  | Ok dir => (None, set_dirs b (RootDir b) (CacheDir_ b) dir None)
  end.

(** ** Running a build *)

Context (env : Env).

(** helpers.BuildSection.Execute around [run]. *)
Definition section_execute {A} (skip : bool) (name : string) (run : history → A * history) (h : history)
    : A * history :=
  let h := if skip then h else h ++ [EvSectionStart name] in
  let '(a, h) := run h in
  (a, if skip then h else h ++ [EvSectionEnd name]).

Definition SkipMetrics (b : Build) : bool := negb (GF_TraceSections (JR_Features (Job b))).

Definition Predefined (stage : BuildStage) : bool :=
  match stage with BuildStageUserScript | BuildStageAfterScript => false | _ => true end.

Definition executeStage (b : Build) (h : history) (timeout : option Z) (stage : BuildStage)
    : option error * Build * history :=
  let b := set_stage b stage in
  if negb (shell_defined env h) then (Some (ErrText "No shell defined"), b, h)
  else match generate_script env h stage with
       | Err e => (Some e, b, h)
       | Ok script =>
           if bool_decide (script = "") then (None, b, h)
           else let '(err, h) :=
                  section_execute (SkipMetrics b) (stage_name stage)
                    (λ h, (run_result env h stage, h ++ [EvRun stage (Predefined stage) timeout script])) h in
                (err, b, h)
       end.

Definition executeUploadArtifacts (b : Build) (h : history) (state : option error)
    : option error * Build * history :=
  match state with
  | None => executeStage b h None BuildStageUploadOnSuccessArtifacts
  | Some _ => executeStage b h None BuildStageUploadOnFailureArtifacts
  end.

(** The loop of [attemptExecuteStage]. *)
Fixpoint attempts_loop (n : nat) (b : Build) (h : history) (stage : BuildStage) (err : option error)
    : option error * Build * history :=
  match n with
  | 0 => (err, b, h)
  | S k => match executeStage b h None stage with
           | (None, b, h) => (None, b, h)
           | (Some e, b, h) => attempts_loop k b h stage (Some e)
           end
  end.

Definition attemptExecuteStage (b : Build) (h : history) (stage : BuildStage) (attempts : Z)
    : option error * Build * history :=
  if ((attempts <? 1) || (10 <? attempts))%Z
  then (Some (ErrText ("Number of attempts out of the range [1, 10] for stage: " +:+ stage_name stage)), b, h)
  else attempts_loop (Z.to_nat attempts) b h stage None.

Definition AfterScriptTimeout : Z := (5 * Minute)%Z.

(** Continue only if there was no error so far. *)
Definition and_then (r : option error * Build * history)
    (k : Build → history → option error * Build * history) : option error * Build * history :=
  match r with
  | (None, b, h) => k b h
  | r => r
  end.

(** The user script and, whatever it gives, the after script, whose result is dropped. *)
Definition userScripts (b : Build) (h : history) : option error * Build * history :=
  let '(err, b, h) := executeStage b h None BuildStageUserScript in
  let '(_, b, h) := executeStage b h (Some AfterScriptTimeout) BuildStageAfterScript in
  (err, b, h).

Definition executeScript (b : Build) (h : history) : option error * Build * history :=
  let r := executeStage b h None BuildStagePrepare in
  let r := and_then r (λ b h, attemptExecuteStage b h BuildStageGetSources (GetGetSourcesAttempts b)) in
  let r := and_then r (λ b h, attemptExecuteStage b h BuildStageRestoreCache (GetRestoreCacheAttempts b)) in
  let r := and_then r (λ b h, attemptExecuteStage b h BuildStageDownloadArtifacts (GetDownloadArtifactsAttempts b)) in
  let r := and_then r userScripts in
  let '(err, b, h) := and_then r (λ b h, executeStage b h None BuildStageArchiveCache) in
  let '(uploadError, b, h) := executeUploadArtifacts b h err in
  match err with
  | Some e => (Some e, b, h)
  | None => (uploadError, b, h)
  end.

Definition handleError (b : Build) (err : error) : error * Build :=
  match err with
  | ErrCanceled => (BuildError (ErrText "canceled") NoneFailure, set_run_state b BuildRunRuntimeCanceled)
  | ErrDeadlineExceeded =>
      (BuildError (ErrText ("execution took longer than " +:+ DurationString (GetBuildTimeout b) +:+ " seconds"))
         JobExecutionTimeout, set_run_state b BuildRunRuntimeTimedout)
  | _ => (err, set_run_state b BuildRunRuntimeFinished)
  end.

(** [run]. Whatever wakes it, it returns only after the script's goroutine delivered its
    result, so the history is that of [executeScript]; the goroutine also moves
    [CurrentStage] on. *)
Definition run (b : Build) (h : history) : option error * Build * history :=
  let b := set_run_state b BuildRunRuntimeRunning in
  let wake := woken_by env h in
  let '(res, b, h) := executeScript b h in
  match wake with
  | BuildFinish => (res, set_run_state b BuildRunRuntimeFinished, h)
  | CtxDone e => let '(e, b) := handleError b e in (Some e, b, h)
  | SystemInterrupt signal =>
      (Some (ErrText ("aborted: " +:+ signal)), set_run_state b BuildRunRuntimeTerminated, h)
  end.

Definition is_BuildError (e : error) : bool := match e with BuildError _ _ => true | _ => false end.

(** [retryCreateExecutor]: the error (none: an executor is ready). *)
Fixpoint retryCreateExecutor (tries : nat) (last : option error) (b : Build) (h : history)
    : (bool * option error) * Build * history :=
  match tries with
  | 0 => ((false, last), b, h)
  | S k =>
      if negb (create_ok env h)
      then ((false, Some (ErrText "failed to create executor")), b, h ++ [EvCreateNil])
      else
        let h := h ++ [EvCreate] in
        match prepare_result env h with
        | None => ((true, None), b, h ++ [EvPrepare])
        | Some e =>
            let h := h ++ [EvPrepare; EvCleanup] in
            if is_BuildError e then ((false, Some e), b, h)
            else match context_err env h with
                 | Some ce => let '(e', b) := handleError b ce in ((false, Some e'), b, h)
                 | None => retryCreateExecutor k (Some e) b (h ++ [EvSleep])
                 end
        end
  end.

(** [setTraceStatus]: the status event. *)
Definition setTraceStatus (err : option error) : event :=
  match err with
  | None => EvSuccess
  | Some (BuildError _ reason) =>
      EvFail (match reason with NoneFailure => ScriptFailure | _ => reason end)
  | Some _ => EvFail RunnerSystemFailure
  end.

Definition set_features (b : Build) (f : FeaturesInfo) : Build :=
  mkBuild (Job b) (RootDir b) (BuildDir b) (CacheDir_ b) (Runner b) f (RunnerID b) (ProjectRunnerID b)
    (CurrentStage b) (CurrentState b) (allVariables b).

(** What follows the preparation: run, wait for a connected terminal, finish. *)
Definition runPrepared (b : Build) (h : history) : option error * Build * history :=
  let '(err, b, h) := run b h in
  (err, b, h ++ [EvWaitForTerminal]).

(** [Run]; the deferred function reports the status and then cleans up. *)
Definition Run (b : Build) (h : history) : option error * Build * history :=
  let b := set_run_state b BuildRunStatePending in
  let h := h ++ [EvSetCancelFunc; EvSetMasked (Masked (GetAllVariables b))] in
  let b := cacheAllVariables b in
  if negb (executor_found env)
  then let err := Some (ErrText "executor not found") in (err, b, h ++ [setTraceStatus err])
  else
    let b := set_features b (provider_features env) in
    let '((ready, err, b), h) :=
      section_execute (SkipMetrics b) (stage_name BuildStagePrepareExecutor)
        (λ h, let '((ready, err), b, h) := retryCreateExecutor PreparationRetries None b h in
              ((ready, err, b), h)) h in
    let '(err, b, h) := match err with None => runPrepared b h | Some _ => (err, b, h) end in
    let h := if ready then h ++ [EvFinish err] else h in
    let h := h ++ [setTraceStatus err] in
    (err, b, if ready then h ++ [EvCleanup] else h).

End Settings.

(** ** Durations (common/time.go) *)

Definition minDuration : Z := int64_min.
Definition maxDuration : Z := int64_max.

Definition lessThanHalf (x y : Z) : bool :=
  (uint64_wrap (uint64_wrap x + uint64_wrap x) <? uint64_wrap y)%Z.

(** Go's [%] has the sign of the dividend, like [Z.rem]; sums wrap. *)
Definition roundDuration (d m : Z) : Z :=
  if (m <=? 0)%Z then d
  else
    let r := Z.rem d m in
    if (d <? 0)%Z then
      let r := int64_wrap (- r) in
      if lessThanHalf r m then int64_wrap (d + r)
      else let d1 := int64_wrap (int64_wrap (d - m) + r) in
           if (d1 <? d)%Z then d1 else minDuration
    else
      if lessThanHalf r m then int64_wrap (d - r)
      else let d1 := int64_wrap (int64_wrap (d + m) - r) in
           if (d <? d1)%Z then d1 else maxDuration.

(** [getTerminalTimeout], for a job deadline and the current time. *)
Definition getTerminalTimeout (deadline now timeout : Z) : Z :=
  if (deadline <? now + timeout)%Z then (deadline - now)%Z else timeout.
