(* ===== verification/BuildProofs.v ===== *)
(** Properties of Build.v: the order of the stages, attempts, the status a build
    reports, cleaning up, the variables a job sees and its directories. *)

From S2P Require Import Prelude GoLib Path Types Variables Config Build.

(** ** Stages *)

Definition stage_of (e : event) : option BuildStage :=
  match e with EvRun s _ _ _ => Some s | _ => None end.

(** The stages whose scripts ran. *)
Definition stages (h : history) : list BuildStage := omap stage_of h.

(** How a script may be run: predefined environment except for the user's scripts, a
    timeout of its own only for the after script. *)
Definition run_ok (e : event) : Prop :=
  match e with
  | EvRun s p t _ => p = Predefined s ∧ t = (if decide (s = BuildStageAfterScript) then Some AfterScriptTimeout else None)
  | _ => True
  end.

(** Events of a running script: nothing but sections and scripts. *)
Definition quiet (e : event) : Prop :=
  match e with EvRun _ _ _ _ | EvSectionStart _ | EvSectionEnd _ => True | _ => False end.

Lemma stages_app h h' : stages (h ++ h') = stages h ++ stages h'.
Proof. apply omap_app. Qed.

Section Running.
Context {GT : GoText} (app : AppVersionInfo) (env : Env).

(** The settings of a build, which running it does not change. *)
Definition same_job (b b' : Build) : Prop :=
  Job b' = Job b ∧ Runner b' = Runner b ∧ GetAllVariables app b' = GetAllVariables app b.

#[local] Instance same_job_preorder : PreOrder same_job.
Proof.
  split; [done|]. intros x y z (H1 & H2 & H3) (H1' & H2' & H3'). unfold same_job. split_and!; congruence.
Qed.

(** What one or more stages append to the history. *)
Definition appends (ss : list BuildStage → Prop) (h h' : history) : Prop :=
  ∃ evs, h' = h ++ evs ∧ ss (stages evs) ∧ Forall run_ok evs ∧ Forall quiet evs.

Lemma executeStage_spec b h t s err b' h' :
  executeStage env b h t s = (err, b', h') →
  t = (if decide (s = BuildStageAfterScript) then Some AfterScriptTimeout else None) →
  same_job b b' ∧ appends (λ ss, ∃ n, n ≤ 1 ∧ ss = replicate n s) h h'.
Proof.
  intros H Ht. unfold executeStage in H.
  assert (Hnil : appends (λ ss, ∃ n, n ≤ 1 ∧ ss = replicate n s) h h).
  { exists []. rewrite app_nil_r. split_and!; [done| |done..]. exists 0. split; [lia|done]. }
  destruct (negb _); [by simplify_eq|].
  destruct (generate_script env h s) as [script|e]; [|by simplify_eq].
  case_bool_decide; [by simplify_eq|].
  unfold section_execute in H. destruct (SkipMetrics _); simplify_eq; (split; [done|]).
  - eexists. split; [done|]. split_and!; [by exists 1|by repeat constructor|by repeat constructor].
  - rewrite <- !app_assoc. eexists. split; [done|].
    split_and!; [by exists 1|by repeat constructor|by repeat constructor].
Qed.

Lemma appends_trans P Q R h h' h'' :
  appends P h h' → appends Q h' h'' → (∀ a b, P a → Q b → R (a ++ b)) → appends R h h''.
Proof.
  intros (e1 & -> & H1 & H2 & H3) (e2 & -> & H4 & H5 & H6) HR. exists (e1 ++ e2).
  rewrite app_assoc, stages_app. split_and!; [done|by apply HR|by apply Forall_app..].
Qed.

Lemma attempts_loop_spec n b h s e err b' h' :
  s ≠ BuildStageAfterScript → attempts_loop env n b h s e = (err, b', h') →
  same_job b b' ∧ appends (λ ss, ∃ k, k ≤ n ∧ ss = replicate k s) h h'.
Proof.
  intros Hs. revert b h e. induction n as [|n IH]; intros b h e H; simpl in H.
  { simplify_eq. split; [done|]. exists []. rewrite app_nil_r. split_and!; [done|by exists 0|done..]. }
  destruct (executeStage env b h None s) as [[err1 b1] h1] eqn:E.
  apply executeStage_spec in E as [Hsame Happ]; [|by rewrite decide_False].
  destruct err1 as [e1|].
  - destruct (IH _ _ _ H) as [Hsame' Happ']. split; [by etrans|].
    eapply appends_trans; [exact Happ|exact Happ'|].
    intros x y (i & Hi & ->) (j & Hj & ->). exists (i + j). rewrite replicate_add. split; [lia|done].
  - simplify_eq. split; [done|]. eapply appends_trans; [exact Happ|exists []; rewrite app_nil_r; split_and!; [done| |done..]|].
    + instantiate (1 := λ l, l = []). done.
    + intros x y (i & Hi & ->) ->. exists i. rewrite app_nil_r. split; [lia|done].
Qed.

Lemma attemptExecuteStage_spec b h s n err b' h' :
  s ≠ BuildStageAfterScript → attemptExecuteStage env b h s n = (err, b', h') →
  same_job b b' ∧
  appends (λ ss, ∃ k, ((Z.of_nat k ≤ n)%Z ∨ k = 0) ∧ k ≤ 10 ∧ ss = replicate k s) h h'.
Proof.
  intros Hs H. unfold attemptExecuteStage in H. destruct (_ || _)%bool eqn:E.
  - simplify_eq. split; [done|]. exists []. rewrite app_nil_r. split_and!; [done| |done..].
    exists 0. split_and!; [by right|lia|done].
  - apply orb_false_elim in E as [E1 E2]. reflect_guards.
    apply attempts_loop_spec in H as [Hsame (evs & -> & (k & Hk & Hss) & Hr & Hq)]; [|done].
    split; [done|]. exists evs. split_and!; [done| |done..]. exists k. split_and!; [left; lia|lia|done].
Qed.

(** A step of the chain: the stages so far, and what the next one may add. *)
Lemma and_then_spec b0 r k P Q R h0 :
  (let '(_, b, h) := r in same_job b0 b ∧ appends P h0 h) →
  (∀ b h, same_job b0 b → appends P h0 h →
     let '(_, b', h') := k b h in same_job b b' ∧ appends Q h h') →
  Q [] → (∀ x y, P x → Q y → R (x ++ y)) →
  let '(_, b', h') := and_then r k in same_job b0 b' ∧ appends R h0 h'.
Proof.
  destruct r as [[[e|] b] h]; simpl; intros [Hs Ha] Hk Hnil HR.
  - split; [done|]. eapply appends_trans; [done| |done].
    exists []. by rewrite app_nil_r.
  - generalize (Hk b h Hs Ha). destruct (k b h) as [[err b'] h']. intros [Hs' Ha']. split; [by etrans|]. by eapply appends_trans.
Qed.

Lemma userScripts_spec b h :
  let '(_, b', h') := userScripts env b h in
  same_job b b' ∧
  appends (λ ss, ∃ u a, u ≤ 1 ∧ a ≤ 1 ∧
             ss = replicate u BuildStageUserScript ++ replicate a BuildStageAfterScript) h h'.
Proof.
  unfold userScripts.
  destruct (executeStage env b h None BuildStageUserScript) as [[e1 b1] h1] eqn:E1.
  apply executeStage_spec in E1 as [Hs1 Ha1]; [|done].
  destruct (executeStage env b1 h1 _ BuildStageAfterScript) as [[e2 b2] h2] eqn:E2.
  apply executeStage_spec in E2 as [Hs2 Ha2]; [|done].
  split; [by etrans|]. eapply appends_trans; [exact Ha1|exact Ha2|].
  intros x y (u & Hu & ->) (a & Ha & ->). by exists u, a.
Qed.

(** A chain of stages, each count below its bound. *)
Definition counts (bounds : list (BuildStage * Z)) (ss : list BuildStage) : Prop :=
  ∃ ns : list nat, Forall2 (λ n '(_, m), n ≤ 10 ∧ (n = 0 ∨ (Z.of_nat n ≤ m)%Z)) ns bounds ∧
    ss = mjoin (zip_with (λ n '(s, _), replicate n s) ns bounds).

Lemma counts_nil s m : counts [(s, m)] [].
Proof. exists [0]. split; [|done]. repeat constructor; lia. Qed.

Lemma counts_one s m n : n ≤ 10 → (n = 0 ∨ (Z.of_nat n ≤ m)%Z) → counts [(s, m)] (replicate n s).
Proof.
  intros H1 H2. exists [n]. split; [by constructor; [|constructor]|]. simpl. by rewrite app_nil_r.
Qed.

Lemma counts_app l l' x y : counts l x → counts l' y → counts (l ++ l') (x ++ y).
Proof.
  intros (ns & H1 & ->) (ns' & H2 & ->). exists (ns ++ ns'). split; [by apply Forall2_app|].
  rewrite zip_with_app by (by eapply Forall2_length). by rewrite join_app.
Qed.

(** A stage run with a number of attempts, as a link of the chain. *)
Lemma attempts_link b h s n m :
  s ≠ BuildStageAfterScript → n = m →
  let '(_, b', h') := attemptExecuteStage env b h s n in
  same_job b b' ∧ appends (counts [(s, m)]) h h'.
Proof.
  intros Hs ->. destruct (attemptExecuteStage env b h s m) as [[e b'] h'] eqn:E.
  apply attemptExecuteStage_spec in E as [Hsame (evs & -> & (k & Hk & H10 & Hss) & Hr & Hq)]; [|done].
  split; [done|]. exists evs. split_and!; try done. rewrite Hss. apply counts_one; [done|tauto].
Qed.

Lemma stage_link b h s :
  s ≠ BuildStageAfterScript →
  let '(_, b', h') := executeStage env b h None s in
  same_job b b' ∧ appends (counts [(s, 1%Z)]) h h'.
Proof.
  intros Hs. destruct (executeStage env b h None s) as [[e b'] h'] eqn:E.
  apply executeStage_spec in E as [Hsame (evs & -> & (k & Hk & Hss) & Hr & Hq)]; [|by rewrite decide_False].
  split; [done|]. exists evs. split_and!; try done. rewrite Hss. apply counts_one; lia.
Qed.

(** The bounds of the stages before the upload. *)
Definition core_bounds (b : Build) : list (BuildStage * Z) :=
  [(BuildStagePrepare, 1%Z); (BuildStageGetSources, GetGetSourcesAttempts app b);
   (BuildStageRestoreCache, GetRestoreCacheAttempts app b);
   (BuildStageDownloadArtifacts, GetDownloadArtifactsAttempts app b);
   (BuildStageUserScript, 1%Z); (BuildStageAfterScript, 1%Z); (BuildStageArchiveCache, 1%Z)].

Lemma same_job_setting b b' key d : same_job b b' → int_setting app b' key d = int_setting app b key d.
Proof. intros (_ & _ & H). unfold int_setting, setting. by rewrite H. Qed.

Lemma executeScript_spec b h err b' h' :
  executeScript app env b h = (err, b', h') →
  same_job b b' ∧
  appends (λ ss, ∃ core up, ss = core ++ up ∧ counts (core_bounds b) core ∧
     (up = [] ∨ up = [BuildStageUploadOnSuccessArtifacts] ∨
      up = [BuildStageUploadOnFailureArtifacts] ∧ err ≠ None)) h h'.
Proof.
  unfold executeScript.
  pose proof (stage_link b h BuildStagePrepare ltac:(done)) as H1.
  eapply (and_then_spec b _ (λ b h, attemptExecuteStage env b h BuildStageGetSources (GetGetSourcesAttempts app b)))
    in H1; [|intros b1 h1 Hs _; apply attempts_link; [done|by apply same_job_setting]
            |apply counts_nil|apply counts_app].
  eapply (and_then_spec b _ (λ b h, attemptExecuteStage env b h BuildStageRestoreCache (GetRestoreCacheAttempts app b)))
    in H1; [|intros b1 h1 Hs _; apply attempts_link; [done|by apply same_job_setting]
            |apply counts_nil|apply counts_app].
  eapply (and_then_spec b _ (λ b h, attemptExecuteStage env b h BuildStageDownloadArtifacts (GetDownloadArtifactsAttempts app b)))
    in H1; [|intros b1 h1 Hs _; apply attempts_link; [done|by apply same_job_setting]
            |apply counts_nil|apply counts_app].
  eapply (and_then_spec b _ (userScripts env) _ (counts [(BuildStageUserScript, 1%Z); (BuildStageAfterScript, 1%Z)]))
    in H1; [| | |apply counts_app].
  2: { intros b1 h1 _ _. generalize (userScripts_spec b1 h1). destruct (userScripts env b1 h1) as [[e2 b2] h2].
       intros [Hs (evs & -> & (u & a & Hu & Ha & Hss) & Hr & Hq)]. split; [done|]. exists evs.
       split_and!; try done. rewrite Hss.
       apply (counts_app [_] [_]); apply counts_one; lia. }
  2: { apply (counts_app [_] [_] [] []); apply counts_nil. }
  eapply (and_then_spec b _ (λ b h, executeStage env b h None BuildStageArchiveCache))
    in H1; [|intros b1 h1 Hs _; by apply stage_link|apply counts_nil|apply counts_app].
  destruct (and_then _ _) as [[err0 b1] h1]. destruct H1 as [Hs1 Ha1].
  unfold executeUploadArtifacts. intros H.
  assert (Hup : ∃ upErr s, executeStage env b1 h1 None s = (upErr, b', h') ∧
    (err0 = None ∧ s = BuildStageUploadOnSuccessArtifacts ∧ err = upErr ∨
     (∃ e, err0 = Some e ∧ err = Some e) ∧ s = BuildStageUploadOnFailureArtifacts)).
  { destruct err0 as [e|]; destruct (executeStage env b1 h1 None _) as [[upErr b2] h2] eqn:E; simplify_eq;
      eexists _, _; (split; [exact E|]); [right|left]; eauto. }
  destruct Hup as (upErr & s & E & Hcase).
  apply executeStage_spec in E as [Hs2 Ha2]; [|by destruct Hcase as [(_ & -> & _)|(_ & ->)]].
  split; [by etrans|]. eapply appends_trans; [exact Ha1|exact Ha2|].
  intros x y Hx (n & Hn & ->). exists x, (replicate n s). split_and!; [done|done|].
  destruct n as [|[|n]]; [by left| |lia]. right.
  destruct Hcase as [(_ & -> & _)|[(e & _ & ->) ->]]; [by left|by right].
Qed.

(** C9: A job's scripts run in the one order prepare, get sources, restore cache,
    download artifacts, user script, after script, archive cache, upload; repeated
    stages repeat in place, never more often than their configured attempts (and never
    more than ten times), the others run at most once; the upload comes last, is the
    one for failed jobs only if the job failed, only the user's scripts leave the
    predefined environment, and only the after script has a timeout of its own. *)
Theorem stages_run_in_order b h :
  let '(err, _, h') := executeScript app env b h in
  ∃ evs core up,
    h' = h ++ evs ∧ stages evs = core ++ up ∧ counts (core_bounds b) core ∧
    (up = [] ∨ up = [BuildStageUploadOnSuccessArtifacts] ∨
     up = [BuildStageUploadOnFailureArtifacts] ∧ err ≠ None) ∧
    Forall run_ok evs.
Proof.
  destruct (executeScript app env b h) as [[err b'] h'] eqn:E.
  apply executeScript_spec in E as [_ (evs & -> & (core & up & Hss & Hc & Hup) & Hr & _)].
  by exists evs, core, up.
Qed.

(** *** When stages succeed or fail by themselves *)

(** The setup stages with their attempts: stop after the attempts of the first that fails. *)
Fixpoint setup (res : BuildStage → option error) (l : list (BuildStage * nat))
    : option error * list BuildStage :=
  match l with
  | [] => (None, [])
  | (s, n) :: l' =>
      match res s with
      | Some e => (Some e, replicate n s)
      | None => let '(e, ss) := setup res l' in (e, s :: ss)
      end
  end.

(** Which stages run and what the job's result is, when stage [s] gives [res s]. *)
Definition expected (res : BuildStage → option error) (g r d : nat) : option error * list BuildStage :=
  let '(e, pre) := setup res [(BuildStagePrepare, 1); (BuildStageGetSources, g);
                              (BuildStageRestoreCache, r); (BuildStageDownloadArtifacts, d)] in
  match e, res BuildStageUserScript, res BuildStageArchiveCache with
  | Some e, _, _ => (Some e, pre ++ [BuildStageUploadOnFailureArtifacts])
  | None, Some e, _ =>
      (Some e, pre ++ [BuildStageUserScript; BuildStageAfterScript; BuildStageUploadOnFailureArtifacts])
  | None, None, Some e =>
      (Some e, pre ++ [BuildStageUserScript; BuildStageAfterScript; BuildStageArchiveCache;
                       BuildStageUploadOnFailureArtifacts])
  | None, None, None =>
      (res BuildStageUploadOnSuccessArtifacts,
       pre ++ [BuildStageUserScript; BuildStageAfterScript; BuildStageArchiveCache;
               BuildStageUploadOnSuccessArtifacts])
  end.

Section Uniform.
Context (res : BuildStage → option error) (script : BuildStage → string).
Hypothesis shell_ok : ∀ h, shell_defined env h = true.
Hypothesis script_ok : ∀ h s, generate_script env h s = Ok (script s) ∧ script s ≠ "".
Hypothesis result_ok : ∀ h s, run_result env h s = res s.

Lemma executeStage_uniform b h t s :
  ∃ b' evs, executeStage env b h t s = (res s, b', h ++ evs) ∧ stages evs = [s] ∧ same_job b b'.
Proof.
  unfold executeStage. rewrite shell_ok. simpl. destruct (script_ok h s) as [-> Hne].
  rewrite bool_decide_eq_false_2 by done. unfold section_execute.
  destruct (SkipMetrics _); rewrite result_ok, <- ?app_assoc; eexists _, _; (split; [done|]); done.
Qed.

Lemma attempts_uniform n b h s e0 :
  ∃ b' evs, attempts_loop env (S n) b h s e0 = (res s, b', h ++ evs) ∧
    stages evs = (match res s with None => [s] | Some _ => replicate (S n) s end) ∧ same_job b b'.
Proof.
  revert b h e0. induction n as [|n IH]; intros b h e0.
  - simpl. destruct (executeStage_uniform b h None s) as (b' & evs & -> & Hss & Hs).
    exists b', evs. destruct (res s); done.
  - cbn [attempts_loop]. destruct (executeStage_uniform b h None s) as (b' & evs & -> & Hss & Hs).
    destruct (res s) as [e|] eqn:Er; [|by exists b', evs].
    destruct (IH b' (h ++ evs) (Some e)) as (b2 & evs2 & Hloop & Hss2 & Hs2).
    cbn [attempts_loop] in Hloop. rewrite Hloop. exists b2, (evs ++ evs2).
    rewrite <- app_assoc, stages_app, Hss, Hss2. split_and!; [done|done|by etrans].
Qed.

Lemma attemptStage_uniform b h s n :
  (1 ≤ n ≤ 10)%Z →
  ∃ b' evs, attemptExecuteStage env b h s n = (res s, b', h ++ evs) ∧
    stages evs = (match res s with None => [s] | Some _ => replicate (Z.to_nat n) s end) ∧ same_job b b'.
Proof.
  intros Hn. unfold attemptExecuteStage.
  rewrite (proj2 (Z.ltb_ge n 1)), (proj2 (Z.ltb_ge 10 n)) by lia. simpl orb. cbv iota.
  destruct (Z.to_nat n) as [|k] eqn:E; [lia|]. apply attempts_uniform.
Qed.

Lemma setup_uniform b h :
  let g := GetGetSourcesAttempts app b in
  let r := GetRestoreCacheAttempts app b in
  let d := GetDownloadArtifactsAttempts app b in
  (1 ≤ g ≤ 10)%Z → (1 ≤ r ≤ 10)%Z → (1 ≤ d ≤ 10)%Z →
  ∃ b' evs,
    and_then (and_then (and_then (executeStage env b h None BuildStagePrepare)
      (λ b h, attemptExecuteStage env b h BuildStageGetSources (GetGetSourcesAttempts app b)))
      (λ b h, attemptExecuteStage env b h BuildStageRestoreCache (GetRestoreCacheAttempts app b)))
      (λ b h, attemptExecuteStage env b h BuildStageDownloadArtifacts (GetDownloadArtifactsAttempts app b))
    = ((setup res [(BuildStagePrepare, 1); (BuildStageGetSources, Z.to_nat g);
                   (BuildStageRestoreCache, Z.to_nat r); (BuildStageDownloadArtifacts, Z.to_nat d)]).1,
       b', h ++ evs) ∧
    stages evs = (setup res [(BuildStagePrepare, 1); (BuildStageGetSources, Z.to_nat g);
                   (BuildStageRestoreCache, Z.to_nat r); (BuildStageDownloadArtifacts, Z.to_nat d)]).2.
Proof.
  intros g r d Hg Hr Hd.
  destruct (executeStage_uniform b h None BuildStagePrepare) as (b1 & e1 & -> & Hs1 & Hj1). simpl.
  destruct (res BuildStagePrepare); [by exists b1, e1|]. simpl.
  destruct (attemptStage_uniform b1 (h ++ e1) BuildStageGetSources (GetGetSourcesAttempts app b1))
    as (b2 & e2 & -> & Hs2 & Hj2); [by unfold GetGetSourcesAttempts; rewrite (same_job_setting b b1)|].
  assert (Hg1 : GetGetSourcesAttempts app b1 = g) by by apply same_job_setting.
  rewrite Hg1 in Hs2.
  destruct (res BuildStageGetSources).
  { exists b2, (e1 ++ e2). simpl. rewrite <- app_assoc, stages_app, Hs1, Hs2. done. }
  assert (Hj2' : same_job b b2) by by etrans. simpl.
  destruct (attemptStage_uniform b2 ((h ++ e1) ++ e2) BuildStageRestoreCache (GetRestoreCacheAttempts app b2))
    as (b3 & e3 & -> & Hs3 & Hj3); [by unfold GetRestoreCacheAttempts; rewrite (same_job_setting b b2)|].
  assert (Hr1 : GetRestoreCacheAttempts app b2 = r) by by apply same_job_setting.
  rewrite Hr1 in Hs3.
  destruct (res BuildStageRestoreCache).
  { exists b3, (e1 ++ e2 ++ e3). simpl. rewrite <- !app_assoc, !stages_app, Hs1, Hs2, Hs3. done. }
  assert (Hj3' : same_job b b3) by by etrans. simpl.
  destruct (attemptStage_uniform b3 (((h ++ e1) ++ e2) ++ e3) BuildStageDownloadArtifacts (GetDownloadArtifactsAttempts app b3))
    as (b4 & e4 & -> & Hs4 & Hj4); [by unfold GetDownloadArtifactsAttempts; rewrite (same_job_setting b b3)|].
  assert (Hd1 : GetDownloadArtifactsAttempts app b3 = d) by by apply same_job_setting.
  rewrite Hd1 in Hs4.
  exists b4, (e1 ++ e2 ++ e3 ++ e4). rewrite <- !app_assoc, !stages_app, Hs1, Hs2, Hs3, Hs4.
  by destruct (res BuildStageDownloadArtifacts).
Qed.

(** C8: The outcome of a job when every stage has a script and a result of its own: the
    executed stages and the job's error are exactly those of the reference table. A
    failing setup stage is retried as configured and skips everything up to the upload
    for failed jobs; a failing user script still runs the after script but no cache
    archiving; the first error is the job's error, and an upload error counts only for
    a job that succeeded otherwise. *)
Theorem job_outcome_matches_table b h :
  (1 ≤ GetGetSourcesAttempts app b ≤ 10)%Z →
  (1 ≤ GetRestoreCacheAttempts app b ≤ 10)%Z →
  (1 ≤ GetDownloadArtifactsAttempts app b ≤ 10)%Z →
  ∃ b' evs,
    executeScript app env b h = ((expected res (Z.to_nat (GetGetSourcesAttempts app b))
      (Z.to_nat (GetRestoreCacheAttempts app b)) (Z.to_nat (GetDownloadArtifactsAttempts app b))).1,
      b', h ++ evs) ∧
    stages evs = (expected res (Z.to_nat (GetGetSourcesAttempts app b))
      (Z.to_nat (GetRestoreCacheAttempts app b)) (Z.to_nat (GetDownloadArtifactsAttempts app b))).2.
Proof.
  intros Hg Hr Hd. unfold executeScript, expected.
  destruct (setup_uniform b h Hg Hr Hd) as (b1 & e1 & Hset & Hs1). cbv zeta in Hset, Hs1.
  rewrite Hset. destruct (setup res _) as [se pre]. simpl in Hs1 |- *.
  destruct se as [e|]; simpl.
  { destruct (executeStage_uniform b1 (h ++ e1) None BuildStageUploadOnFailureArtifacts)
      as (b2 & e2 & -> & Hs2 & _).
    exists b2, (e1 ++ e2). rewrite <- app_assoc, stages_app, Hs1, Hs2. done. }
  unfold userScripts.
  destruct (executeStage_uniform b1 (h ++ e1) None BuildStageUserScript) as (b2 & e2 & -> & Hs2 & _).
  destruct (executeStage_uniform b2 ((h ++ e1) ++ e2) (Some AfterScriptTimeout) BuildStageAfterScript)
    as (b3 & e3 & -> & Hs3 & _).
  destruct (res BuildStageUserScript) as [e|]; simpl.
  { destruct (executeStage_uniform b3 (((h ++ e1) ++ e2) ++ e3) None BuildStageUploadOnFailureArtifacts)
      as (b4 & e4 & -> & Hs4 & _).
    exists b4, (e1 ++ e2 ++ e3 ++ e4). rewrite <- !app_assoc, !stages_app, Hs1, Hs2, Hs3, Hs4. done. }
  destruct (executeStage_uniform b3 (((h ++ e1) ++ e2) ++ e3) None BuildStageArchiveCache)
    as (b4 & e4 & -> & Hs4 & _).
  destruct (res BuildStageArchiveCache) as [e|]; simpl.
  - destruct (executeStage_uniform b4 ((((h ++ e1) ++ e2) ++ e3) ++ e4) None BuildStageUploadOnFailureArtifacts)
      as (b5 & e5 & -> & Hs5 & _).
    exists b5, (e1 ++ e2 ++ e3 ++ e4 ++ e5). rewrite <- !app_assoc, !stages_app, Hs1, Hs2, Hs3, Hs4, Hs5. done.
  - destruct (executeStage_uniform b4 ((((h ++ e1) ++ e2) ++ e3) ++ e4) None BuildStageUploadOnSuccessArtifacts)
      as (b5 & e5 & -> & Hs5 & _).
    exists b5, (e1 ++ e2 ++ e3 ++ e4 ++ e5). rewrite <- !app_assoc, !stages_app, Hs1, Hs2, Hs3, Hs4, Hs5. done.
Qed.

End Uniform.

(** *** The life of an executor *)

(** How an executor may be used: created when there is none, prepared, run and finished
    only while there is one, cleaned up once. [None] is a violation. *)
Definition use (live : option bool) (e : event) : option bool :=
  match live, e with
  | None, _ => None
  | Some false, EvCreate => Some true
  | Some false, (EvPrepare | EvRun _ _ _ _ | EvFinish _ | EvCleanup) => None
  | Some true, (EvCreate | EvCreateNil) => None
  | Some true, EvCleanup => Some false
  | Some l, _ => Some l
  end.

Definition uses (live : option bool) (h : history) : option bool := foldl use live h.

Definition is_status (e : event) : bool := match e with EvSuccess | EvFail _ => true | _ => false end.
Definition is_create (e : event) : bool := match e with EvCreate => true | _ => false end.

Definition count (f : event → bool) (h : history) : nat := length (filter (λ e, f e = true) h).

Lemma uses_app l h h' : uses l (h ++ h') = uses (uses l h) h'.
Proof. apply foldl_app. Qed.

Lemma count_app f h h' : count f (h ++ h') = count f h + count f h'.
Proof. unfold count. by rewrite filter_app, length_app. Qed.

Lemma uses_quiet evs : Forall quiet evs → uses (Some true) evs = Some true ∧ count is_status evs = 0 ∧ count is_create evs = 0.
Proof.
  induction 1 as [|e evs He _ (IH1 & IH2 & IH3)]; [done|].
  change (e :: evs) with ([e] ++ evs). rewrite uses_app, !count_app, IH2, IH3.
  destruct e; try done; simpl; rewrite IH1; done.
Qed.

Lemma handleError_same b e : same_job b (handleError b e).2.
Proof. by destruct e. Qed.

Lemma retry_spec tries last b h ready err b' h' :
  retryCreateExecutor env tries last b h = ((ready, err), b', h') →
  (0 < tries ∨ last ≠ None) →
  ∃ evs, h' = h ++ evs ∧ uses (Some false) evs = Some ready ∧
    (ready = true ↔ err = None) ∧ count is_status evs = 0 ∧ count is_create evs ≤ tries.
Proof.
  revert last b h. induction tries as [|k IH]; intros last b h H Ht; simpl in H.
  { simplify_eq. exists []. rewrite app_nil_r. split_and!; try done.
    destruct Ht as [Ht|Ht]; [lia|]. by destruct err. }
  destruct (negb _).
  { simplify_eq. exists [EvCreateNil]. split_and!; done || (vm_compute; lia). }
  destruct (prepare_result env _) as [e|].
  2: { simplify_eq. rewrite <- app_assoc. eexists. split; [done|]. split_and!; done || (vm_compute; lia). }
  destruct (is_BuildError e).
  { simplify_eq. rewrite <- app_assoc. eexists. split; [done|]. split_and!; done || (vm_compute; lia). }
  destruct (context_err env _) as [ce|].
  { destruct (handleError b ce) as [e' b1]. simplify_eq. rewrite <- app_assoc. eexists. split; [done|].
    split_and!; done || (vm_compute; lia). }
  destruct (IH _ _ _ H) as (evs & -> & Hu & Hr & Hc1 & Hc2); [by right|].
  rewrite <- !app_assoc. eexists. split; [done|]. split_and!; [done|done|done|].
  change (count is_create ([EvCreate] ++ [EvPrepare; EvCleanup] ++ [EvSleep] ++ evs) ≤ S k).
  rewrite !count_app. change (count is_create [EvCreate]) with 1.
  change (count is_create [EvPrepare; EvCleanup]) with 0. change (count is_create [EvSleep]) with 0. lia.
Qed.

Lemma run_spec b h err b' h' :
  run app env b h = (err, b', h') → ∃ evs, h' = h ++ evs ∧ Forall quiet evs.
Proof.
  unfold run. destruct (executeScript app env _ h) as [[r b1] h1] eqn:E.
  apply executeScript_spec in E as [_ (evs & -> & _ & _ & Hq)].
  destruct (woken_by env h) as [|e|sig]; [|destruct (handleError b1 e)|]; intros H; simplify_eq; by exists evs.
Qed.

Definition no_status (h : history) : Prop := count is_status h = 0.

(** The status event says success exactly for no error. *)
Lemma setTraceStatus_success err : setTraceStatus err = EvSuccess ↔ err = None.
Proof. destruct err as [[| | |]|]; simpl; split; done. Qed.

Lemma section_preparation b h ready err b' h' skip name :
  section_execute skip name
    (λ h, let '((ready, err), b, h) := retryCreateExecutor env PreparationRetries None b h in
          ((ready, err, b), h)) h = ((ready, err, b'), h') →
  ∃ evs, h' = h ++ evs ∧ uses (Some false) evs = Some ready ∧
    (ready = true ↔ err = None) ∧ no_status evs ∧ count is_create evs ≤ PreparationRetries.
Proof.
  unfold section_execute.
  set (h0 := if skip then h else h ++ [EvSectionStart name]).
  destruct (retryCreateExecutor env PreparationRetries None b h0) as [[[rd er] b1] h1] eqn:E.
  apply retry_spec in E as (evs & -> & Hu & Hr & Hs & Hc); [|left; vm_compute; lia].
  intros H. simplify_eq. unfold no_status. destruct skip; subst h0.
  - by exists evs.
  - exists ([EvSectionStart name] ++ evs ++ [EvSectionEnd name]).
    rewrite !uses_app, !count_app, Hs.
    split_and!; [by rewrite <- !app_assoc|simpl uses at 1; rewrite Hu; by destruct ready|done|done|].
    change (count is_create [EvSectionStart name]) with 0. change (count is_create [EvSectionEnd name]) with 0. lia.
Qed.

(** C4: Every run of a build ends with exactly one status sent to the trace, success
    exactly when it returns no error, after everything but the final cleanup; executors
    are prepared, used and finished only while one exists, at most three are created,
    and each of them is cleaned up exactly once, on every path. *)
Theorem build_reports_once_and_cleans_up b :
  let '(err, _, h) := Run app env b [] in
  (∃ pre post, h = pre ++ [setTraceStatus err] ++ post ∧ no_status pre ∧ (post = [] ∨ post = [EvCleanup])) ∧
  (setTraceStatus err = EvSuccess ↔ err = None) ∧
  uses (Some false) h = Some false ∧
  count is_create h ≤ PreparationRetries.
Proof.
  unfold Run. destruct (negb _).
  { split_and!; [|done|done|vm_compute; lia]. eexists _, []. split; [done|]. split; [done|by left]. }
  destruct (section_execute _ _ _ _) as [[[ready err] b1] h1] eqn:E.
  apply section_preparation in E as (evs & -> & Hu & Hr & Hns & Hc).
  set (h0 := [] ++ _). assert (Hh0 : uses (Some false) h0 = Some false ∧ no_status h0 ∧ count is_create h0 = 0) by done.
  destruct Hh0 as (Hu0 & Hn0 & Hc0).
  destruct err as [e|].
  - destruct ready; [by specialize (proj1 Hr eq_refl)|].
    split; [|split; [apply setTraceStatus_success|split]].
    + eexists _, []. split; [by rewrite app_nil_r|]. split; [|by left]. unfold no_status in *. rewrite count_app. lia.
    + rewrite !uses_app, Hu0, Hu. by destruct e.
    + rewrite !count_app, Hc0. replace (count is_create [setTraceStatus (Some e)]) with 0 by by destruct e. lia.
  - destruct ready; [|by specialize (proj2 Hr eq_refl)].
    unfold runPrepared. destruct (run app env b1 (h0 ++ evs)) as [[err2 b2] h2] eqn:E2.
    apply run_spec in E2 as (evs2 & -> & Hq).
    destruct (uses_quiet evs2 Hq) as (Hu2 & Hs2 & Hc2).
    split; [|split; [apply setTraceStatus_success|split]].
    + eexists _, [EvCleanup]. split; [by rewrite <- app_assoc|]. split; [|by right].
      unfold no_status in *. rewrite !count_app, Hn0, Hns, Hs2. done.
    + rewrite !uses_app, Hu0, Hu, Hu2. by destruct err2 as [[]|].
    + rewrite !count_app, Hc0, Hc2.
      replace (count is_create [setTraceStatus err2]) with 0 by by destruct err2 as [[]|].
      change (count is_create [EvWaitForTerminal]) with 0. change (count is_create [EvFinish err2]) with 0.
      change (count is_create [EvCleanup]) with 0. lia.
Qed.


End Running.

(** ** The variables of a job *)

Lemma find_last_ExpandAll_go raw vs key :
  find_last ((λ v, set_value v (ExpandValue raw (Value v))) <$> vs) key =
  ExpandValue raw <$> find_last vs key.
Proof.
  induction vs as [|v vs IH]; [done|]. rewrite fmap_cons. cbn [find_last]. rewrite IH.
  destruct (find_last vs key); simpl; [done|]. by case_bool_decide.
Qed.

Lemma find_last_ExpandAll vs key : find_last (ExpandAll vs) key = ExpandValue vs <$> find_last vs key.
Proof. apply find_last_ExpandAll_go. Qed.

Section Settings.
Context {GT : GoText} (app : AppVersionInfo).

(** The variables the runner sets last. *)
Definition reserved (b : Build) : JobVariables := [GetSharedEnvVariable b] ++ VersionVariables app.

Lemma setting_expand b key :
  allVariables b = None → ordinary key →
  setting app b key = default "" (ExpandValue (rawVariables app b) <$> find_last (rawVariables app b) key).
Proof.
  intros Hc Ho. unfold setting, GetAllVariables. rewrite Hc, Get_ordinary by done.
  by rewrite find_last_ExpandAll.
Qed.

(** C25: Who decides a variable. The runner's version and environment variables cannot
    be overridden by anyone; below them the job's own variables win over the built-in
    ones (directories, ids, TLS files), these over the environment of the runner's
    configuration, and that over the feature flag defaults. Each value is expanded
    once, with all variables in scope. *)
Theorem variable_precedence b key :
  allVariables b = None → ordinary key →
  let raw := rawVariables app b in
  let builtin := GetDefaultVariables b ++ GetCITLSVariables b in
  (key ∈ (Key <$> reserved b) → setting app b key = ExpandValue raw (Get (reserved b) key)) ∧
  (key ∉ (Key <$> reserved b) →
   (key ∈ (Key <$> JR_Variables (Job b)) →
    setting app b key = ExpandValue raw (Get (JR_Variables (Job b)) key)) ∧
   (key ∉ (Key <$> JR_Variables (Job b)) →
    (key ∈ (Key <$> builtin) → setting app b key = ExpandValue raw (Get builtin key)) ∧
    (key ∉ (Key <$> builtin) →
     (key ∈ (Key <$> GetVariables (Runner b)) →
      setting app b key = ExpandValue raw (Get (GetVariables (Runner b)) key)) ∧
     (key ∉ (Key <$> GetVariables (Runner b)) →
      setting app b key = ExpandValue raw (Get GetDefaultFeatureFlagsVariables key))))).
Proof.
  intros Hc Ho raw builtin. rewrite (setting_expand b key Hc Ho). fold raw.
  assert (Hraw : raw = (((GetDefaultFeatureFlagsVariables ++ GetVariables (Runner b)) ++ builtin)
                        ++ JR_Variables (Job b)) ++ reserved b).
  { subst raw builtin. unfold rawVariables, reserved. by rewrite <- !app_assoc. }
  assert (Hin : ∀ vs, key ∈ (Key <$> vs) → ∃ x, find_last vs key = Some x).
  { intros vs Hk. destruct (find_last vs key) eqn:E; [by eexists|]. by apply find_last_none in E. }
  assert (Hfl : find_last raw key = match find_last (reserved b) key with Some x => Some x | None =>
     match find_last (JR_Variables (Job b)) key with Some x => Some x | None =>
     match find_last builtin key with Some x => Some x | None =>
     match find_last (GetVariables (Runner b)) key with Some x => Some x | None =>
       find_last GetDefaultFeatureFlagsVariables key end end end end).
  { rewrite Hraw. by rewrite !find_last_app. }
  rewrite !(Get_ordinary _ _ Ho), Hfl.
  split; [by intros [x ->]%Hin|]. intros ->%find_last_none.
  split; [by intros [x ->]%Hin|]. intros ->%find_last_none.
  split; [by intros [x ->]%Hin|]. intros ->%find_last_none.
  split; [by intros [x ->]%Hin|]. intros ->%find_last_none.
  by destruct (find_last GetDefaultFeatureFlagsVariables key).
Qed.

(** ** Directories *)

(** A runner token whose short form has no dots, as GitLab hands them out. *)
Definition plain_token (b : Build) : Prop :=
  Contains (ShortDescription (Credentials_ (Runner b))) ".." = false.

Lemma Itoa_no_dots z : ".." ∉ segments (Itoa z).
Proof.
  unfold segments. rewrite Split_absent by (apply Itoa_no_char_any; [done|by vm_compute]).
  intros Heq%list_elem_of_singleton.
  apply (Itoa_no_char_any z "."%char); [done|by vm_compute|]. rewrite <- Heq. left.
Qed.

Lemma project_dir_no_up b :
  ".." ∉ segments (match ProjectSlug b with
                   | Ok s => s
                   | Err _ => "project-" +:+ Itoa (JI_ProjectID (JR_JobInfo (Job b))) end).
Proof.
  unfold ProjectSlug. set (fallback := "project-" +:+ _).
  assert (Hf : ".." ∉ segments fallback).
  { unfold segments. rewrite Split_absent.
    - by intros ?%list_elem_of_singleton.
    - subst fallback.
      assert (Hi : slash ∉ String.list_ascii_of_string (Itoa (JI_ProjectID (JR_JobInfo (Job b)))))
        by (apply Itoa_no_char_any; [done|by vm_compute]).
      simpl. rewrite !not_elem_of_cons. by split_and!. }
  destruct (parseURL _) as [[host p]|e]; [|done].
  case_bool_decide; [done|]. case_bool_decide; [done|].
  destruct (Contains _ "..") eqn:E; [done|]. by apply no_dots_no_up.
Qed.

Lemma pathJoin3_no_up a b c :
  ".." ∉ segments a → ".." ∉ segments b → ".." ∉ segments c → ".." ∉ segments (pathJoin [a; b; c]).
Proof.
  intros Ha Hb Hc.
  assert (Hclean : ∀ p, ".." ∉ segments p → ".." ∉ segments (Clean p)).
  { intros p Hp. unfold Clean, render.
    assert (Hs : ".." ∉ clean_segments p).
    { unfold clean_segments. rewrite elem_of_reverse.
      destruct (clean_fold_down (IsAbs p) [] (segments p) Hp) as (more & -> & ?). by rewrite app_nil_r. }
    assert (Hj : clean_segments p ≠ [] → segments (Join (clean_segments p) "/") = clean_segments p).
    { intros Hne. apply Split_Join; [done|]. eapply Forall_impl; [apply clean_segments_plain|]. by intros e (_ & _ & ?). }
    destruct (IsAbs p).
    - change (segments ("/" +:+ Join (clean_segments p) "/")) with ("" :: segments (Join (clean_segments p) "/")).
      apply not_elem_of_cons. split; [done|].
      destruct (clean_segments p) eqn:E; [simpl; by intros ?%list_elem_of_singleton|]. by rewrite Hj.
    - destruct (clean_segments p) eqn:E; [by intros ?%list_elem_of_singleton|]. by rewrite Hj. }
  unfold pathJoin.
  assert (Hjoin : ∀ es, Forall (λ e, ".." ∉ segments e) es → ".." ∉ segments (Join es "/")).
  { induction es as [|e es IH]; intros He; [by intros ?%list_elem_of_singleton|].
    apply Forall_cons in He as [He Hes]. destruct es as [|e' es]; [done|].
    change (Join (e :: e' :: es) "/") with (e +:+ String slash (Join (e' :: es) "/")).
    unfold segments. rewrite Split_app_sep. apply not_elem_of_app. split; [done|by apply IH]. }
  destruct (filter _ _) as [|e es] eqn:E; [by intros ?%list_elem_of_singleton|]. rewrite <- E.
  apply Hclean, Hjoin, Forall_forall. intros x [_ Hx]%list_elem_of_filter.
  rewrite !elem_of_cons in Hx. destruct Hx as [->|[->|[->|Hx]]]; try done. by apply elem_of_nil in Hx.
Qed.

Lemma ProjectUniqueDir_no_up b shared : plain_token b → ".." ∉ segments (ProjectUniqueDir b shared).
Proof.
  intros Hp. unfold ProjectUniqueDir. destruct shared; [|apply project_dir_no_up].
  apply pathJoin3_no_up; [by apply no_dots_no_up|apply Itoa_no_dots|apply project_dir_no_up].
Qed.

(** C26: Without a custom clone path, the directory of a build lies inside the builds
    directory and the cache directory inside the cache root, whatever the repository
    URL or the project is called. *)
Theorem build_dir_is_inside_root b root cache enabled shared :
  IsAbs root = true → IsAbs cache = true → plain_token b →
  setting app (set_dirs b root (pathJoin [cache; ProjectUniqueDir b false]) (BuildDir b) None) "GIT_CLONE_PATH" = "" →
  let '(err, b') := StartBuild app b root cache enabled shared in
  err = None ∧ clean_segments root `prefix_of` clean_segments (BuildDir b') ∧
  clean_segments cache `prefix_of` clean_segments (CacheDir_ b') ∧
  IsAbs (BuildDir b') = true ∧ RootDir b' = root.
Proof.
  intros Hr Hc Hp Hs. unfold StartBuild, getCustomBuildDir. rewrite Hs. simpl.
  pose proof (pathJoin_inside root _ Hr (ProjectUniqueDir_no_up b shared Hp)) as [H1 H2].
  pose proof (pathJoin_inside cache _ Hc (ProjectUniqueDir_no_up b false Hp)) as [H3 _].
  split_and!; done.
Qed.

(** A clone URL from the runner's configuration that starts with [http] but has no
    [://] makes [GetRemoteURL] index past the split and panic; every other
    configuration gives a URL. *)
Theorem remote_url_panics_iff b :
  GetRemoteURL app b = None ↔
  HasPrefix (TrimRight (CloneURL (Runner b)) "/") "http" = true ∧
  Contains (TrimRight (CloneURL (Runner b)) "/") "://" = false.
Proof.
  unfold GetRemoteURL, SplitAfterN2, Contains.
  destruct (HasPrefix _ "http"); simpl; [|split; [done|by intros [? _]]].
  destruct (cut _ "://") as [[x y]|]; simpl; split; try done. by intros [_ ?].
Qed.

End Settings.

(** ** Rounding *)

Lemma lessThanHalf_spec x y : (0 ≤ x < 2 ^ 63)%Z → (0 ≤ y < 2 ^ 63)%Z → lessThanHalf x y = (2 * x <? y)%Z.
Proof.
  intros Hx Hy. unfold lessThanHalf. rewrite !(uint64_wrap_id x), (uint64_wrap_id y) by lia.
  rewrite uint64_wrap_id by lia. by replace (x + x)%Z with (2 * x)%Z by lia.
Qed.

Lemma int64_wrap_add_l a b : int64_wrap (int64_wrap a + b) = int64_wrap (a + b).
Proof.
  unfold int64_wrap. f_equal.
  replace ((a + 2 ^ 63) mod 2 ^ 64 - 2 ^ 63 + b + 2 ^ 63)%Z with ((a + 2 ^ 63) mod 2 ^ 64 + b)%Z by lia.
  rewrite Zplus_mod_idemp_l. f_equal. lia.
Qed.

Lemma int64_wrap_above z : (int64_max < z ≤ int64_max + 2 ^ 63)%Z → int64_wrap z = (z - 2 ^ 64)%Z.
Proof.
  unfold int64_max, int64_wrap. intros H.
  replace (z + 2 ^ 63)%Z with ((z - 2 ^ 63) + 1 * 2 ^ 64)%Z by lia.
  rewrite Z_mod_plus_full, Z.mod_small; lia.
Qed.

Lemma int64_wrap_below z : (int64_min - 2 ^ 63 ≤ z < int64_min)%Z → int64_wrap z = (z + 2 ^ 64)%Z.
Proof.
  unfold int64_min, int64_wrap. intros H.
  replace (z + 2 ^ 63)%Z with ((z + 2 ^ 63 + 2 ^ 64) + (-1) * 2 ^ 64)%Z by lia.
  rewrite Z_mod_plus_full, Z.mod_small; lia.
Qed.

(** [q] is the multiple of [m] nearest to [d], halves away from zero. *)
Definition nearest (d m q : Z) : Prop :=
  (m | q)%Z ∧ (2 * Z.abs (q - d) ≤ m)%Z ∧ (2 * Z.abs (q - d) = m → Z.abs d < Z.abs q)%Z.

(** Rounding a duration is exact on the whole range of 64-bit durations: the result
    is the nearest multiple (halves away from zero), or, when that does not fit, the
    largest or smallest duration. *)
Theorem roundDuration_is_nearest d m :
  in_int64 d → (0 < m ≤ int64_max)%Z →
  ∃ q, nearest d m q ∧
       roundDuration d m = (if (int64_max <? q)%Z then maxDuration
                            else if (q <? int64_min)%Z then minDuration else q).
Proof.
  intros Hd Hm. unfold in_int64, int64_min, int64_max in Hd, Hm. unfold roundDuration.
  rewrite (proj2 (Z.leb_gt m 0)) by lia.
  pose proof (Z.quot_rem' d m) as Hqr. set (k := Z.quot d m) in *. set (r := Z.rem d m) in *.
  destruct (Z.ltb_spec d 0) as [Hneg|Hpos].
  - assert (Hr : (- m < r ≤ 0)%Z) by (subst r; apply Z.rem_bound_pos_neg; lia).
    cbv zeta. rewrite (int64_wrap_id (- r)) by (unfold in_int64, int64_min, int64_max; lia).
    rewrite lessThanHalf_spec by lia. destruct (Z.ltb_spec (2 * - r) m).
    + exists (m * k)%Z. unfold nearest. split; [split_and!; [exists k; lia|lia|lia]|].
      rewrite int64_wrap_id by (unfold in_int64, int64_min, int64_max; lia).
      rewrite (proj2 (Z.ltb_ge _ _)), (proj2 (Z.ltb_ge _ _)) by (unfold int64_min, int64_max; lia). lia.
    + exists (m * (k - 1))%Z. unfold nearest. split; [split_and!; [exists (k - 1)%Z; lia|lia|lia]|].
      rewrite int64_wrap_add_l. replace (d - m + - r)%Z with (m * (k - 1))%Z by lia.
      rewrite (proj2 (Z.ltb_ge int64_max _)) by (unfold int64_max; lia).
      destruct (Z.ltb_spec (m * (k - 1)) int64_min) as [Hlow|Hin].
      * rewrite int64_wrap_below by (unfold int64_min in *; lia).
        rewrite (proj2 (Z.ltb_ge _ _)) by (unfold int64_min in *; lia). done.
      * rewrite int64_wrap_id by (unfold in_int64, int64_min, int64_max in *; lia).
        rewrite (proj2 (Z.ltb_lt _ _)) by lia. done.
  - assert (Hr : (0 ≤ r < m)%Z) by (subst r; apply Z.rem_bound_pos; lia).
    cbv zeta. rewrite lessThanHalf_spec by lia. destruct (Z.ltb_spec (2 * r) m).
    + exists (m * k)%Z. unfold nearest. split; [split_and!; [exists k; lia|lia|lia]|].
      rewrite int64_wrap_id by (unfold in_int64, int64_min, int64_max; lia).
      rewrite (proj2 (Z.ltb_ge _ _)), (proj2 (Z.ltb_ge _ _)) by (unfold int64_min, int64_max; lia). lia.
    + exists (m * (k + 1))%Z. unfold nearest. split; [split_and!; [exists (k + 1)%Z; lia|lia|lia]|].
      replace (int64_wrap (d + m) - r)%Z with (int64_wrap (d + m) + - r)%Z by lia.
      rewrite int64_wrap_add_l. replace (d + m + - r)%Z with (m * (k + 1))%Z by lia.
      destruct (Z.ltb_spec int64_max (m * (k + 1))) as [Hhigh|Hin].
      * rewrite int64_wrap_above by (unfold int64_max in *; lia).
        rewrite (proj2 (Z.ltb_ge _ _)) by (unfold int64_max in *; lia). done.
      * rewrite int64_wrap_id by (unfold in_int64, int64_min, int64_max in *; lia).
        rewrite (proj2 (Z.ltb_lt _ _)) by lia.
        rewrite (proj2 (Z.ltb_ge _ _)) by (unfold int64_min; lia). done.
Qed.

(** ** Concrete builds *)

Module DemoBuild.
#[global] Instance text : GoText := {
  IsPrint _ := true; parseURL _ := Ok ("gitlab.example.com", "/group/repo.git") }.

Definition app : AppVersionInfo :=
  {| App_Name := "gitlab-runner"; App_Version := "12.2"; App_Revision := "1"; App_Branch := "";
     App_GOVersion := ""; App_OS := "linux"; App_Architecture := "amd64" |}.

Definition job (vars : JobVariables) : JobResponse :=
  {| JR_ID := 1; JR_Token := "t"; JR_AllowGitFetch := false;
     JR_JobInfo := {| JI_Name := ""; JI_Stage := ""; JI_ProjectID := 7; JI_ProjectName := "" |};
     JR_GitInfo := {| GI_RepoURL := "https://gitlab.example.com/group/repo.git"; GI_Ref := "master";
                      GI_Sha := ""; GI_BeforeSha := ""; GI_RefType := ""; GI_Refspecs := []; GI_Depth := 0 |};
     JR_RunnerInfo := {| RI_Timeout := 3600 |}; JR_Variables := vars; JR_Steps := [];
     JR_Image := {| Image_Name := ""; Image_Alias := ""; Image_Command := []; Image_Entrypoint := []; Image_Ports := [] |};
     JR_Services := []; JR_Artifacts := []; JR_Cache := []; JR_Credentials := []; JR_Dependencies := [];
     JR_Features := {| GF_TraceSections := true |}; JR_TLSCAChain := ""; JR_TLSAuthCert := ""; JR_TLSAuthKey := "" |}.

Definition build (vars : JobVariables) : Build := NewBuild (job vars) (some_runner 0 0).

(** Every stage has a script; getting the sources fails. *)
Definition res (s : BuildStage) : option error :=
  if bool_decide (s = BuildStageGetSources) then Some (ErrText "exit status 1") else None.

Definition env : Env :=
  {| executor_found := true; provider_features := no_features; create_ok _ := true;
     prepare_result _ := None; context_err _ := None; shell_defined _ := true;
     generate_script _ _ := Ok "script"; run_result _ s := res s; woken_by _ := BuildFinish |}.
End DemoBuild.

Lemma job_outcome_matches_table_witness :
  ∃ b' evs, executeScript DemoBuild.app DemoBuild.env
      (DemoBuild.build [mkVar "GET_SOURCES_ATTEMPTS" "2" true false false]) []
    = (Some (ErrText "exit status 1"), b', [] ++ evs) ∧
    stages evs = [BuildStagePrepare; BuildStageGetSources; BuildStageGetSources;
                  BuildStageUploadOnFailureArtifacts].
Proof.
  refine (job_outcome_matches_table DemoBuild.app DemoBuild.env DemoBuild.res (λ _, "script") _ _ _
            (DemoBuild.build [mkVar "GET_SOURCES_ATTEMPTS" "2" true false false]) [] _ _ _).
  1, 3: reflexivity.
  1: done.
  all: vm_compute; split; discriminate.
Defined.

Lemma variable_precedence_witness :
  setting DemoBuild.app (DemoBuild.build [mkVar "CI_SERVER" "no" true false false]) "CI_SERVER" = "no".
Proof.
  refine (proj1 (proj2 (variable_precedence DemoBuild.app
            (DemoBuild.build [mkVar "CI_SERVER" "no" true false false]) "CI_SERVER" _ _) _) _).
  - reflexivity.
  - split; [done|]. apply (bool_decide_eq_false_1 _). reflexivity.
  - apply (bool_decide_eq_false_1 _). reflexivity.
  - left.
Defined.

Lemma build_dir_is_inside_root_witness :
  clean_segments "/builds" `prefix_of`
  clean_segments (BuildDir (StartBuild DemoBuild.app (DemoBuild.build []) "/builds" "/cache" false true).2) ∧
  BuildDir (StartBuild DemoBuild.app (DemoBuild.build []) "/builds" "/cache" false true).2
    = "/builds/01234567/0/group/repo".
Proof.
  split; [|vm_compute; reflexivity].
  refine (proj1 (proj2 (build_dir_is_inside_root DemoBuild.app (DemoBuild.build []) "/builds" "/cache"
                          false true _ _ _ _))); reflexivity.
Defined.

Lemma roundDuration_is_nearest_witness :
  (∃ q, nearest 1500000000 1000000000 q ∧
        roundDuration 1500000000 1000000000 = (if (int64_max <? q)%Z then maxDuration
                            else if (q <? int64_min)%Z then minDuration else q)) ∧
  roundDuration 1500000000 1000000000 = 2000000000%Z ∧
  roundDuration int64_max 1000000000 = int64_max.
Proof.
  split; [|split; vm_compute; reflexivity].
  apply (roundDuration_is_nearest 1500000000 1000000000).
  - unfold in_int64, int64_min, int64_max. lia.
  - unfold int64_max. lia.
Defined.

(** The check of a custom clone path is a comparison of texts: a path that climbs
    out of the builds directory, or one next to it with a longer name, is accepted
    although the message asks for a path within the root. *)
Theorem custom_build_dir_escapes :
  (let '(err, b) := StartBuild DemoBuild.app
      (DemoBuild.build [mkVar "GIT_CLONE_PATH" "/builds/../etc" true false false]) "/builds" "/cache" true true in
   err = None ∧ Clean (BuildDir b) = "/etc") ∧
  (let '(err, b) := StartBuild DemoBuild.app
      (DemoBuild.build [mkVar "GIT_CLONE_PATH" "/builds-of-others" true false false]) "/builds" "/cache" true true in
   err = None ∧ Clean (BuildDir b) = "/builds-of-others").
Proof. vm_compute. done. Qed.
