(* ===== verification/CIParser.v ===== *)
(** The local run of a job: the reader of .gitlab-ci.yml (helpers/gitlab_ci_yaml_parser),
    the map helpers it uses (helpers/converter.go) and the exec command (commands/exec.go).

    YAML itself is a parameter: [yaml_Unmarshal] gives the top-level map of a text. A map is
    the list of its pairs in the order in which the code's loop meets them, so that what is
    proved holds for every order of iteration. A type assertion that fails is a panic, which
    is told apart from an error that is returned. *)

From S2P Require Import Prelude GoLib Types Variables Config Build BuildProofs.
#[local] Open Scope go_scope.

(** ** Values *)

(** What [yaml.Unmarshal] puts into an [interface{}]: maps below the top have keys of any
    type, [YStrMap] is a [map[string]interface{}]. *)
Inductive yval :=
| YNull | YBool (b : bool) | YInt (z : Z) | YFloat (text : string) | YString (s : string)
| YList (l : list yval)
| YMap (m : list (yval * yval))
| YStrMap (m : list (string * yval)).

Definition DataBag : Type := list (string * yval).

Inductive failure := Returned (msg : string) | Panicked (what : string).
Abbreviation outcome := (result failure).
Definition returned {A} (msg : string) : outcome A := Err (Returned msg).
Definition panics {A} (what : string) : outcome A := Err (Panicked what).

(** Indexing a map: the value, or nothing. *)
Fixpoint bag_get (m : DataBag) (key : string) : option yval :=
  match m with
  | [] => None
  | (k, v) :: m' => if bool_decide (k = key) then Some v else bag_get m' key
  end.
Fixpoint any_get (m : list (yval * yval)) (key : string) : option yval :=
  match m with
  | [] => None
  | (YString k, v) :: m' => if bool_decide (k = key) then Some v else any_get m' key
  | _ :: m' => any_get m' key
  end.

(** [m[key]] where a missing key reads as nil. *)
Definition index (m : DataBag) (key : string) : yval := default YNull (bag_get m key).

(** *** helpers/converter.go *)

Fixpoint GetMapKey (v : yval) (keys : list string) : option yval :=
  match keys with
  | [] => Some v
  | key :: rest =>
      match v with
      | YStrMap m => match bag_get m key with Some v' => GetMapKey v' rest | None => None end
      | YMap m => match any_get m key with Some v' => GetMapKey v' rest | None => None end
      | _ => None
      end
  end.

(** The keys of a map as strings; the first that is none panics. *)
Fixpoint string_keys (m : list (yval * yval)) : outcome DataBag :=
  match m with
  | [] => Ok []
  | (YString k, v) :: m' => let? rest := string_keys m' in Ok ((k, v) :: rest)
  | _ => panics "interface conversion: not a string"
  end.

Definition ToConfigMap (v : yval) : outcome (option DataBag) :=
  match v with
  | YStrMap m => Ok (Some m)
  | YMap m => let? m' := string_keys m in Ok (Some m')
  | _ => Ok None
  end.

(** ** data_bag.go *)

Definition bag_Get (m : DataBag) (key : string) : option yval := GetMapKey (YStrMap m) [key].

(** A value that is there and no list panics; null counts as missing. *)
Definition GetSlice (m : DataBag) (key : string) : outcome (option (list yval)) :=
  match bag_Get m key with
  | None | Some YNull => Ok None
  | Some (YList l) => Ok (Some l)
  | Some _ => panics "interface conversion: not a slice"
  end.

Definition strings_of (l : list yval) : list string := omap (λ v, match v with YString s => Some s | _ => None end) l.
Definition GetStringSlice (m : DataBag) (key : string) : outcome (option (list string)) :=
  let? o := GetSlice m key in Ok (strings_of <$> o).

Definition GetSubOptions (m : DataBag) (key : string) : option DataBag :=
  match bag_Get m key with Some (YStrMap m') => Some m' | _ => None end.
Definition GetString (m : DataBag) (key : string) : option string :=
  match bag_Get m key with Some (YString s) => Some s | _ => None end.

Section Parser.
(** [fmt.Sprintf("%v", x)] and [fmt.Sprintf("%q", s)]. *)
Context (print_v : yval → string) (quote : string → string).

(** Maps become maps with string keys, but not the maps inside of lists. *)
Fixpoint convertMapToStringMap (v : yval) : result string yval :=
  match v with
  | YStrMap m =>
      let? m' := (fix convert (m : DataBag) : result string DataBag :=
                    match m with
                    | [] => Ok []
                    | (k, v) :: rest =>
                        let? v' := convertMapToStringMap v in let? rest' := convert rest in Ok ((k, v') :: rest')
                    end) m in Ok (YStrMap m')
  | YMap m =>
      let? m' := (fix convert (m : list (yval * yval)) : result string DataBag :=
                    match m with
                    | [] => Ok []
                    | (YString k, v) :: rest =>
                        let? v' := convertMapToStringMap v in let? rest' := convert rest in Ok ((k, v') :: rest')
                    | (k, _) :: _ => Err ("failed to convert " +:+ print_v k +:+ " to string")
                    end) m in Ok (YStrMap m')
  | _ => Ok v
  end.

Fixpoint Sanitize (m : DataBag) : result string DataBag :=
  match m with
  | [] => Ok []
  | (k, v) :: rest =>
      let? v' := convertMapToStringMap v in let? rest' := Sanitize rest in Ok ((k, v') :: rest')
  end.

Definition getOptionsMap (optionKey : string) (primary secondary : DataBag) : DataBag :=
  match GetSubOptions primary optionKey with
  | Some value => value
  | None => default [] (GetSubOptions secondary optionKey)
  end.

Definition getOptions (optionKey : string) (primary secondary : DataBag) : outcome (option (list yval)) :=
  let? value := GetSlice primary optionKey in
  match value with
  | Some _ => Ok value
  | None => GetSlice secondary optionKey
  end.

(** ** parser.go *)

Record GitLabCiYamlParser := mkParser { filename : string; jobName : string; config : DataBag; jobConfig : DataBag }.

Definition NewGitLabCiYamlParser (name : string) : GitLabCiYamlParser := mkParser ".gitlab-ci.yml" name [] [].

Section File.
Context (ReadFile : string → result string string) (yaml_Unmarshal : string → result string DataBag).

Definition of_error {A} (r : result string A) : outcome A :=
  match r with Ok a => Ok a | Err msg => returned msg end.

Definition parseFile (c : GitLabCiYamlParser) : outcome GitLabCiYamlParser :=
  let? data := of_error (ReadFile (filename c)) in
  let? cfg := of_error (yaml_Unmarshal data) in
  let? cfg := of_error (Sanitize cfg) in
  Ok (mkParser (filename c) (jobName c) cfg (jobConfig c)).

Definition loadJob (c : GitLabCiYamlParser) : outcome GitLabCiYamlParser :=
  match GetSubOptions (config c) (jobName c) with
  | None => returned ("no job named " +:+ quote (jobName c))
  | Some jc => Ok (mkParser (filename c) (jobName c) (config c) jc)
  end.

(** The parts of a job that the parser sets. *)
Definition job_with (j : JobResponse) info vars steps image services artifacts cache : JobResponse :=
  {| JR_ID := JR_ID j; JR_Token := JR_Token j; JR_AllowGitFetch := JR_AllowGitFetch j; JR_JobInfo := info;
     JR_GitInfo := JR_GitInfo j; JR_RunnerInfo := JR_RunnerInfo j; JR_Variables := vars; JR_Steps := steps;
     JR_Image := image; JR_Services := services; JR_Artifacts := artifacts; JR_Cache := cache;
     JR_Credentials := JR_Credentials j; JR_Dependencies := JR_Dependencies j; JR_Features := JR_Features j;
     JR_TLSCAChain := JR_TLSCAChain j; JR_TLSAuthCert := JR_TLSAuthCert j; JR_TLSAuthKey := JR_TLSAuthKey j |}.

Definition prepareJobInfo (c : GitLabCiYamlParser) (job : JobResponse) : outcome JobResponse :=
  let info := {| JI_Name := jobName c; JI_Stage := default "test" (GetString (jobConfig c) "stage");
                 JI_ProjectID := 0; JI_ProjectName := "" |} in
  Ok (job_with job info (JR_Variables job) (JR_Steps job) (JR_Image job) (JR_Services job) (JR_Artifacts job) (JR_Cache job)).

Fixpoint command_lines (lines : list yval) : outcome (list string) :=
  match lines with
  | [] => Ok []
  | YString line :: rest => let? steps := command_lines rest in Ok (line :: steps)
  | _ => returned "unsupported script"
  end.

Definition getCommands (commands : yval) : outcome (list string) :=
  match commands with
  | YList lines => command_lines lines
  | YString text => Ok (Split text "010"%char)
  | YNull => Ok []
  | _ => returned "unsupported script"
  end.

Definition step (name : string) (script : list string) (when : string) : Step :=
  {| Step_Name := name; Step_Script := script; Step_Timeout := 3600; Step_When := when; Step_AllowFailure := false |}.

Definition is_null (v : yval) : bool := match v with YNull => true | _ => false end.

Definition prepareSteps (c : GitLabCiYamlParser) (job : JobResponse) : outcome JobResponse :=
  if is_null (index (jobConfig c) "script") then returned "missing 'script' for job"
  else
    let? beforeScript := getCommands (index (config c) "before_script") in
    let? jobBeforeScript := getCommands (index (jobConfig c) "before_script") in
    let scriptCommands := if bool_decide (length jobBeforeScript < 1) then beforeScript else jobBeforeScript in
    let? script := getCommands (index (jobConfig c) "script") in
    let? afterScript := getCommands (index (jobConfig c) "after_script") in
    let steps := [step StepNameScript (scriptCommands ++ script) "on_success"; step StepNameAfterScript afterScript "always"] in
    Ok (job_with job (JR_JobInfo job) (JR_Variables job) steps (JR_Image job) (JR_Services job) (JR_Artifacts job) (JR_Cache job)).

Definition variable (key value : string) (internal : bool) : JobVariable :=
  {| Key := key; Value := value; Public := true; Internal := internal; File := false; Masked_ := false |}.

Definition buildDefaultVariables (job : JobResponse) : JobVariables :=
  let info := JR_JobInfo job in let git := JR_GitInfo job in
  [ variable "CI" "true" true; variable "GITLAB_CI" "true" true; variable "CI_SERVER_NAME" "GitLab CI" true;
    variable "CI_SERVER_VERSION" "" true; variable "CI_SERVER_REVISION" "" true;
    variable "CI_PROJECT_ID" (Itoa (JI_ProjectID info)) true; variable "CI_JOB_ID" (Itoa (JR_ID job)) true;
    variable "CI_JOB_NAME" (JI_Name info) true; variable "CI_JOB_STAGE" (JI_Stage info) true;
    variable "CI_JOB_TOKEN" (JR_Token job) true; variable "CI_REPOSITORY_URL" (GI_RepoURL git) true;
    variable "CI_COMMIT_SHA" (GI_Sha git) true; variable "CI_COMMIT_BEFORE_SHA" (GI_BeforeSha git) true;
    variable "CI_COMMIT_REF_NAME" (GI_Ref git) true ].

(** The loop goes on after a bad value: the error is that of the last one. *)
Fixpoint build_variables (m : DataBag) (acc : JobVariables) (err : option string) : JobVariables * option string :=
  match m with
  | [] => (acc, err)
  | (key, YString value) :: rest => build_variables rest (acc ++ [variable key value false]) err
  | (key, _) :: rest => build_variables rest acc (Some ("invalid value for variable " +:+ quote key))
  end.
Definition buildVariables (v : yval) : outcome JobVariables :=
  match v with
  | YStrMap m => match build_variables m [] None with (vars, None) => Ok vars | (_, Some msg) => returned msg end
  | YNull => Ok []
  | _ => returned "unsupported variables"
  end.

Definition prepareVariables (c : GitLabCiYamlParser) (job : JobResponse) : outcome JobResponse :=
  let? global := buildVariables (index (config c) "variables") in
  let? own := buildVariables (index (jobConfig c) "variables") in
  let vars := buildDefaultVariables job ++ global ++ own in
  Ok (job_with job (JR_JobInfo job) vars (JR_Steps job) (JR_Image job) (JR_Services job) (JR_Artifacts job) (JR_Cache job)).

Definition image (name alias : string) (command entrypoint : list string) : Image :=
  {| Image_Name := name; Image_Alias := alias; Image_Command := command; Image_Entrypoint := entrypoint; Image_Ports := [] |}.

Definition image_of (definition : DataBag) : outcome Image :=
  let? entrypoint := GetStringSlice definition "entrypoint" in
  Ok (image (default "" (GetString definition "name")) "" [] (default [] entrypoint)).

Definition find_image (c : GitLabCiYamlParser) : outcome Image :=
  match GetString (jobConfig c) "image", GetSubOptions (jobConfig c) "image",
        GetString (config c) "image", GetSubOptions (config c) "image" with
  | Some name, _, _, _ => Ok (image name "" [] [])
  | None, Some definition, _, _ => image_of definition
  | None, None, Some name, _ => Ok (image name "" [] [])
  | None, None, None, Some definition => image_of definition
  | None, None, None, None => Ok (image "" "" [] [])
  end.
Definition prepareImage (c : GitLabCiYamlParser) (job : JobResponse) : outcome JobResponse :=
  let? img := find_image c in
  Ok (job_with job (JR_JobInfo job) (JR_Variables job) (JR_Steps job) img (JR_Services job) (JR_Artifacts job) (JR_Cache job)).

Definition parseExtendedServiceDefinitionMap (m : list (yval * yval)) : outcome Image :=
  let? service := string_keys m in
  let? command := GetStringSlice service "command" in
  let? entrypoint := GetStringSlice service "entrypoint" in
  Ok (image (default "" (GetString service "name")) (default "" (GetString service "alias"))
            (default [] command) (default [] entrypoint)).

(** Anything but a name or a map with keys of any type is skipped. *)
Fixpoint services_of (l : list yval) : outcome (list Image) :=
  match l with
  | [] => Ok []
  | YString name :: rest => let? is_ := services_of rest in Ok (image name "" [] [] :: is_)
  | YMap m :: rest =>
      let? i := parseExtendedServiceDefinitionMap m in let? is_ := services_of rest in Ok (i :: is_)
  | _ :: rest => services_of rest
  end.
Definition prepareServices (c : GitLabCiYamlParser) (job : JobResponse) : outcome JobResponse :=
  let? o := getOptions "services" (jobConfig c) (config c) in
  let? services := services_of (default [] o) in
  Ok (job_with job (JR_JobInfo job) (JR_Variables job) (JR_Steps job) (JR_Image job) services (JR_Artifacts job) (JR_Cache job)).

Fixpoint assert_strings (l : list yval) : outcome (list string) :=
  match l with
  | [] => Ok []
  | YString s :: rest => let? ss := assert_strings rest in Ok (s :: ss)
  | _ => panics "interface conversion: not a string"
  end.
Definition paths_of (m : DataBag) : outcome (list string) :=
  let? o := GetSlice m "paths" in assert_strings (default [] o).
Definition untracked_of (m : DataBag) : outcome bool :=
  match default (YBool false) (bag_Get m "untracked") with
  | YBool b => Ok b
  | _ => panics "interface conversion: not a bool"
  end.

Definition prepareArtifacts (c : GitLabCiYamlParser) (job : JobResponse) : outcome JobResponse :=
  let m := getOptionsMap "artifacts" (jobConfig c) (config c) in
  let? paths := paths_of m in
  let? untracked := untracked_of m in
  let artifact := {| Art_Name := default "" (GetString m "name"); Art_Untracked := untracked; Art_Paths := paths;
                     Art_When := default ArtifactWhenOnSuccess (GetString m "when"); Art_Type := ""; Art_Format := "";
                     Art_ExpireIn := default "" (GetString m "expireIn") |} in
  Ok (job_with job (JR_JobInfo job) (JR_Variables job) (JR_Steps job) (JR_Image job) (JR_Services job) [artifact] (JR_Cache job)).

Definition prepareCache (c : GitLabCiYamlParser) (job : JobResponse) : outcome JobResponse :=
  let m := getOptionsMap "cache" (jobConfig c) (config c) in
  let? paths := paths_of m in
  let? untracked := untracked_of m in
  let cache := {| Cache_Key := default "" (GetString m "key"); Cache_Untracked := untracked; Cache_Policy := "";
                  Cache_Paths := paths |} in
  Ok (job_with job (JR_JobInfo job) (JR_Variables job) (JR_Steps job) (JR_Image job) (JR_Services job) (JR_Artifacts job) [cache]).

(** The steps in the order of the list; each may end the parsing. *)
Definition parsers : list (GitLabCiYamlParser → JobResponse → outcome JobResponse) :=
  [prepareJobInfo; prepareSteps; prepareVariables; prepareImage; prepareServices; prepareArtifacts; prepareCache].

Fixpoint run_parsers (ps : list (GitLabCiYamlParser → JobResponse → outcome JobResponse)) (c : GitLabCiYamlParser)
    (job : JobResponse) : outcome JobResponse :=
  match ps with
  | [] => Ok job
  | p :: rest => let? job := p c job in run_parsers rest c job
  end.

Definition ParseYaml (c : GitLabCiYamlParser) (job : JobResponse) : outcome JobResponse :=
  let? c := parseFile c in
  let? c := loadJob c in
  run_parsers parsers c job.

(** ** commands/exec.go *)

Definition DefaultExecTimeout : Z := 1800.

Section Exec.
(** The output of a command or its error, and the copy of the runner's configuration. *)
Context (runCommand : list string → result string string) (copy_error : option string).

Definition getTimeout (timeout : Z) : Z := if (0 <? timeout)%Z then timeout else DefaultExecTimeout.

Definition exec_job (repoURL sha beforeSha refName : string) (timeout : Z) : JobResponse :=
  {| JR_ID := 1; JR_Token := ""; JR_AllowGitFetch := false;
     JR_JobInfo := {| JI_Name := ""; JI_Stage := ""; JI_ProjectID := 1; JI_ProjectName := "" |};
     JR_GitInfo := {| GI_RepoURL := repoURL; GI_Ref := TrimSpace refName; GI_Sha := TrimSpace sha;
                      GI_BeforeSha := TrimSpace beforeSha; GI_RefType := ""; GI_Refspecs := []; GI_Depth := 0 |};
     JR_RunnerInfo := {| RI_Timeout := getTimeout timeout |};
     JR_Variables := []; JR_Steps := []; JR_Image := image "" "" [] []; JR_Services := []; JR_Artifacts := [];
     JR_Cache := []; JR_Credentials := []; JR_Dependencies := []; JR_Features := {| GF_TraceSections := false |};
     JR_TLSCAChain := ""; JR_TLSAuthCert := ""; JR_TLSAuthKey := "" |}.

(** Whether changes that are not committed were warned about, and the build. *)
Definition uncommitted : bool :=
  match runCommand ["git"; "diff"; "--quiet"; "HEAD"] with Ok _ => false | Err _ => true end.
Definition no_commit : string := "0000000000000000000000000000000000000000".

Definition createBuild (runner : RunnerConfig) (timeout : Z) (repoURL : string) : bool * result string Build :=
  (uncommitted,
   let? sha := runCommand ["git"; "rev-parse"; "HEAD"] in
   let beforeSha := match runCommand ["git"; "rev-parse"; "HEAD~1"] with Ok s => s | Err _ => no_commit end in
   let? refName := runCommand ["git"; "rev-parse"; "--abbrev-ref"; "HEAD"] in
   match copy_error with
   | Some err => Err err
   | None => Ok (NewBuild (exec_job repoURL sha beforeSha refName timeout) runner)
   end).

(** What the command does: it prints its help, dies with an error or a panic, or runs a
    build; the volumes are those of the docker executor. *)
Inductive exec_end := ShowHelp | Fatal (msg : string) | Crash (what : string) | RunBuild (b : Build) (volumes : list string).

Definition set_Executor (r : RunnerConfig) (name : string) : RunnerConfig :=
  {| Name := Name r; Limit := Limit r; OutputLimit := OutputLimit r; RequestConcurrency := RequestConcurrency r;
     Credentials_ := Credentials_ r; Executor := name; BuildsDir := BuildsDir r; CacheDir := CacheDir r;
     CloneURL := CloneURL r; Environment := Environment r; PreCloneScript := PreCloneScript r;
     PreBuildScript := PreBuildScript r; PostBuildScript := PostBuildScript r;
     DebugTraceDisabled := DebugTraceDisabled r; Shell := Shell r; CustomBuildDir := CustomBuildDir r;
     CacheCfg := CacheCfg r; Machine := Machine r; Kubernetes := Kubernetes r |}.

Definition set_Job (b : Build) (j : JobResponse) : Build :=
  mkBuild j (RootDir b) (BuildDir b) (CacheDir_ b) (Runner b) (ExecutorFeatures b) (RunnerID b) (ProjectRunnerID b)
    (CurrentStage b) (CurrentState b) (allVariables b).

Definition exec_Execute (Getwd : result string string) (args : list string) (commandName : string)
    (runner : RunnerConfig) (volumes : list string) (timeout : Z) : exec_end :=
  match Getwd with
  | Err err => Fatal err
  | Ok wd =>
      match args with
      | [job] =>
          match snd (createBuild (set_Executor runner commandName) timeout wd) with
          | Err err => Fatal err
          | Ok build =>
              match ParseYaml (NewGitLabCiYamlParser job) (Job build) with
              | Err (Returned msg) => Fatal msg
              | Err (Panicked what) => Crash what
              | Ok j => RunBuild (set_Job build j) (volumes ++ [wd +:+ ":" +:+ wd +:+ ":ro"])
              end
          end
      | _ => ShowHelp
      end
  end.
End Exec.
End File.
End Parser.
