(* ===== verification/CIParserProofs.v ===== *)
(** The local run of a job: the normal form of the file's maps, and what a well-typed file
    gives. *)

From S2P Require Import Prelude GoLib Types Variables Config Build BuildProofs CIParser.
#[local] Open Scope go_scope.

(** ** Induction on values *)

Section Induction.
Context (Q : yval → Prop).
Context (Hnull : Q YNull) (Hbool : ∀ b, Q (YBool b)) (Hint : ∀ z, Q (YInt z)) (Hfloat : ∀ t, Q (YFloat t))
        (Hstring : ∀ s, Q (YString s)) (Hlist : ∀ l, Forall Q l → Q (YList l))
        (Hmap : ∀ m, Forall (λ p, Q (snd p)) m → Q (YMap m))
        (Hstr : ∀ m, Forall (λ p, Q (snd p)) m → Q (YStrMap m)).

Lemma yval_ind' : ∀ v, Q v.
Proof.
  fix IH 1. intros [|b|z|t|s|l|m|m]; [done|done|done|done|done|apply Hlist|apply Hmap|apply Hstr].
  - induction l as [|x l IHl]; constructor; [apply IH|exact IHl].
  - induction m as [|[k v] m IHm]; constructor; [apply IH|exact IHm].
  - induction m as [|[k v] m IHm]; constructor; [apply IH|exact IHm].
Qed.
End Induction.

(** ** Sanitizing *)

Lemma ok_bind {E A B} (r : result E A) (f : A → B) : (∃ b, (let? a := r in Ok (f a)) = Ok b) ↔ ∃ a, r = Ok a.
Proof. destruct r; simpl; split; intros [x H]; simplify_eq; eauto. Qed.
Lemma ok_bind2 {E A B C} (r : result E A) (r' : result E B) (f : A → B → C) :
  (∃ c, (let? a := r in let? b := r' in Ok (f a b)) = Ok c) ↔ (∃ a, r = Ok a) ∧ ∃ b, r' = Ok b.
Proof.
  destruct r, r'; simpl; split; [eauto|eauto| | | | | |]; first [intros [x H]; done|intros [[x H] [y H']]; done].
Qed.

(** No map with keys of any type, except inside of lists. *)
Fixpoint sane (v : yval) : bool :=
  match v with
  | YMap _ => false
  | YStrMap m => forallb (λ p, sane (snd p)) m
  | _ => true
  end.
Definition sane_bag (m : DataBag) : bool := forallb (λ p, sane (snd p)) m.

(** Every map outside of the lists has strings as its keys. *)
Definition is_text (v : yval) : bool := match v with YString _ => true | _ => false end.
Fixpoint text_keys (v : yval) : bool :=
  match v with
  | YMap m => forallb (λ p, is_text (fst p) && text_keys (snd p)) m
  | YStrMap m => forallb (λ p, text_keys (snd p)) m
  | _ => true
  end.

Section Sanitizing.
Context (print_v : yval → string).
Abbreviation convert := (convertMapToStringMap print_v).

Lemma convert_YStrMap m : convert (YStrMap m) = let? m' := Sanitize print_v m in Ok (YStrMap m').
Proof.
  cbn [convertMapToStringMap]. apply (f_equal (λ r, result_bind r (λ m', Ok (YStrMap m')))).
  induction m as [|[k v] m IH]; [done|]. cbn [Sanitize]. destruct (convert v); [|done]. simpl. by rewrite IH.
Qed.

(** What the loop over a map with keys of any type makes. *)
Fixpoint convert_pairs (m : list (yval * yval)) : result string DataBag :=
  match m with
  | [] => Ok []
  | (YString k, v) :: rest => let? v' := convert v in let? rest' := convert_pairs rest in Ok ((k, v') :: rest')
  | (k, _) :: _ => Err ("failed to convert " +:+ print_v k +:+ " to string")
  end.
Lemma convert_YMap m : convert (YMap m) = let? m' := convert_pairs m in Ok (YStrMap m').
Proof.
  cbn [convertMapToStringMap]. apply (f_equal (λ r, result_bind r (λ m', Ok (YStrMap m')))).
  by induction m as [|[[] v] m IH].
Qed.

Lemma convert_sane v v' : convert v = Ok v' → sane v' = true.
Proof.
  revert v'. induction v as [|b|z|t|s|l _|m IH|m IH] using yval_ind'; intros v'; try (intros [= <-]; done).
  - rewrite convert_YMap. destruct (convert_pairs m) as [m'|] eqn:E; [|done]. intros [= <-]. simpl.
    revert m' E. induction IH as [|[k v] m Hv _ IHm]; intros m'; simpl; [by intros [= <-]|].
    destruct k; try done. destruct (convert v) as [w|] eqn:Ew; [|done]. simpl.
    destruct (convert_pairs m) as [r|]; [|done]. intros [= <-]. simpl. by rewrite (Hv w Ew), (IHm r).
  - rewrite convert_YStrMap. destruct (Sanitize print_v m) as [m'|] eqn:E; [|done]. intros [= <-]. simpl.
    revert m' E. induction IH as [|[k v] m Hv _ IHm]; intros m'; simpl; [by intros [= <-]|].
    destruct (convert v) as [w|] eqn:Ew; [|done]. simpl.
    destruct (Sanitize print_v m) as [r|]; [|done]. intros [= <-]. simpl. by rewrite (Hv w Ew), (IHm r).
Qed.

Lemma convert_id v : sane v = true → convert v = Ok v.
Proof.
  induction v as [|b|z|t|s|l _|m IH|m IH] using yval_ind'; try done. simpl sane. intros Hs. rewrite convert_YStrMap.
  enough (Sanitize print_v m = Ok m) as -> by done.
  induction IH as [|[k v] m Hv _ IHm]; [done|]. simpl in Hs. apply andb_true_iff in Hs as [H1 H2]. cbn [snd] in Hv. simpl.
  rewrite Hv by done. simpl. by rewrite IHm.
Qed.

Lemma convert_ok_iff v : (∃ v', convert v = Ok v') ↔ text_keys v = true.
Proof.
  induction v as [|b|z|t|s|l _|m IH|m IH] using yval_ind'; try (simpl; naive_solver); simpl text_keys.
  - rewrite convert_YMap, ok_bind.
    induction IH as [|[k v] m Hv _ IHm]; simpl; [split; eauto|].
    destruct k; simpl; try (split; [by intros []|done]). by rewrite ok_bind2, andb_true_iff, <- Hv, <- IHm.
  - rewrite convert_YStrMap, ok_bind.
    induction IH as [|[k v] m Hv _ IHm]; simpl; [split; eauto|]. by rewrite ok_bind2, andb_true_iff, <- Hv, <- IHm.
Qed.

(** Sanitizing succeeds exactly when every map outside of the lists has string keys; what it
    gives has no other map, and is left alone by sanitizing it again. *)
Lemma sanitize_normal_form m :
  ((∃ m', Sanitize print_v m = Ok m') ↔ text_keys (YStrMap m) = true) ∧
  ∀ m', Sanitize print_v m = Ok m' → sane_bag m' = true ∧ Sanitize print_v m' = Ok m'.
Proof.
  split.
  - by rewrite <- convert_ok_iff, convert_YStrMap, ok_bind.
  - intros m' E. assert (Hs : sane (YStrMap m') = true) by (apply (convert_sane (YStrMap m)); by rewrite convert_YStrMap, E).
    split; [done|]. apply convert_id in Hs. rewrite convert_YStrMap in Hs. destruct (Sanitize print_v m'); simpl in Hs; congruence.
Qed.
End Sanitizing.

(** ** Well-typed files *)

Definition is_list (o : option yval) : bool :=
  match o with None | Some YNull | Some (YList _) => true | _ => false end.
Definition script_ok (v : yval) : bool :=
  match v with YNull | YString _ => true | YList l => forallb is_text l | _ => false end.
Definition variables_ok (v : yval) : bool :=
  match v with YNull => true | YStrMap m => forallb (λ p, is_text (snd p)) m | _ => false end.
Definition image_ok (m : DataBag) : bool :=
  match bag_get m "image" with Some (YStrMap d) => is_list (bag_get d "entrypoint") | _ => true end.
Definition service_ok (v : yval) : bool :=
  match v with
  | YMap m => match string_keys m with
              | Ok d => is_list (bag_get d "command") && is_list (bag_get d "entrypoint")
              | Err _ => false
              end
  | _ => true
  end.
Definition list_of (o : option yval) : list yval := match o with Some (YList l) => l | _ => [] end.
Definition services_ok (m : DataBag) : bool :=
  is_list (bag_get m "services") && forallb service_ok (list_of (bag_get m "services")).
Definition section_ok (d : DataBag) : bool :=
  is_list (bag_get d "paths") && forallb is_text (list_of (bag_get d "paths")) &&
  match bag_get d "untracked" with None | Some (YBool _) => true | _ => false end.

Definition well_typed (cfg jc : DataBag) : bool :=
  negb (is_null (index jc "script")) && script_ok (index jc "script") && script_ok (index jc "after_script") &&
  script_ok (index jc "before_script") && script_ok (index cfg "before_script") &&
  variables_ok (index jc "variables") && variables_ok (index cfg "variables") &&
  image_ok jc && image_ok cfg && services_ok jc && services_ok cfg &&
  section_ok (getOptionsMap "artifacts" jc cfg) && section_ok (getOptionsMap "cache" jc cfg).

(** What the file says. *)
Definition lines (v : yval) : list string :=
  match v with YList l => strings_of l | YString t => Split t "010"%char | _ => [] end.
Definition text_of (o : option yval) : option string := match o with Some (YString s) => Some s | _ => None end.
Definition variable_of (m : DataBag) (key : string) : option string :=
  match index m "variables" with YStrMap d => text_of (bag_get d key) | _ => None end.
Definition variables_distinct (m : DataBag) : Prop :=
  match index m "variables" with YStrMap d => NoDup d.*1 | _ => True end.
Definition image_name (m : DataBag) : option string :=
  match bag_get m "image" with
  | Some (YString s) => Some s
  | Some (YStrMap d) => Some (default "" (text_of (bag_get d "name")))
  | _ => None
  end.

Lemma bag_Get_eq m key : bag_Get m key = bag_get m key.
Proof. unfold bag_Get. simpl. by destruct (bag_get m key). Qed.
Lemma GetString_eq m key : GetString m key = text_of (bag_get m key).
Proof. unfold GetString. by rewrite bag_Get_eq. Qed.

Lemma getCommands_ok v : script_ok v = true → getCommands v = Ok (lines v).
Proof.
  destruct v as [| | | | |l| |]; try done. simpl. induction l as [|x l IH]; [done|]. simpl.
  destruct x; try done. intros H. by rewrite IH.
Qed.

Lemma GetSlice_ok m key : is_list (bag_get m key) = true → ∃ o, GetSlice m key = Ok o ∧ default [] o = list_of (bag_get m key).
Proof. intros H. unfold GetSlice. rewrite bag_Get_eq. destruct (bag_get m key) as [[]|]; try done; eexists; done. Qed.

Lemma GetStringSlice_ok m key : is_list (bag_get m key) = true → ∃ o, GetStringSlice m key = Ok o.
Proof. intros H. unfold GetStringSlice. destruct (GetSlice_ok m key H) as (o & -> & _). simpl. eauto. Qed.

Lemma assert_strings_ok l : forallb is_text l = true → assert_strings l = Ok (strings_of l).
Proof. induction l as [|x l IH]; [done|]. simpl. destruct x; try done. intros H. by rewrite IH. Qed.

Lemma section_paths_ok d : section_ok d = true → paths_of d = Ok (strings_of (list_of (bag_get d "paths"))).
Proof.
  unfold section_ok. rewrite !andb_true_iff. intros [[Hl Ht] _]. unfold paths_of.
  destruct (GetSlice_ok d "paths" Hl) as (o & -> & Ho). simpl. rewrite Ho. by apply assert_strings_ok.
Qed.
Lemma section_untracked_ok d : section_ok d = true → ∃ b, untracked_of d = Ok b.
Proof.
  unfold section_ok. rewrite !andb_true_iff. intros [_ Hu]. unfold untracked_of. rewrite bag_Get_eq.
  destruct (bag_get d "untracked") as [[]|]; try done; simpl; eauto.
Qed.

Lemma services_of_ok l : forallb service_ok l = true → ∃ is_, services_of l = Ok is_.
Proof.
  induction l as [|x l IH]; [simpl; eauto|]. simpl. rewrite andb_true_iff. intros [Hx Hl].
  destruct (IH Hl) as [is_ Hi]. destruct x as [| | | |s| |m|]; simpl; rewrite ?Hi; simpl; eauto.
  simpl in Hx. unfold parseExtendedServiceDefinitionMap. destruct (string_keys m) as [d|]; [|done]. simpl.
  apply andb_true_iff in Hx as [H1 H2]. destruct (GetStringSlice_ok d _ H1) as [o1 ->]. simpl.
  destruct (GetStringSlice_ok d _ H2) as [o2 ->]. simpl. eauto.
Qed.

Lemma getOptions_ok jc cfg :
  services_ok jc = true → services_ok cfg = true →
  ∃ o, getOptions "services" jc cfg = Ok o ∧ forallb service_ok (default [] o) = true.
Proof.
  unfold services_ok, getOptions. rewrite !andb_true_iff. intros [H1 H2] [H3 H4].
  destruct (GetSlice_ok jc _ H1) as (o1 & -> & E1). destruct (GetSlice_ok cfg _ H3) as (o2 & -> & E2). simpl.
  destruct o1; eexists; (split; [done|]); by rewrite ?E1, ?E2.
Qed.

Lemma find_image_ok c :
  image_ok (jobConfig c) = true → image_ok (config c) = true →
  ∃ i, find_image c = Ok i ∧ Image_Name i = default "" (image_name (jobConfig c) ∪ image_name (config c)).
Proof.
  assert (Him : ∀ d, is_list (bag_get d "entrypoint") = true → ∃ i, image_of d = Ok i ∧ Image_Name i = default "" (text_of (bag_get d "name"))).
  { intros d Hd. unfold image_of. destruct (GetStringSlice_ok d _ Hd) as [o ->]. simpl. eexists. split; [done|]. by rewrite GetString_eq. }
  unfold image_ok, find_image, image_name, GetSubOptions. rewrite !GetString_eq, !bag_Get_eq.
  destruct (bag_get (jobConfig c) "image") as [[]|], (bag_get (config c) "image") as [[]|]; simpl; intros H1 H2;
    first [by apply Him | eexists; split; done].
Qed.

(** *** Variables *)

Section Files.
Context (print_v : yval → string) (quote : string → string).

Definition variables_list (d : DataBag) : JobVariables :=
  omap (λ p, match snd p with YString x => Some (variable (fst p) x false) | _ => None end) d.

Lemma variables_list_cons k v d :
  variables_list ((k, v) :: d) =
    match v with YString x => variable k x false :: variables_list d | _ => variables_list d end.
Proof. by destruct v. Qed.

Lemma build_variables_ok d acc :
  forallb (λ p, is_text (snd p)) d = true → build_variables quote d acc None = (acc ++ variables_list d, None).
Proof.
  revert acc. induction d as [|[k v] d IH]; intros acc; simpl; [by rewrite app_nil_r|].
  destruct v; try done. simpl. intros H. rewrite IH by done. by rewrite <- app_assoc.
Qed.

Lemma find_last_variables d key : NoDup d.*1 → find_last (variables_list d) key = text_of (bag_get d key).
Proof.
  revert key. induction d as [|[k v] d IH]; intros key; [done|]. rewrite fmap_cons. intros [Hk Hd]%NoDup_cons. simpl in Hk.
  assert (Hnone : find_last (variables_list d) k = None).
  { rewrite IH by done. clear - Hk. induction d as [|[k' v'] d IH]; [done|]. simpl. rewrite fmap_cons in Hk. simpl in Hk.
    apply not_elem_of_cons in Hk as [? ?]. rewrite bool_decide_eq_false_2 by done. by apply IH. }
  cbn [bag_get]. rewrite variables_list_cons. destruct (decide (k = key)) as [->|Hne].
  - rewrite bool_decide_eq_true_2 by done. destruct v; try exact Hnone. cbn [find_last]. rewrite Hnone.
    cbn [Key variable]. by rewrite bool_decide_eq_true_2.
  - rewrite bool_decide_eq_false_2 by done. rewrite <- IH by done. destruct v; try done. cbn [find_last Key variable].
    rewrite bool_decide_eq_false_2 by done. by destruct (find_last (variables_list d) key).
Qed.

Lemma buildVariables_ok m :
  variables_ok (index m "variables") = true → variables_distinct m →
  ∃ vs, buildVariables quote (index m "variables") = Ok vs ∧ ∀ key, find_last vs key = variable_of m key.
Proof.
  unfold variables_distinct, variable_of, buildVariables. destruct (index m "variables") as [| | | | | | |d]; try done.
  - intros _ _. by exists [].
  - intros Hd Hn. simpl in Hd. rewrite build_variables_ok by done. simpl. eexists. split; [done|]. intros key.
    by apply find_last_variables.
Qed.

(** ** What a local run is made of *)

Context (ReadFile : string → result string string) (yaml_Unmarshal : string → result string DataBag).

(** The name and the stage of the job, which the default variables show. *)
Definition named_job (name : string) (jc : DataBag) (job : JobResponse) : JobResponse :=
  job_with job {| JI_Name := name; JI_Stage := default "test" (text_of (bag_get jc "stage")); JI_ProjectID := 0; JI_ProjectName := "" |}
    (JR_Variables job) (JR_Steps job) (JR_Image job) (JR_Services job) (JR_Artifacts job) (JR_Cache job).

(** The job that a parser made, by name, and back. *)
Ltac name_job E := match goal with |- context [job_with ?a ?b ?c ?d ?e ?f ?g ?h] => remember (job_with a b c d e f g h) eqn:E end.
Ltac subst_job E := rewrite E; cbn [JR_Steps JR_Variables JR_Image JR_Artifacts JR_Cache JR_GitInfo job_with].

Lemma run_parsers_ok file name cfg jc job :
  well_typed cfg jc = true → variables_distinct cfg → variables_distinct jc →
  ∃ j, run_parsers (parsers quote) (mkParser file name cfg jc) job = Ok j ∧
    Step_Script <$> JR_Steps j =
      [match lines (index jc "before_script") with [] => lines (index cfg "before_script") | b => b end ++ lines (index jc "script");
       lines (index jc "after_script")] ∧
    (∀ key, find_last (JR_Variables j) key =
       variable_of jc key ∪ (variable_of cfg key ∪ find_last (buildDefaultVariables (named_job name jc job)) key)) ∧
    Image_Name (JR_Image j) = default "" (image_name jc ∪ image_name cfg) ∧
    Art_Paths <$> JR_Artifacts j = [strings_of (list_of (bag_get (getOptionsMap "artifacts" jc cfg) "paths"))] ∧
    Cache_Paths <$> JR_Cache j = [strings_of (list_of (bag_get (getOptionsMap "cache" jc cfg) "paths"))] ∧
    JR_GitInfo j = JR_GitInfo job.
Proof.
  unfold well_typed. rewrite !andb_true_iff. intros [[[[[[[[[[[[Hs H1] H2] H3] H4] H5] H6] H7] H8] H9] H10] H11] H12] Hd1 Hd2.
  apply negb_true_iff in Hs.
  destruct (buildVariables_ok jc H5 Hd2) as (vj & Hvj & Fj). destruct (buildVariables_ok cfg H6 Hd1) as (vc & Hvc & Fc).
  destruct (find_image_ok (mkParser file name cfg jc) H7 H8) as (i & Hi & Ni).
  destruct (getOptions_ok jc cfg H9 H10) as (o & Ho & Hos). destruct (services_of_ok _ Hos) as [is_ His].
  destruct (section_untracked_ok _ H11) as [u1 Hu1]. destruct (section_untracked_ok _ H12) as [u2 Hu2].
  unfold parsers. cbn [run_parsers]. unfold prepareJobInfo at 1. rewrite GetString_eq. cbn [jobConfig jobName result_bind]. name_job E1.
  unfold prepareSteps at 1. cbn [jobConfig config]. rewrite Hs, !getCommands_ok by done. cbn [result_bind]. name_job E2.
  unfold prepareVariables at 1. cbn [jobConfig config]. rewrite Hvc, Hvj. cbn [result_bind]. name_job E3.
  unfold prepareImage at 1. rewrite Hi. cbn [result_bind]. name_job E4.
  unfold prepareServices at 1. cbn [jobConfig config]. rewrite Ho. cbn [result_bind]. rewrite His. cbn [result_bind]. name_job E5.
  unfold prepareArtifacts at 1. cbn [jobConfig config]. rewrite section_paths_ok, Hu1 by done. cbn [result_bind]. name_job E6.
  unfold prepareCache at 1. cbn [jobConfig config]. rewrite section_paths_ok, Hu2 by done. cbn [result_bind]. name_job E7.
  eexists. split; [reflexivity|]. subst_job E7. subst_job E6. subst_job E5. subst_job E4. subst_job E3. subst_job E2.
  split; [|split; [|split; [exact Ni|split; [done|split; [done|by subst_job E1]]]]].
  - generalize (lines (index jc "before_script")) (lines (index cfg "before_script"))
      (lines (index jc "script")) (lines (index jc "after_script")). intros b b' l l'. by destruct b.
  - intros key. rewrite !find_last_app, Fj, Fc.
    match goal with |- context [buildDefaultVariables (job_with ?a ?b ?c ?d ?e ?f ?g ?h)] =>
      change (buildDefaultVariables (job_with a b c d e f g h)) with (buildDefaultVariables a) end.
    rewrite E1. fold (named_job name jc job). generalize (find_last (buildDefaultVariables (named_job name jc job)) key).
    intros d. by destruct (variable_of jc key), (variable_of cfg key), d.
Qed.

Context (runCommand : list string → result string string).

(** C35: The exec command on a well-typed file, in a repository whose git commands answer: it runs
    a build of the checked out commit whose script is the job's before_script (or else the
    global one) and its script, whose after_script is the job's, whose variables are the
    job's over the global ones over the defaults, whose image is the job's or else the
    global one, and whose artifacts and cache are the paths of the job's section or else of
    the global one; the working directory is mounted read-only. *)
Theorem local_run_follows_the_file wd name commandName runner volumes timeout data m cfg jc sha ref :
  runCommand ["git"; "rev-parse"; "HEAD"] = Ok sha → runCommand ["git"; "rev-parse"; "--abbrev-ref"; "HEAD"] = Ok ref →
  ReadFile ".gitlab-ci.yml" = Ok data → yaml_Unmarshal data = Ok m → Sanitize print_v m = Ok cfg →
  bag_get cfg name = Some (YStrMap jc) → well_typed cfg jc = true → variables_distinct cfg → variables_distinct jc →
  ∃ b, exec_Execute print_v quote ReadFile yaml_Unmarshal runCommand None (Ok wd) [name] commandName runner volumes timeout =
      RunBuild b (volumes ++ [wd +:+ ":" +:+ wd +:+ ":ro"]) ∧
    Executor (Runner b) = commandName ∧ GI_Sha (JR_GitInfo (Job b)) = TrimSpace sha ∧ GI_RepoURL (JR_GitInfo (Job b)) = wd ∧
    Step_Script <$> JR_Steps (Job b) =
      [match lines (index jc "before_script") with [] => lines (index cfg "before_script") | l => l end ++ lines (index jc "script");
       lines (index jc "after_script")] ∧
    (∀ key, find_last (JR_Variables (Job b)) key =
       variable_of jc key ∪ (variable_of cfg key ∪
         find_last (buildDefaultVariables (named_job name jc (exec_job wd sha
           match runCommand ["git"; "rev-parse"; "HEAD~1"] with Ok s => s | Err _ => no_commit end ref timeout))) key)) ∧
    Image_Name (JR_Image (Job b)) = default "" (image_name jc ∪ image_name cfg) ∧
    Art_Paths <$> JR_Artifacts (Job b) = [strings_of (list_of (bag_get (getOptionsMap "artifacts" jc cfg) "paths"))] ∧
    Cache_Paths <$> JR_Cache (Job b) = [strings_of (list_of (bag_get (getOptionsMap "cache" jc cfg) "paths"))].
Proof.
  intros Hsha Href Hread Hyaml Hsan Hjob Hty Hd1 Hd2. unfold exec_Execute, createBuild. cbn [snd]. rewrite Hsha, Href. cbn [result_bind].
  set (job := exec_job _ _ _ _ _).
  destruct (run_parsers_ok ".gitlab-ci.yml" name cfg jc job Hty Hd1 Hd2) as (j & Hj & H1 & H2 & H3 & H4 & H5 & H6).
  assert (Hp : ParseYaml print_v quote ReadFile yaml_Unmarshal (NewGitLabCiYamlParser name)
                 (Job (NewBuild job (set_Executor runner commandName))) = Ok j).
  { unfold ParseYaml, parseFile, loadJob, GetSubOptions. cbn [filename jobName NewGitLabCiYamlParser Job NewBuild].
    rewrite Hread. cbn [of_error result_bind]. rewrite Hyaml. cbn [of_error result_bind]. rewrite Hsan. cbn [of_error result_bind].
    cbn [config jobName filename]. rewrite bag_Get_eq, Hjob. exact Hj. }
  rewrite Hp. eexists. split; [reflexivity|]. cbn [Job Runner set_Job].
  rewrite H6. repeat (split; [first [exact H1|exact H2|exact H3|exact H4|reflexivity]|]). exact H5.
Qed.
End Files.

(** ** A file *)

Definition demo_file : DataBag :=
  [("before_script", YList [YString "bundle install"]);
   ("variables", YMap [(YString "RAILS_ENV", YString "test"); (YString "LEVEL", YString "1")]);
   ("rspec", YMap [(YString "script", YList [YString "rspec"]);
                   (YString "variables", YMap [(YString "LEVEL", YString "2")]);
                   (YString "artifacts", YMap [(YString "paths", YList [YString "out/"]); (YString "expire_in", YString "1 week")]);
                   (YString "services", YList [YMap [(YString "name", YString "postgres"); (YString "alias", YString "db")]])])].
Definition demo_git (args : list string) : result string string :=
  if bool_decide (args = ["git"; "rev-parse"; "HEAD"]) then Ok ("c0ffee" +:+ bstr 10)
  else if bool_decide (args = ["git"; "rev-parse"; "--abbrev-ref"; "HEAD"]) then Ok ("master" +:+ bstr 10) else Err "exit status 128".
Definition demo_read (name : string) : result string string := Ok "the text".
Definition demo_exec (f : DataBag) : exec_end :=
  exec_Execute (λ _, "?") (λ s, s) demo_read (λ _, Ok f) demo_git None (Ok "/src") ["rspec"] "shell" (some_runner 0 0) [] 0.

Lemma local_run_follows_the_file_witness :
  ∃ b, demo_exec demo_file = RunBuild b ["/src:/src:ro"] ∧ Executor (Runner b) = "shell" ∧
    GI_Sha (JR_GitInfo (Job b)) = "c0ffee" ∧
    Step_Script <$> JR_Steps (Job b) = [["bundle install"; "rspec"]; []] ∧
    find_last (JR_Variables (Job b)) "LEVEL" = Some "2" ∧ find_last (JR_Variables (Job b)) "RAILS_ENV" = Some "test" ∧
    Art_Paths <$> JR_Artifacts (Job b) = [["out/"]].
Proof.
  destruct (local_run_follows_the_file (λ _, "?") (λ s, s) demo_read (λ _, Ok demo_file) demo_git "/src" "rspec" "shell"
    (some_runner 0 0) [] 0 "the text" demo_file
    match Sanitize (λ _, "?") demo_file with Ok c => c | Err _ => [] end
    match Sanitize (λ _, "?") demo_file with Ok c => default [] (GetSubOptions c "rspec") | Err _ => [] end
    ("c0ffee" +:+ bstr 10) ("master" +:+ bstr 10)) as (b & H0 & H1 & H2 & _ & H3 & H4 & _ & H5 & _);
    [by vm_compute..| | |].
  - vm_compute. repeat (apply NoDup_cons_2; [set_solver|]). apply NoDup_nil_2.
  - vm_compute. repeat (apply NoDup_cons_2; [set_solver|]). apply NoDup_nil_2.
  - exists b. split; [exact H0|]. split; [exact H1|]. split; [exact H2|]. split; [rewrite H3; by vm_compute|].
    split; [rewrite H4; by vm_compute|]. split; [rewrite H4; by vm_compute|]. rewrite H5. by vm_compute.
Defined.

(** The project of a local run is 0, although the command starts from a job of project 1:
    the parser replaces the whole of the job's information. *)
Lemma local_project_is_zero name jc wd sha before ref timeout :
  JI_ProjectID (JR_JobInfo (exec_job wd sha before ref timeout)) = 1%Z ∧
  find_last (buildDefaultVariables (named_job name jc (exec_job wd sha before ref timeout))) "CI_PROJECT_ID" = Some "0".
Proof. done. Qed.

(** The time after which artifacts expire is read under another name than GitLab's. *)
Lemma expire_in_is_ignored :
  match demo_exec demo_file with RunBuild b _ => Art_ExpireIn <$> JR_Artifacts (Job b) | _ => [] end = [""].
Proof. by vm_compute. Qed.

(** Values of another type than the parser expects end the process. *)
Lemma wrong_types_crash key value (bad : (key, value) ∈
    [("artifacts", YMap [(YString "untracked", YNull)]); ("artifacts", YMap [(YString "paths", YString "out/")]);
     ("cache", YMap [(YString "paths", YList [YInt 1])]); ("services", YString "postgres");
     ("services", YList [YMap [(YInt 1, YString "postgres")]])]) :
  ∃ what, demo_exec [("rspec", YMap [(YString "script", YString "rspec"); (YString key, value)])] = Crash what.
Proof.
  repeat (apply elem_of_cons in bad as [[= -> ->]|bad]; [vm_compute; eauto|]). by apply elem_of_nil in bad.
Qed.
