(* ===== verification/CacheKeys.v ===== *)
(** The distributed cache (cache/cache.go, cache/adapter.go): object names, the registry
    of adapters, and the URLs handed to the helper. *)

From S2P Require Import Prelude GoLib Path Types Variables Config Build BuildProofs.

Section CacheKeys.
Context {GT : GoText}.

Definition getCacheConfig (b : Build) : option CacheConfig := CacheCfg (Runner b).

Definition generateBaseObjectName (b : Build) (config : CacheConfig) : string :=
  let runnerSegment :=
    if CC_Shared config then "" else pathJoin ["runner"; ShortDescription (Credentials_ (Runner b))] in
  pathJoin [CC_Path config; runnerSegment; "project"; Itoa (JI_ProjectID (JR_JobInfo (Job b)))].

Definition generateObjectName (b : Build) (config : CacheConfig) (key : string) : result string string :=
  if bool_decide (key = "") then Ok ""
  else
    let basePath := generateBaseObjectName b config in
    let path := pathJoin [basePath; key] in
    match Rel basePath path with
    | None => Err "cache path correctness check failed"
    | Some relative =>
        if HasPrefix relative "../"
        then Err "computed cache path outside of project bucket. Please remove `../` from cache key"
        else Ok path
    end.

(** *** Adapters *)

(** An adapter: its download and upload URL. A factory makes one for a configuration, a
    timeout and an object name; it may fail. *)
Definition Adapter : Type := option string * option string.
Definition Factory : Type := CacheConfig → Z → string → result string Adapter.

Definition Register (m : gmap string Factory) (typeName : string) (factory : Factory)
    : result string (gmap string Factory) :=
  match m !! typeName with
  | Some _ => Err ("adapter " +:+ Quote typeName +:+ " already registered")
  | None => Ok (<[typeName := factory]> m)
  end.

Definition Find (m : gmap string Factory) (typeName : string) : result string Factory :=
  match m !! typeName with
  | None => Err ("factory for cache adapter " +:+ Quote typeName +:+ " was not registered")
  | Some f => Ok f
  end.

Definition CreateAdapter (m : gmap string Factory) (config : CacheConfig) (timeout : Z) (objectName : string)
    : result string Adapter :=
  match Find m (CC_Type config) with
  | Err e => Err ("cache factory not found: " +:+ e)
  | Ok create => match create config timeout objectName with
                 | Err e => Err ("cache adapter could not be initialized: " +:+ e)
                 | Ok a => Ok a
                 end
  end.

(** [onAdapter]: any error only loses the URL. *)
Definition onAdapter (m : gmap string Factory) (b : Build) (key : string)
    (handler : Adapter → option string) : option string :=
  match getCacheConfig b with
  | None => None
  | Some config =>
      match generateObjectName b config key with
      | Err _ => None
      | Ok objectName =>
          if bool_decide (objectName = "") then None
          else match CreateAdapter m config (GetBuildTimeout b) objectName with
               | Err _ => None
               | Ok adapter => handler adapter
               end
      end
  end.

Definition GetCacheDownloadURL (m : gmap string Factory) (b : Build) (key : string) : option string :=
  onAdapter m b key fst.

Definition GetCacheUploadURL (m : gmap string Factory) (b : Build) (key : string) : option string :=
  onAdapter m b key snd.

(** ** Where objects may be *)

Lemma strip_common_spec base targ b t :
  strip_common base targ = (b, t) → ∃ c, base = c ++ b ∧ targ = c ++ t.
Proof.
  revert targ b t. induction base as [|x base IH]; intros [|y targ] b t H; simpl in H;
    [by simplify_eq; exists []..|].
  case_bool_decide as Hxy; [subst|by simplify_eq; exists []].
  destruct (IH _ _ _ H) as (c & -> & ->). by exists (y :: c).
Qed.

(** A relative path that does not start with [../] goes up at most once, and then only
    to the parent itself. *)
Lemma ups_prefix n t :
  HasPrefix (match (replicate n ".." ++ t)%list with [] => "." | es => Join es "/" end) "../" = false →
  n = 0 ∨ (n = 1 ∧ t = []).
Proof.
  destruct n as [|[|n]]; [by left| |].
  - destruct t as [|e t]; [by right|]. intros H. exfalso. revert H.
    change (match (replicate 1 ".." ++ e :: t)%list with [] => "." | es => Join es "/" end)
      with ("../" +:+ Join (e :: t) "/").
    by rewrite HasPrefix_app.
  - intros H. exfalso. revert H.
    change (match (replicate (S (S n)) ".." ++ t)%list with [] => "." | es => Join es "/" end)
      with ("../" +:+ Join ((".." :: replicate n "..") ++ t)%list "/").
    by rewrite HasPrefix_app.
Qed.

Lemma Rel_shape base targ rel :
  Rel base targ = Some rel → HasPrefix rel "../" = false →
  clean_segments base `prefix_of` clean_segments targ ∨
  ∃ e, clean_segments base = clean_segments targ ++ [e].
Proof.
  unfold Rel. destruct (negb _); [done|].
  set (tsegs := match clean_segments targ with [] => _ | es => es end).
  destruct (strip_common (clean_segments base) tsegs) as [b t] eqn:E.
  apply strip_common_spec in E as (c & Hb & Ht).
  case_bool_decide; [done|]. intros Hrel Hpre.
  assert (Hup : length b = 0 ∨ (length b = 1 ∧ t = [])).
  { apply ups_prefix. destruct (replicate (length b) ".." ++ t); by simplify_eq. }
  assert (Hsegs : tsegs = clean_segments targ ∨ (clean_segments targ = [] ∧ tsegs = ["."] ∧ clean_segments base ≠ [])).
  { subst tsegs. destruct (clean_segments targ) as [|x xs] eqn:Ec; [|by left].
    destruct (IsAbs targ || bool_decide (clean_segments base = [])) eqn:Eo; [by left|].
    right. apply orb_false_elim in Eo as [_ Eo]. by reflect_guards. }
  destruct Hup as [Hl|[Hl ->]].
  - apply nil_length_inv in Hl as ->. rewrite app_nil_r in Hb. subst c.
    destruct Hsegs as [Hs|(Hs & Hd & Hne)].
    + left. rewrite <- Hs, Ht. by exists t.
    + rewrite Hd in Ht. exfalso. destruct (clean_segments base) as [|x xs] eqn:Ec; [done|].
      injection Ht as <- Ht. pose proof (clean_segments_plain base) as Hp. rewrite Ec in Hp.
      apply Forall_cons in Hp as [(_ & ? & _) _]. done.
  - destruct b as [|e [|? ?]]; try done. rewrite app_nil_r in Ht. subst c.
    destruct Hsegs as [Hs|(Hs & Hd & Hne)].
    + right. exists e. by rewrite <- Hs.
    + rewrite Hd in Hb. exfalso. pose proof (clean_segments_plain base) as Hp. rewrite Hb in Hp.
      apply Forall_cons in Hp as [(_ & ? & _) _]. done.
Qed.

(** Where the object of an accepted cache key is: inside the directory of the
    project, or, and only by going exactly one step up, the parent of that directory.
    Keys that reach anything else outside are refused. *)
Theorem cache_object_location b config key name :
  generateObjectName b config key = Ok name → name ≠ "" →
  let base := clean_segments (generateBaseObjectName b config) in
  base `prefix_of` clean_segments name ∨ ∃ e, base = clean_segments name ++ [e].
Proof.
  unfold generateObjectName. case_bool_decide; [by intros [= <-]|].
  destruct (Rel _ _) as [rel|] eqn:E; [|done].
  destruct (HasPrefix rel "../") eqn:Hp; [done|]. intros [= <-] _. by eapply Rel_shape.
Qed.

End CacheKeys.

(** A job of project 7 with the cache in the bucket directory [pre]. *)
Definition demo_cache : CacheConfig :=
  {| CC_Type := "s3"; CC_Path := "pre"; CC_Shared := true; CC_S3 := None; CC_GCS := None |}.

Lemma cache_object_location_witness :
  let base := clean_segments (generateBaseObjectName (DemoBuild.build []) demo_cache) in
  base `prefix_of` clean_segments "pre/project/7/key" ∨ ∃ e, base = clean_segments "pre/project/7/key" ++ [e].
Proof.
  refine (cache_object_location (DemoBuild.build []) demo_cache "a/../key" "pre/project/7/key" _ _).
  - vm_compute. reflexivity.
  - discriminate.
Defined.

(** The check that keeps cache keys inside the project misses the key [..]: it is
    accepted and names the parent directory, which is the same for every project. *)
Theorem cache_key_dotdot_escapes :
  generateObjectName (DemoBuild.build []) demo_cache ".." = Ok "pre/project" ∧
  generateObjectName (DemoBuild.build []) demo_cache "../8" =
    Err "computed cache path outside of project bucket. Please remove `../` from cache key".
Proof. vm_compute. done. Qed.
