(* ===== verification/CacheBackends.v ===== *)
(** The two backends of the distributed cache: Google Cloud Storage (cache/gcs) and S3
    (cache/s3), as factories of the registry of cache/adapter.go. Signing, the S3 client, JSON
    and reading files are parameters; a URL is its text. *)

From S2P Require Import Prelude GoLib Path Types Variables Config Build BuildProofs CacheKeys.
#[local] Open Scope go_scope.

(** ** Google Cloud Storage *)

Module GCS.
Definition TypeServiceAccount : string := "service_account".
Record CacheGCSCredentials := mkCredentials { AccessID : string; PrivateKey : string }.
Record credentialsFile := mkFile { cf_Type : string; ClientEmail : string; cf_PrivateKey : string }.

(** What is signed. No private key is another thing than an empty one. *)
Record SignedURLOptions := mkOptions {
  GoogleAccessID : string; so_PrivateKey : option string; so_Method : string; Expires : Z; ContentType : string }.

Section Adapter.
Context (ReadFile : string → result string string) (json_Unmarshal : string → result string credentialsFile).
Context (SignedURL : string → string → SignedURLOptions → result string string) (url_Parse : string → result string string).

(** *** credentials_resolver.go *)

Record defaultCredentialsResolver := mkResolver { cr_config : CacheGCSConfig; cr_credentials : CacheGCSCredentials }.

Definition newDefaultCredentialsResolver (config : option CacheGCSConfig) : result string defaultCredentialsResolver :=
  match config with
  | None => Err "config can't be nil"
  | Some c => Ok (mkResolver c (mkCredentials "" ""))
  end.

Definition set_credentials (cr : defaultCredentialsResolver) (id key : string) : defaultCredentialsResolver :=
  mkResolver (cr_config cr) (mkCredentials id key).

Definition readCredentialsFromFile (cr : defaultCredentialsResolver) : option string * defaultCredentialsResolver :=
  match ReadFile (GCS_CredentialsFile (cr_config cr)) with
  | Err err => (Some ("error while reading credentials file: " +:+ err), cr)
  | Ok data =>
      match json_Unmarshal data with
      | Err err => (Some ("error while parsing credentials file: " +:+ err), cr)
      | Ok content =>
          if negb (bool_decide (cf_Type content = TypeServiceAccount))
          then (Some ("unsupported credentials file type: " +:+ cf_Type content), cr)
          else (None, set_credentials cr (ClientEmail content) (cf_PrivateKey content))
      end
  end.

Definition readCredentialsFromConfig (cr : defaultCredentialsResolver) : option string * defaultCredentialsResolver :=
  if bool_decide (GCS_AccessID (cr_config cr) = "") || bool_decide (GCS_PrivateKey (cr_config cr) = "")
  then (Some "GCS config present, but credentials are not configured", cr)
  else (None, set_credentials cr (GCS_AccessID (cr_config cr)) (GCS_PrivateKey (cr_config cr))).

Definition Resolve (cr : defaultCredentialsResolver) : option string * defaultCredentialsResolver :=
  if bool_decide (GCS_CredentialsFile (cr_config cr) ≠ "") then readCredentialsFromFile cr else readCredentialsFromConfig cr.

(** *** adapter.go *)

Record gcsAdapter := mkAdapter { a_timeout : Z; a_config : CacheGCSConfig; a_objectName : string; a_resolver : defaultCredentialsResolver }.

(** The URL, or nothing where the error is only logged. *)
Definition presignURL (now : Z) (a : gcsAdapter) (method contentType : string) : option string * gcsAdapter :=
  let '(err, cr) := Resolve (a_resolver a) in
  let a := mkAdapter (a_timeout a) (a_config a) (a_objectName a) cr in
  match err with
  | Some _ => (None, a)
  | None =>
      let credentials := cr_credentials cr in
      let privateKey := if bool_decide (PrivateKey credentials ≠ "") then Some (PrivateKey credentials) else None in
      if bool_decide (GCS_BucketName (a_config a) = "") then (None, a)
      else match SignedURL (GCS_BucketName (a_config a)) (a_objectName a)
                   (mkOptions (AccessID credentials) privateKey method (now + a_timeout a) contentType) with
           | Err _ => (None, a)
           | Ok rawURL => match url_Parse rawURL with Err _ => (None, a) | Ok url => (Some url, a) end
           end
  end.

Definition gcs_GetDownloadURL (now : Z) (a : gcsAdapter) : option string * gcsAdapter := presignURL now a "GET" "".
Definition gcs_GetUploadURL (now : Z) (a : gcsAdapter) : option string * gcsAdapter :=
  presignURL now a "PUT" "application/octet-stream".

Definition gcs_New (config : CacheConfig) (timeout : Z) (objectName : string) : result string gcsAdapter :=
  match CC_GCS config with
  | None => Err "missing GCS configuration"
  | Some gcs =>
      match newDefaultCredentialsResolver (Some gcs) with
      | Err err => Err ("error while initializing GCS credentials resolver: " +:+ err)
      | Ok cr => Ok (mkAdapter timeout gcs objectName cr)
      end
  end.

(** As a factory of the registry: a new adapter is made for each URL. *)
Definition factory (now : Z) : Factory := λ config timeout objectName,
  match gcs_New config timeout objectName with
  | Err err => Err err
  | Ok a => Ok (fst (gcs_GetDownloadURL now a), fst (gcs_GetUploadURL now a))
  end.
End Adapter.
End GCS.

(** ** S3 *)

Module S3.
Definition DefaultAWSS3Server : string := "s3.amazonaws.com".

(** Where the credentials of a client come from. *)
Inductive credentials := IAM (endpoint : string) | Keys (accessKey secretKey : string).

Section Adapter.
Context {client : Type} (newMinio : string → credentials → bool → result string client).
(** The transport of a client is replaced by one that answers with the bucket's location. *)
Context (SetCustomTransport : client → (Z * string) → client) (xml_Encode : string → string).
Context (PresignedGetObject PresignedPutObject : client → string → string → Z → result string string).

(** *** minio.go and bucket_location_tripper.go *)

(** The answer to every request: the status and the body. *)
Definition RoundTrip (bucketLocation : string) : Z * string := (200%Z, xml_Encode bucketLocation).

Definition newMinioClient (s3 : CacheS3Config) : result string client :=
  let? c := if ShouldUseIAMCredentials s3 then newMinio DefaultAWSS3Server (IAM "") true
            else newMinio (S3_ServerAddress s3) (Keys (S3_AccessKey s3) (S3_SecretKey s3)) (negb (S3_Insecure s3)) in
  Ok (SetCustomTransport c (RoundTrip (S3_BucketLocation s3))).

(** *** adapter.go *)

Record s3Adapter := mkAdapter { a_timeout : Z; a_config : CacheS3Config; a_objectName : string; a_client : client }.

Definition or_none (r : result string string) : option string := match r with Ok url => Some url | Err _ => None end.
Definition s3_GetDownloadURL (a : s3Adapter) : option string :=
  or_none (PresignedGetObject (a_client a) (S3_BucketName (a_config a)) (a_objectName a) (a_timeout a)).
Definition s3_GetUploadURL (a : s3Adapter) : option string :=
  or_none (PresignedPutObject (a_client a) (S3_BucketName (a_config a)) (a_objectName a) (a_timeout a)).

Definition s3_New (config : CacheConfig) (timeout : Z) (objectName : string) : result string s3Adapter :=
  match CC_S3 config with
  | None => Err "missing S3 configuration"
  | Some s3 =>
      match newMinioClient s3 with
      | Err err => Err ("error while creating S3 cache storage client: " +:+ err)
      | Ok c => Ok (mkAdapter timeout s3 objectName c)
      end
  end.

Definition factory : Factory := λ config timeout objectName,
  match s3_New config timeout objectName with
  | Err err => Err err
  | Ok a => Ok (s3_GetDownloadURL a, s3_GetUploadURL a)
  end.
End Adapter.
End S3.

(** ** The registry with both *)

Section Backends.
Context {GT : GoText} {client : Type}.
Context (ReadFile : string → result string string) (json_Unmarshal : string → result string GCS.credentialsFile).
Context (SignedURL : string → string → GCS.SignedURLOptions → result string string) (url_Parse : string → result string string).
Context (newMinio : string → S3.credentials → bool → result string client) (SetCustomTransport : client → (Z * string) → client).
Context (xml_Encode : string → string) (PresignedGetObject PresignedPutObject : client → string → string → Z → result string string).
Context (now : Z).

Definition gcs_factory : Factory := GCS.factory ReadFile json_Unmarshal SignedURL url_Parse now.
Definition s3_factory : Factory := S3.factory newMinio SetCustomTransport xml_Encode PresignedGetObject PresignedPutObject.

(** What the [init] functions leave; registering a name twice would panic. *)
Definition backends : result string (gmap string Factory) :=
  let? m := Register ∅ "gcs" gcs_factory in Register m "s3" s3_factory.

Definition adapters : gmap string Factory := <["s3" := s3_factory]> (<["gcs" := gcs_factory]> ∅).

Lemma backends_registered : backends = Ok adapters.
Proof. done. Qed.

(** The credentials that a configuration of GCS gives, when it gives any. *)
Definition gcs_credentials (c : CacheGCSConfig) : option GCS.CacheGCSCredentials :=
  match GCS.Resolve ReadFile json_Unmarshal (GCS.mkResolver c (GCS.mkCredentials "" "")) with
  | (None, cr) => Some (GCS.cr_credentials cr)
  | (Some _, _) => None
  end.

(** Who signs for a configuration: the object's name, whether it is uploaded, how long the URL
    is valid, and the URL. *)
Definition gcs_signed (c : CacheGCSConfig) (objectName : string) (upload : bool) (timeout : Z) (url : string) : Prop :=
  ∃ cred raw, gcs_credentials c = Some cred ∧ GCS_BucketName c ≠ "" ∧
    SignedURL (GCS_BucketName c) objectName
      (GCS.mkOptions (GCS.AccessID cred) (if bool_decide (GCS.PrivateKey cred ≠ "") then Some (GCS.PrivateKey cred) else None)
         (if upload then "PUT" else "GET") (now + timeout) (if upload then "application/octet-stream" else "")) = Ok raw ∧
    url_Parse raw = Ok url.
Definition s3_signed (c : CacheS3Config) (objectName : string) (upload : bool) (timeout : Z) (url : string) : Prop :=
  ∃ cl, S3.newMinioClient newMinio SetCustomTransport xml_Encode c = Ok cl ∧
    (if upload then PresignedPutObject else PresignedGetObject) cl (S3_BucketName c) objectName timeout = Ok url.

Definition signed (c : CacheConfig) (objectName : string) (upload : bool) (timeout : Z) (url : string) : Prop :=
  (CC_Type c = "gcs" ∧ ∃ g, CC_GCS c = Some g ∧ gcs_signed g objectName upload timeout url) ∨
  (CC_Type c = "s3" ∧ ∃ s, CC_S3 c = Some s ∧ s3_signed s objectName upload timeout url).

Lemma presign_iff g timeout objectName method contentType url :
  let a := GCS.mkAdapter timeout g objectName (GCS.mkResolver g (GCS.mkCredentials "" "")) in
  fst (GCS.presignURL ReadFile json_Unmarshal SignedURL url_Parse now a method contentType) = Some url ↔
  ∃ cred raw, gcs_credentials g = Some cred ∧ GCS_BucketName g ≠ "" ∧
    SignedURL (GCS_BucketName g) objectName
      (GCS.mkOptions (GCS.AccessID cred) (if bool_decide (GCS.PrivateKey cred ≠ "") then Some (GCS.PrivateKey cred) else None)
         method (now + timeout) contentType) = Ok raw ∧ url_Parse raw = Ok url.
Proof.
  simpl. unfold GCS.presignURL, gcs_credentials. cbn [GCS.a_resolver GCS.a_timeout GCS.a_config GCS.a_objectName].
  destruct (GCS.Resolve _ _ _) as [[err|] cr]; simpl; [split; [done|by intros (? & ? & ? & _)]|].
  case_bool_decide as Hb; simpl; [split; [done|by intros (? & ? & _ & ? & _)]|].
  destruct (SignedURL _ _ _) as [raw|] eqn:Es.
  - split.
    + destruct (url_Parse raw) as [u|] eqn:Ep; [|done]. intros [= <-]. exists (GCS.cr_credentials cr), raw. done.
    + intros (cred & raw' & [= <-] & _ & Hs & Hp). rewrite Es in Hs. injection Hs as <-. by rewrite Hp.
  - split; [done|]. intros (cred & raw' & [= <-] & _ & Hs & _). by rewrite Es in Hs.
Qed.

(** The factories give exactly the signed URLs. *)
Lemma adapter_urls c timeout objectName url upload :
  (∃ a, CreateAdapter adapters c timeout objectName = Ok a ∧ (if upload : bool then snd a else fst a) = Some url) ↔
  signed c objectName upload timeout url.
Proof.
  unfold CreateAdapter, Find, adapters, signed. destruct (decide (CC_Type c = "s3")) as [Et|Et].
  - rewrite Et, lookup_insert_eq. unfold s3_factory, S3.factory, S3.s3_New, s3_signed, S3.or_none. split.
    + intros (a & Ha & Hu). right. split; [done|]. destruct (CC_S3 c) as [s|]; [|done]. exists s. split; [done|].
      destruct (S3.newMinioClient _ _ _ s) as [cl|]; [|done]. exists cl. split; [done|]. injection Ha as <-.
      unfold S3.s3_GetDownloadURL, S3.s3_GetUploadURL, S3.or_none in Hu. simpl in Hu.
      destruct upload; simpl in Hu; by destruct (_ cl _ _ _); simplify_eq.
    + intros [[? _]|(_ & s & -> & cl & Hc & Hu)]; [congruence|]. rewrite Hc. eexists. split; [done|].
      unfold S3.s3_GetDownloadURL, S3.s3_GetUploadURL, S3.or_none. simpl. destruct upload; simpl; by rewrite Hu.
  - rewrite lookup_insert_ne by done. destruct (decide (CC_Type c = "gcs")) as [Eg|Eg].
    + rewrite Eg, lookup_insert_eq. unfold gcs_factory, GCS.factory, GCS.gcs_New, gcs_signed. simpl. split.
      * intros (a & Ha & Hu). left. split; [done|]. destruct (CC_GCS c) as [g|]; [|done]. exists g. split; [done|].
        injection Ha as <-. by destruct upload; apply presign_iff.
      * intros [(_ & g & -> & Hs)|[? _]]; [|congruence]. eexists. split; [done|]. by destruct upload; apply presign_iff.
    + rewrite lookup_insert_ne by done. rewrite lookup_empty. split; [by intros (a & Ha & _)|].
      intros [[? _]|[? _]]; congruence.
Qed.

(** A cache URL of a build is given exactly when the cache is configured, the key has a name
    in the bucket, and the backend of the configured type signs a GET (a PUT for the upload)
    of that very object in the configured bucket for the time the build may take. *)
Theorem cache_url_is_signed b key upload url :
  (if upload : bool then GetCacheUploadURL adapters b key else GetCacheDownloadURL adapters b key) = Some url ↔
  ∃ config objectName, getCacheConfig b = Some config ∧ generateObjectName b config key = Ok objectName ∧ objectName ≠ "" ∧
    signed config objectName upload (GetBuildTimeout b) url.
Proof.
  assert (Hon : (if upload then GetCacheUploadURL adapters b key else GetCacheDownloadURL adapters b key) =
    onAdapter adapters b key (λ a, if upload then snd a else fst a)) by (by destruct upload).
  rewrite Hon. unfold onAdapter. destruct (getCacheConfig b) as [config|]; [|split; [done|by intros (? & ? & ? & _)]].
  destruct (generateObjectName b config key) as [name|] eqn:En; [|split; [done|intros (? & ? & [= <-] & ? & _); congruence]].
  case_bool_decide as Hn; [split; [done|intros (? & ? & [= <-] & ? & ? & _); congruence]|]. split.
  - intros Hu. exists config, name. split; [done|]. split; [done|]. split; [done|]. apply adapter_urls.
    destruct (CreateAdapter _ _ _ _) as [a|]; [eauto|done].
  - intros (config' & name' & [= <-] & Hn' & _ & Hs). rewrite En in Hn'. injection Hn' as <-.
    apply adapter_urls in Hs as (a & -> & Ha). done.
Qed.
End Backends.

(** A credentials file decides alone: what the configuration holds besides is never used,
    not even when the file cannot be read or is of another type. *)
Lemma credentials_file_decides ReadFile json_Unmarshal c c' :
  GCS_CredentialsFile c ≠ "" → GCS_CredentialsFile c' = GCS_CredentialsFile c →
  gcs_credentials ReadFile json_Unmarshal c = gcs_credentials ReadFile json_Unmarshal c'.
Proof.
  intros Hf Heq. unfold gcs_credentials, GCS.Resolve, GCS.readCredentialsFromFile. simpl. rewrite Heq, !bool_decide_eq_true_2 by done.
  destruct (ReadFile _) as [d|]; [|done]. destruct (json_Unmarshal d) as [x|]; [|done]. by destruct (negb _).
Qed.
