(* ===== verification/HelperCommands.v ===== *)
(** The commands of the helper binary (commands/helpers): retrying, collecting the files of
    an archive, and uploading and downloading artifacts and caches; with the checks of
    helpers/archives on paths and repeated errors.

    The file system is the one of a slash system and is outside ([Files]); so are the
    answers of the network, which are functions of what was sent before. *)

From stdpp Require Import sorting.
From S2P Require Import Prelude GoLib Path Types CacheKeys.

(** ** Errors and retries, retry_helper.go *)

Inductive herror :=
| HRetryable (e : herror)                  (* retryableErr *)
| HNotExist                                (* os.ErrNotExist *)
| HPermission                              (* os.ErrPermission *)
| HInvalid                                 (* os.ErrInvalid *)
| HText (msg : string).

Definition retryable (err : option herror) : bool :=
  match err with Some (HRetryable _) => true | _ => false end.

Section Retry.
Context {St : Type} (handler : St → option herror * St).

Fixpoint retry_loop (n : nat) (err : option herror) (s : St) : option herror * St :=
  match n with
  | 0 => (err, s)
  | S n' =>
      if retryable err then let '(err, s) := handler s in retry_loop n' err s
      else (err, s)
  end.

(** [retry] is the setting; a negative one means no retry. *)
Definition doRetry (retry : Z) (s : St) : option herror * St :=
  let '(err, s) := handler s in retry_loop (Z.to_nat retry) err s.
End Retry.

Definition retryOnServerError (statusCode : Z) (status : string) : option herror :=
  if (Z.quot statusCode 100 =? 2)%Z then None
  else let err := HText ("received: " +:+ status) in
       Some (if (Z.quot statusCode 100 =? 5)%Z then HRetryable err else err).

(** ** The files of an archive, file_archiver.go *)

Inductive file_error := FNotExist | FOther (msg : string).

(** [os.Stat] and [os.Lstat] give the time of the last change; [Glob] and [Walk] list paths; [ls_files]
    is the output of git. *)
Class Files := {
  Getwd : result string string;
  Stat : string → result file_error Z;
  Lstat : string → result file_error Z;
  Glob : string → result string (list string);
  Walk : string → list string;
  ls_files : result string string }.

Section Archiver.
Context `{!Files}.

(** [fileArchiver]: the settings, and the files collected so far with their times. *)
Record fileArchiver := mkArchiver { Paths : list string; Untracked : bool; wd : string; files : gmap string Z }.

Definition isChanged (c : fileArchiver) (modTime : Z) : bool :=
  bool_decide (map_Exists (λ _ t, modTime < t)%Z (files c)).

Definition isFileChanged (c : fileArchiver) (fileName : string) : bool :=
  match Stat fileName with
  | Ok modTime => isChanged c modTime
  | Err _ => true
  end.

Definition string_le (a b : string) : Prop := String.leb a b = true.
#[export] Instance string_le_dec a b : Decision (string_le a b) := decide (String.leb a b = true).

Definition sortedFiles (c : fileArchiver) : list string := merge_sort string_le (map_to_list (files c)).*1.

Definition set_files (c : fileArchiver) (f : gmap string Z) : fileArchiver := mkArchiver (Paths c) (Untracked c) (wd c) f.

Definition add (c : fileArchiver) (path : string) : option file_error * fileArchiver :=
  match Lstat path with
  | Err err => (Some err, c)
  | Ok info => (None, set_files c (<[path := info]> (files c)))
  end.

(** [filepath.Abs] in the working directory. *)
Definition Abs (wd path : string) : string := if IsAbs path then Clean path else pathJoin [wd; path].

(** [process] of one path: whether it was added. *)
Definition process (c : fileArchiver) (match_ : string) : bool * fileArchiver :=
  match Rel (wd c) (Abs (wd c) match_) with
  | None => (false, c)
  | Some relative =>
      if HasPrefix relative "../" then (false, c)
      else match add c relative with
           | (None, c') => (true, c')
           | (Some _, c') => (false, c')
           end
  end.

Definition process_all (c : fileArchiver) (l : list string) : fileArchiver := foldl (λ c p, (process c p).2) c l.

Fixpoint process_paths (c : fileArchiver) (paths : list string) : fileArchiver :=
  match paths with
  | [] => c
  | path :: rest =>
      match Glob path with
      | Err _ => process_paths c rest
      | Ok matches => process_paths (process_all c (matches ≫= Walk)) rest
      end
  end.
Definition processPaths (c : fileArchiver) : fileArchiver := process_paths c (Paths c).

(** The texts before each zero byte; what follows the last one is not read. *)
Fixpoint zero_terminated (acc s : string) : list string :=
  match s with
  | "" => []
  | String c s' => if bool_decide (c = "000"%char) then acc :: zero_terminated "" s'
                   else zero_terminated (acc +:+ String c "") s'
  end.

Definition processUntracked (c : fileArchiver) : fileArchiver :=
  if Untracked c then
    match ls_files with
    | Err _ => c
    | Ok output => process_all c (zero_terminated "" output)
    end
  else c.

Definition enumerate (c : fileArchiver) : result string fileArchiver :=
  match Getwd with
  | Err err => Err ("Failed to get current working directory: " +:+ err)
  | Ok dir => Ok (processUntracked (processPaths (mkArchiver (Paths c) (Untracked c) dir ∅)))
  end.

(** ** Artifacts, artifacts_uploader.go and artifacts_downloader.go *)

Definition DefaultUploadName : string := "default".

(** What is uploaded: the kind of stream and the files in it. *)
Inductive stream := SZip (l : list string) | SGzip (l : list string) | SRaw (file : string).

Record ArtifactsUploaderCommand := {
  au_credentials : JobCredentials; au_archiver : fileArchiver; au_Retry : Z; au_Name : string;
  au_ExpireIn : string; au_Format : string; au_Type : string }.

(** The uploads so far, latest first. *)
Definition uploads : Type := list (ArtifactsOptions * stream).

(** [os_Open] says why a file cannot be opened, [network] is the answer of the coordinator. *)
Context (os_Open : uploads → string → option herror) (network : uploads → UploadState).

(** [None] is the index out of range of an empty list, which the caller rules out. *)
Definition openRawStream (u : uploads) (fileNames : list string) : option (result herror stream) :=
  match fileNames with
  | _ :: _ :: _ => Some (Err (HText "only one file can be send as raw"))
  | [f] => Some (match os_Open u f with Some err => Err err | None => Ok (SRaw f) end)
  | [] => None
  end.

(** No files: no stream. *)
Definition createReadStream (c : ArtifactsUploaderCommand) (u : uploads) : result herror (option (string * stream)) :=
  if bool_decide (files (au_archiver c) = ∅) then Ok None
  else
    let name := Base (au_Name c) in
    let name := if bool_decide (name = "") || bool_decide (name = ".") then DefaultUploadName else name in
    let l := sortedFiles (au_archiver c) in
    if bool_decide (au_Format c = "zip") || bool_decide (au_Format c = "") then Ok (Some (name +:+ ".zip", SZip l))
    else if bool_decide (au_Format c = "gzip") then Ok (Some (name +:+ ".gz", SGzip l))
    else if bool_decide (au_Format c = "raw") then
      match openRawStream u l with
      | Some (Ok s) => Ok (Some (name, s))
      | Some (Err err) => Err err
      | None => Ok None
      end
    else Err (HText ("unsupported archive format: " +:+ au_Format c)).

Definition createAndUpload (c : ArtifactsUploaderCommand) (u : uploads) : option herror * uploads :=
  match createReadStream c u with
  | Err err => (Some err, u)
  | Ok None => (None, u)
  | Ok (Some (artifactsName, s)) =>
      let options := {| AO_BaseName := artifactsName; AO_ExpireIn := au_ExpireIn c; AO_Format := au_Format c; AO_Type := au_Type c |} in
      (match network u with
       | UploadSucceeded => None
       | UploadForbidden => Some HPermission
       | UploadTooLarge => Some (HText "too large")
       | UploadFailed => Some (HRetryable HInvalid)
       end, (options, s) :: u)
  end.

(** [Execute]: the message of a fatal end, or none. *)
Inductive outcome := Fatal (err : herror) | FatalText (msg : string) | Done.

Definition missing_credentials (c : JobCredentials) : option string :=
  if bool_decide (JC_URL c = "") || bool_decide (JC_Token c = "") then Some "Missing runner credentials"
  else if (JC_ID c <=? 0)%Z then Some "Missing build ID"
  else None.

Definition uploader_Execute (c : ArtifactsUploaderCommand) : outcome * uploads :=
  match missing_credentials (au_credentials c) with
  | Some msg => (FatalText msg, [])
  | None =>
      match enumerate (au_archiver c) with
      | Err msg => (FatalText msg, [])
      | Ok a =>
          let c := {| au_credentials := au_credentials c; au_archiver := a; au_Retry := au_Retry c; au_Name := au_Name c;
                      au_ExpireIn := au_ExpireIn c; au_Format := au_Format c; au_Type := au_Type c |} in
          match doRetry (createAndUpload c) (au_Retry c) [] with
          | (Some err, u) => (Fatal err, u)
          | (None, u) => (Done, u)
          end
      end
  end.

(** [download] of the artifacts into a file; [n] counts the attempts. *)
Definition download (answer : nat → DownloadState) (n : nat) : option herror * nat :=
  (match answer n with
   | DownloadSucceeded => None
   | DownloadNotFound => Some HNotExist
   | DownloadForbidden => Some HPermission
   | DownloadFailed => Some (HRetryable HInvalid)
   end, S n).

(** [tempFile] and [extract] are the errors of making the file and of unpacking it. *)
Definition downloader_Execute (c : JobCredentials) (retry : Z) (tempFile extract : option herror)
    (answer : nat → DownloadState) : outcome * nat :=
  match missing_credentials c with
  | Some msg => (FatalText msg, 0)
  | None =>
      match tempFile with
      | Some err => (Fatal err, 0)
      | None =>
          match doRetry (download answer) retry 0 with
          | (Some err, n) => (Fatal err, n)
          | (None, n) => (match extract with Some err => Fatal err | None => Done end, n)
          end
      end
  end.

(** ** Caches, cache_archiver.go, cache_extractor.go and cache_client.go *)

Definition DefaultCacheRequestTimeout : Z := 10.
Definition prepareClient (timeout : Z) : Z :=
  int64_wrap ((if (0 <? timeout)%Z then timeout else DefaultCacheRequestTimeout) * Minute).

(** The answer of an HTTP request, or the error of sending it. *)
Definition response : Type := result herror (Z * string).

(** [upload] of the archive: opening it, making the request and sending it can fail, in each
    attempt for itself; [n] counts the attempts. *)
Definition upload (open_ request : nat → option herror) (send : nat → response) (n : nat) : option herror * nat :=
  (match open_ n with
   | Some err => Some err
   | None =>
       match request n with
       | Some err => Some (HRetryable err)
       | None =>
           match send n with
           | Err err => Some (HRetryable err)
           | Ok (code, status) => retryOnServerError code status
           end
       end
   end, S n).

(** What the archiver does: the archive it wrote, if any, and the number of uploads. *)
Definition cacheArchiver_Execute (c : fileArchiver) (File URL : string) (retry : Z) (createZip : option herror)
    (open_ request : nat → option herror) (send : nat → response) : outcome * option (list string) * nat :=
  if bool_decide (File = "") then (FatalText "Missing --file", None, 0)
  else
    match enumerate c with
    | Err msg => (FatalText msg, None, 0)
    | Ok c =>
        if negb (isFileChanged c File) then (Done, None, 0)
        else match createZip with
             | Some err => (Fatal err, None, 0)
             | None =>
                 if bool_decide (URL = "") then (Done, Some (sortedFiles c), 0)
                 else match doRetry (upload open_ request send) retry 0 with
                      | (Some err, n) => (Fatal err, Some (sortedFiles c), n)
                      | (None, n) => (Done, Some (sortedFiles c), n)
                      end
             end
    end.

(** The date of a response against the local file: no file is never up to date. *)
Definition checkIfUpToDate (path : string) (date : Z) : bool :=
  match Lstat path with
  | Ok modTime => negb (modTime <? date)%Z
  | Err _ => false
  end.

Definition getCache (r : result herror (Z * string * Z)) : result herror Z :=
  match r with
  | Err err => Err (HRetryable err)
  | Ok (code, status, date) =>
      if (code =? 404)%Z then Err HNotExist
      else match retryOnServerError code status with Some err => Err err | None => Ok date end
  end.

(** What can fail in one attempt after the answer: the temporary file, the copy, closing and
    renaming. *)
Record download_errors := { temp : option herror; copy : option herror; close : option herror; rename : option herror }.

(** [download] of the cache: the answer with its date. The state counts the attempts and the
    files replaced. *)
Definition cache_download (File : string) (get : nat → result herror (Z * string * Z)) (e : nat → download_errors)
    (s : nat * nat) : option herror * (nat * nat) :=
  let '(n, replaced) := s in
  match getCache (get n) with
  | Err err => (Some err, (S n, replaced))
  | Ok date =>
      if checkIfUpToDate File date then (None, (S n, replaced))
      else match temp (e n), copy (e n), close (e n), rename (e n) with
           | Some err, _, _, _ => (Some err, (S n, replaced))
           | None, Some err, _, _ => (Some (HRetryable err), (S n, replaced))
           | None, None, Some err, _ => (Some err, (S n, replaced))
           | None, None, None, Some err => (Some err, (S n, replaced))
           | None, None, None, None => (None, (S n, S replaced))
           end
  end.

Definition cacheExtractor_Execute (File URL : string) (retry : Z) (get : nat → result herror (Z * string * Z))
    (e : nat → download_errors) (extract : option herror) : outcome * (nat * nat) :=
  if bool_decide (File = "") then (FatalText "Missing cache file", (0, 0))
  else
    let '(err, s) := if bool_decide (URL = "") then (None, (0, 0))
                     else doRetry (cache_download File get e) retry (0, 0) in
    match err with
    | Some err => (Fatal err, s)
    | None =>
        (match extract with
         | Some HNotExist => Done
         | Some err => Fatal err
         | None => Done
         end, s)
    end.
End Archiver.

(** ** Paths and errors of archives, helpers/archives *)

Definition isPathAGitDirectory (path : string) : bool :=
  match Split (Clean path) slash with p :: _ => bool_decide (p = ".git") | [] => false end.

Definition errorIfGitDirectory (path : string) : option (string * string) :=
  if isPathAGitDirectory path then Some (".git inside of archive", path) else None.

(** An error: none, a path error with its operation, or another one. *)
Inductive tracked := NoError | PathError (op : string) | OtherError.
Definition actionable (seenOps : gset string) (e : tracked) : bool * gset string :=
  match e with
  | NoError => (false, seenOps)
  | OtherError => (true, seenOps)
  | PathError op => (bool_decide (op ∉ seenOps), {[op]} ∪ seenOps)
  end.

(** ** Retries *)

Section RetryLaws.
Context {St : Type} (handler : St → option herror * St).

(** The result of call [k] (from 0) and the state after it, when all calls before it are made. *)
Fixpoint call (k : nat) (s : St) : option herror * St :=
  match k with
  | 0 => handler s
  | S k => call k (handler s).2
  end.

Lemma retry_loop_call n s :
  ∃ k, k ≤ n ∧ retry_loop handler n (handler s).1 (handler s).2 = call k s ∧
       (∀ i, i < k → retryable (call i s).1 = true) ∧ (k < n → retryable (call k s).1 = false).
Proof.
  revert s. induction n as [|n IH]; intros s; simpl.
  { exists 0. split_and!; [lia|simpl; by destruct (handler s)|lia|lia]. }
  destruct (retryable (handler s).1) eqn:Er; last first.
  { exists 0. split_and!; [lia|simpl; by destruct (handler s)|lia|done]. }
  destruct (IH (handler s).2) as (k & Hk & Hr & Hb & Ha).
  exists (S k). split_and!; [lia| | |simpl; intros; apply Ha; lia].
  - simpl. rewrite <- Hr. by destruct (handler (handler s).2).
  - intros [|i] Hi; [done|apply Hb; lia].
Qed.

(** [doRetry] of the artifacts and cache commands calls its handler at least once and at
    most one time more than the configured number of retries, gives the error of the last
    call, and goes on exactly while the error is a retryable one: every earlier call failed
    with a retryable error, and when it stops before the limit the last one did not. *)
Theorem retries_are_bounded (retry : Z) s :
  ∃ k, k ≤ Z.to_nat retry ∧ doRetry handler retry s = call k s ∧
       (∀ i, i < k → retryable (call i s).1 = true) ∧
       (k < Z.to_nat retry → retryable (call k s).1 = false).
Proof.
  destruct (retry_loop_call (Z.to_nat retry) s) as (k & H). exists k.
  unfold doRetry. by destruct (handler s).
Qed.
End RetryLaws.

(** ** The files of an archive *)

Section ArchiverLaws.
Context `{!Files}.

#[export] Instance string_le_total : Total string_le.
Proof. intros a b. apply String.leb_total. Qed.

(** The archive lists each file once, in order. *)
Lemma sortedFiles_spec c :
  Sorted string_le (sortedFiles c) ∧ sortedFiles c ≡ₚ elements (dom (files c)) ∧ NoDup (sortedFiles c).
Proof.
  assert (Hp : sortedFiles c ≡ₚ elements (dom (files c))).
  { unfold sortedFiles. rewrite merge_sort_Permutation. symmetry. apply NoDup_Permutation.
    - apply NoDup_elements.
    - apply NoDup_fst_map_to_list.
    - intros p. rewrite elem_of_elements, elem_of_dom, list_elem_of_fmap. split.
      + intros [t Ht]. exists (p, t). by rewrite elem_of_map_to_list.
      + intros ([q t] & -> & Ht). rewrite elem_of_map_to_list in Ht. by eexists. }
  split_and!; [apply Sorted_merge_sort, _|done|]. rewrite Hp. apply NoDup_elements.
Qed.

(** What is known of every collected file. *)
Definition collected (dir : string) (p : string) : Prop :=
  (∃ q, Rel dir (Abs dir q) = Some p ∧ HasPrefix p "../" = false) ∧ ∃ t, Lstat p = Ok t.

Definition archiver_ok (c : fileArchiver) : Prop := ∀ p, p ∈ dom (files c) → collected (wd c) p.

Lemma process_ok c m : archiver_ok c → archiver_ok (process c m).2 ∧ wd (process c m).2 = wd c.
Proof.
  intros Hc. unfold process. destruct (Rel _ _) as [rel|] eqn:Er; [|done].
  destruct (HasPrefix rel "../") eqn:Hp; [done|]. unfold add.
  destruct (Lstat rel) as [t|] eqn:El; simpl; [|done]. split; [|done].
  intros p. simpl. rewrite dom_insert, elem_of_union, elem_of_singleton.
  intros [->|Hin]; [|by apply Hc]. split; [by exists m|by exists t].
Qed.

Lemma process_all_ok l c : archiver_ok c → archiver_ok (process_all c l) ∧ wd (process_all c l) = wd c.
Proof.
  revert c. induction l as [|p l IH]; intros c Hc; simpl; [done|].
  destruct (process_ok c p Hc) as [H1 H2]. destruct (IH _ H1) as [H3 H4]. split; [done|by rewrite H4].
Qed.

Lemma process_paths_ok l c : archiver_ok c → archiver_ok (process_paths c l) ∧ wd (process_paths c l) = wd c.
Proof.
  revert c. induction l as [|p l IH]; intros c Hc; simpl; [done|].
  destruct (Glob p) as [matches|]; [|by apply IH].
  destruct (process_all_ok (matches ≫= Walk) c Hc) as [H1 H2].
  destruct (IH _ H1) as [H3 H4]. split; [done|by rewrite H4].
Qed.

Lemma enumerate_ok c a : enumerate c = Ok a → Getwd = Ok (wd a) ∧ archiver_ok a.
Proof.
  unfold enumerate. destruct Getwd as [dir|] eqn:Ed; [|done]. intros [= <-].
  set (c0 := mkArchiver _ _ dir ∅).
  assert (H0 : archiver_ok c0) by (intros p; simpl; set_solver).
  destruct (process_paths_ok (Paths c0) c0 H0) as [H1 H2].
  change (process_paths c0 (Paths c0)) with (processPaths c0) in H1, H2.
  assert (H3 : archiver_ok (processUntracked (processPaths c0)) ∧ wd (processUntracked (processPaths c0)) = dir).
  { unfold processUntracked. destruct (Untracked (processPaths c0)); [|by split].
    destruct ls_files as [out|]; [|by split].
    destruct (process_all_ok (zero_terminated "" out) _ H1) as [H3 H4]. split; [done|by rewrite H4]. }
  destruct H3 as [H3 H4]. by rewrite H4.
Qed.

(** C32: the files an artifacts or cache archive is made of exist, are named by their path
    relative to the directory the command runs in, and lie in that directory; the one
    exception is the directory just above it, whose relative path has no slash and so passes
    the test for being outside. *)
Theorem archived_files_are_inside c a p :
  enumerate c = Ok a → p ∈ sortedFiles a →
  (∃ t, Lstat p = Ok t) ∧
  ∃ q, Rel (wd a) q = Some p ∧
       (clean_segments (wd a) `prefix_of` clean_segments q ∨ ∃ e, clean_segments (wd a) = clean_segments q ++ [e]).
Proof.
  intros He Hp. apply enumerate_ok in He as [_ Ha].
  destruct (sortedFiles_spec a) as (_ & Hs & _). rewrite Hs, elem_of_elements in Hp.
  destruct (Ha p Hp) as [(q & Hq & Hpre) Hl]. split; [done|].
  exists (Abs (wd a) q). split; [done|by eapply Rel_shape].
Qed.
End ArchiverLaws.

(** A raw upload never indexes an empty list. *)
Lemma raw_stream_total `{!Files} os_Open (c : ArtifactsUploaderCommand) u :
  files (au_archiver c) ≠ ∅ → is_Some (openRawStream os_Open u (sortedFiles (au_archiver c))).
Proof.
  intros Hne. destruct (sortedFiles_spec (au_archiver c)) as (_ & Hp & _).
  destruct (sortedFiles (au_archiver c)) as [|f [|g l]]; simpl; [|by eexists..].
  apply Permutation_nil_l in Hp. symmetry in Hp. apply elements_empty_inv, dom_empty_inv in Hp. done.
Qed.

(** ** A directory with two files, and the path above it *)

Module HelperDemo.
#[export] Instance tree : Files := {|
  Getwd := Ok "/b/p"; Stat := λ _, Err FNotExist; Lstat := λ p, if bool_decide (p = "gone") then Err FNotExist else Ok 1%Z;
  Glob := λ p, Ok [p]; Walk := λ p, [p]; ls_files := Ok ("u" +:+ String "000" "") |}.

Definition command : fileArchiver := mkArchiver ["x/../y"; "/etc/passwd"; "gone"; ".."] true "" ∅.

Lemma run : ∃ a, enumerate command = Ok a ∧ sortedFiles a = [".."; "u"; "y"].
Proof. eexists. split; [reflexivity|vm_compute; reflexivity]. Qed.
End HelperDemo.

Lemma archived_files_are_inside_witness :
  (∃ t, @Lstat HelperDemo.tree "y" = Ok t) ∧
  ∃ q, Rel "/b/p" q = Some "y" ∧
       (clean_segments "/b/p" `prefix_of` clean_segments q ∨ ∃ e, clean_segments "/b/p" = clean_segments q ++ [e]).
Proof.
  refine (archived_files_are_inside HelperDemo.command
            (mkArchiver (Paths HelperDemo.command) true "/b/p" {["y" := 1%Z; ".." := 1%Z; "u" := 1%Z]}) "y" _ _).
  - vm_compute. reflexivity.
  - apply (bool_decide_unpack _). vm_compute. exact I.
Defined.
