(* ===== verification/Archives.v ===== *)
(** Archives (helpers/archives): zip files of artifacts and caches with their extra fields,
    their extraction, and gzip streams.

    The file system is a map from paths to nodes. A path is looked up under its cleaned
    elements; symbolic links inside a path are not followed, only [Chmod] and [Chtimes] follow
    the link they are given. The process may do everything (it runs as root), so the only errors are
    those of the tree's shape; what a file cannot be opened for is a parameter. The bytes of
    the zip container and of the compression are those of the libraries: an archive is the
    list of its entries, whose extra field is the one the runner makes. *)

From S2P Require Import Prelude GoLib Path HelperCommands.

(** ** Files *)

(** The types that [os.ModeType] distinguishes. *)
Inductive kind := KRegular | KDir | KSymlink | KNamedPipe | KSocket | KDevice.
#[export] Instance kind_eq_dec : EqDecision kind.
Proof. solve_decision. Defined.

(** [n_data] is the content of a file or the target of a link; [n_perm] the permission bits. *)
Record node := mkNode { n_kind : kind; n_perm : Z; n_data : string; n_mtime : Z; n_uid : Z; n_gid : Z }.

Abbreviation fkey := (list string).
Abbreviation fs := (gmap (list string) node).

Definition key (path : string) : fkey := if IsAbs path then "/" :: clean_segments path else clean_segments path.

(** Directories that are always there: the working directory, those above it, the root. *)
Definition rootish (k : fkey) : bool := forallb (λ e, bool_decide (e = "..")) k || bool_decide (k = ["/"]).
Definition is_dir (f : fs) (k : fkey) : bool :=
  rootish k || match f !! k with Some n => bool_decide (n_kind n = KDir) | None => false end.
Definition parent (k : fkey) : fkey := removelast k.

Definition set_node (f : fs) (k : fkey) (n : node) : fs := <[k := n]> f.

(** [os.Mkdir] under a umask; the time and the owner of new files are the process's. *)
Record process_ := mkProcess { p_umask : Z; p_now : Z; p_uid : Z; p_gid : Z }.

Section System.
Context (P : process_).

Definition new_node (knd : kind) (perm : Z) (data : string) : node :=
  mkNode knd (Z.ldiff perm (p_umask P)) data (p_now P) (p_uid P) (p_gid P).

Inductive mkdir_result := Made | Exists_ | Failed.
Definition Mkdir (f : fs) (k : fkey) (perm : Z) : mkdir_result * fs :=
  if rootish k || bool_decide (is_Some (f !! k)) then (Exists_, f)
  else if is_dir f (parent k) then (Made, set_node f k (new_node KDir perm ""))
  else (Failed, f).

(** [os.MkdirAll]: the missing directories of a path, from the top; a file in the way ends it. *)
Fixpoint mkdir_all (f : fs) (ks : list fkey) (perm : Z) : fs :=
  match ks with
  | [] => f
  | k :: rest =>
      if is_dir f k then mkdir_all f rest perm
      else match Mkdir f k perm with
           | (Made, f') => mkdir_all f' rest perm
           | _ => f
           end
  end.
Definition prefixes (k : fkey) : list fkey := (λ n, take (S n) k) <$> seq 0 (length k).
Definition MkdirAll (f : fs) (path : string) (perm : Z) : fs := mkdir_all f (prefixes (key path)) perm.

(** [os.Remove]: a file, or an empty directory. *)
Definition has_children (f : fs) (k : fkey) : bool :=
  bool_decide (map_Exists (λ k' _, k' ≠ [] ∧ parent k' = k) f).
Definition Remove (f : fs) (k : fkey) : fs :=
  match f !! k with
  | Some n => if bool_decide (n_kind n = KDir) && has_children f k then f else delete k f
  | None => f
  end.

Definition Symlink (f : fs) (target : string) (k : fkey) : bool * fs :=
  if rootish k || bool_decide (is_Some (f !! k)) || negb (is_dir f (parent k)) then (false, f)
  else (true, set_node f k (mkNode KSymlink 511 target (p_now P) (p_uid P) (p_gid P))).

(** [os.OpenFile] to write a new or an emptied file, and the copy into it. *)
Definition WriteNew (f : fs) (k : fkey) (perm : Z) (data : string) : bool * fs :=
  if rootish k || negb (is_dir f (parent k)) then (false, f)
  else match f !! k with
       | None => (true, set_node f k (new_node KRegular perm data))
       | Some n => match n_kind n with
                   | KRegular => (true, set_node f k (mkNode KRegular (n_perm n) data (p_now P) (n_uid n) (n_gid n)))
                   | _ => (false, f)
                   end
       end.

(** Where a link leads, up to [fuel] links. *)
Fixpoint follow (fuel : nat) (f : fs) (k : fkey) : option fkey :=
  match f !! k with
  | None => None
  | Some n =>
      if bool_decide (n_kind n = KSymlink) then
        match fuel with
        | 0 => None
        | S m => follow m f (if IsAbs (n_data n) then key (n_data n) else key (pathJoin [Join (parent k) "/"; n_data n]))
        end
      else Some k
  end.
Definition max_links : nat := 40.

(** [os.Chmod] and [os.Chtimes] act on what a link leads to, [os.Lchown] on the link. *)
Definition through (f : fs) (k : fkey) (g : node → node) : bool * fs :=
  match follow max_links f k with
  | Some k' => match f !! k' with Some n => (true, set_node f k' (g n)) | None => (false, f) end
  | None => (rootish k, f)
  end.
Definition with_perm (perm : Z) (n : node) : node := mkNode (n_kind n) perm (n_data n) (n_mtime n) (n_uid n) (n_gid n).
Definition with_mtime (mtime : Z) (n : node) : node := mkNode (n_kind n) (n_perm n) (n_data n) mtime (n_uid n) (n_gid n).
Definition Chmod (f : fs) (k : fkey) (perm : Z) : bool * fs := through f k (with_perm perm).
Definition Chtimes (f : fs) (k : fkey) (mtime : Z) : bool * fs := through f k (with_mtime mtime).
Definition Lchown (f : fs) (k : fkey) (uid gid : Z) : bool * fs :=
  match f !! k with
  | Some n => (true, set_node f k (mkNode (n_kind n) (n_perm n) (n_data n) (n_mtime n) uid gid))
  | None => (rootish k, f)
  end.
End System.

(** ** Extra fields, zip_extra.go and zip_extra_unix.go *)

Definition ZipUIDGidFieldType : Z := 0x7875.
Definition ZipTimestampFieldType : Z := 0x5455.

(** [binary.Write] and [binary.Read] of fixed-size integers, least byte first. *)
Definition put8 (z : Z) : string := String (byte_of (z mod 256)) "".
Definition put16 (z : Z) : string := put8 z +:+ put8 (z / 256).
Definition put32 (z : Z) : string := put16 z +:+ put16 (z / 65536).

Definition get8 (s : string) : option (Z * string) :=
  match s with "" => None | String c s' => Some (z_of c, s') end.
Definition get16 (s : string) : option (Z * string) :=
  match get8 s with
  | Some (a, s1) => match get8 s1 with Some (b, s2) => Some ((a + 256 * b)%Z, s2) | None => None end
  | None => None
  end.
Definition get32 (s : string) : option (Z * string) :=
  match get16 s with
  | Some (a, s1) => match get16 s1 with Some (b, s2) => Some ((a + 65536 * b)%Z, s2) | None => None end
  | None => None
  end.

Definition uint32_wrap (z : Z) : Z := (z mod 2 ^ 32)%Z.

(** The field with its header; 11 and 5 are the sizes of the two records. *)
Definition createZipUIDGidField (n : node) : string :=
  put16 ZipUIDGidFieldType +:+ put16 11 +:+ put8 1 +:+ put8 4 +:+ put32 (n_uid n) +:+ put8 4 +:+ put32 (n_gid n).
Definition createZipTimestampField (n : node) : string :=
  put16 ZipTimestampFieldType +:+ put16 5 +:+ put8 1 +:+ put32 (uint32_wrap (n_mtime n)).

Definition createZipExtra (n : node) : string := createZipUIDGidField n +:+ createZipTimestampField n.

(** One entry of an archive; the name of a directory ends in a slash. *)
Record entry := mkEntry { e_name : string; e_kind : kind; e_perm : Z; e_extra : string; e_data : string }.

(** What reading a field gives: the end, an error, or the field with its data and the rest.
    A short read leaves zeros. *)
Inductive field_read := FieldEOF | FieldError | Field (type : Z) (data rest : string).

Fixpoint zeros (n : nat) : string := match n with 0 => "" | S m => String (byte_of 0) (zeros m) end.

Definition readZipExtraField (s : string) : field_read :=
  if bool_decide (s = "") then FieldEOF
  else match get16 s with
       | None => FieldError
       | Some (type, s1) =>
           match get16 s1 with
           | None => FieldError
           | Some (size, s2) =>
               if bool_decide (s2 = "") then FieldEOF
               else let data := stake (Z.to_nat size) s2 in
                    Field type (data +:+ zeros (Z.to_nat size - slen data)) (sdrop (Z.to_nat size) s2)
           end
       end.

(** What a field asks for. *)
Definition processZipUIDGidField (f : fs) (name data : string) : tracked * fs :=
  match get8 data with
  | Some (version, d1) =>
      match get8 d1 with
      | Some (uidSize, d2) =>
          match get32 d2 with
          | Some (uid, d3) =>
              match get8 d3 with
              | Some (gidSize, d4) =>
                  match get32 d4 with
                  | Some (gid, _) =>
                      if (version =? 1)%Z && (uidSize =? 4)%Z && (gidSize =? 4)%Z then
                        let '(ok, f') := Lchown f (key name) uid gid in (if ok then NoError else PathError "lchown", f')
                      else (OtherError, f)
                  | None => (OtherError, f)
                  end
              | None => (OtherError, f)
              end
          | None => (OtherError, f)
          end
      | None => (OtherError, f)
      end
  | None => (OtherError, f)
  end.

Definition processZipTimestampField (f : fs) (e : entry) (data : string) : tracked * fs :=
  if bool_decide (e_kind e = KDir) || bool_decide (e_kind e = KRegular) then
    match get8 data with
    | Some (flags, d1) =>
        match get32 d1 with
        | Some (modTime, _) =>
            if Z.testbit flags 0 then
              let '(ok, f') := Chtimes f (key (e_name e)) modTime in (if ok then NoError else PathError "chtimes", f')
            else (NoError, f)
        | None => (OtherError, f)
        end
    | None => (OtherError, f)
    end
  else (NoError, f).

(** The loop over the fields: each one takes at least four bytes, so the length of the text
    is enough [fuel]. *)
Fixpoint process_fields (fuel : nat) (f : fs) (e : entry) (s : string) : tracked * fs :=
  match fuel with
  | 0 => (NoError, f)
  | S n =>
      match readZipExtraField s with
      | FieldEOF => (NoError, f)
      | FieldError => (OtherError, f)
      | Field type data rest =>
          let '(err, f) :=
            if (type =? ZipUIDGidFieldType)%Z then processZipUIDGidField f (e_name e) data
            else if (type =? ZipTimestampFieldType)%Z then processZipTimestampField f e data
            else (NoError, f) in
          match err with
          | NoError => process_fields n f e rest
          | _ => (err, f)
          end
      end
  end.
Definition processZipExtra (f : fs) (e : entry) : tracked * fs := process_fields (S (slen (e_extra e))) f e (e_extra e).

(** ** Creating, zip_create.go *)

Section Create.
Context (src : fs) (os_Open : string → option string).

Definition Lstat_ (name : string) : option node :=
  if rootish (key name) then Some (mkNode KDir 493 "" 0 0 0) else src !! key name.

(** A file that is not there is ignored, and so are pipes, sockets and devices. A file that
    cannot be opened has left its header behind. *)
Definition header (name : string) (n : node) (data : string) : entry :=
  mkEntry name (n_kind n) (n_perm n) (createZipExtra n) data.

Definition createZipDirectoryEntry (name : string) (n : node) : option string * option entry :=
  (None, Some (header (name +:+ "/") n "")).
Definition createZipSymlinkEntry (name : string) (n : node) : option string * option entry :=
  (None, Some (header name n (n_data n))).
Definition createZipFileEntry (name : string) (n : node) : option string * option entry :=
  match os_Open name with
  | Some err => (Some err, Some (header name n ""))
  | None => (None, Some (header name n (n_data n)))
  end.

Definition createZipEntry (name : string) : option string * option entry :=
  match Lstat_ name with
  | None => (None, None)
  | Some n =>
      match n_kind n with
      | KDir => createZipDirectoryEntry name n
      | KSymlink => createZipSymlinkEntry name n
      | KNamedPipe | KSocket | KDevice => (None, None)
      | KRegular => createZipFileEntry name n
      end
  end.

(** The entries written, and the error that ended it; [warned] says whether the warning about
    a .git directory was printed. *)
Fixpoint create_entries (names : list string) (seenOps : gset string) (warned : bool)
    : option string * list entry * bool :=
  match names with
  | [] => (None, [], warned)
  | name :: rest =>
      let '(act, seenOps) := actionable seenOps
        match errorIfGitDirectory name with Some (op, _) => PathError op | None => NoError end in
      let warned := warned || act in
      let '(err, e) := createZipEntry name in
      match err with
      | Some _ => (err, option_list e, warned)
      | None => let '(err, es, warned) := create_entries rest seenOps warned in (err, option_list e ++ es, warned)
      end
  end.
Definition CreateZipArchive (names : list string) : option string * list entry * bool := create_entries names ∅ false.

(** [CreateZipFile] writes a temporary file and renames it: the archive that is there
    afterwards, [old] being the one before. *)
Definition CreateZipFile (tempFile rename : option string) (old : option (list entry)) (names : list string)
    : option string * option (list entry) :=
  match tempFile with
  | Some err => (Some err, old)
  | None =>
      match CreateZipArchive names with
      | (Some err, _, _) => (Some err, old)
      | (None, es, _) => match rename with Some err => (Some err, old) | None => (None, Some es) end
      end
  end.

(** *** gzip_create.go *)

Record gzip_stream := mkGzip { gz_Name : string; gz_Comment : string; gz_ModTime : Z; gz_content : string }.

(** The error and what was written: closing the stream of a file that cannot be opened
    writes it empty. *)
Definition writeGzipFile (name : string) (n : node) : option string * option gzip_stream :=
  if negb (bool_decide (n_kind n = KRegular)) then (Some ("the " +:+ QuoteWith (λ _, true) name +:+ " is not a regular file"), None)
  else let stream := mkGzip (Base name) name (n_mtime n) in
       match os_Open name with
       | Some err => (Some err, Some (stream ""))
       | None => (None, Some (stream (n_data n)))
       end.

(** [lstat_error] is an error of [Lstat] other than a missing file. *)
Fixpoint CreateGzipArchive (lstat_error : string → option string) (names : list string) : option string * list gzip_stream :=
  match names with
  | [] => (None, [])
  | name :: rest =>
      match lstat_error name, Lstat_ name with
      | Some err, _ => (Some err, [])
      | None, None => CreateGzipArchive lstat_error rest
      | None, Some n =>
          let '(err, z) := writeGzipFile name n in
          match err with
          | Some _ => (err, option_list z)
          | None => let '(err, zs) := CreateGzipArchive lstat_error rest in (err, option_list z ++ zs)
          end
      end
  end.
End Create.

(** ** Extracting, zip_extract.go *)

Section Extract.
Context (P : process_).

Definition extractZipDirectoryEntry (f : fs) (e : entry) : tracked * fs :=
  match Mkdir P f (key (e_name e)) (e_perm e) with
  | (Failed, f') => (PathError "mkdir", f')
  | (_, f') => (NoError, f')
  end.

(** The error of [os.Symlink] is a link error, which is no path error. *)
Definition extractZipSymlinkEntry (f : fs) (e : entry) : tracked * fs :=
  let f := Remove f (key (e_name e)) in
  let '(ok, f) := Symlink P f (e_data e) (key (e_name e)) in
  (if ok then NoError else OtherError, f).

Definition extractZipFileEntry (f : fs) (e : entry) : tracked * fs :=
  let f := Remove f (key (e_name e)) in
  let '(ok, f) := WriteNew P f (key (e_name e)) (e_perm e) (e_data e) in
  (if ok then NoError else PathError "open", f).

Definition extractZipFile (f : fs) (e : entry) : tracked * fs :=
  let f := MkdirAll P f (Dir (e_name e)) 511 in
  match e_kind e with
  | KDir => extractZipDirectoryEntry f e
  | KSymlink => extractZipSymlinkEntry f e
  | KNamedPipe | KSocket | KDevice => (NoError, f)
  | KRegular => extractZipFileEntry f e
  end.

(** The state of the extraction: the files, the operations whose errors were seen, and the
    names that were warned about. *)
Record extraction := mkExtraction { x_fs : fs; x_seen : gset string; x_warned : list string }.

Definition track (x : extraction) (name : string) (err : tracked) (f : fs) : extraction :=
  let '(act, seen) := actionable (x_seen x) err in
  mkExtraction f seen (if act then name :: x_warned x else x_warned x).

Definition extract_step (x : extraction) (e : entry) : extraction :=
  let x := track x (e_name e) match errorIfGitDirectory (e_name e) with Some (op, _) => PathError op | None => NoError end
             (x_fs x) in
  let '(err, f) := extractZipFile (x_fs x) e in
  track x (e_name e) err f.

Definition restore_step (x : extraction) (e : entry) : extraction :=
  let '(ok, f) := Chmod (x_fs x) (key (e_name e)) (e_perm e) in
  let x := track x (e_name e) (if ok then NoError else PathError "chmod") f in
  let '(err, f) := processZipExtra (x_fs x) e in
  track x (e_name e) err f.

(** Errors are warnings: extraction always succeeds. *)
Definition ExtractZipArchive (f : fs) (es : list entry) : extraction :=
  foldl restore_step (foldl extract_step (mkExtraction f ∅ []) es) es.

(** [archive] is what [zip.OpenReader] found. *)
Definition ExtractZipFile (archive : result string (list entry)) (f : fs) : option string * fs :=
  match archive with
  | Err err => (Some err, f)
  | Ok es => (None, x_fs (ExtractZipArchive f es))
  end.
End Extract.
