(* ===== verification/ArchivesProofs.v ===== *)
(** Archives: an archive of a tree, extracted into an empty directory, gives the tree back. *)

From S2P Require Import Prelude GoLib Path HelperCommands Archives.

(** ** Names of the files of a project *)

Definition clean (es : fkey) : Prop := es ≠ [] ∧ Forall plain es ∧ ".." ∉ es.

Lemma clean_ups_first l : ".." ∉ l → ups_first l.
Proof.
  induction l as [|x l IH]; [done|]. intros [Hx Hl]%not_elem_of_cons. split; [congruence|by apply IH].
Qed.

Lemma plain_kept_ok l : Forall plain l → ".." ∉ l → kept_ok false (reverse l).
Proof.
  intros Hp Hu. split_and!; [by apply Forall_reverse|apply clean_ups_first; by rewrite elem_of_reverse|done].
Qed.

Lemma clean_render_key l : Forall plain l → ".." ∉ l → key (render false l) = l.
Proof.
  intros Hp Hu. unfold key. rewrite IsAbs_render by done. unfold clean_segments. rewrite IsAbs_render by done.
  destruct l as [|e es]; [done|]. unfold render.
  unfold segments. rewrite Split_Join; [|done|by eapply Forall_impl; [done|intros ? (_ & _ & ?)]].
  rewrite clean_fold_id; rewrite app_nil_r; [apply reverse_involutive|by apply plain_kept_ok].
Qed.

Lemma key_Join es : clean es → key (Join es "/") = es.
Proof. intros (Hne & Hp & Hu). destruct es as [|e es]; [done|]. by apply (clean_render_key (e :: es)). Qed.

Lemma key_Clean p : key (Clean p) = key p.
Proof. unfold key. by rewrite IsAbs_Clean, clean_segments_Clean. Qed.

(** A slash at the end changes nothing. *)
Lemma key_slash p : p ≠ "" → key (p +:+ "/") = key p.
Proof.
  intros Hne. unfold key, clean_segments.
  assert (Ha : IsAbs (p +:+ "/") = IsAbs p).
  { destruct p as [|c p]; [done|]. rewrite string_app_cons. unfold IsAbs. simpl. by destruct (bool_decide _). }
  rewrite Ha. unfold segments. change (p +:+ "/") with (p +:+ String slash "").
  by rewrite Split_app_sep, foldl_app.
Qed.

Lemma Join_ne es : clean es → Join es "/" ≠ "".
Proof. intros Hc Hj. pose proof (key_Join es Hc) as Hk. rewrite Hj in Hk. by destruct Hc as [[] _]. Qed.

Lemma segments_Join es : clean es → segments (Join es "/") = es.
Proof. intros (Hne & Hp & _). apply Split_Join; [done|]. eapply Forall_impl; [done|]. by intros ? (_ & _ & ?). Qed.

Lemma clean_parent es : clean es → parent es = [] ∨ clean (parent es).
Proof.
  intros (Hne & Hp & Hu). unfold parent. destruct (decide (removelast es = [])) as [|Hr]; [by left|right].
  rewrite (app_removelast_last "" Hne) in Hp, Hu. apply Forall_app in Hp as [Hp _].
  split_and!; [done..|]. intros ?. apply Hu, elem_of_app. by left.
Qed.

Lemma key_Dir_file es : clean es → key (Dir (Join es "/")) = parent es.
Proof.
  intros Hc. unfold Dir. rewrite key_Clean, segments_Join by done. unfold parent.
  destruct (clean_parent es Hc) as [Hn|Hc']; unfold parent in *; [by rewrite Hn|].
  destruct (removelast es) as [|e l] eqn:E; [done|]. rewrite key_slash by (by apply Join_ne).
  by apply key_Join.
Qed.

Lemma key_Dir_dir es : clean es → key (Dir (Join es "/" +:+ "/")) = es.
Proof.
  intros Hc. unfold Dir. rewrite key_Clean.
  assert (Hs : segments (Join es "/" +:+ "/") = es ++ [""]).
  { unfold segments. change (Join es "/" +:+ "/") with (Join es "/" +:+ String slash ""). rewrite Split_app_sep. fold (segments (Join es "/")).
    by rewrite segments_Join. }
  rewrite Hs, removelast_last. destruct es as [|e l] eqn:E; [by destruct Hc|].
  rewrite key_slash by (by apply Join_ne). by apply key_Join.
Qed.

Lemma clean_not_rootish es : clean es → rootish es = false.
Proof.
  intros (Hne & Hp & Hu). unfold rootish. destruct es as [|e es]; [done|]. simpl.
  rewrite bool_decide_eq_false_2 by set_solver. rewrite andb_false_l, orb_false_l.
  apply bool_decide_eq_false_2. intros [= -> ->]. apply Forall_cons in Hp as [(_ & _ & Hs) _].
  apply Hs. simpl. left.
Qed.

(** ** Bytes *)

Lemma get8_put8 z s : get8 (put8 z +:+ s) = Some ((z mod 256)%Z, s).
Proof. unfold put8. rewrite string_app_cons. simpl. by rewrite string_app_nil_l, z_of_byte_of by (apply Z.mod_pos_bound; lia). Qed.

Lemma get16_put16 z s : get16 (put16 z +:+ s) = Some ((z mod 65536)%Z, s).
Proof.
  unfold put16, get16. rewrite <- string_app_assoc, !get8_put8. f_equal. f_equal.
  change 65536%Z with (256 * 256)%Z. rewrite Z.rem_mul_r; lia.
Qed.

Lemma get32_put32 z s : get32 (put32 z +:+ s) = Some ((z mod 2 ^ 32)%Z, s).
Proof.
  unfold put32, get32. rewrite <- string_app_assoc, !get16_put16. f_equal. f_equal.
  change (2 ^ 32)%Z with (65536 * 65536)%Z. rewrite Z.rem_mul_r; lia.
Qed.

Lemma slen_put32 z : slen (put32 z) = 4.
Proof. done. Qed.

(** ** Extra fields *)

Lemma readZipExtraField_put type data rest :
  (0 < Z.of_nat (slen data) < 65536)%Z →
  readZipExtraField (put16 type +:+ put16 (Z.of_nat (slen data)) +:+ data +:+ rest) = Field (type mod 65536) data rest.
Proof.
  intros Hs. unfold readZipExtraField. rewrite bool_decide_eq_false_2 by (unfold put16, put8; by rewrite !string_app_cons).
  rewrite get16_put16, get16_put16. rewrite (Z.mod_small (Z.of_nat _)), Nat2Z.id by lia.
  rewrite bool_decide_eq_false_2.
  - rewrite stake_app_len, sdrop_app_len, Nat.sub_diag. simpl. by rewrite string_app_nil_r.
  - intros Hd. apply (f_equal slen) in Hd. rewrite slen_app in Hd. change (slen "") with 0 in Hd. lia.
Qed.

Definition with_owner (n m : node) : node := mkNode (n_kind m) (n_perm m) (n_data m) (n_mtime m) (n_uid n) (n_gid n).
Definition restored (n m : node) : node :=
  let m := with_owner n m in
  if bool_decide (n_kind n = KDir) || bool_decide (n_kind n = KRegular) then with_mtime (uint32_wrap (n_mtime n)) m else m.

Definition owner_fits (n : node) : Prop := (0 ≤ n_uid n < 2 ^ 32)%Z ∧ (0 ≤ n_gid n < 2 ^ 32)%Z.

Definition uid_data (n : node) : string := put8 1 +:+ put8 4 +:+ put32 (n_uid n) +:+ put8 4 +:+ put32 (n_gid n).
Definition time_data (n : node) : string := put8 1 +:+ put32 (uint32_wrap (n_mtime n)).

Lemma processZipUIDGidField_put f name n m :
  owner_fits n → f !! key name = Some m →
  processZipUIDGidField f name (uid_data n) = (NoError, <[key name := with_owner n m]> f).
Proof.
  intros [Hu Hg] Hf. unfold processZipUIDGidField, uid_data. rewrite !get8_put8, get32_put32, get8_put8.
  rewrite <- (string_app_nil_r (put32 (n_gid n))), get32_put32. rewrite !Z.mod_small by lia. simpl.
  unfold Lchown. by rewrite Hf.
Qed.

Lemma processZipTimestampField_put f e n :
  processZipTimestampField f e (time_data n) =
    (if bool_decide (e_kind e = KDir) || bool_decide (e_kind e = KRegular)
     then let '(ok, f') := Chtimes f (key (e_name e)) (uint32_wrap (n_mtime n)) in (if ok then NoError else PathError "chtimes", f')
     else (NoError, f)).
Proof.
  unfold processZipTimestampField, time_data. destruct (_ || _); [|done].
  rewrite get8_put8. rewrite <- (string_app_nil_r (put32 _)), get32_put32.
  replace (uint32_wrap (n_mtime n) mod 2 ^ 32)%Z with (uint32_wrap (n_mtime n)); [done|].
  unfold uint32_wrap. by rewrite Z.mod_mod.
Qed.

Lemma createZipExtra_eq n :
  createZipExtra n = put16 ZipUIDGidFieldType +:+ put16 (Z.of_nat (slen (uid_data n))) +:+ uid_data n +:+
                     (put16 ZipTimestampFieldType +:+ put16 (Z.of_nat (slen (time_data n))) +:+ time_data n +:+ "").
Proof.
  unfold createZipExtra, createZipUIDGidField, createZipTimestampField.
  change (Z.of_nat (slen (uid_data n))) with 11%Z. change (Z.of_nat (slen (time_data n))) with 5%Z.
  unfold uid_data, time_data. by rewrite !string_app_nil_r, <- !string_app_assoc.
Qed.

(** ** Links *)

Lemma follow_self fuel f k n : f !! k = Some n → n_kind n ≠ KSymlink → follow fuel f k = Some k.
Proof. intros Hf Hk. destruct fuel; simpl; rewrite Hf, bool_decide_eq_false_2 by done; done. Qed.

Lemma follow_Some fuel f k k' : follow fuel f k = Some k' → ∃ n, f !! k' = Some n ∧ n_kind n ≠ KSymlink.
Proof.
  revert k. induction fuel as [|fuel IH]; intros k; simpl; destruct (f !! k) as [n|] eqn:E; [|done| |done];
    case_bool_decide; [done|intros [= <-]; eauto| |intros [= <-]; eauto]. apply IH.
Qed.

Lemma through_link f k g k' n :
  follow max_links f k = Some k' → f !! k' = Some n → through f k g = (true, <[k' := g n]> f).
Proof. intros Hl Hn. unfold through. by rewrite Hl, Hn. Qed.

Lemma through_self f k g n : f !! k = Some n → n_kind n ≠ KSymlink → through f k g = (true, <[k := g n]> f).
Proof. intros Hf Hk. by apply through_link; [eapply follow_self|]. Qed.

(** The fuel of the loop over the fields is enough for the two fields of an entry, and they
    restore the owner and the time. *)
Lemma processZipExtra_header f name n data m :
  owner_fits n → f !! key name = Some m → n_kind m = n_kind n →
  processZipExtra f (header name n data) = (NoError, <[key name := restored n m]> f).
Proof.
  intros Ho Hf Hk. unfold processZipExtra. set (e := header name n data).
  change (e_extra e) with (createZipExtra n). change (slen (createZipExtra n)) with 24. rewrite createZipExtra_eq.
  cbn [process_fields]. rewrite (readZipExtraField_put ZipUIDGidFieldType (uid_data n)) by done.
  change ((ZipUIDGidFieldType mod 65536 =? ZipUIDGidFieldType)%Z) with true.
  rewrite (processZipUIDGidField_put _ _ _ m) by done. cbv beta iota zeta.
  rewrite (readZipExtraField_put ZipTimestampFieldType (time_data n)) by done.
  change ((ZipTimestampFieldType mod 65536 =? ZipUIDGidFieldType)%Z) with false.
  change ((ZipTimestampFieldType mod 65536 =? ZipTimestampFieldType)%Z) with true.
  rewrite processZipTimestampField_put. change (e_kind e) with (n_kind n). change (e_name e) with name.
  unfold restored. destruct (bool_decide _ || bool_decide _) eqn:E; [|done].
  unfold Chtimes. rewrite (through_self _ _ _ (with_owner n m)); [|apply lookup_insert_eq|].
  - unfold set_node. simpl. by rewrite insert_insert_eq.
  - simpl. rewrite Hk. intros Hl. rewrite Hl in E. done.
Qed.

(** ** The first pass: the files *)

Section RoundTrip.
Context (P : process_) (src : fs).

(** Every file of the source has a clean name and lies in a directory. *)
Definition tree : Prop := ∀ k n, src !! k = Some n → clean k ∧ is_dir src (parent k) = true.

(** What was extracted so far is what the source has. *)
Definition same_file (n m : node) : Prop := n_kind n = n_kind m ∧ (n_kind m ≠ KDir → n_data n = n_data m).
Definition agrees (f : fs) : Prop := ∀ k n, f !! k = Some n → ∃ m, src !! k = Some m ∧ same_file n m.

Lemma agrees_insert f k n m : agrees f → src !! k = Some m → same_file n m → agrees (<[k := n]> f).
Proof.
  intros Ha Hm Hs k' n'. destruct (decide (k = k')) as [<-|Hne].
  - rewrite lookup_insert_eq. intros [= <-]. eauto.
  - rewrite lookup_insert_ne by done. apply Ha.
Qed.

Lemma agrees_delete f k : agrees f → agrees (delete k f).
Proof. intros Ha k' n' [_ Hd]%lookup_delete_Some. by apply Ha. Qed.

Lemma follow_agrees fuel f k k' : agrees f → follow fuel f k = Some k' → follow fuel src k = Some k'.
Proof.
  intros Ha. revert k. induction fuel as [|fuel IH]; intros k; simpl; destruct (f !! k) as [n|] eqn:E; try done;
    destruct (Ha _ _ E) as (m & -> & Hk & Hd); rewrite Hk; case_bool_decide as Hl; try done.
  rewrite Hd by congruence. apply IH.
Qed.

(** A directory that is there is a directory of the source, so no file is in the way. *)
Lemma agrees_free f k : agrees f → rootish k = false → is_dir src k = true → is_dir f k = false → f !! k = None.
Proof.
  intros Ha Hr Hs Hf. destruct (f !! k) as [n|] eqn:E; [|done]. destruct (Ha _ _ E) as (m & Hm & Hk & _).
  unfold is_dir in *. rewrite Hr, Hm in Hs. rewrite Hr, E in Hf. simpl in *. by rewrite Hk, Hs in Hf.
Qed.

Lemma is_dir_insert_dir f k n k' : n_kind n = KDir → is_dir f k' = true → is_dir (<[k := n]> f) k' = true.
Proof.
  unfold is_dir. intros Hn. destruct (rootish k'); [done|]. simpl. destruct (decide (k = k')) as [<-|Hne].
  - rewrite lookup_insert_eq. intros _. by apply bool_decide_eq_true_2.
  - by rewrite lookup_insert_ne.
Qed.

Definition grows (f f' : fs) : Prop := ∀ k, is_Some (f !! k) → is_Some (f' !! k).
#[local] Instance grows_po : PreOrder grows.
Proof. split; [by intros f k|]. intros f g h H1 H2 k Hk. by apply H2, H1. Qed.

Lemma grows_insert f k n : grows f (<[k := n]> f).
Proof.
  intros k' Hk. destruct (decide (k = k')) as [<-|Hne]; [rewrite lookup_insert_eq; eauto|by rewrite lookup_insert_ne].
Qed.

(** [MkdirAll] of a directory of the source makes it. *)
Lemma mkdir_all_agrees perm pre post f :
  agrees f → is_dir f pre = true → (∀ k, k `prefix_of` (pre ++ post) → k ≠ [] → rootish k = false ∧ is_dir src k = true) →
  let f' := mkdir_all P f ((λ n, take (S n) (pre ++ post)) <$> seq (length pre) (length post)) perm in
  agrees f' ∧ is_dir f' (pre ++ post) = true ∧ grows f f'.
Proof.
  revert pre f. induction post as [|e post IH]; intros pre f Ha Hd Hs; simpl.
  { rewrite app_nil_r. done. }
  assert (Ht : take (S (length pre)) (pre ++ e :: post) = pre ++ [e]).
  { change (e :: post) with ([e] ++ post). rewrite app_assoc, take_app_length'; [done|]. rewrite length_app. simpl. lia. }
  rewrite Ht. specialize (IH (pre ++ [e])). rewrite <- app_assoc in IH. simpl in IH.
  rewrite length_app in IH. simpl in IH. rewrite Nat.add_1_r in IH.
  destruct (is_dir f (pre ++ [e])) eqn:E; [by apply IH|].
  destruct (Hs (pre ++ [e])) as [Hr Hdir]; [by exists post; rewrite <- app_assoc|by destruct pre|].
  pose proof (agrees_free _ _ Ha Hr Hdir E) as Hnone.
  unfold Mkdir. rewrite Hr, Hnone, bool_decide_eq_false_2 by (by intros []). simpl.
  unfold parent. rewrite removelast_last, Hd.
  set (n := new_node P KDir perm "").
  assert (∃ m, src !! (pre ++ [e]) = Some m ∧ n_kind m = KDir) as (m & Hm & Hk).
  { unfold is_dir in Hdir. rewrite Hr in Hdir. simpl in Hdir. destruct (src !! _) as [m|]; [|done].
    apply bool_decide_eq_true in Hdir. eauto. }
  destruct (IH (<[pre ++ [e] := n]> f)) as (H1 & H2 & H3).
  - eapply agrees_insert; [done..|]. by split; rewrite Hk.
  - unfold is_dir. rewrite lookup_insert_eq. simpl. by rewrite orb_true_r.
  - apply Hs.
  - split_and!; [done..|]. etrans; [apply grows_insert|done].
Qed.

Context (Htree : tree).

Lemma dirs_up k : clean k → is_dir src k = true →
  ∀ p, p `prefix_of` k → p ≠ [] → rootish p = false ∧ is_dir src p = true.
Proof.
  induction k as [|e k IH] using rev_ind; intros Hc Hd p [s Hs] Hne; [by destruct Hc|].
  destruct s as [|x s _] using rev_ind; [rewrite app_nil_r in Hs; subst; by split; [apply clean_not_rootish|]|].
  rewrite app_assoc in Hs. apply app_inj_tail in Hs as [-> <-].
  assert (Hk : is_dir src (p ++ s) = true).
  { unfold is_dir in Hd. rewrite clean_not_rootish in Hd by done. simpl in Hd.
    destruct (src !! _) as [n|] eqn:E; [|done]. apply Htree in E as [_ E]. unfold parent in E. by rewrite removelast_last in E. }
  destruct (clean_parent _ Hc) as [H0|H0]; unfold parent in H0; rewrite removelast_last in H0; [by destruct p|].
  apply IH; [done..|by eexists|done].
Qed.

Lemma MkdirAll_agrees f path k perm :
  key path = k → agrees f → k = [] ∨ clean k ∧ is_dir src k = true →
  let f' := MkdirAll P f path perm in agrees f' ∧ is_dir f' k = true ∧ grows f f'.
Proof.
  intros Hk Ha Hd. unfold MkdirAll, prefixes. rewrite Hk.
  apply (mkdir_all_agrees perm [] k f Ha); [done|]. destruct Hd as [->|[Hc Hd]]; [|by apply dirs_up].
  by intros p ->%prefix_nil_inv.
Qed.

(** The entry that is made of a file. *)
Definition entry_for (k : fkey) (n : node) : entry :=
  match n_kind n with
  | KDir => header (Join k "/" +:+ "/") n ""
  | _ => header (Join k "/") n (n_data n)
  end.
Definition archivable (n : node) : Prop := n_kind n = KDir ∨ n_kind n = KRegular ∨ n_kind n = KSymlink.

Lemma key_entry k n : clean k → key (e_name (entry_for k n)) = k.
Proof.
  intros Hc. unfold entry_for. destruct (n_kind n); simpl; [by apply key_Join| |by apply key_Join..].
  rewrite key_slash by (by apply Join_ne). by apply key_Join.
Qed.

(** Removing what an earlier pass left at the place of a file or a link frees it. *)
Lemma Remove_free f k n : agrees f → src !! k = Some n → n_kind n ≠ KDir → Remove f k = delete k f.
Proof.
  intros Ha Hn Hk. unfold Remove. destruct (f !! k) as [m|] eqn:E; [|by rewrite delete_id].
  destruct (Ha _ _ E) as (m' & Hm & Hs & _). simplify_eq. rewrite Hs, bool_decide_eq_false_2 by done. done.
Qed.

Lemma parent_ne k : k ≠ [] → parent k ≠ k.
Proof.
  intros Hne Hp. pose proof (app_removelast_last "" Hne) as Hl. unfold parent in Hp. rewrite Hp in Hl.
  apply (f_equal length) in Hl. rewrite length_app in Hl. simpl in Hl. lia.
Qed.

Lemma is_dir_delete_other (f : fs) k k' : k ≠ k' → is_dir (delete k f) k' = is_dir f k'.
Proof. intros Hne. unfold is_dir. by rewrite lookup_delete_ne. Qed.

Lemma grows_replace f k n : grows f (<[k := n]> (delete k f)).
Proof. rewrite insert_delete_eq. apply grows_insert. Qed.

Lemma place_file f k n m :
  agrees f → clean k → src !! k = Some n → same_file m n →
  let f' := <[k := m]> (delete k f) in agrees f' ∧ grows f f' ∧ is_Some (f' !! k).
Proof.
  intros Ha Hc Hn Hs. split_and!; [|apply grows_replace|rewrite lookup_insert_eq; eauto].
  eapply agrees_insert; [by apply agrees_delete|done..].
Qed.

Lemma extractZipFile_agrees f k n :
  agrees f → src !! k = Some n → archivable n →
  let f' := snd (extractZipFile P f (entry_for k n)) in agrees f' ∧ grows f f' ∧ is_Some (f' !! k).
Proof.
  intros Ha Hn Har. destruct (Htree _ _ Hn) as [Hc Hd].
  assert (Hpar : parent k = [] ∨ clean (parent k) ∧ is_dir src (parent k) = true)
    by (destruct (clean_parent k Hc); auto).
  assert (Hnr := clean_not_rootish k Hc). assert (Hne := parent_ne k (proj1 Hc)).
  unfold extractZipFile. destruct Har as [Hk|[Hk|Hk]]; unfold entry_for; rewrite Hk; cbn [e_kind e_name header]; rewrite Hk.
  - destruct (MkdirAll_agrees f (Dir (Join k "/" +:+ "/")) k 511) as (H1 & H2 & H3); [by apply key_Dir_dir|done| |].
    { right. split; [done|]. unfold is_dir. rewrite Hn, Hk. by rewrite orb_true_r. }
    set (f1 := MkdirAll P f _ _) in *. unfold extractZipDirectoryEntry. cbn [e_name header].
    rewrite key_slash, key_Join by (done || by apply Join_ne).
    assert (Hin : is_Some (f1 !! k)) by (unfold is_dir in H2; rewrite Hnr in H2; simpl in H2; destruct (f1 !! k); [eauto|done]).
    unfold Mkdir. rewrite (bool_decide_eq_true_2 _ Hin), orb_true_r. done.
  - destruct (MkdirAll_agrees f (Dir (Join k "/")) (parent k) 511) as (H1 & H2 & H3); [by apply key_Dir_file|done..|].
    set (f1 := MkdirAll P f _ _) in *. unfold extractZipFileEntry. cbn [e_name e_perm e_data header].
    rewrite key_Join, (Remove_free _ _ n) by (done || by rewrite Hk). unfold WriteNew.
    rewrite Hnr, is_dir_delete_other, H2, lookup_delete_eq by done. simpl.
    destruct (place_file f1 k n (new_node P KRegular (n_perm n) (n_data n))) as (H4 & H5 & H6); [done..| |].
    { by split; rewrite ?Hk. }
    split_and!; [done|by etrans|done].
  - destruct (MkdirAll_agrees f (Dir (Join k "/")) (parent k) 511) as (H1 & H2 & H3); [by apply key_Dir_file|done..|].
    set (f1 := MkdirAll P f _ _) in *. unfold extractZipSymlinkEntry. cbn [e_name e_data header].
    rewrite key_Join, (Remove_free _ _ n) by (done || by rewrite Hk). unfold Symlink.
    rewrite Hnr, is_dir_delete_other, H2, lookup_delete_eq by done. rewrite bool_decide_eq_false_2 by (by intros []). simpl.
    destruct (place_file f1 k n (mkNode KSymlink 511 (n_data n) (p_now P) (p_uid P) (p_gid P))) as (H4 & H5 & H6); [done..| |].
    { by split; rewrite ?Hk. }
    split_and!; [done|by etrans|done].
Qed.

(** An entry that the source gave. *)
Definition from_src (e : entry) : Prop := ∃ k n, src !! k = Some n ∧ archivable n ∧ owner_fits n ∧ e = entry_for k n.

Lemma x_fs_track x name err f : x_fs (track x name err f) = f.
Proof. unfold track. by destruct (actionable _ _). Qed.

Lemma x_fs_extract_step x e : x_fs (extract_step P x e) = snd (extractZipFile P (x_fs x) e).
Proof. unfold extract_step. rewrite x_fs_track. destruct (extractZipFile _ _ _). by rewrite x_fs_track. Qed.

Lemma first_pass x es :
  Forall from_src es → agrees (x_fs x) →
  let f := x_fs (foldl (extract_step P) x es) in
  agrees f ∧ grows (x_fs x) f ∧ ∀ e, e ∈ es → is_Some (f !! key (e_name e)).
Proof.
  intros Hf. revert x. induction Hf as [|e es (k & n & Hn & Har & _ & ->) _ IH]; intros x Ha; simpl.
  { split_and!; [done..|]. by intros ? ?%elem_of_nil. }
  destruct (extractZipFile_agrees (x_fs x) k n) as (H1 & H2 & H3); [done..|]. rewrite <- x_fs_extract_step in *.
  destruct (IH _ H1) as (H4 & H5 & H6). split_and!; [done|by etrans|].
  intros e [->|He]%elem_of_cons; [|by apply H6]. rewrite key_entry by (by eapply Htree). by apply H5.
Qed.

(** ** The second pass: permissions, owners and times *)

Definition restored_node (n m : node) : node :=
  restored n (if bool_decide (n_kind n = KSymlink) then m else with_perm (n_perm n) m).

Lemma entry_header k n : clean k → ∃ name data, entry_for k n = header name n data ∧ key name = k.
Proof.
  intros Hc. pose proof (key_entry k n Hc) as Hk. unfold entry_for in *. destruct (n_kind n); eauto.
Qed.

Lemma x_fs_restore_step x e :
  x_fs (restore_step x e) = snd (processZipExtra (snd (Chmod (x_fs x) (key (e_name e)) (e_perm e))) e).
Proof.
  unfold restore_step. destruct (Chmod _ _ _) as [ok f]. rewrite x_fs_track.
  destruct (processZipExtra _ _) as [err f']. by rewrite x_fs_track.
Qed.

(** What the second pass does for one entry: the file itself gets everything; when it is a
    link, the file that it leads to gets the permissions of the link. *)
Lemma restore_step_lookup x k n m :
  agrees (x_fs x) → src !! k = Some n → archivable n → owner_fits n → x_fs x !! k = Some m →
  ∀ j, x_fs (restore_step x (entry_for k n)) !! j =
    if decide (j = k) then Some (restored_node n m)
    else if decide (follow max_links (x_fs x) k = Some j) then with_perm (n_perm n) <$> x_fs x !! j
    else x_fs x !! j.
Proof.
  intros Ha Hn Har Ho Hm j. destruct (Htree _ _ Hn) as [Hc _]. destruct (Ha _ _ Hm) as (n' & Hn' & Hk & _). simplify_eq.
  destruct (entry_header k n Hc) as (name & data & -> & Hkey). rewrite x_fs_restore_step. cbn [e_name e_perm header].
  rewrite Hkey. unfold Chmod, restored_node. case_bool_decide as Hl.
  - destruct (follow max_links (x_fs x) k) as [k2|] eqn:Hfo.
    + destruct (follow_Some _ _ _ _ Hfo) as (n2 & Hn2 & Hk2). assert (k2 ≠ k) by (intros ->; congruence).
      rewrite (through_link _ _ _ k2 n2) by done. cbn [snd].
      rewrite (processZipExtra_header _ name n data m) by (done || by rewrite Hkey, lookup_insert_ne). cbn [snd]. rewrite Hkey.
      destruct (decide (j = k)) as [->|Hj]; [by rewrite lookup_insert_eq|]. rewrite lookup_insert_ne by done.
      destruct (decide (Some k2 = Some j)) as [[= ->]|Hj2]; [by rewrite lookup_insert_eq, Hn2|].
      rewrite lookup_insert_ne by congruence. done.
    + unfold through. rewrite Hfo. cbn [snd].
      rewrite (processZipExtra_header _ name n data m) by (done || by rewrite Hkey). cbn [snd]. rewrite Hkey.
      destruct (decide (j = k)) as [->|Hj]; [by rewrite lookup_insert_eq|]. by rewrite lookup_insert_ne.
  - assert (Hnl : n_kind m ≠ KSymlink) by congruence.
    rewrite (follow_self _ _ _ m), (through_self _ _ _ m) by done. cbn [snd].
    rewrite (processZipExtra_header _ name n data (with_perm (n_perm n) m)) by (done || by rewrite Hkey, lookup_insert_eq).
    cbn [snd]. rewrite Hkey, insert_insert_eq. destruct (decide (j = k)) as [->|Hj]; [by rewrite lookup_insert_eq|].
    rewrite decide_False by congruence. by rewrite lookup_insert_ne.
Qed.

Definition settled (n m : node) : Prop :=
  same_file m n ∧ n_uid m = n_uid n ∧ n_gid m = n_gid n ∧
  (n_kind n ≠ KSymlink → n_mtime m = uint32_wrap (n_mtime n)).

Lemma restored_node_settled n m : archivable n → same_file m n → settled n (restored_node n m).
Proof.
  intros Har [Hk Hd]. unfold restored_node, restored, settled, same_file.
  destruct Har as [Hn|[Hn|Hn]]; rewrite Hn in *; repeat (case_bool_decide; try done); simpl; naive_solver.
Qed.

(** A link to [k] among the files of [ks]. *)
Definition led_to (ks : list fkey) (k : fkey) : Prop :=
  ∃ j l, j ∈ ks ∧ src !! j = Some l ∧ n_kind l = KSymlink ∧ follow max_links src j = Some k.

(** The file is as it was in the source, where its entry has been restored. *)
Definition back (ks : list fkey) (k : fkey) (n : node) (f : fs) : Prop :=
  ∃ m, f !! k = Some m ∧ settled n m ∧ (n_kind n ≠ KSymlink → ¬ led_to ks k → n_perm m = n_perm n).

Lemma restore_step_agrees x k n m :
  agrees (x_fs x) → src !! k = Some n → archivable n → owner_fits n → x_fs x !! k = Some m →
  agrees (x_fs (restore_step x (entry_for k n))) ∧ grows (x_fs x) (x_fs (restore_step x (entry_for k n))).
Proof.
  intros Ha Hn Har Ho Hm. pose proof (restore_step_lookup _ _ _ _ Ha Hn Har Ho Hm) as Hl.
  destruct (Ha _ _ Hm) as (n' & Hn' & Hs). simplify_eq. split.
  - intros j m' Hj. rewrite Hl in Hj. repeat case_decide; subst.
    + simplify_eq. exists n. split; [done|]. by apply restored_node_settled.
    + apply fmap_Some in Hj as (m0 & Hm0 & ->). apply (Ha _ _ Hm0).
    + by apply Ha.
  - intros j Hj. rewrite Hl. repeat case_decide; [eauto|by apply fmap_is_Some|done].
Qed.

Lemma restore_step_back ks x k n k' n' :
  agrees (x_fs x) → k' ∈ ks → src !! k' = Some n' → archivable n' → owner_fits n' → is_Some (x_fs x !! k') →
  src !! k = Some n → k = k' ∨ back ks k n (x_fs x) → back ks k n (x_fs (restore_step x (entry_for k' n'))).
Proof.
  intros Ha Hin Hn' Har Ho [m' Hm'] Hn Hor. pose proof (restore_step_lookup _ _ _ _ Ha Hn' Har Ho Hm') as Hl.
  unfold back. rewrite Hl. destruct (decide (k = k')) as [->|Hne].
  - simplify_eq. eexists. split; [done|]. destruct (Ha _ _ Hm') as (n2 & Hn2 & Hs). simplify_eq.
    split; [by apply restored_node_settled|]. intros Hk _. unfold restored_node. rewrite bool_decide_eq_false_2 by done.
    unfold restored. by destruct (_ || _).
  - destruct Hor as [|(m & Hm & Hset & Hp)]; [done|]. case_decide as Hfo; [|eauto]. rewrite Hm. eexists. split; [done|].
    split; [done|]. intros Hk Hnl. destruct Hnl. exists k', n'. split_and!; [done..| |].
    + destruct (decide (n_kind n' = KSymlink)) as [|Hl']; [done|]. destruct (Ha _ _ Hm') as (n2 & Hn2 & Hk2 & _). simplify_eq.
      rewrite (follow_self _ _ _ m') in Hfo; congruence.
    + by eapply follow_agrees.
Qed.

Lemma second_pass ks x es k n :
  Forall from_src es → agrees (x_fs x) → (∀ e, e ∈ es → is_Some (x_fs x !! key (e_name e))) →
  (∀ e, e ∈ es → key (e_name e) ∈ ks) →
  src !! k = Some n → (∃ e, e ∈ es ∧ key (e_name e) = k) ∨ back ks k n (x_fs x) →
  agrees (x_fs (foldl restore_step x es)) ∧ back ks k n (x_fs (foldl restore_step x es)).
Proof.
  intros Hf. revert x. induction Hf as [|e es (k' & n' & Hn' & Har & Ho & ->) _ IH]; intros x Ha Hin Hks Hn Hor; simpl.
  { split; [done|]. destruct Hor as [(e & He & _)|]; [by apply elem_of_nil in He|done]. }
  destruct (Htree _ _ Hn') as [Hc _]. pose proof (key_entry k' n' Hc) as Hkey.
  assert (Hm : is_Some (x_fs x !! k')) by (rewrite <- Hkey; apply Hin; left).
  assert (Hk' : k' ∈ ks) by (rewrite <- Hkey; apply Hks; left).
  destruct Hm as [m Hm]. destruct (restore_step_agrees x k' n' m) as [Ha' Hg]; [done..|].
  apply IH; [done| | |done|].
  - intros e He. apply Hg, Hin. by right.
  - intros e He. apply Hks. by right.
  - destruct Hor as [(e & He & <-)|Hb].
    + apply elem_of_cons in He as [->|He]; [|eauto]. rewrite Hkey in *. simplify_eq.
      right. apply restore_step_back; eauto.
    + right. apply restore_step_back; eauto.
Qed.
End RoundTrip.

(** ** Creating *)

Definition names_of (ks : list fkey) : list string := (λ k, Join k "/") <$> ks.

Lemma createZipEntry_clean src os_Open k :
  clean k → os_Open (Join k "/") = None →
  ∃ e, createZipEntry src os_Open (Join k "/") = (None, e) ∧
    (∀ n, src !! k = Some n → archivable n → e = Some (entry_for k n)) ∧
    (∀ e', e = Some e' → ∃ n, src !! k = Some n ∧ archivable n ∧ e' = entry_for k n).
Proof.
  intros Hc Ho. unfold createZipEntry, createZipDirectoryEntry, createZipSymlinkEntry, createZipFileEntry, Lstat_, archivable, entry_for. rewrite key_Join, clean_not_rootish by done.
  destruct (src !! k) as [n|] eqn:E; [|exists None; split_and!; [done|by intros n [=]|by intros e' [=]]].
  destruct (n_kind n) eqn:Hk; rewrite ?Ho; (eexists; split_and!; [done| |]);
    try (intros n0 [= <-]; rewrite Hk; naive_solver);
    intros e' [= <-]; exists n; rewrite Hk; auto.
Qed.

Lemma create_entries_clean src os_Open ks seen warned :
  Forall clean ks → (∀ k, k ∈ ks → os_Open (Join k "/") = None) →
  ∃ es w, create_entries src os_Open (names_of ks) seen warned = (None, es, w) ∧
    (∀ k n, k ∈ ks → src !! k = Some n → archivable n → entry_for k n ∈ es) ∧
    (∀ e, e ∈ es → ∃ k n, k ∈ ks ∧ src !! k = Some n ∧ archivable n ∧ e = entry_for k n).
Proof.
  intros Hc. revert seen warned. induction Hc as [|k ks Hc _ IH]; intros seen warned Ho.
  { exists [], warned. split_and!; [done|by intros ? ? ?%elem_of_nil|by intros ? ?%elem_of_nil]. }
  unfold names_of. rewrite fmap_cons. fold (names_of ks). cbn [create_entries].
  destruct (actionable _ _) as [act seen'].
  destruct (createZipEntry_clean src os_Open k Hc) as (e & -> & H1 & H2); [apply Ho; left|].
  destruct (IH seen' (warned || act)) as (es & w & -> & H3 & H4); [intros ? ?; apply Ho; by right|].
  exists (option_list e ++ es), w. split_and!; [done| |].
  - intros j n [->|Hj]%elem_of_cons Hn Har; apply elem_of_app; [left|right; eauto]. rewrite (H1 _ Hn Har). by left.
  - intros e' [He|He]%elem_of_app.
    + destruct e as [e0|]; [|by apply elem_of_nil in He]. apply list_elem_of_singleton in He as ->.
      destruct (H2 _ eq_refl) as (n & ? & ? & ->). exists k, n. split_and!; [left|done..].
    + destruct (H4 _ He) as (j & n & Hj & ?). exists j, n. split; [by right|done].
Qed.

(** ** The round trip *)


Definition demo_src : fs :=
  <[["out"] := mkNode KDir 493 "" 1500000000 1000 1000]>
  (<[["out"; "a.txt"] := mkNode KRegular 420 "hello" 1600000000 1000 1001]>
  (<[["latest"] := mkNode KSymlink 511 "out/a.txt" 1600000000 1000 1000]> ∅)).
Definition demo_process : process_ := mkProcess 18 1700000000 0 0.
Definition demo_archive (ks : list fkey) : list entry := snd (fst (CreateZipArchive demo_src (λ _, None) (names_of ks))).

(** Clean names by evaluation. *)
Ltac prove_clean :=
  split_and!; [done
              |repeat (apply Forall_cons_2; [split_and!; [done..|vm_compute; set_solver]|]); apply Forall_nil_2
              |vm_compute; set_solver].
Lemma demo_clean : Forall clean [["out"]; ["out"; "a.txt"]; ["latest"]].
Proof. repeat (apply Forall_cons_2; [prove_clean|]). apply Forall_nil_2. Qed.

Lemma demo_lookup k n :
  demo_src !! k = Some n → k ∈ [["out"]; ["out"; "a.txt"]; ["latest"]] ∧ is_dir demo_src (parent k) = true ∧ owner_fits n.
Proof.
  unfold demo_src, owner_fits. rewrite !lookup_insert_Some, lookup_empty.
  intros [[<- <-]|[_ [[<- <-]|[_ [[<- <-]|[_ [=]]]]]]];
    (split_and!; [set_solver|vm_compute; reflexivity|simpl; lia|simpl; lia|simpl; lia|simpl; lia]).
Qed.


(** The permissions of a link, which are those of every link, end up on the file it leads to:
    [os.Chmod] follows the link. *)
Lemma chmod_follows_links :
  let f := x_fs (ExtractZipArchive demo_process ∅ (demo_archive [["out"; "a.txt"]; ["latest"]])) in
  n_perm <$> f !! ["out"; "a.txt"] = Some 511%Z ∧ n_perm <$> demo_src !! ["out"; "a.txt"] = Some 420%Z.
Proof. by vm_compute. Qed.

(** The names of an archive are not checked: an entry may lie outside of the directory. *)
Lemma extraction_can_escape :
  let e := mkEntry "../.profile" KRegular 420 "" "text" in
  n_data <$> x_fs (ExtractZipArchive demo_process ∅ [e]) !! [".."; ".profile"] = Some "text".
Proof. by vm_compute. Qed.

(** ** Any extra field *)

Lemma get8_slen s z r : get8 s = Some (z, r) → slen s = S (slen r).
Proof. destruct s; [done|]. by intros [= _ <-]. Qed.
Lemma get16_slen s z r : get16 s = Some (z, r) → slen s = 2 + slen r.
Proof.
  unfold get16. destruct (get8 s) as [[a s1]|] eqn:E1; [|done]. destruct (get8 s1) as [[b s2]|] eqn:E2; [|done].
  intros [= _ <-]. apply get8_slen in E1, E2. lia.
Qed.

Lemma readZipExtraField_shrinks s t d r : readZipExtraField s = Field t d r → slen r < slen s.
Proof.
  unfold readZipExtraField. case_bool_decide; [done|]. destruct (get16 s) as [[t' s1]|] eqn:E1; [|done].
  destruct (get16 s1) as [[size s2]|] eqn:E2; [|done]. case_bool_decide; [done|]. intros [= _ _ <-].
  apply get16_slen in E1, E2. rewrite slen_sdrop. lia.
Qed.

(** The loop over the fields of any text ends within its fuel: more fuel changes nothing. *)
Lemma process_fields_fuel n m f e s :
  slen s < n → slen s < m → process_fields n f e s = process_fields m f e s.
Proof.
  revert m f s. induction n as [|n IH]; intros [|m] f s Hn Hm; [lia..|]. simpl.
  destruct (readZipExtraField s) as [| |t d r] eqn:E; [done..|]. apply readZipExtraField_shrinks in E.
  destruct (if (t =? _)%Z then _ else _) as [[] f']; [|done..]. apply IH; lia.
Qed.

(** An archive that cannot be made leaves the old one. *)
Lemma create_failure_keeps_old src os_Open tempFile rename old names err :
  fst (CreateZipFile src os_Open tempFile rename old names) = Some err →
  snd (CreateZipFile src os_Open tempFile rename old names) = old.
Proof.
  unfold CreateZipFile. destruct tempFile; [done|]. destruct (CreateZipArchive _ _ _) as [[[] es] w]; [done|].
  by destruct rename.
Qed.
