(* ===== verification/Session.v ===== *)
(** The sessions of builds (session/session.go, session/server.go): the requests of users who
    open a terminal in a running job or reach its services.

    Requests are served at the same time: a handler is a goroutine whose steps are the
    locked calls of the session. Connections to terminals are numbered as they are made;
    the terminal, its transport and the proxies are outside. *)

From S2P Require Import Prelude GoLib.

(** ** Requests and their routes *)

Record request := mkRequest { r_path : string; r_authorization : string; r_upgrade : bool }.

(** The two routes of [setMux]; a path element is a nonempty text without a slash. *)
Inductive route := RouteProxy (resource port requestedUri : string) | RouteExec.

(** The first element of a path and what follows its slash. *)
Fixpoint element (s : string) : option (string * string) :=
  match s with
  | "" => None
  | String c s' =>
      if bool_decide (c = "/"%char) then Some ("", s')
      else match element s' with Some (e, rest) => Some (String c e, rest) | None => None end
  end.

Definition setMux (endpoint path : string) : option route :=
  if bool_decide (path = endpoint +:+ "/exec") then Some RouteExec
  else
    let prefix := endpoint +:+ "/proxy/" in
    if HasPrefix path prefix then
      match element (sdrop (slen prefix) path) with
      | Some (resource, rest) =>
          match element rest with
          | Some (port, uri) =>
              if bool_decide (resource = "") || bool_decide (port = "") then None
              else Some (RouteProxy resource port uri)
          | None => None
          end
      | None => None
      end
    else None.

(** ** The session *)

(** A proxy of the pool: whether it has a connection handler. *)
Record Session := mkSession {
  Endpoint : string; Token : string; interactiveTerminal : bool; terminalConn : option nat;
  proxyPool : gmap string bool }.

(** [NewSession] with the random texts it asked for. *)
Definition NewSession (uuid token : result string string) : result string Session :=
  match uuid with
  | Err err => Err err
  | Ok uuid =>
      match token with
      | Err err => Err err
      | Ok token => Ok (mkSession ("/session/" +:+ uuid) token false None ∅)
      end
  end.

Definition set_conn (s : Session) (c : option nat) : Session :=
  mkSession (Endpoint s) (Token s) (interactiveTerminal s) c (proxyPool s).
Definition SetInteractiveTerminal (s : Session) (t : bool) : Session :=
  mkSession (Endpoint s) (Token s) t (terminalConn s) (proxyPool s).
Definition SetProxyPool (s : Session) (pool : gmap string bool) : Session :=
  mkSession (Endpoint s) (Token s) (interactiveTerminal s) (terminalConn s) pool.
Definition Connected (s : Session) : bool := bool_decide (terminalConn s ≠ None).

Definition StatusUnauthorized : Z := 401.
Definition StatusNotFound : Z := 404.
Definition StatusMethodNotAllowed : Z := 405.
Definition StatusLocked : Z := 423.
Definition StatusInternalServerError : Z := 500.
Definition StatusServiceUnavailable : Z := 503.

(** A goroutine that serves a request: between [terminalAvailable] and [newTerminalConn],
    in [Start] of a connection, given to a proxy, answered with a status, or dead of a
    panic. *)
Inductive handler :=
| Connecting
| Streaming (conn : nat)
| Proxied (resource port uri : string)
| Answered (status : Z)
| Panicked.

(** [withAuthorization] around [next]. *)
Definition withAuthorization (s : Session) (r : request) (next : handler) : handler :=
  if bool_decide (Token s ≠ r_authorization r) then Answered StatusUnauthorized else next.

Definition proxyHandler (s : Session) (resource port uri : string) : handler :=
  match proxyPool s !! resource with
  | None => Answered StatusNotFound
  | Some false => Answered StatusNotFound
  | Some true => Proxied resource port uri
  end.

(** [execHandler] up to its first locked call and the test of the request. *)
Definition execHandler (s : Session) (r : request) : handler :=
  if negb (interactiveTerminal s) then Answered StatusServiceUnavailable
  else if negb (r_upgrade r) then Answered StatusMethodNotAllowed
  else Connecting.

Definition serve (s : Session) (r : request) : handler :=
  match setMux (Endpoint s) (r_path r) with
  | None => Answered StatusNotFound
  | Some (RouteProxy resource port uri) => withAuthorization s r (proxyHandler s resource port uri)
  | Some RouteExec => withAuthorization s r (execHandler s r)
  end.

(** [handleSessionRequest] of the server; [found] is what the session finder gave. *)
Definition handleSessionRequest (found : option Session) (r : request) : handler :=
  match found with
  | None => Answered StatusNotFound
  | Some s => serve s r
  end.

(** ** The server's address *)

(** [splitHost] is the host of [net.SplitHostPort], empty on an error. *)
Definition getPublicHost (splitHost : string → string) (advertiseAddress listenAddress : string) : result string string :=
  match list_find (λ a, a ≠ "" ∧ splitHost a ≠ "") [advertiseAddress; listenAddress] with
  | Some (_, a) => Ok (splitHost a)
  | None => Err "no valid address provided"
  end.

(** [parse] says why [url.ParseRequestURI] fails. *)
Definition setAdvertiseAddress (parse : string → option string) (advertiseAddress listenAddress : string) : result string string :=
  let address := if bool_decide (advertiseAddress = "") then listenAddress else advertiseAddress in
  if HasPrefix address "https://" || HasPrefix address "http://" then Err "url not valid, scheme defined"
  else match parse ("https://" +:+ address) with
       | Some err => Err err
       | None => Ok ("https://" +:+ address)
       end.

(** ** Steps *)

(** The session with its requests and their handlers, the number of connections made so
    far, and the connections that were closed, latest first. *)
Record sworld := mkSWorld {
  session : Session; handlers : list (request * handler); made : nat; closed : list nat }.

Inductive sevent :=
| SRequest (r : request)                   (* a request arrives *)
| SConnect (h : nat) (ok : bool)           (* newTerminalConn; whether Connect succeeds *)
| SEnd (h : nat)                           (* Start returns: closeTerminalConn *)
| SKill
| STerminal (t : bool)
| SPool (pool : gmap string bool).

(** [newTerminalConn]: the connection that will be number [n], or the answer. *)
Definition newTerminalConn (s : Session) (n : nat) (ok : bool) : handler * Session :=
  match terminalConn s with
  | Some _ => (Answered StatusLocked, s)
  | None =>
      if negb (interactiveTerminal s) then (Panicked, s)
      else if ok then (Streaming n, set_conn s (Some n)) else (Answered StatusInternalServerError, s)
  end.

(** [closeTerminalConn]: the session forgets the connection only if it is its own. *)
Definition closeTerminalConn (s : Session) (conn : nat) : Session :=
  if bool_decide (terminalConn s = Some conn) then set_conn s None else s.

Definition Kill (w : sworld) : sworld :=
  match terminalConn (session w) with
  | None => w
  | Some c => mkSWorld (set_conn (session w) None) (handlers w) (made w) (c :: closed w)
  end.

Definition set_session (w : sworld) (s : Session) : sworld := mkSWorld s (handlers w) (made w) (closed w).

Definition sstep (w : sworld) (e : sevent) : option sworld :=
  match e with
  | SRequest r => Some (mkSWorld (session w) (handlers w ++ [(r, serve (session w) r)]) (made w) (closed w))
  | SConnect h ok =>
      match handlers w !! h with
      | Some (r, Connecting) =>
          let '(x, s) := newTerminalConn (session w) (made w) ok in
          Some (mkSWorld s (<[h := (r, x)]> (handlers w))
                  (match x with Streaming _ => S (made w) | _ => made w end) (closed w))
      | _ => None
      end
  | SEnd h =>
      match handlers w !! h with
      | Some (r, Streaming c) =>
          Some (mkSWorld (closeTerminalConn (session w) c) (<[h := (r, Answered 0)]> (handlers w)) (made w) (c :: closed w))
      | _ => None
      end
  | SKill => Some (Kill w)
  | STerminal t => Some (set_session w (SetInteractiveTerminal (session w) t))
  | SPool pool => Some (set_session w (SetProxyPool (session w) pool))
  end.

Definition srun (w : sworld) (l : list sevent) : sworld := foldl (λ w e, default w (sstep w e)) w l.

Definition new_world (s : Session) : sworld := mkSWorld s [] 0 [].

(** The connections that were made and not closed. *)
Definition live (w : sworld) : list nat := filter (λ c, c ∉ closed w) (seq 0 (made w)).

(** ** One terminal at a time *)

(** What an unauthorised request can get. *)
Definition refused (x : handler) : Prop := x = Answered StatusUnauthorized ∨ x = Answered StatusNotFound.

(** Handler [h] is in [Start] of connection [c]. *)
Definition streams (hs : list (request * handler)) (h c : nat) : Prop := ∃ r, hs !! h = Some (r, Streaming c).

Definition authorised (token : string) (hs : list (request * handler)) : Prop :=
  ∀ h r x, hs !! h = Some (r, x) → r_authorization r ≠ token → refused x.

Record session_ok (token : string) (w : sworld) : Prop := {
  so_token : Token (session w) = token;
  so_auth : authorised token (handlers w);
  so_closed : ∀ c, c ∈ closed w → c < made w;
  so_made : ∀ h c, streams (handlers w) h c → c < made w;
  so_one : ∀ h h' c, streams (handlers w) h c → streams (handlers w) h' c → h = h';
  so_conn : ∀ c, terminalConn (session w) = Some c → c < made w ∧ c ∉ closed w ∧ ∃ h, streams (handlers w) h c;
  so_live : ∀ c, c < made w → c ∉ closed w → terminalConn (session w) = Some c }.

Lemma serve_auth s r : r_authorization r ≠ Token s → refused (serve s r).
Proof.
  intros Hne. unfold serve, withAuthorization, refused. destruct (setMux _ _) as [[]|]; [| |by right].
  all: rewrite bool_decide_true by congruence; by left.
Qed.

Lemma serve_not_streaming s r c : serve s r ≠ Streaming c.
Proof.
  unfold serve, withAuthorization, execHandler, proxyHandler.
  repeat (case_match; try done); destruct (negb (interactiveTerminal s)), (negb (r_upgrade r)); done.
Qed.

Lemma live_spec w c : c ∈ live w ↔ c < made w ∧ c ∉ closed w.
Proof. unfold live. rewrite list_elem_of_filter, elem_of_seq. naive_solver lia. Qed.

(** A list without repetitions whose only member is that of an option. *)
Lemma NoDup_option_list {A} (l : list A) (o : option A) :
  NoDup l → (∀ x, x ∈ l ↔ o = Some x) → l = option_list o.
Proof.
  intros Hn Hl.
  destruct l as [|x [|y l]].
  - destruct o as [x|]; [|done]. exfalso. apply (not_elem_of_nil x). by apply Hl.
  - by rewrite (proj1 (Hl x)) by (by left).
  - apply NoDup_cons in Hn as [Hx _]. exfalso. apply Hx.
    assert (o = Some x) as Hox by (apply Hl; by left). assert (o = Some y) as Hoy by (apply Hl; right; by left).
    simplify_eq. by left.
Qed.

Lemma session_live token w : session_ok token w → live w = option_list (terminalConn (session w)).
Proof.
  intros Hw. apply NoDup_option_list.
  - apply NoDup_filter, NoDup_seq.
  - intros c. rewrite live_spec. split; [intros []; by eapply so_live|].
    intros Hc. by destruct (so_conn _ _ Hw c Hc) as (? & ? & _).
Qed.

(** Adding a handler, and letting one go on. *)
Lemma streams_app hs r x h c : (∀ c, x ≠ Streaming c) → streams (hs ++ [(r, x)]) h c ↔ streams hs h c.
Proof.
  intros Hx. unfold streams. setoid_rewrite lookup_app_Some. setoid_rewrite list_lookup_singleton_Some.
  split; [|by intros [r' Hr]; exists r'; left]. intros (r' & [Hr|(_ & _ & Hr)]); [by exists r'|].
  injection Hr as _ Hr. by apply Hx in Hr.
Qed.

Lemma streams_insert hs h r x y h' c : hs !! h = Some (r, x) →
  streams (<[h := (r, y)]> hs) h' c ↔ (h' = h ∧ y = Streaming c) ∨ (h' ≠ h ∧ streams hs h' c).
Proof.
  intros Hh. pose proof (lookup_lt_Some _ _ _ Hh) as Hlt. unfold streams. destruct (decide (h' = h)) as [->|Hne].
  - rewrite list_lookup_insert_eq by done. naive_solver.
  - rewrite list_lookup_insert_ne by done. naive_solver.
Qed.

Lemma authorised_insert token hs h r x y : authorised token hs → hs !! h = Some (r, x) → ¬ refused x →
  authorised token (<[h := (r, y)]> hs).
Proof.
  intros Ha Hh Hx h' r' x' Hl Hne. destruct (decide (h' = h)) as [->|Hneq].
  - rewrite list_lookup_insert_eq in Hl by (by eapply lookup_lt_Some). simplify_eq. destruct Hx. by eapply Ha.
  - rewrite list_lookup_insert_ne in Hl by done. by eapply Ha.
Qed.

Section Steps.
Context (token : string) (w : sworld) (Hw : session_ok token w).

Lemma ok_request r :
  session_ok token (mkSWorld (session w) (handlers w ++ [(r, serve (session w) r)]) (made w) (closed w)).
Proof using Hw.
  destruct Hw as [Ht Ha Hc Hm Ho Hs Hl].
  assert (∀ h c, streams (handlers w ++ [(r, serve (session w) r)]) h c ↔ streams (handlers w) h c) as Hst
    by (intros; apply streams_app, serve_not_streaming).
  constructor; simpl; try setoid_rewrite Hst; eauto.
  intros h r' x [Hh|[_ [_ Hh]%list_lookup_singleton_Some]]%lookup_app_Some Hne; [by eauto|].
  simplify_eq. by apply serve_auth.
Qed.

Context (h : nat) (r : request).

Lemma ok_answered y : handlers w !! h = Some (r, Connecting) → (∀ c, y ≠ Streaming c) →
  session_ok token (mkSWorld (session w) (<[h := (r, y)]> (handlers w)) (made w) (closed w)).
Proof using Hw.
  destruct Hw as [Ht Ha Hc Hm Ho Hs Hl]. intros Hh Hy.
  assert (∀ h' c, streams (<[h := (r, y)]> (handlers w)) h' c ↔ streams (handlers w) h' c) as Hst.
  { intros h' c. rewrite streams_insert by done. split; [naive_solver|]. intros [r' Hr]. right.
    split; [congruence|by exists r']. }
  constructor; simpl; try setoid_rewrite Hst; eauto. eapply authorised_insert; [done..|]. by intros [|].
Qed.

Lemma ok_connected : handlers w !! h = Some (r, Connecting) → terminalConn (session w) = None →
  session_ok token (mkSWorld (set_conn (session w) (Some (made w))) (<[h := (r, Streaming (made w))]> (handlers w))
                      (S (made w)) (closed w)).
Proof using Hw.
  destruct Hw as [Ht Ha Hc Hm Ho Hs Hl]. intros Hh Hnone.
  constructor; simpl; try setoid_rewrite (streams_insert _ _ _ _ _ _ _ Hh).
  - done.
  - eapply authorised_insert; [done..|]. by intros [|].
  - intros c Hin. specialize (Hc c Hin). lia.
  - intros h' c [[_ [= <-]]|[_ Hst]]; [lia|]. specialize (Hm _ _ Hst). lia.
  - intros h1 h2 c [[-> E1]|[Hn1 H1]] [[-> E2]|[Hn2 H2]]; simplify_eq; try done; [| |by eapply Ho].
    + specialize (Hm _ _ H2). lia.
    + specialize (Hm _ _ H1). lia.
  - intros c [= <-]. split_and!; [lia|intros Hin; specialize (Hc _ Hin); lia|exists h; by left].
  - intros c Hlt Hnot. destruct (decide (c = made w)) as [->|]; [done|].
    assert (terminalConn (session w) = Some c) by (apply Hl; [lia|done]). congruence.
Qed.

Lemma ok_ended c : handlers w !! h = Some (r, Streaming c) →
  session_ok token (mkSWorld (closeTerminalConn (session w) c) (<[h := (r, Answered 0)]> (handlers w))
                      (made w) (c :: closed w)).
Proof using Hw.
  destruct Hw as [Ht Ha Hc Hm Ho Hs Hl]. intros Hh.
  assert (Hsc : streams (handlers w) h c) by (by exists r).
  assert (Hconn : ∀ c', terminalConn (closeTerminalConn (session w) c) = Some c' ↔ terminalConn (session w) = Some c' ∧ c' ≠ c).
  { intros c'. unfold closeTerminalConn. case_bool_decide; naive_solver. }
  constructor; simpl; try setoid_rewrite (streams_insert _ _ _ _ _ _ _ Hh).
  - unfold closeTerminalConn. by case_bool_decide.
  - eapply authorised_insert; [done..|]. by intros [|].
  - intros c' [->|Hin]%elem_of_cons; eauto.
  - intros h' c' [[_ ?]|[_ Hst]]; [done|eauto].
  - intros h1 h2 c' [[_ ?]|[_ H1]] [[_ ?]|[_ H2]]; try done. by eapply Ho.
  - intros c' [Hc' Hne]%Hconn. destruct (Hs c' Hc') as (? & ? & h' & Hst). split_and!; [done|by apply not_elem_of_cons|].
    exists h'. right. split; [|done]. intros ->. destruct Hst as [r' Hst]. congruence.
  - intros c' Hlt [Hne Hnot]%not_elem_of_cons. apply Hconn. auto.
Qed.

Lemma ok_killed : session_ok token (Kill w).
Proof using Hw.
  destruct Hw as [Ht Ha Hc Hm Ho Hs Hl]. unfold Kill. destruct (terminalConn (session w)) as [c|] eqn:Ec; [|done].
  destruct (Hs c eq_refl) as (Hlt & _). constructor; simpl; auto.
  - intros c' [->|Hin]%elem_of_cons; eauto.
  - done.
  - intros c' Hc' [Hne Hnot]%not_elem_of_cons. specialize (Hl c' Hc' Hnot). congruence.
Qed.
End Steps.

Lemma sstep_ok token w e w' : session_ok token w → sstep w e = Some w' → session_ok token w'.
Proof.
  intros Hw He. destruct e as [r|h ok|h| |t|pool]; simpl in He; simplify_eq.
  - by apply ok_request.
  - destruct (handlers w !! h) as [[r []]|] eqn:Hh; try done. unfold newTerminalConn in He.
    repeat case_match; simplify_eq; by (apply ok_answered || apply ok_connected).
  - destruct (handlers w !! h) as [[r []]|] eqn:Hh; try done. simplify_eq. by apply ok_ended.
  - by apply ok_killed.
  - by destruct Hw.
  - by destruct Hw.
Qed.

Lemma srun_ok token w l : session_ok token w → session_ok token (srun w l).
Proof.
  revert w. induction l as [|e l IH]; intros w Hw; [done|]. simpl. apply IH.
  destruct (sstep w e) eqn:He; [by eapply sstep_ok|done].
Qed.

Lemma new_world_ok s : terminalConn s = None → session_ok (Token s) (new_world s).
Proof.
  intros Hn. constructor; simpl; try (by intros ? ? [? ?]); try done; try lia; try congruence.
  - intros c Hc. by apply not_elem_of_nil in Hc.
  - by intros h h' c [? ?].
Qed.


