(* ===== verification/ShellEscape.v ===== *)
(** helpers/shell_escape.go: [ShellEscape], against a reader of the words it writes. *)

From S2P Require Import Prelude GoLib.

Definition TAB : Z := 9%Z.
Definition LF : Z := 10%Z.
Definition CR : Z := 13%Z.
Definition US : Z := 31%Z.
Definition AMPERSTAND : Z := 38%Z.
Definition SINGLE_QUOTE : Z := 39%Z.
Definition PLUS : Z := 43%Z.
Definition NINE : Z := 57%Z.
Definition QUESTION : Z := 63%Z.
Definition LOWERCASE_Z : Z := 90%Z.
Definition OPEN_BRACKET : Z := 91%Z.
Definition BACKSLASH : Z := 92%Z.
Definition UNDERSCORE : Z := 95%Z.
Definition CLOSE_BRACKET : Z := 93%Z.
Definition BACKTICK : Z := 96%Z.
Definition TILDA : Z := 126%Z.
Definition DEL : Z := 127%Z.

Definition hex_digit (d : Z) : ascii := byte_of (if (d <? 10)%Z then 48 + d else 87 + d)%Z.

(** What one byte adds to the output, and whether it sets [escape]. *)
Definition hex (c : ascii) : string * bool :=
  (bstr BACKSLASH +:+ "x" +:+ String (hex_digit (z_of c / 16)) (String (hex_digit (z_of c mod 16)) ""), true).
Definition backslash (c : ascii) : string * bool := (bstr BACKSLASH +:+ String c "", true).
Definition escaped (s : string) : string * bool := (s, true).
Definition quoted (c : ascii) : string * bool := (String c "", true).
Definition literal (c : ascii) : string * bool := (String c "", false).

(** The switch of the loop. *)
Definition escape_char (c : ascii) : string * bool :=
  let z := z_of c in
  (if z =? TAB then escaped (bstr BACKSLASH +:+ "t")
   else if z =? LF then escaped (bstr BACKSLASH +:+ "n")
   else if z =? CR then escaped (bstr BACKSLASH +:+ "r")
   else if z <=? US then hex c
   else if z <=? AMPERSTAND then quoted c
   else if z =? SINGLE_QUOTE then backslash c
   else if z <=? PLUS then quoted c
   else if z <=? NINE then literal c
   else if z <=? QUESTION then quoted c
   else if z <=? LOWERCASE_Z then literal c
   else if z =? OPEN_BRACKET then quoted c
   else if z =? BACKSLASH then backslash c
   else if z <=? CLOSE_BRACKET then quoted c
   else if z =? UNDERSCORE then literal c
   else if z <=? BACKTICK then quoted c
   else if z <=? LOWERCASE_Z then literal c
   else if z <=? TILDA then quoted c
   else if z =? DEL then hex c
   else hex c)%Z.

Fixpoint escape_loop (s out : string) (escape : bool) : string * bool :=
  match s with
  | "" => (out, escape)
  | String c s' => let '(o, e) := escape_char c in escape_loop s' (out +:+ o) (escape || e)
  end.

Definition ShellEscape (str : string) : string :=
  if bool_decide (str = "") then "''"
  else let '(outStr, escape) := escape_loop str "" false in
       if escape then "$'" +:+ outStr +:+ "'" else outStr.

(** [ToBackslash]; [ToSlash] is in Build.v. *)
Definition ToBackslash (p : string) : string := Replace p "/" (bstr BACKSLASH).

(** ** What bash reads *)

Definition hex_value (c : ascii) : option Z :=
  let z := z_of c in
  (if (48 <=? z) && (z <=? 57) then Some (z - 48)
   else if (97 <=? z) && (z <=? 102) then Some (z - 87)
   else if (65 <=? z) && (z <=? 70) then Some (z - 55) else None)%Z.

(** The inside of [$'...'], up to and including the closing quote, which must end the
    word: escapes are decoded, a NUL ends the string and is not accepted here. *)
Fixpoint ansi_c (s : string) : option string :=
  match s with
  | "" => None
  | String c s' =>
      if (z_of c =? SINGLE_QUOTE)%Z then match s' with "" => Some "" | _ => None end
      else if (z_of c =? BACKSLASH)%Z then
        match s' with
        | String e s'' =>
            if bool_decide (e = "t"%char) then String (byte_of 9) <$> ansi_c s''
            else if bool_decide (e = "n"%char) then String (byte_of 10) <$> ansi_c s''
            else if bool_decide (e = "r"%char) then String (byte_of 13) <$> ansi_c s''
            else if (z_of e =? BACKSLASH)%Z || (z_of e =? SINGLE_QUOTE)%Z then String e <$> ansi_c s''
            else if bool_decide (e = "x"%char) then
              match s'' with
              | String h1 (String h2 s3) =>
                  match hex_value h1, hex_value h2 with
                  | Some a, Some b => if (16 * a + b =? 0)%Z then None
                                      else String (byte_of (16 * a + b)) <$> ansi_c s3
                  | _, _ => None
                  end
              | _ => None
              end
            else None
        | "" => None
        end
      else String c <$> ansi_c s'
  end.

(** Characters without a meaning of their own in an unquoted word. *)
Definition word_char (c : ascii) : bool :=
  let z := z_of c in
  (((44 <=? z) && (z <=? 57)) || ((64 <=? z) && (z <=? 90)) || (z =? 95) || ((97 <=? z) && (z <=? 122)))%Z.

Fixpoint all_word (s : string) : bool :=
  match s with "" => true | String c s' => word_char c && all_word s' end.

Definition bash_word (s : string) : option string :=
  if bool_decide (s = "''") then Some ""
  else if HasPrefix s "$'" then ansi_c (sdrop 2 s)
  else if all_word s && negb (bool_decide (s = "")) then Some s else None.

(** ** Properties *)

Lemma escape_loop_app s out e :
  escape_loop s out e = (out +:+ (escape_loop s "" false).1, e || (escape_loop s "" false).2).
Proof.
  revert out e. induction s as [|c s IH]; intros out e; simpl.
  { by rewrite string_app_nil_r, orb_false_r. }
  destruct (escape_char c) as [o b]. rewrite (IH (out +:+ o)), (IH ("" +:+ o)). simpl.
  by rewrite string_app_nil_l, string_app_assoc, orb_assoc.
Qed.

Lemma escape_loop_cons c s :
  escape_loop (String c s) "" false =
  ((escape_char c).1 +:+ (escape_loop s "" false).1, (escape_char c).2 || (escape_loop s "" false).2).
Proof.
  cbn [escape_loop]. destruct (escape_char c) as [o b]. rewrite escape_loop_app. by rewrite string_app_nil_l.
Qed.

(** Each byte but NUL is read back from what was written for it. *)
Lemma ansi_c_escape_char c t :
  c ≠ byte_of 0 → ansi_c ((escape_char c).1 +:+ t) = String c <$> ansi_c t.
Proof.
  intros Hc. destruct c as [[] [] [] [] [] [] [] []]; try reflexivity. by destruct Hc.
Qed.

Lemma ansi_c_loop s :
  byte_of 0 ∉ String.list_ascii_of_string s →
  ansi_c ((escape_loop s "" false).1 +:+ "'") = Some s.
Proof.
  induction s as [|c s IH]; intros Hs; [done|]. simpl in Hs. apply not_elem_of_cons in Hs as [Hc Hs].
  rewrite escape_loop_cons. simpl. rewrite <- string_app_assoc, ansi_c_escape_char by congruence.
  by rewrite IH.
Qed.

Lemma escape_char_literal c :
  (escape_char c).2 = false → (escape_char c).1 = String c "" ∧ word_char c = true.
Proof. destruct c as [[] [] [] [] [] [] [] []]; done. Qed.

Lemma escape_loop_literal s :
  (escape_loop s "" false).2 = false → (escape_loop s "" false).1 = s ∧ all_word s = true.
Proof.
  induction s as [|c s IH]; [done|]. rewrite escape_loop_cons. simpl.
  intros [Hc Hs]%orb_false_elim. destruct (escape_char_literal c Hc) as [-> ->].
  destruct (IH Hs) as [-> ->]. done.
Qed.

Lemma all_word_no_dollar s : all_word s = true → HasPrefix s "$'" = false.
Proof.
  destruct s as [|c s]; [done|]. simpl. intros [Hc _]%andb_prop.
  case_bool_decide as Hd; [|done]. subst. by vm_compute in Hc.
Qed.

Lemma ShellEscape_word s :
  byte_of 0 ∉ String.list_ascii_of_string s → bash_word (ShellEscape s) = Some s.
Proof.
  intros Hs. unfold ShellEscape. case_bool_decide as He; [by subst|].
  pose proof (ansi_c_loop s Hs) as Ha. pose proof (escape_loop_literal s) as Hl.
  destruct (escape_loop s "" false) as [out [|]]; simpl in Ha, Hl; unfold bash_word.
  - change ("$'" +:+ out +:+ "'") with (String "$" (String "'" (out +:+ "'"))).
    rewrite bool_decide_eq_false_2 by done. simpl. done.
  - destruct (Hl eq_refl) as [-> Hw]. rewrite bool_decide_eq_false_2 by (by intros ->).
    rewrite all_word_no_dollar by done. rewrite Hw, bool_decide_eq_false_2 by done. done.
Qed.

(** C15: Shell escaping is lossless: bash reads the escaped text as exactly one word,
    whose value is the original, for every byte string without NUL. This is what lets
    variables, commands and whole scripts be embedded in generated scripts. *)
Theorem shell_escape_roundtrip s :
  byte_of 0 ∉ String.list_ascii_of_string s → bash_word (ShellEscape s) = Some s.
Proof. apply ShellEscape_word. Qed.

Lemma shell_escape_roundtrip_witness :
  bash_word (ShellEscape "it's $HOME") = Some "it's $HOME".
Proof.
  apply (shell_escape_roundtrip "it's $HOME"). apply (bool_decide_eq_false_1 _). vm_compute. reflexivity.
Defined.

(** Every byte written is printable ASCII, so a script stays on one line per command. *)
Definition printable (c : ascii) : bool := ((32 <=? z_of c) && (z_of c <=? 126))%Z.

Fixpoint all_printable (s : string) : bool :=
  match s with "" => true | String c s' => printable c && all_printable s' end.

Lemma all_printable_app a b : all_printable (a +:+ b) = all_printable a && all_printable b.
Proof. induction a as [|c a IH]; [done|]. rewrite string_app_cons. simpl. by rewrite IH, andb_assoc. Qed.

Lemma escape_char_printable c : all_printable (escape_char c).1 = true.
Proof. destruct c as [[] [] [] [] [] [] [] []]; reflexivity. Qed.

Lemma ShellEscape_printable s : all_printable (ShellEscape s) = true.
Proof.
  assert (Hp : all_printable (escape_loop s "" false).1 = true).
  { induction s as [|c s IH]; [done|]. rewrite escape_loop_cons. simpl.
    by rewrite all_printable_app, escape_char_printable, IH. }
  unfold ShellEscape. case_bool_decide; [done|].
  destruct (escape_loop s "" false) as [out [|]]; simpl in Hp; [|done].
  change ("$'" +:+ out +:+ "'") with (String "$" (String "'" (out +:+ "'"))). simpl.
  by rewrite all_printable_app, Hp.
Qed.

(** Escaped text never contains a line break, a control character or a byte above
    ASCII; but, against the comment that bytes which need no escaping are left as they
    are, every text with a lower case letter is wrapped, because the constant for
    lower case z is the code of upper case Z. *)
Theorem shell_escape_shape s :
  all_printable (ShellEscape s) = true ∧
  (∀ a c b, s = a +:+ String c b → (97 ≤ z_of c ≤ 122)%Z →
            HasPrefix (ShellEscape s) "$'" = true).
Proof.
  split; [apply ShellEscape_printable|].
  intros a c b -> Hc. unfold ShellEscape. rewrite bool_decide_eq_false_2 by (by destruct a).
    assert (He : (escape_loop (a +:+ String c b) "" false).2 = true).
    { induction a as [|d a IH].
      - rewrite string_app_nil_l, escape_loop_cons. simpl.
        assert (Hq : (escape_char c).2 = true).
        { destruct c as [[] [] [] [] [] [] [] []]; try reflexivity; vm_compute in Hc; exfalso; by destruct Hc. }
        by rewrite Hq.
      - rewrite string_app_cons, escape_loop_cons. simpl. by rewrite IH, orb_true_r. }
    destruct (escape_loop _ "" false) as [out e]. simpl in He. subst. done.
Qed.
