(* ===== verification/AbstractShell.v ===== *)
(** The scripts of a job (shells/shell_writer.go, shells/abstract.go):
    [AbstractShell] writes every stage against the interface [ShellWriter]; the theorems
    here hold for any writer that keeps the laws of its interface. Shells.v has the
    three writers. *)

From S2P Require Import Prelude GoLib Path Types Variables Config Build CacheKeys.

(** [ShellWriter]: [W] is the writer's state. The print functions take the formatted
    text. *)
Class ShellWriter (W : Type) := {
  EnvVariableKey : string → string;
  WVariable : JobVariable → W → W;
  Command : string → list string → W → W;
  Line : string → W → W;
  CheckForErrors : W → W;
  IfDirectory : string → W → W;
  IfFile : string → W → W;
  IfCmd : string → list string → W → W;
  IfCmdWithOutput : string → list string → W → W;
  Else : W → W;
  EndIf : W → W;
  Cd : string → W → W;
  MkDir : string → W → W;
  RmDir : string → W → W;
  RmFile : string → W → W;
  Absolute : string → W → string * W;
  TmpFile : string → W → string * W;
  MkTmpDir : string → W → string * W;
  Print_ : string → W → W;
  Notice : string → W → W;
  Warning : string → W → W;
  Error_ : string → W → W;
  EmptyLine : W → W;
  Finish : bool → W → string }.

Inductive ShellType := NormalShell | LoginShell.

(** [ShellScriptInfo]; [Hostname] is the build's. *)
Record ShellScriptInfo := {
  SSI_Build : Build; SSI_Hostname : string; SSI_Type : ShellType; SSI_User : string;
  RunnerCommand : string; SSI_PreCloneScript : string; SSI_PreBuildScript : string;
  SSI_PostBuildScript : string }.

(** How a script generator ends: with a script, with an error (what was written so far
    is kept), or with a panic. *)
Inductive outcome (W : Type) := Done (w : W) | Failed_ (err : string) (w : W) | Panic.
Arguments Done {W} w.
Arguments Failed_ {W} err w.
Arguments Panic {W}.

Definition obind {W} (o : outcome W) (f : W → outcome W) : outcome W :=
  match o with Done w => f w | r => r end.

Notation "o >>> f" := (obind o f) (at level 60, right associativity) : go_scope.
Open Scope go_scope.

(** What the shell takes from elsewhere: the parsed URL of the GitLab server without its
    path, the registered cache adapters, and the order in which Go walks the map of TLS
    variables. *)
Class ShellEnv := {
  serverHost : string → result string string;
  cacheFactories : gmap string Factory;
  tlsEntries : list (string * string);
  tlsEntries_all : tlsEntries ≡ₚ [("CI_SERVER_TLS_CA_FILE", "sslCAInfo");
                                   ("CI_SERVER_TLS_CERT_FILE", "sslCert");
                                   ("CI_SERVER_TLS_KEY_FILE", "sslKey")] }.

Section AbstractShell.
Context {GT : GoText} {SE : ShellEnv} (app : AppVersionInfo).
Context {W : Type} {SW : ShellWriter W}.

Definition writeCdBuildDir (info : ShellScriptInfo) (w : W) : W := Cd (FullProjectDir (SSI_Build info)) w.

Definition writeExports (info : ShellScriptInfo) (w : W) : W :=
  foldl (λ w v, WVariable v w) w (GetAllVariables app (SSI_Build info)).

Definition writeGitSSLConfig (build : Build) (where_ : list string) (w : W) : W :=
  match serverHost (RC_URL (Credentials_ (Runner build))) with
  | Err err => Warning ("git SSL config: Can't parse repository URL. " +:+ err) w
  | Ok host =>
      let variables := GetCITLSVariables build in
      let args := "config" :: where_ in
      foldl (λ w '(variable, config),
               if bool_decide (Get variables variable = "") then w
               else Command "git" (args ++ ["http." +:+ host +:+ "." +:+ config; EnvVariableKey variable]) w)
            w tlsEntries
  end.

Definition writeGitCleanup (w : W) : W :=
  let w := RmFile ".git/index.lock" w in
  let w := RmFile ".git/shallow.lock" w in
  let w := RmFile ".git/HEAD.lock" w in
  RmFile ".git/hooks/post-checkout" w.

Definition writeRefspecFetchCmd (build : Build) (projectDir : string) (w : W) : outcome W :=
  let depth := GI_Depth (JR_GitInfo (Job build)) in
  let '(templateDir, w) := MkTmpDir "git-template" w in
  let templateFile := pathJoin [templateDir; "config"] in
  let w := Command "git" ["config"; "-f"; templateFile; "fetch.recurseSubmodules"; "false"] w in
  let w := if IsSharedEnv build then writeGitSSLConfig build ["-f"; templateFile] w else w in
  let w := Command "git" ["init"; projectDir; "--template"; templateDir] w in
  let w := Cd projectDir w in
  let w := writeGitCleanup w in
  let w := if (0 <? depth)%Z
           then Notice ("Fetching changes with git depth set to " +:+ Itoa depth +:+ "...") w
           else Notice "Fetching changes..." w in
  match GetRemoteURL app build with
  | None => Panic
  | Some url =>
      let w := IfCmd "git" ["remote"; "add"; "origin"; url] w in
      let w := Notice "Created fresh repository." w in
      let w := Else w in
      let w := Command "git" ["remote"; "set-url"; "origin"; url] w in
      let w := EndIf w in
      let fetchArgs := ["fetch"; "origin"; "--prune"] ++ GI_Refspecs (JR_GitInfo (Job build)) ++
                       (if (0 <? depth)%Z then ["--depth"; Itoa depth] else []) in
      Done (Command "git" fetchArgs w)
  end.

(** [build.GitInfo.Sha[0:8]] panics on a shorter text. *)
Definition writeCheckoutCmd (build : Build) (w : W) : outcome W :=
  let sha := GI_Sha (JR_GitInfo (Job build)) in
  if bool_decide (slen sha < 8) then Panic
  else
    let w := Notice ("Checking out " +:+ stake 8 sha +:+ " as " +:+ GI_Ref (JR_GitInfo (Job build)) +:+ "...") w in
    let w := Command "git" ["checkout"; "-f"; "-q"; sha] w in
    match GetGitCleanFlags app build with
    | [] => Done w
    | cleanFlags => Done (Command "git" ("clean" :: cleanFlags) w)
    end.

Definition writeSubmoduleUpdateCmd (build : Build) (recursive : bool) (w : W) : W :=
  let w := Notice (if recursive then "Updating/initializing submodules recursively..."
                   else "Updating/initializing submodules...") w in
  let opt := if recursive then ["--recursive"] else [] in
  let w := Command "git" (["submodule"; "sync"] ++ opt) w in
  let updateArgs := ["submodule"; "update"; "--init"] ++ opt in
  let foreachArgs := ["submodule"; "foreach"] ++ opt in
  let w := Command "git" (foreachArgs ++ ["git"; "clean"; "-ffxd"]) w in
  let w := Command "git" (foreachArgs ++ ["git"; "reset"; "--hard"]) w in
  let w := Command "git" updateArgs w in
  if negb (IsLFSSmudgeDisabled app build)
  then let w := IfCmd "git-lfs" ["version"] w in
       let w := Command "git" (foreachArgs ++ ["git"; "lfs"; "pull"]) w in
       EndIf w
  else w.

(** [cacheFile]: the key and the file; two empty texts when there is no cache. *)
Definition cacheFile (build : Build) (userKey : string) : string * string :=
  if bool_decide (CacheDir_ build = "") then ("", "")
  else
    let key := if bool_decide (userKey = "")
               then pathJoin [JI_Name (JR_JobInfo (Job build)); GI_Ref (JR_GitInfo (Job build))]
               else ExpandValue (GetAllVariables app build) userKey in
    if bool_decide (key = "") then ("", "")
    else match Rel (BuildDir build) (pathJoin [CacheDir_ build; key; "cache.zip"]) with
         | None => ("", "")
         | Some file => (key, file)
         end.

Definition guardRunnerCommand (runnerCommand action : string) (f : W → W) (w : W) : W :=
  if bool_decide (runnerCommand = "") then Warning (action +:+ " is not supported by this executor.") w
  else
    let w := IfCmd runnerCommand ["--version"] w in
    let w := f w in
    let w := Else w in
    let w := Warning ("Missing " +:+ runnerCommand +:+ ". " +:+ action +:+ " is disabled.") w in
    EndIf w.

(** The arguments naming the files of a cache or an artifact. *)
Definition archiverArgs (paths : list string) (untracked : bool) : list string :=
  (paths ≫= λ p, ["--path"; p]) ++ (if untracked then ["--untracked"] else []).

Definition urlArgs (u : option string) : list string :=
  match u with Some u => ["--url"; u] | None => [] end.

(** One turn of the loop of [cacheExtractor]. *)
Definition extractCache (info : ShellScriptInfo) (c : Cache) (w : W) : outcome W :=
  match archiverArgs (Cache_Paths c) (Cache_Untracked c) with
  | [] => Done w
  | _ =>
      let '(cacheKey, file) := cacheFile (SSI_Build info) (Cache_Key c) in
      if bool_decide (cacheKey = "") then Done (Notice "Skipping cache extraction due to empty cache key" w)
      else match CheckPolicy c CachePolicyPull with
           | Err e => Failed_ (e +:+ " for " +:+ cacheKey) w
           | Ok false => Done (Notice ("Not downloading cache " +:+ cacheKey +:+ " due to policy") w)
           | Ok true =>
               let args := ["cache-extractor"; "--file"; file; "--timeout";
                            Itoa (GetCacheRequestTimeout app (SSI_Build info))] ++
                           urlArgs (GetCacheDownloadURL cacheFactories (SSI_Build info) cacheKey) in
               Done (guardRunnerCommand (RunnerCommand info) "Extracting cache" (λ w,
                 let w := Notice ("Checking cache for " +:+ cacheKey +:+ "...") w in
                 let w := IfCmdWithOutput (RunnerCommand info) args w in
                 let w := Notice "Successfully extracted cache" w in
                 let w := Else w in
                 let w := Warning "Failed to extract cache" w in
                 EndIf w) w)
           end
  end.

(** A loop that stops at the first error. *)
Fixpoint each {A} (f : A → W → outcome W) (l : list A) (w : W) : outcome W :=
  match l with
  | [] => Done w
  | a :: l' => f a w >>> each f l'
  end.

Definition cacheExtractor (info : ShellScriptInfo) (w : W) : outcome W :=
  each (extractCache info) (JR_Cache (Job (SSI_Build info))) w.

Definition downloadArtifacts (info : ShellScriptInfo) (w : W) (job : Dependency) : W :=
  let args := ["artifacts-downloader"; "--url"; RC_URL (Credentials_ (Runner (SSI_Build info)));
               "--token"; Dep_Token job; "--id"; Itoa (Dep_ID job)] in
  let w := Notice ("Downloading artifacts for " +:+ Dep_Name job +:+ " (" +:+ Itoa (Dep_ID job) +:+ ")...") w in
  Command (RunnerCommand info) args w.

Definition jobArtifacts (info : ShellScriptInfo) : list Dependency :=
  filter (λ d, DAF_Filename (Dep_ArtifactsFile d) ≠ "") (JR_Dependencies (Job (SSI_Build info))).

Definition downloadAllArtifacts (info : ShellScriptInfo) (w : W) : W :=
  match jobArtifacts info with
  | [] => w
  | otherJobs => guardRunnerCommand (RunnerCommand info) "Artifacts downloading"
                   (λ w, foldl (downloadArtifacts info) w otherJobs) w
  end.

Definition writePrepareScript (info : ShellScriptInfo) (w : W) : outcome W := Done w.

Definition handleGetSourcesStrategy (build : Build) (w : W) : outcome W :=
  let projectDir := FullProjectDir build in
  match GetGitStrategy app build with
  | GitFetch => writeRefspecFetchCmd build projectDir w
  | GitClone => writeRefspecFetchCmd build projectDir (RmDir projectDir w)
  | GitNone => Done (MkDir projectDir (Notice "Skipping Git repository setup" w))
  end.

Definition writeCloneFetchCmds (info : ShellScriptInfo) (w : W) : outcome W :=
  let build := SSI_Build info in
  let w := if negb (IsLFSSmudgeDisabled app build)
           then WVariable (mkVar "GIT_LFS_SKIP_SMUDGE" "1" false false false) w else w in
  handleGetSourcesStrategy build w >>> λ w,
  if GetGitCheckout app build then
    writeCheckoutCmd build w >>> λ w,
    if negb (IsLFSSmudgeDisabled app build)
    then let w := IfCmd "git-lfs" ["version"] w in
         let w := Command "git" ["lfs"; "pull"] w in
         let w := EmptyLine w in
         Done (EndIf w)
    else Done w
  else Done (Notice "Skipping Git checkout" w).

Definition writeSubmoduleUpdateCmds (info : ShellScriptInfo) (w : W) : outcome W :=
  match GetSubmoduleStrategy app (SSI_Build info) with
  | SubmoduleNormal => Done (writeSubmoduleUpdateCmd (SSI_Build info) false w)
  | SubmoduleRecursive => Done (writeSubmoduleUpdateCmd (SSI_Build info) true w)
  | SubmoduleNone => Done (Notice "Skipping Git submodules setup" w)
  | SubmoduleInvalid => Failed_ "unknown GIT_SUBMODULE_STRATEGY" w
  end.

Definition newline : string := bstr 10.

Definition writeCommand (w : W) (command : string) : W :=
  let command := TrimSpace command in
  let w := if bool_decide (command = "") then EmptyLine w
           else match SplitN2 command newline with
                | [l0; _] => Notice ("$ " +:+ l0 +:+ " # collapsed multi-line command") w
                | l => Notice ("$ " +:+ hd "" l) w
                end in
  CheckForErrors (Line command w).

Definition writeCommands (commands : list string) (w : W) : W := foldl writeCommand w commands.

Definition writeGetSourcesScript (info : ShellScriptInfo) (w : W) : outcome W :=
  let build := SSI_Build info in
  let w := writeExports info w in
  let w := if negb (IsSharedEnv build) then writeGitSSLConfig build ["--global"] w else w in
  let w := if bool_decide (SSI_PreCloneScript info ≠ "") && bool_decide (GetGitStrategy app build ≠ GitNone)
           then writeCommands [SSI_PreCloneScript info] w else w in
  writeCloneFetchCmds info w >>> writeSubmoduleUpdateCmds info.

Definition writeRestoreCacheScript (info : ShellScriptInfo) (w : W) : outcome W :=
  cacheExtractor info (writeCdBuildDir info (writeExports info w)).

Definition writeDownloadArtifactsScript (info : ShellScriptInfo) (w : W) : outcome W :=
  Done (downloadAllArtifacts info (writeCdBuildDir info (writeExports info w))).

Definition find_step (info : ShellScriptInfo) (name : string) : option Step :=
  snd <$> list_find (λ s, Step_Name s = name) (JR_Steps (Job (SSI_Build info))).

Definition writeUserScript (info : ShellScriptInfo) (w : W) : outcome W :=
  match find_step info StepNameScript with
  | None => Done w
  | Some step =>
      let w := writeCdBuildDir info (writeExports info w) in
      let w := if bool_decide (SSI_PreBuildScript info = "") then w else writeCommands [SSI_PreBuildScript info] w in
      let w := writeCommands (Step_Script step) w in
      let w := if bool_decide (SSI_PostBuildScript info = "") then w else writeCommands [SSI_PostBuildScript info] w in
      Done w
  end.

(** One turn of the loop of [cacheArchiver]. *)
Definition archiveCache (info : ShellScriptInfo) (c : Cache) (w : W) : outcome W :=
  let '(cacheKey, file) := cacheFile (SSI_Build info) (Cache_Key c) in
  if bool_decide (cacheKey = "") then Done (Notice "Skipping cache archiving due to empty cache key" w)
  else match CheckPolicy c CachePolicyPush with
       | Err e => Failed_ (e +:+ " for " +:+ cacheKey) w
       | Ok false => Done (Notice ("Not uploading cache " +:+ cacheKey +:+ " due to policy") w)
       | Ok true =>
           match archiverArgs (Cache_Paths c) (Cache_Untracked c) with
           | [] => Done w
           | files =>
               let args := ["cache-archiver"; "--file"; file; "--timeout";
                            Itoa (GetCacheRequestTimeout app (SSI_Build info))] ++ files ++
                           urlArgs (GetCacheUploadURL cacheFactories (SSI_Build info) cacheKey) in
               Done (guardRunnerCommand (RunnerCommand info) "Creating cache" (λ w,
                 let w := Notice ("Creating cache " +:+ cacheKey +:+ "...") w in
                 let w := IfCmdWithOutput (RunnerCommand info) args w in
                 let w := Notice "Created cache" w in
                 let w := Else w in
                 let w := Warning "Failed to create cache" w in
                 EndIf w) w)
           end
       end.

Definition cacheArchiver (info : ShellScriptInfo) (w : W) : outcome W :=
  each (archiveCache info) (JR_Cache (Job (SSI_Build info))) w.

Definition opt_arg (name value : string) : list string :=
  if bool_decide (value = "") then [] else [name; value].

Definition writeUploadArtifact (info : ShellScriptInfo) (w : W) (a : Artifact) : W :=
  match archiverArgs (Art_Paths a) (Art_Untracked a) with
  | [] => w
  | files =>
      let args := ["artifacts-uploader"; "--url"; RC_URL (Credentials_ (Runner (SSI_Build info))); "--token";
                   JR_Token (Job (SSI_Build info)); "--id"; Itoa (JR_ID (Job (SSI_Build info)))] ++ files ++
                  opt_arg "--name" (Art_Name a) ++ opt_arg "--expire-in" (Art_ExpireIn a) ++
                  opt_arg "--artifact-format" (Art_Format a) ++ opt_arg "--artifact-type" (Art_Type a) in
      guardRunnerCommand (RunnerCommand info) "Uploading artifacts" (λ w,
        Command (RunnerCommand info) args (Notice "Uploading artifacts..." w)) w
  end.

(** The artifacts a stage uploads. *)
Definition selected (onSuccess : bool) (a : Artifact) : bool :=
  if onSuccess then OnSuccess (Art_When a) else OnFailure (Art_When a).

Definition writeUploadArtifacts (info : ShellScriptInfo) (onSuccess : bool) (w : W) : W :=
  if bool_decide (RC_URL (Credentials_ (Runner (SSI_Build info))) = "") then w
  else foldl (λ w a, if selected onSuccess a then writeUploadArtifact info w a else w)
         (writeCdBuildDir info (writeExports info w)) (JR_Artifacts (Job (SSI_Build info))).

Definition writeAfterScript (info : ShellScriptInfo) (w : W) : outcome W :=
  match find_step info StepNameAfterScript with
  | None => Done w
  | Some step =>
      match Step_Script step with
      | [] => Done w
      | script => Done (writeCommands script (Notice "Running after script..."
                          (writeCdBuildDir info (writeExports info w))))
      end
  end.

Definition writeArchiveCacheScript (info : ShellScriptInfo) (w : W) : outcome W :=
  cacheArchiver info (writeCdBuildDir info (writeExports info w)).

(** The dispatch of [writeScript]. *)
Definition writeScript (stage : BuildStage) (info : ShellScriptInfo) (w : W) : outcome W :=
  match stage with
  | BuildStagePrepare => writePrepareScript info w
  | BuildStageGetSources => writeGetSourcesScript info w
  | BuildStageRestoreCache => writeRestoreCacheScript info w
  | BuildStageDownloadArtifacts => writeDownloadArtifactsScript info w
  | BuildStageUserScript => writeUserScript info w
  | BuildStageAfterScript => writeAfterScript info w
  | BuildStageArchiveCache => writeArchiveCacheScript info w
  | BuildStageUploadOnSuccessArtifacts => Done (writeUploadArtifacts info true w)
  | BuildStageUploadOnFailureArtifacts => Done (writeUploadArtifacts info false w)
  | BuildStagePrepareExecutor => Failed_ ("Not supported script type: " +:+ stage_name stage) w
  end.

End AbstractShell.

(** ** Laws of a writer *)

(** The depth of open blocks; [None] once a block was closed that was never opened,
    where the writers panic on a negative indentation. *)
Definition opened (d : option nat) : option nat := S <$> d.
Definition closed (d : option nat) : option nat :=
  d ≫= λ n, match n with 0 => None | S k => Some k end.
Definition halfway (d : option nat) : option nat := opened (closed d).

Lemma closed_opened d : closed (opened d) = d.
Proof. by destruct d. Qed.

Lemma halfway_opened d : halfway (opened d) = opened d.
Proof. by destruct d. Qed.

Class ShellWriterLaws (W : Type) {SW : ShellWriter W} := {
  depth : W → option nat;
  depth_Variable v w : depth (WVariable v w) = depth w;
  depth_Command c args w : depth (Command c args w) = depth w;
  depth_Line t w : depth (Line t w) = depth w;
  depth_Check w : depth (CheckForErrors w) = depth w;
  depth_IfDirectory p w : depth (IfDirectory p w) = opened (depth w);
  depth_IfFile p w : depth (IfFile p w) = opened (depth w);
  depth_IfCmd c args w : depth (IfCmd c args w) = opened (depth w);
  depth_IfCmdWithOutput c args w : depth (IfCmdWithOutput c args w) = opened (depth w);
  depth_Else w : depth (Else w) = halfway (depth w);
  depth_EndIf w : depth (EndIf w) = closed (depth w);
  depth_Cd p w : depth (Cd p w) = depth w;
  depth_MkDir p w : depth (MkDir p w) = depth w;
  depth_RmDir p w : depth (RmDir p w) = depth w;
  depth_RmFile p w : depth (RmFile p w) = depth w;
  depth_Absolute p w : depth (Absolute p w).2 = depth w;
  depth_TmpFile p w : depth (TmpFile p w).2 = depth w;
  depth_MkTmpDir p w : depth (MkTmpDir p w).2 = depth w;
  depth_Print t w : depth (Print_ t w) = depth w;
  depth_Notice t w : depth (Notice t w) = depth w;
  depth_Warning t w : depth (Warning t w) = depth w;
  depth_Error t w : depth (Error_ t w) = depth w;
  depth_EmptyLine w : depth (EmptyLine w) = depth w }.

Create Rewrite HintDb depth.
#[export] Hint Rewrite @closed_opened @halfway_opened @depth_Variable @depth_Command @depth_Line @depth_Check @depth_IfDirectory
  @depth_IfFile @depth_IfCmd @depth_IfCmdWithOutput @depth_Else @depth_EndIf @depth_Cd @depth_MkDir
  @depth_RmDir @depth_RmFile @depth_Absolute @depth_TmpFile @depth_MkTmpDir @depth_Print
  @depth_Notice @depth_Warning @depth_Error @depth_EmptyLine : depth.

Section Balance.
Context {GT : GoText} {SE : ShellEnv} (app : AppVersionInfo).
Context {W : Type} {SW : ShellWriter W} {LW : ShellWriterLaws W}.
Implicit Types (w : W) (info : ShellScriptInfo).

Ltac depth := repeat (autorewrite with depth; try split_match); try done; try lia.

(** The script, if there is one, ends at the depth it started from. *)
Definition level (o : outcome W) (w : W) : Prop :=
  match o with Done w' | Failed_ _ w' => depth w' = depth w | Panic => True end.

Lemma level_bind o f w : level o w → (∀ w', depth w' = depth w → level (f w') w') → level (o >>> f) w.
Proof.
  intros Ho Hf. destruct o as [w'|e w'|]; simpl in *; [|done|done].
  specialize (Hf w' Ho). destruct (f w'); simpl in *; congruence.
Qed.

Lemma level_each {A} (f : A → W → outcome W) l w : (∀ a w, level (f a w) w) → level (each f l w) w.
Proof.
  intros Hf. revert w. induction l as [|a l IH]; intros w; simpl; [done|].
  apply level_bind; [apply Hf|]. intros w' _. apply IH.
Qed.

Lemma depth_foldl {A} (f : W → A → W) l w : (∀ w a, depth (f w a) = depth w) → depth (foldl f w l) = depth w.
Proof. intros Hf. revert w. induction l as [|a l IH]; intros w; simpl; [done|]. by rewrite IH, Hf. Qed.

Lemma depth_writeExports info w : depth (writeExports app info w) = depth w.
Proof. apply depth_foldl. intros. depth. Qed.

Lemma depth_writeGitSSLConfig b l w : depth (writeGitSSLConfig b l w) = depth w.
Proof.
  unfold writeGitSSLConfig. destruct (serverHost _); [|depth].
  apply depth_foldl. intros w' [v c]. depth.
Qed.

Lemma depth_writeGitCleanup w : depth (writeGitCleanup w) = depth w.
Proof. unfold writeGitCleanup. depth. Qed.

Lemma depth_writeCommand c w : depth (writeCommand w c) = depth w.
Proof. unfold writeCommand. depth. Qed.

Lemma depth_writeCommands l w : depth (writeCommands l w) = depth w.
Proof. apply depth_foldl. intros w' c. apply depth_writeCommand. Qed.

Lemma depth_writeCdBuildDir info w : depth (writeCdBuildDir info w) = depth w.
Proof. unfold writeCdBuildDir. depth. Qed.

Lemma depth_guard c a f w : (∀ w, depth (f w) = depth w) → depth (guardRunnerCommand c a f w) = depth w.
Proof. intros Hf. unfold guardRunnerCommand. case_bool_decide; autorewrite with depth; rewrite ?Hf; depth. Qed.

Hint Rewrite depth_writeExports depth_writeGitSSLConfig depth_writeGitCleanup depth_writeCommand depth_writeCommands
  depth_writeCdBuildDir : depth.

Lemma level_fetch b dir w : level (writeRefspecFetchCmd app b dir w) w.
Proof.
  unfold writeRefspecFetchCmd. pose proof (depth_MkTmpDir "git-template" w) as Hm.
  destruct (MkTmpDir "git-template" w) as [d w1]. simpl in Hm.
  destruct (GetRemoteURL app b); simpl; [|done]. rewrite <- Hm. depth.
Qed.

Lemma level_checkout b w : level (writeCheckoutCmd app b w) w.
Proof. unfold writeCheckoutCmd. case_bool_decide; [done|]. destruct (GetGitCleanFlags app b); simpl; depth. Qed.

Lemma depth_submodules b r w : depth (writeSubmoduleUpdateCmd app b r w) = depth w.
Proof. unfold writeSubmoduleUpdateCmd. destruct (negb _); depth. Qed.

Lemma level_sources info w : level (writeGetSourcesScript app info w) w.
Proof.
  unfold writeGetSourcesScript. set (w1 := if bool_decide _ && _ then _ else _).
  assert (H1 : depth w1 = depth w) by (subst w1; depth).
  enough (level (writeCloneFetchCmds app info w1 >>> writeSubmoduleUpdateCmds app info) w1) as He.
  { destruct (_ >>> _); simpl in *; congruence. }
  apply level_bind.
  - unfold writeCloneFetchCmds. set (w2 := if negb _ then _ else _).
    assert (H2 : depth w2 = depth w1) by (subst w2; depth).
    enough (level (handleGetSourcesStrategy app (SSI_Build info) w2 >>> λ w, 
      if GetGitCheckout app (SSI_Build info) then
        writeCheckoutCmd app (SSI_Build info) w >>> λ w,
        if negb (IsLFSSmudgeDisabled app (SSI_Build info))
        then Done (EndIf (EmptyLine (Command "git" ["lfs"; "pull"] (IfCmd "git-lfs" ["version"] w))))
        else Done w
      else Done (Notice "Skipping Git checkout" w)) w2) as He.
    { cbv zeta. destruct (_ >>> _); simpl in *; congruence. }
    apply level_bind.
    + unfold handleGetSourcesStrategy. destruct (GetGitStrategy app _).
      * pose proof (level_fetch (SSI_Build info) (FullProjectDir (SSI_Build info))
                      (RmDir (FullProjectDir (SSI_Build info)) w2)) as Hf.
        destruct (writeRefspecFetchCmd _ _ _ _); simpl in *; autorewrite with depth in Hf; done.
      * apply level_fetch.
      * simpl. depth.
    + intros w3 _. destruct (GetGitCheckout _ _); [|simpl; depth].
      apply level_bind; [apply level_checkout|]. intros w4 _.
      destruct (negb (IsLFSSmudgeDisabled app (SSI_Build info))); unfold level; autorewrite with depth; done.
  - intros w5 _. unfold writeSubmoduleUpdateCmds.
    destruct (GetSubmoduleStrategy _ _); simpl; rewrite ?depth_submodules; depth.
Qed.

Lemma level_extract info c w : level (extractCache app info c w) w.
Proof.
  unfold extractCache. destruct (archiverArgs _ _); [done|].
  destruct (cacheFile _ _ _) as [k f]. case_bool_decide; [simpl; depth|].
  destruct (CheckPolicy c _) as [[]|e]; simpl; [|depth|done].
  rewrite depth_guard; [done|]. intros w'. depth.
Qed.

Lemma level_archive info c w : level (archiveCache app info c w) w.
Proof.
  unfold archiveCache. destruct (cacheFile _ _ _) as [k f]. case_bool_decide; [simpl; depth|].
  destruct (CheckPolicy c _) as [[]|e]; simpl; [|depth|done].
  destruct (archiverArgs _ _); simpl; [done|]. rewrite depth_guard; [done|]. intros w'. depth.
Qed.

Lemma depth_downloads info w : depth (downloadAllArtifacts info w) = depth w.
Proof.
  unfold downloadAllArtifacts. destruct (jobArtifacts info); [done|].
  apply depth_guard. intros w'. apply depth_foldl. intros w2 dep. unfold downloadArtifacts. depth.
Qed.

Lemma depth_upload info ok w : depth (writeUploadArtifacts app info ok w) = depth w.
Proof.
  unfold writeUploadArtifacts. case_bool_decide; [done|]. rewrite depth_foldl; [depth|].
  intros w' a. destruct (selected ok a); [|done]. unfold writeUploadArtifact.
  destruct (archiverArgs _ _); [done|]. apply depth_guard. intros w2. depth.
Qed.

Lemma level_shift o w w' : depth w' = depth w → level o w' → level o w.
Proof. destruct o; simpl; congruence. Qed.

Lemma writeScript_level stage info w : level (writeScript app stage info w) w.
Proof.
  assert (Hs : depth (writeCdBuildDir info (writeExports app info w)) = depth w) by depth.
  destruct stage; simpl; try done.
  - apply level_sources.
  - eapply level_shift; [apply Hs|]. apply level_each, level_extract.
  - by rewrite depth_downloads.
  - unfold writeUserScript. destruct (find_step _ _); simpl; [|done]. depth.
  - unfold writeAfterScript. destruct (find_step _ _) as [st|]; simpl; [|done].
    destruct (Step_Script st); simpl; [done|]. depth.
  - eapply level_shift; [apply Hs|]. apply level_each, level_archive.
  - by rewrite depth_upload.
  - by rewrite depth_upload.
Qed.

(** C19: Generated scripts are balanced: for every writer that keeps the laws of the
    interface, every stage closes exactly the conditional blocks it opens, never closes
    one it did not open, on every path, errors included. *)
Theorem scripts_are_balanced stage info w :
  match writeScript app stage info w with
  | Done w' | Failed_ _ w' => depth w' = depth w
  | Panic => True
  end.
Proof. apply writeScript_level. Qed.

End Balance.

(** ** When script generation panics *)

Section Panics.
Context {GT : GoText} {SE : ShellEnv} (app : AppVersionInfo).
Context {W : Type} {SW : ShellWriter W}.
Implicit Types (w : W) (info : ShellScriptInfo).

Lemma each_no_panic {A} (f : A → W → outcome W) l w : (∀ a w, f a w ≠ Panic) → each f l w ≠ Panic.
Proof.
  intros Hf. revert w. induction l as [|a l IH]; intros w; simpl; [done|].
  specialize (Hf a w). destruct (f a w); [apply IH|done|done].
Qed.

Lemma extract_no_panic info c w : extractCache app info c w ≠ Panic.
Proof.
  unfold extractCache. destruct (archiverArgs _ _); [done|]. destruct (cacheFile _ _ _).
  case_bool_decide; [done|]. by destruct (CheckPolicy c _) as [[]|].
Qed.

Lemma archive_no_panic info c w : archiveCache app info c w ≠ Panic.
Proof.
  unfold archiveCache. destruct (cacheFile _ _ _).
  case_bool_decide; [done|]. destruct (CheckPolicy c _) as [[]|]; [|done|done].
  by destruct (archiverArgs _ _).
Qed.

Lemma fetch_panics b dir w : writeRefspecFetchCmd app b dir w = Panic ↔ GetRemoteURL app b = None.
Proof.
  unfold writeRefspecFetchCmd. destruct (MkTmpDir "git-template" w).
  by destruct (GetRemoteURL app b).
Qed.

Lemma checkout_panics b w : writeCheckoutCmd app b w = Panic ↔ slen (GI_Sha (JR_GitInfo (Job b))) < 8.
Proof.
  unfold writeCheckoutCmd. case_bool_decide; [by split|]. split; [|done].
  by destruct (GetGitCleanFlags app b).
Qed.

Lemma sources_panic b w :
  handleGetSourcesStrategy app b w = Panic ↔ GetGitStrategy app b ≠ GitNone ∧ GetRemoteURL app b = None.
Proof.
  unfold handleGetSourcesStrategy. destruct (GetGitStrategy app b); rewrite ?fetch_panics; naive_solver.
Qed.

Lemma handle_not_failed b w e w' : handleGetSourcesStrategy app b w ≠ Failed_ e w'.
Proof.
  unfold handleGetSourcesStrategy, writeRefspecFetchCmd.
  destruct (GetGitStrategy app b); [destruct (MkTmpDir _ (RmDir _ w))|destruct (MkTmpDir _ w)|done];
    destruct (GetRemoteURL app b); done.
Qed.

Lemma submodules_no_panic info w : writeSubmoduleUpdateCmds app info w ≠ Panic.
Proof. unfold writeSubmoduleUpdateCmds. by destruct (GetSubmoduleStrategy _ _). Qed.

Lemma checkout_strategy b : GetGitCheckout app b = true → GetGitStrategy app b ≠ GitNone.
Proof. unfold GetGitCheckout. by case_bool_decide. Qed.

(** The situations in which getting the sources panics. *)
Definition bad_sources (b : Build) : Prop :=
  GetGitStrategy app b ≠ GitNone ∧
  (GetRemoteURL app b = None ∨
   (GetGitCheckout app b = true ∧ slen (GI_Sha (JR_GitInfo (Job b))) < 8)).

Lemma clone_panics info w :
  writeCloneFetchCmds app info w = Panic ↔ bad_sources (SSI_Build info).
Proof.
  unfold writeCloneFetchCmds, bad_sources. set (b := SSI_Build info). cbv zeta. set (w3 := if negb _ then _ else _).
  pose proof (sources_panic b w3) as Hp. pose proof (handle_not_failed b w3) as Hnf.
  pose proof (checkout_strategy b) as Hco.
  destruct (handleGetSourcesStrategy app b w3) as [w4|e w4|]; simpl.
  - assert (Hurl : GetGitStrategy app b ≠ GitNone → GetRemoteURL app b ≠ None).
    { intros H1 H2. by specialize (proj2 Hp (conj H1 H2)). }
    pose proof (checkout_panics b w4) as Hc. destruct (GetGitCheckout app b); simpl.
    + specialize (Hco eq_refl). specialize (Hurl Hco). split.
      * intros H. split; [done|]. right. split; [done|]. apply Hc.
        destruct (writeCheckoutCmd app b w4); simpl in H; [by destruct (negb _)|done|done].
      * intros [_ [H|[_ H]]]; [done|]. apply Hc in H as ->. done.
    + split; [done|]. intros [H1 [H2|[H2 _]]]; [by apply Hurl in H1|done].
  - by destruct (Hnf e w4).
  - split; [|done]. intros _. destruct (proj1 Hp eq_refl). tauto.
Qed.

Lemma sources_script_panics info w :
  writeGetSourcesScript app info w = Panic ↔ bad_sources (SSI_Build info).
Proof.
  unfold writeGetSourcesScript. cbv zeta. set (w1 := if bool_decide _ && _ then _ else _).
  rewrite <- (clone_panics info w1).
  destruct (writeCloneFetchCmds app info w1) as [w2| |]; simpl; [|done|done].
  split; [|done]. intros H. by apply submodules_no_panic in H.
Qed.

(** Generating a script panics in exactly two situations, both while getting the
    sources: the configured clone URL has no scheme separator, or the commit id to
    check out is shorter than the eight bytes that are printed of it. *)
Lemma writeScript_panics stage info w :
  let b := SSI_Build info in
  writeScript app stage info w = Panic ↔
  stage = BuildStageGetSources ∧ GetGitStrategy app b ≠ GitNone ∧
  (GetRemoteURL app b = None ∨
   (GetGitCheckout app b = true ∧ slen (GI_Sha (JR_GitInfo (Job b))) < 8)).
Proof.
  intros b.
  assert (Hno : ∀ o : outcome W, stage ≠ BuildStageGetSources → o ≠ Panic →
    (o = Panic ↔ stage = BuildStageGetSources ∧ bad_sources b)).
  { intros o H1 H2. split; [done|by intros [? _]]. }
  destruct stage; simpl; try (by apply Hno).
  - pose proof (sources_script_panics info w) as H. fold b in H. unfold bad_sources in H. rewrite H.
    split; [done|by intros [_ ?]].
  - apply Hno; [done|]. apply each_no_panic, extract_no_panic.
  - apply Hno; [done|]. unfold writeUserScript. by destruct (find_step _ _).
  - apply Hno; [done|]. unfold writeAfterScript. destruct (find_step _ _) as [st|]; [|done].
    by destruct (Step_Script st).
  - apply Hno; [done|]. apply each_no_panic, archive_no_panic.
Qed.

End Panics.
