(* ===== verification/Shells.v ===== *)
(** The shells (shells/bash.go, shells/cmd.go, shells/powershell.go, common/shell.go): the
    three implementations of [ShellWriter], the scripts and configurations they give, and
    the registry of shells. Theorems: the writers keep the laws of the interface, so
    script generation panics only where [AbstractShell] does; bash evaluates exactly the
    text that was written; what PowerShell reads back from a quoted text. *)

From S2P Require Import Prelude GoLib Path Types Variables Config TraceBuffer Build BuildProofs.
From S2P Require Import CacheKeys ShellEscape AbstractShell.

Import TraceBuffer.Buffer(ANSI_BOLD_RED, ANSI_RESET).

(** The platform the runner was built for: [runtime.GOOS] and package path/filepath. *)
Class Platform := {
  GOOS : string;
  fp_IsAbs : string → bool;
  fp_Join : list string → string }.

Definition ANSI_BOLD_GREEN : string := bstr 27 +:+ "[32;1m".
Definition ANSI_YELLOW : string := bstr 27 +:+ "[0;33m".

Definition dq : string := bstr 34.
Definition lf : string := bstr 10.
Definition crlf : string := bstr 13 +:+ bstr 10.

(** The state all three writers share: the embedded [bytes.Buffer], the temporary path
    and the indentation. [panicked] is set where [strings.Repeat] gets a negative count
    and panics. *)
Record Writer := mkWriter {
  text : string; TemporaryPath : string; indent : Z; panicked : bool }.

Definition new_writer (tmp : string) : Writer := mkWriter "" tmp 0 false.

Definition write_line (eol t : string) (w : Writer) : Writer :=
  if (indent w <? 0)%Z then mkWriter (text w) (TemporaryPath w) (indent w) true
  else mkWriter (text w +:+ Repeat "  " (Z.to_nat (indent w)) +:+ t +:+ eol) (TemporaryPath w)
         (indent w) (panicked w).

Definition Indent (w : Writer) : Writer :=
  mkWriter (text w) (TemporaryPath w) (indent w + 1) (panicked w).

Definition Unindent (w : Writer) : Writer :=
  mkWriter (text w) (TemporaryPath w) (indent w - 1) (panicked w).

Section Shells.
Context {GT : GoText} {PF : Platform}.

(** ** BashWriter *)

Definition bash_Line (t : string) (w : Writer) : Writer := write_line lf t w.

Definition bash_buildCommand (command : string) (arguments : list string) : string :=
  Join (ShellEscape command :: (Quote <$> arguments)) " ".

Definition bash_Command (command : string) (arguments : list string) (w : Writer) : Writer :=
  bash_Line (bash_buildCommand command arguments) w.

Definition bash_Absolute (dir : string) : string :=
  if IsAbs dir then dir else pathJoin ["$PWD"; dir].

Definition bash_TmpFile (name : string) (w : Writer) : string :=
  bash_Absolute (pathJoin [TemporaryPath w; name]).

Definition bash_Variable (variable : JobVariable) (w : Writer) : Writer :=
  if File variable then
    let variableFile := bash_TmpFile (Key variable) w in
    let w := bash_Line ("mkdir -p " +:+ Quote (ToSlash (TemporaryPath w))) w in
    let w := bash_Line ("echo -n " +:+ ShellEscape (Value variable) +:+ " > " +:+ Quote variableFile) w in
    bash_Line ("export " +:+ ShellEscape (Key variable) +:+ "=" +:+ Quote variableFile) w
  else bash_Line ("export " +:+ ShellEscape (Key variable) +:+ "=" +:+ ShellEscape (Value variable)) w.

Definition bash_IfDirectory (path : string) (w : Writer) : Writer :=
  Indent (bash_Line ("if [[ -d " +:+ Quote path +:+ " ]]; then") w).

Definition bash_IfFile (path : string) (w : Writer) : Writer :=
  Indent (bash_Line ("if [[ -e " +:+ Quote path +:+ " ]]; then") w).

Definition bash_IfCmd (cmd : string) (arguments : list string) (w : Writer) : Writer :=
  Indent (bash_Line ("if " +:+ bash_buildCommand cmd arguments +:+ " >/dev/null 2>/dev/null; then") w).

Definition bash_IfCmdWithOutput (cmd : string) (arguments : list string) (w : Writer) : Writer :=
  Indent (bash_Line ("if " +:+ bash_buildCommand cmd arguments +:+ "; then") w).

Definition bash_Else (w : Writer) : Writer := Indent (bash_Line "else" (Unindent w)).
Definition bash_EndIf (w : Writer) : Writer := bash_Line "fi" (Unindent w).

Definition bash_Cd (path : string) (w : Writer) : Writer := bash_Command "cd" [path] w.
Definition bash_MkDir (path : string) (w : Writer) : Writer := bash_Command "mkdir" ["-p"; path] w.
Definition bash_MkTmpDir (name : string) (w : Writer) : string * Writer :=
  let path := pathJoin [TemporaryPath w; name] in (path, bash_MkDir path w).
Definition bash_RmDir (path : string) (w : Writer) : Writer := bash_Command "rm" ["-r"; "-f"; path] w.
Definition bash_RmFile (path : string) (w : Writer) : Writer := bash_Command "rm" ["-f"; path] w.

Definition bash_Print (t : string) (w : Writer) : Writer :=
  bash_Line ("echo " +:+ ShellEscape (ANSI_RESET +:+ t)) w.
Definition bash_Notice (t : string) (w : Writer) : Writer :=
  bash_Line ("echo " +:+ ShellEscape (ANSI_BOLD_GREEN +:+ t +:+ ANSI_RESET)) w.
Definition bash_Warning (t : string) (w : Writer) : Writer :=
  bash_Line ("echo " +:+ ShellEscape (ANSI_YELLOW +:+ t +:+ ANSI_RESET)) w.
Definition bash_Error (t : string) (w : Writer) : Writer :=
  bash_Line ("echo " +:+ ShellEscape (ANSI_BOLD_RED +:+ t +:+ ANSI_RESET)) w.

Definition bash_Finish (trace : bool) (w : Writer) : string :=
  (if trace then "set -o xtrace" +:+ lf else "") +:+
  "set -eo pipefail" +:+ lf +:+ "set +o noclobber" +:+ lf +:+
  ": | eval " +:+ ShellEscape (text w) +:+ lf +:+ "exit 0" +:+ lf.

#[local] Instance BashWriter : ShellWriter Writer := {
  EnvVariableKey name := "$" +:+ name;
  WVariable := bash_Variable;
  Command := bash_Command;
  Line := bash_Line;
  CheckForErrors w := w;
  IfDirectory := bash_IfDirectory;
  IfFile := bash_IfFile;
  IfCmd := bash_IfCmd;
  IfCmdWithOutput := bash_IfCmdWithOutput;
  Else := bash_Else;
  EndIf := bash_EndIf;
  Cd := bash_Cd;
  MkDir := bash_MkDir;
  RmDir := bash_RmDir;
  RmFile := bash_RmFile;
  Absolute dir w := (bash_Absolute dir, w);
  TmpFile name w := (bash_TmpFile name w, w);
  MkTmpDir := bash_MkTmpDir;
  Print_ := bash_Print;
  Notice := bash_Notice;
  Warning := bash_Warning;
  Error_ := bash_Error;
  EmptyLine := bash_Line "echo";
  Finish := bash_Finish }.

(** ** CmdWriter *)

Definition batchEscapeInsideQuotedString (t : string) : string :=
  let t := Replace t "^" "^^" in
  let t := Replace t "!" "^^!" in
  let t := Replace t "&" "^&" in
  let t := Replace t "<" "^<" in
  let t := Replace t ">" "^>" in
  let t := Replace t "|" "^|" in
  let t := Replace t (bstr 13) "" in
  Replace t (bstr 10) "!nl!".

Definition batchQuote (t : string) : string := dq +:+ batchEscapeInsideQuotedString t +:+ dq.

Definition batchEscape (t : string) : string :=
  let t := batchEscapeInsideQuotedString t in
  let t := Replace t "(" "^(" in
  Replace t ")" "^)".

Definition batchEscapeVariable (t : string) : string := batchEscape (Replace t "%" "%%").

Definition cmd_Line (t : string) (w : Writer) : Writer := write_line crlf t w.

Section CmdWriter.
Context (disableDelayedErrorLevelExpansion : bool).

Definition updateErrLevelCheck (errCheck : string) : string :=
  if disableDelayedErrorLevelExpansion then Replace errCheck "!" "%" else errCheck.

Definition cmd_checkErrorLevel (w : Writer) : Writer :=
  cmd_Line "" (cmd_Line (updateErrLevelCheck "IF !errorlevel! NEQ 0 exit /b !errorlevel!") w).

Definition cmd_buildCommand (command : string) (arguments : list string) : string :=
  Join (batchQuote command :: (batchQuote <$> arguments)) " ".

Definition cmd_Command (command : string) (arguments : list string) (w : Writer) : Writer :=
  cmd_checkErrorLevel (cmd_Line (cmd_buildCommand command arguments) w).

Definition cmd_Absolute (dir : string) : string :=
  if fp_IsAbs dir then dir else fp_Join ["%CD%"; dir].

Definition cmd_TmpFile (name : string) (w : Writer) : string :=
  ToBackslash (cmd_Absolute (pathJoin [TemporaryPath w; name])).

Definition cmd_Variable (variable : JobVariable) (w : Writer) : Writer :=
  if File variable then
    let variableFile := cmd_TmpFile (Key variable) w in
    let w := cmd_Line ("md " +:+ Quote (batchEscape (ToBackslash (TemporaryPath w))) +:+ " 2>NUL 1>NUL") w in
    let w := cmd_Line ("echo " +:+ batchEscapeVariable (Value variable) +:+ " > " +:+ batchEscape variableFile) w in
    cmd_Line ("SET " +:+ batchEscapeVariable (Key variable) +:+ "=" +:+ batchEscape variableFile) w
  else cmd_Line ("SET " +:+ batchEscapeVariable (Key variable) +:+ "=" +:+ batchEscapeVariable (Value variable)) w.

Definition cmd_IfDirectory (path : string) (w : Writer) : Writer :=
  Indent (cmd_Line ("IF EXIST " +:+ batchQuote (ToBackslash path) +:+ " (") w).

Definition cmd_IfFile (path : string) (w : Writer) : Writer :=
  Indent (cmd_Line ("IF EXIST " +:+ batchQuote (ToBackslash path) +:+ " (") w).

Definition cmd_IfCmd (cmd : string) (arguments : list string) (w : Writer) : Writer :=
  let w := cmd_Line (cmd_buildCommand cmd arguments +:+ " 2>NUL 1>NUL") w in
  Indent (cmd_Line (updateErrLevelCheck "IF !errorlevel! EQU 0 (") w).

Definition cmd_IfCmdWithOutput (cmd : string) (arguments : list string) (w : Writer) : Writer :=
  let w := cmd_Line (cmd_buildCommand cmd arguments) w in
  Indent (cmd_Line (updateErrLevelCheck "IF !errorlevel! EQU 0 (") w).

Definition cmd_Else (w : Writer) : Writer := Indent (cmd_Line ") ELSE (" (Unindent w)).
Definition cmd_EndIf (w : Writer) : Writer := cmd_Line ")" (Unindent w).

Definition cmd_Cd (path : string) (w : Writer) : Writer :=
  cmd_checkErrorLevel (cmd_Line ("cd /D " +:+ batchQuote (ToBackslash path)) w).

Definition cmd_MkDir (path : string) (w : Writer) : Writer :=
  let args := batchQuote (ToBackslash path) +:+ " 2>NUL 1>NUL" in
  cmd_Line ("dir " +:+ args +:+ " || md " +:+ args) w.

Definition cmd_MkTmpDir (name : string) (w : Writer) : string * Writer :=
  let path := ToBackslash (pathJoin [TemporaryPath w; name]) in (path, cmd_MkDir path w).

Definition cmd_RmDir (path : string) (w : Writer) : Writer :=
  cmd_Line ("rd /s /q " +:+ batchQuote (ToBackslash path) +:+ " 2>NUL 1>NUL") w.

Definition cmd_RmFile (path : string) (w : Writer) : Writer :=
  cmd_Line ("del /f /q " +:+ batchQuote (ToBackslash path) +:+ " 2>NUL 1>NUL") w.

Definition cmd_echo (color t : string) (w : Writer) : Writer :=
  cmd_Line ("echo " +:+ batchEscapeVariable (color +:+ t +:+ ANSI_RESET)) w.

Definition cmd_Finish (trace : bool) (w : Writer) : string :=
  (if trace then "@echo on" else "@echo off") +:+ crlf +:+
  "setlocal enableextensions" +:+ crlf +:+ "setlocal enableDelayedExpansion" +:+ crlf +:+
  "set nl=^" +:+ crlf +:+ crlf +:+ crlf +:+ text w.

#[local] Instance CmdWriter : ShellWriter Writer := {
  EnvVariableKey name := "%" +:+ name +:+ "%";
  WVariable := cmd_Variable;
  Command := cmd_Command;
  Line := cmd_Line;
  CheckForErrors := cmd_checkErrorLevel;
  IfDirectory := cmd_IfDirectory;
  IfFile := cmd_IfFile;
  IfCmd := cmd_IfCmd;
  IfCmdWithOutput := cmd_IfCmdWithOutput;
  Else := cmd_Else;
  EndIf := cmd_EndIf;
  Cd := cmd_Cd;
  MkDir := cmd_MkDir;
  RmDir := cmd_RmDir;
  RmFile := cmd_RmFile;
  Absolute dir w := (cmd_Absolute dir, w);
  TmpFile name w := (cmd_TmpFile name w, w);
  MkTmpDir := cmd_MkTmpDir;
  Print_ := cmd_echo ANSI_RESET;
  Notice := cmd_echo ANSI_BOLD_GREEN;
  Warning := cmd_echo ANSI_YELLOW;
  Error_ := cmd_echo ANSI_BOLD_RED;
  EmptyLine := cmd_Line "echo.";
  Finish := cmd_Finish }.

End CmdWriter.

(** ** PsWriter *)

Definition psQuote (t : string) : string :=
  let t := Replace t "`" "``" in
  let t := Replace t (bstr 7) "`a" in
  let t := Replace t (bstr 8) "`b" in
  let t := Replace t (bstr 12) "^f" in
  let t := Replace t (bstr 13) "`r" in
  let t := Replace t (bstr 10) "`n" in
  let t := Replace t (bstr 9) "^t" in
  let t := Replace t (bstr 11) "^v" in
  let t := Replace t "#" "`#" in
  let t := Replace t "'" "`'" in
  let t := Replace t dq ("`" +:+ dq) in
  dq +:+ t +:+ dq.

Definition psQuoteVariable (t : string) : string := Replace (psQuote t) "$" "`$".

Definition ps_Line (t : string) (w : Writer) : Writer := write_line crlf t w.

Definition ps_checkErrorLevel (w : Writer) : Writer :=
  ps_Line "" (ps_Line "if(!$?) { Exit $LASTEXITCODE }" w).

Definition ps_buildCommand (command : string) (arguments : list string) : string :=
  "& " +:+ Join (psQuote command :: (psQuote <$> arguments)) " ".

Definition ps_Command (command : string) (arguments : list string) (w : Writer) : Writer :=
  ps_checkErrorLevel (ps_Line (ps_buildCommand command arguments) w).

(** A relative path also writes a line that looks up the current directory. *)
Definition ps_Absolute (dir : string) (w : Writer) : string * Writer :=
  if fp_IsAbs dir then (dir, w)
  else (fp_Join ["$CurrentDirectory"; dir],
        ps_Line ("$CurrentDirectory = (Resolve-Path ." +:+ bstr 92 +:+ ").Path") w).

Definition ps_TmpFile (name : string) (w : Writer) : string * Writer :=
  let '(filePath, w) := ps_Absolute (pathJoin [TemporaryPath w; name]) w in
  (ToBackslash filePath, w).

Definition ps_Variable (variable : JobVariable) (w : Writer) : Writer :=
  let w :=
    if File variable then
      let '(variableFile, w) := ps_TmpFile (Key variable) w in
      let w := ps_Line ("md " +:+ psQuote (ToBackslash (TemporaryPath w)) +:+ " -Force | out-null") w in
      let w := ps_Line ("Set-Content " +:+ psQuote variableFile +:+ " -Value " +:+
                        psQuoteVariable (Value variable) +:+ " -Encoding UTF8 -Force") w in
      ps_Line ("$" +:+ Key variable +:+ "=" +:+ psQuote variableFile) w
    else ps_Line ("$" +:+ Key variable +:+ "=" +:+ psQuoteVariable (Value variable)) w in
  ps_Line ("$env:" +:+ Key variable +:+ "=$" +:+ Key variable) w.

Definition ps_IfDirectory (path : string) (w : Writer) : Writer :=
  Indent (ps_Line ("if(Test-Path " +:+ psQuote (ToBackslash path) +:+ " -PathType Container) {") w).

Definition ps_IfFile (path : string) (w : Writer) : Writer :=
  Indent (ps_Line ("if(Test-Path " +:+ psQuote (ToBackslash path) +:+ " -PathType Leaf) {") w).

Definition ps_ifInTryCatch (cmd : string) (w : Writer) : Writer :=
  let w := ps_Line "Set-Variable -Name cmdErr -Value $false" w in
  let w := Indent (ps_Line "Try {" w) in
  let w := ps_Line cmd w in
  let w := Unindent (ps_Line "if(!$?) { throw $LASTEXITCODE }" w) in
  let w := Indent (ps_Line "} Catch {" w) in
  let w := Unindent (ps_Line "Set-Variable -Name cmdErr -Value $true" w) in
  let w := ps_Line "}" w in
  Indent (ps_Line "if(!$cmdErr) {" w).

Definition ps_IfCmd (cmd : string) (arguments : list string) (w : Writer) : Writer :=
  ps_ifInTryCatch (ps_buildCommand cmd arguments +:+ " 2>$null") w.

Definition ps_IfCmdWithOutput (cmd : string) (arguments : list string) (w : Writer) : Writer :=
  ps_ifInTryCatch (ps_buildCommand cmd arguments) w.

Definition ps_Else (w : Writer) : Writer := Indent (ps_Line "} else {" (Unindent w)).
Definition ps_EndIf (w : Writer) : Writer := ps_Line "}" (Unindent w).

Definition ps_Cd (path : string) (w : Writer) : Writer :=
  ps_checkErrorLevel (ps_Line ("cd " +:+ psQuote (ToBackslash path)) w).

Definition ps_MkDir (path : string) (w : Writer) : Writer :=
  ps_Line ("md " +:+ psQuote (ToBackslash path) +:+ " -Force | out-null") w.

Definition ps_MkTmpDir (name : string) (w : Writer) : string * Writer :=
  let path := ToBackslash (pathJoin [TemporaryPath w; name]) in (path, ps_MkDir path w).

(** [RmDir] and [RmFile] differ in the path type and in [-Recurse]. *)
Definition ps_remove (pathType recurse path : string) (w : Writer) : Writer :=
  let path := psQuote (ToBackslash path) in
  let w := ps_Line ("if( (Get-Command -Name Remove-Item2 -Module NTFSSecurity -ErrorAction SilentlyContinue) -and (Test-Path "
                    +:+ path +:+ " -PathType " +:+ pathType +:+ ") ) {") w in
  let w := ps_Line ("Remove-Item2 -Force " +:+ recurse +:+ path) (Indent w) in
  let w := ps_Line ("} elseif(Test-Path " +:+ path +:+ ") {") (Unindent w) in
  let w := ps_Line ("Remove-Item -Force " +:+ recurse +:+ path) (Indent w) in
  let w := ps_Line "}" (Unindent w) in
  ps_Line "" w.

Definition ps_RmDir (path : string) (w : Writer) : Writer := ps_remove "Container" "-Recurse " path w.
Definition ps_RmFile (path : string) (w : Writer) : Writer := ps_remove "Leaf" "" path w.

Definition ps_Print (t : string) (w : Writer) : Writer :=
  ps_Line ("echo " +:+ psQuoteVariable (ANSI_RESET +:+ t)) w.
Definition ps_echo (color t : string) (w : Writer) : Writer :=
  ps_Line ("echo " +:+ psQuoteVariable (color +:+ t +:+ ANSI_RESET)) w.

(** The byte order mark comes first. *)
Definition ps_Finish (trace : bool) (w : Writer) : string :=
  bstr 239 +:+ bstr 187 +:+ bstr 191 +:+
  (if trace then "Set-PSDebug -Trace 2" +:+ crlf else "") +:+ text w.

#[local] Instance PsWriter : ShellWriter Writer := {
  EnvVariableKey name := "$" +:+ name;
  WVariable := ps_Variable;
  Command := ps_Command;
  Line := ps_Line;
  CheckForErrors := ps_checkErrorLevel;
  IfDirectory := ps_IfDirectory;
  IfFile := ps_IfFile;
  IfCmd := ps_IfCmd;
  IfCmdWithOutput := ps_IfCmdWithOutput;
  Else := ps_Else;
  EndIf := ps_EndIf;
  Cd := ps_Cd;
  MkDir := ps_MkDir;
  RmDir := ps_RmDir;
  RmFile := ps_RmFile;
  Absolute := ps_Absolute;
  TmpFile := ps_TmpFile;
  MkTmpDir := ps_MkTmpDir;
  Print_ := ps_Print;
  Notice := ps_echo ANSI_BOLD_GREEN;
  Warning := ps_echo ANSI_YELLOW;
  Error_ := ps_echo ANSI_BOLD_RED;
  EmptyLine := ps_Line ("echo " +:+ dq +:+ dq);
  Finish := ps_Finish }.

(** ** The shells *)

Record ShellConfiguration := mkConfiguration {
  Environment_ : list string; DockerCommand : list string; Command_ : string;
  Arguments_ : list string; PassFile : bool; Extension : string }.

Definition GetCommandWithArguments (s : ShellConfiguration) : list string := Command_ s :: Arguments_ s.

(** [GenerateScript] gives the script and the error, or panics ([None]). *)
Record Shell := mkShell {
  GetName : string; IsDefault : bool;
  GetConfiguration : ShellScriptInfo → ShellConfiguration;
  GenerateScript : BuildStage → ShellScriptInfo → option (string * option string) }.

(** What [GetFeatures] of [AbstractShell] sets. *)
Definition GetFeatures (f : FeaturesInfo) : FeaturesInfo :=
  {| F_Variables := F_Variables f; F_Image := F_Image f; F_Services := F_Services f;
     F_Artifacts := true; F_Cache := true; F_Shared := F_Shared f;
     F_UploadMultipleArtifacts := true; F_UploadRawArtifacts := true; F_Session := F_Session f;
     F_Terminal := F_Terminal f; F_Refspecs := true; F_Masking := true; F_Proxy := F_Proxy f |}.

(** What follows [writeScript] in every [GenerateScript]: the error is returned with
    whatever [f] makes of the writer. *)
Definition finish_script (o : outcome Writer) (f : Writer → string) : option (string * option string) :=
  match o with
  | Done w => if panicked w then None else Some (f w, None)
  | Failed_ e w => if panicked w then None else Some (f w, Some e)
  | Panic => None
  end.

Context {SE : ShellEnv} (app : AppVersionInfo).

Definition bashDetectShell : string :=
"if [ -x /usr/local/bin/bash ]; then
	exec /usr/local/bin/bash $@
elif [ -x /usr/bin/bash ]; then
	exec /usr/bin/bash $@
elif [ -x /bin/bash ]; then
	exec /bin/bash $@
elif [ -x /usr/local/bin/sh ]; then
	exec /usr/local/bin/sh $@
elif [ -x /usr/bin/sh ]; then
	exec /usr/bin/sh $@
elif [ -x /bin/sh ]; then
	exec /bin/sh $@
elif [ -x /busybox/sh ]; then
	exec /busybox/sh $@
else
	echo shell not found
	exit 1
fi

".

Definition isLogin (info : ShellScriptInfo) : bool :=
  match SSI_Type info with LoginShell => true | NormalShell => false end.

Definition bash_GetConfiguration (shell : string) (info : ShellScriptInfo) : ShellConfiguration :=
  let detectScript := Replace bashDetectShell "$@" (if isLogin info then "--login" else "") in
  let shellCommand := if isLogin info then shell +:+ " --login" else shell in
  if bool_decide (SSI_User info = "")
  then mkConfiguration [] ["sh"; "-c"; detectScript] shell (if isLogin info then ["--login"] else []) false ""
  else mkConfiguration [] ["sh"; "-c"; detectScript] "su"
         ((if bool_decide (GOOS = "linux") then ["-s"; "/bin/" +:+ shell] else [])
          ++ [SSI_User info; "-c"; shellCommand]) false "".

Definition hostname_part (info : ShellScriptInfo) (f : string → string) : string :=
  if bool_decide (SSI_Hostname info = "") then "" else " via " +:+ f (SSI_Hostname info).

(** The writer at the start of a script: the prepare stage tells the host first. *)
Definition bash_begin (stage : BuildStage) (info : ShellScriptInfo) : Writer :=
  let w := new_writer (TmpProjectDir (SSI_Build info)) in
  if bool_decide (stage = BuildStagePrepare)
  then bash_Line ("echo " +:+ Quote ("Running on $(hostname)" +:+ hostname_part info id +:+ "...")) w
  else w.

Definition bash_GenerateScript (stage : BuildStage) (info : ShellScriptInfo) : option (string * option string) :=
  finish_script (writeScript (SW := BashWriter) app stage info (bash_begin stage info))
    (bash_Finish (IsDebugTraceEnabled app (SSI_Build info))).

Definition BashShell (shell : string) : Shell :=
  mkShell shell (negb (bool_decide (GOOS = "windows")) && bool_decide (shell = "bash"))
    (bash_GetConfiguration shell) bash_GenerateScript.

Definition cmd_begin (stage : BuildStage) (info : ShellScriptInfo) : Writer :=
  let w := new_writer (TmpProjectDir (SSI_Build info)) in
  if bool_decide (stage = BuildStagePrepare)
  then cmd_Line ("echo Running on %COMPUTERNAME%" +:+ hostname_part info batchEscape +:+ "...") w
  else w.

Definition cmd_GenerateScript (stage : BuildStage) (info : ShellScriptInfo) : option (string * option string) :=
  let b := SSI_Build info in
  finish_script
    (writeScript (SW := CmdWriter (IsFeatureFlagOn app b CmdDisableDelayedErrorLevelExpansion))
       app stage info (cmd_begin stage info))
    (cmd_Finish (IsDebugTraceEnabled app b)).

Definition CmdShell : Shell :=
  mkShell "cmd" (bool_decide (GOOS = "windows"))
    (λ _, mkConfiguration [] [] "cmd" ["/C"] true "cmd") cmd_GenerateScript.

Definition dockerWindowsExecutor : string := "docker-windows".

Definition ps_GetConfiguration (info : ShellScriptInfo) : ShellConfiguration :=
  mkConfiguration []
    ["PowerShell"; "-NoProfile"; "-NoLogo"; "-InputFormat"; "text"; "-OutputFormat"; "text";
     "-NonInteractive"; "-ExecutionPolicy"; "Bypass"; "-Command"; "-"]
    "powershell" ["-noprofile"; "-noninteractive"; "-executionpolicy"; "Bypass"; "-command"]
    (negb (bool_decide (Executor (Runner (SSI_Build info)) = dockerWindowsExecutor))) "ps1".

Definition ps_begin (stage : BuildStage) (info : ShellScriptInfo) : Writer :=
  let w := new_writer (TmpProjectDir (SSI_Build info)) in
  if bool_decide (stage = BuildStagePrepare)
  then ps_Line ("echo " +:+ dq +:+ "Running on $env:computername" +:+ hostname_part info psQuoteVariable
                +:+ "..." +:+ dq) w
  else w.

(** An empty buffer gives the empty script, which the build does not execute. *)
Definition ps_GenerateScript (stage : BuildStage) (info : ShellScriptInfo) : option (string * option string) :=
  finish_script (writeScript (SW := PsWriter) app stage info (ps_begin stage info))
    (λ w, if bool_decide (text w = "") then "" else ps_Finish (IsDebugTraceEnabled app (SSI_Build info)) w).

Definition PowerShell : Shell := mkShell "powershell" false ps_GetConfiguration ps_GenerateScript.

(** ** The registry *)

(** [RegisterShell]; [None] is the panic on a second shell of the same name. *)
Definition RegisterShell (m : gmap string Shell) (shell : Shell) : option (gmap string Shell) :=
  match m !! GetName shell with
  | Some _ => None
  | None => Some (<[GetName shell := shell]> m)
  end.

(** The [init] functions of the package, in file order. *)
Definition all_shells : list Shell := [BashShell "sh"; BashShell "bash"; CmdShell; PowerShell].

Definition registered : option (gmap string Shell) :=
  foldl (λ m s, m ≫= λ m, RegisterShell m s) (Some ∅) all_shells.

Definition GetShell (m : gmap string Shell) (shell : string) : option Shell := m !! shell.

Definition GetShells (m : gmap string Shell) : list string := (map_to_list m).*1.

Definition GetShellConfiguration (m : gmap string Shell) (shell : string) (info : ShellScriptInfo)
    : result string ShellConfiguration :=
  match GetShell m shell with
  | None => Err ("shell " +:+ shell +:+ " not found")
  | Some s => Ok (GetConfiguration s info)
  end.

Definition GenerateShellScript (m : gmap string Shell) (shell : string) (stage : BuildStage)
    (info : ShellScriptInfo) : option (string * option string) :=
  match GetShell m shell with
  | None => Some ("", Some ("shell " +:+ shell +:+ " not found"))
  | Some s => GenerateScript s stage info
  end.

(** [GetDefaultShell] takes the first default shell in the order of the map; [None] is
    the panic when there is none. *)
Definition GetDefaultShell (m : gmap string Shell) : option string :=
  GetName ∘ snd <$> list_find (λ s, IsDefault s = true) ((map_to_list m).*2).

(** ** The writers keep the laws *)

Definition depth_of (w : Writer) : option nat :=
  if panicked w || (indent w <? 0)%Z then None else Some (Z.to_nat (indent w)).

Lemma depth_of_line e t w : depth_of (write_line e t w) = depth_of w.
Proof.
  unfold depth_of, write_line. destruct (indent w <? 0)%Z eqn:H; simpl; [by rewrite orb_true_r|].
  by rewrite H.
Qed.

Lemma depth_of_open e t w : depth_of (Indent (write_line e t w)) = opened (depth_of w).
Proof.
  unfold depth_of, write_line, opened. destruct (indent w <? 0)%Z eqn:H; simpl; [by rewrite orb_true_r|].
  rewrite orb_false_r. apply Z.ltb_ge in H. replace (indent w + 1 <? 0)%Z with false by lia.
  rewrite orb_false_r. destruct (panicked w); simpl; [done|]. f_equal. lia.
Qed.

Lemma depth_of_close w : depth_of (Unindent w) = closed (depth_of w).
Proof.
  unfold depth_of, closed. simpl. destruct (panicked w); simpl; [done|].
  destruct (indent w <? 0)%Z eqn:H; simpl.
  - by replace (indent w - 1 <? 0)%Z with true by lia.
  - destruct (indent w - 1 <? 0)%Z eqn:H'.
    + by replace (Z.to_nat (indent w)) with 0 by lia.
    + replace (Z.to_nat (indent w)) with (S (Z.to_nat (indent w - 1))) by lia. done.
Qed.

Lemma depth_not_panicked w n : depth_of w = Some n → panicked w = false.
Proof. unfold depth_of. by destruct (panicked w). Qed.

Create Rewrite HintDb writer.
Hint Rewrite depth_of_line depth_of_open depth_of_close closed_opened halfway_opened : writer.

Ltac writer := autorewrite with writer; done.

#[local] Instance BashLaws : ShellWriterLaws Writer (SW := BashWriter).
Proof.
  refine {| depth := depth_of |}; simpl;
    unfold bash_Variable, bash_Command, bash_IfDirectory, bash_IfFile, bash_IfCmd, bash_IfCmdWithOutput,
      bash_Else, bash_EndIf, bash_Cd, bash_MkDir, bash_RmDir, bash_RmFile, bash_MkTmpDir, bash_Print,
      bash_Notice, bash_Warning, bash_Error, bash_MkDir, bash_Command, bash_Line, halfway;
    intros; simpl; repeat split_match; writer.
Defined.

#[local] Instance CmdLaws d : ShellWriterLaws Writer (SW := CmdWriter d).
Proof.
  refine {| depth := depth_of |}; simpl;
    unfold cmd_Variable, cmd_Command, cmd_IfDirectory, cmd_IfFile, cmd_IfCmd, cmd_IfCmdWithOutput,
      cmd_Else, cmd_EndIf, cmd_Cd, cmd_MkDir, cmd_RmDir, cmd_RmFile, cmd_MkTmpDir, cmd_echo,
      cmd_MkDir, cmd_checkErrorLevel, cmd_Line, halfway;
    intros; simpl; repeat split_match; writer.
Defined.

Lemma depth_of_ps_Absolute p w : depth_of (ps_Absolute p w).2 = depth_of w.
Proof. unfold ps_Absolute, ps_Line. split_match; simpl; writer. Qed.

Lemma depth_of_ps_TmpFile p w : depth_of (ps_TmpFile p w).2 = depth_of w.
Proof.
  unfold ps_TmpFile. pose proof (depth_of_ps_Absolute (pathJoin [TemporaryPath w; p]) w) as H.
  by destruct (ps_Absolute _ _).
Qed.

Lemma depth_of_ps_Variable v w : depth_of (ps_Variable v w) = depth_of w.
Proof.
  unfold ps_Variable, ps_Line. pose proof (depth_of_ps_TmpFile (Key v) w) as H.
  destruct (ps_TmpFile (Key v) w) as [f w1]. destruct (File v); autorewrite with writer; done.
Qed.

#[local] Instance PsLaws : ShellWriterLaws Writer (SW := PsWriter).
Proof.
  refine {| depth := depth_of |}; simpl; try apply depth_of_ps_Absolute; try apply depth_of_ps_TmpFile;
    try apply depth_of_ps_Variable;
    unfold ps_Command, ps_IfDirectory, ps_IfFile, ps_IfCmd, ps_IfCmdWithOutput,
      ps_Else, ps_EndIf, ps_Cd, ps_MkDir, ps_RmDir, ps_RmFile, ps_MkTmpDir, ps_echo, ps_Print,
      ps_ifInTryCatch, ps_remove, ps_MkDir, ps_checkErrorLevel, ps_Line, halfway;
    intros; simpl; repeat split_match; writer.
Defined.

(** ** Generated scripts *)

Lemma finish_script_none (SW : ShellWriter Writer) (LW : ShellWriterLaws Writer) stage info w f :
  (∀ w, depth w = depth_of w) → depth_of w = Some 0 →
  finish_script (writeScript app stage info w) f = None ↔
  writeScript app stage info w = Panic.
Proof.
  intros Hd Hw. pose proof (writeScript_level app stage info w) as Hl.
  destruct (writeScript app stage info w) as [w'|e w'|]; simpl in *; [| |done];
    rewrite !Hd, Hw in Hl; unfold depth_of in Hl; destruct (panicked w'); done.
Qed.

Lemma begin_depth stage info :
  depth_of (bash_begin stage info) = Some 0 ∧ depth_of (cmd_begin stage info) = Some 0 ∧
  depth_of (ps_begin stage info) = Some 0.
Proof.
  unfold bash_begin, cmd_begin, ps_begin, bash_Line, cmd_Line, ps_Line.
  case_bool_decide; autorewrite with writer; done.
Qed.

(** C18: No shell panics on its own: in all four registered shells the indentation never
    becomes negative, and generating a script panics in exactly two situations, both
    while getting the sources: the configured clone URL has no scheme separator, or the
    commit id to check out is shorter than the eight bytes that are printed of it. *)
Theorem script_generation_panics_iff stage info :
  let b := SSI_Build info in
  Forall (λ sh, GenerateScript sh stage info = None ↔
    stage = BuildStageGetSources ∧ GetGitStrategy app b ≠ GitNone ∧
    (GetRemoteURL app b = None ∨
     (GetGitCheckout app b = true ∧ slen (GI_Sha (JR_GitInfo (Job b))) < 8))) all_shells.
Proof.
  intros b. destruct (begin_depth stage info) as (Hb & Hc & Hp).
  repeat apply Forall_cons_2; [| | | |apply Forall_nil_2]; simpl;
    unfold bash_GenerateScript, cmd_GenerateScript, ps_GenerateScript; cbv zeta.
  1,2: rewrite (finish_script_none BashWriter BashLaws) by done.
  3: rewrite (finish_script_none _ (CmdLaws _)) by done.
  4: rewrite (finish_script_none PsWriter PsLaws) by done.
  all: apply writeScript_panics.
Qed.

Lemma registered_shells : ∃ m, registered = Some m ∧
  ∀ name sh, m !! name = Some sh ↔ sh ∈ all_shells ∧ GetName sh = name.
Proof.
  eexists. split; [reflexivity|]. intros name sh.
  rewrite !lookup_insert_Some, lookup_empty. simpl. unfold all_shells. set_unfold. naive_solver.
Qed.

Lemma default_shell : ∃ m, registered = Some m ∧
  GetDefaultShell m = Some (if bool_decide (GOOS = "windows") then "cmd" else "bash").
Proof.
  destruct registered_shells as (m & Hm & Hl). exists m. split; [done|]. unfold GetDefaultShell.
  destruct (list_find _ _) as [[i sh]|] eqn:Hf; simpl.
  - apply list_find_Some in Hf as (Hi & Hd & _).
    apply list_elem_of_lookup_2, list_elem_of_fmap in Hi as ([n sh'] & ? & Hs). simpl in *. subst sh'.
    apply elem_of_map_to_list, Hl in Hs as [Hs _]. unfold all_shells in Hs.
    apply list_elem_of_In in Hs. destruct Hs as [<-|[<-|[<-|[<-|[]]]]]; simpl in *;
      case_bool_decide; simpl in Hd; done.
  - exfalso. apply list_find_None in Hf. rewrite Forall_forall in Hf.
    set (sh := if bool_decide (GOOS = "windows") then CmdShell else BashShell "bash").
    apply (Hf sh).
    + apply list_elem_of_fmap. exists (GetName sh, sh). split; [done|].
      apply elem_of_map_to_list, Hl. split; [|done]. unfold sh, all_shells. case_bool_decide; set_solver.
    + unfold sh. case_bool_decide; simpl; [by case_bool_decide|by rewrite bool_decide_eq_false_2].
Qed.

(** ** What bash evaluates *)

Definition concat_all (l : list string) : string := foldr String.append "" l.

Lemma concat_all_app l k : concat_all (l ++ k) = concat_all l +:+ concat_all k.
Proof.
  induction l as [|a l IH]; simpl; [by rewrite string_app_nil_l|]. by rewrite IH, string_app_assoc.
Qed.

(** The line that announces a command in the log. *)
Definition announce (c : string) : string :=
  let c := TrimSpace c in
  if bool_decide (c = "") then "echo" +:+ "" +:+ lf
  else "echo" +:+ (" " +:+ ShellEscape (ANSI_BOLD_GREEN +:+
         match SplitN2 c newline with
         | [l0; _] => "$ " +:+ l0 +:+ " # collapsed multi-line command"
         | l => "$ " +:+ hd "" l
         end +:+ ANSI_RESET)) +:+ lf.

Lemma announce_line c : ∃ l, announce c = "echo" +:+ l +:+ lf ∧ all_printable l = true.
Proof.
  unfold announce. case_bool_decide; eexists; split; [reflexivity|done|reflexivity|].
  rewrite string_app_cons. simpl. apply ShellEscape_printable.
Qed.

Lemma bash_Line_text t w : depth_of w = Some 0 → text (bash_Line t w) = text w +:+ t +:+ lf.
Proof.
  unfold depth_of, bash_Line, write_line. destruct (panicked w); simpl; [done|].
  destruct (indent w <? 0)%Z; [done|]. intros [= ->]. simpl. by rewrite string_app_nil_l.
Qed.

Lemma bash_command w c : depth_of w = Some 0 →
  depth_of (writeCommand (SW := BashWriter) w c) = Some 0 ∧
  text (writeCommand (SW := BashWriter) w c) = text w +:+ announce c +:+ TrimSpace c +:+ lf.
Proof.
  intros Hw. split; [by rewrite <- Hw; apply (depth_writeCommand (LW := BashLaws) c w)|].
  unfold writeCommand, announce. simpl. set (w1 := if bool_decide (TrimSpace c = "") then _ else _).
  assert (Hd : depth_of w1 = Some 0).
  { subst w1. unfold bash_Notice, bash_Line. repeat split_match; rewrite ?depth_of_line; done. }
  rewrite bash_Line_text by done. rewrite (string_app_assoc (text w)). f_equal.
  subst w1. case_bool_decide; [by rewrite bash_Line_text|].
  repeat split_match; unfold bash_Notice; rewrite bash_Line_text by done;
    by rewrite <- ?string_app_assoc.
Qed.

Definition script_text (commands : list string) : string :=
  concat_all ((λ c, announce c +:+ TrimSpace c +:+ lf) <$> commands).

Lemma bash_commands l w : depth_of w = Some 0 →
  depth_of (writeCommands (SW := BashWriter) l w) = Some 0 ∧ text (writeCommands (SW := BashWriter) l w) = text w +:+ script_text l.
Proof.
  revert w. induction l as [|c l IH]; intros w Hw.
  { split; [done|]. simpl. by rewrite string_app_nil_r. }
  change (writeCommands (SW := BashWriter) (c :: l) w)
    with (writeCommands (SW := BashWriter) l (writeCommand (SW := BashWriter) w c)).
  destruct (bash_command w c Hw) as [Hd Ht]. destruct (IH _ Hd) as [Hd' Ht'].
  split; [done|]. rewrite Ht', Ht. unfold script_text. simpl. by rewrite <- !string_app_assoc.
Qed.

Definition optional_script (t : string) : list string := if bool_decide (t = "") then [] else [t].

Lemma bash_optional t w : depth_of w = Some 0 →
  let w' := if bool_decide (t = "") then w else writeCommands (SW := BashWriter) [t] w in
  depth_of w' = Some 0 ∧ text w' = text w +:+ script_text (optional_script t).
Proof.
  intros Hw. unfold optional_script. cbv zeta. case_bool_decide; [|by apply bash_commands].
  split; [done|]. simpl. by rewrite string_app_nil_r.
Qed.

(** C16: What bash evaluates for the user's part of a job: the script is a fixed frame
    around one word, on one line, that reads as a set-up part followed by the commands
    of the runner's pre-build script, the job and the runner's post-build script, in
    this order and letter for letter apart from surrounding white space, each after a
    line that only echoes. *)
Theorem bash_evaluates_the_commands info st :
  find_step info StepNameScript = Some st →
  ∃ setup word,
    let body := setup +:+ script_text
      (optional_script (SSI_PreBuildScript info) ++ Step_Script st ++ optional_script (SSI_PostBuildScript info)) in
    bash_GenerateScript BuildStageUserScript info =
      Some ((if IsDebugTraceEnabled app (SSI_Build info) then "set -o xtrace" +:+ lf else "") +:+
            "set -eo pipefail" +:+ lf +:+ "set +o noclobber" +:+ lf +:+
            ": | eval " +:+ word +:+ lf +:+ "exit 0" +:+ lf, None) ∧
    all_printable word = true ∧
    (byte_of 0 ∉ String.list_ascii_of_string body → bash_word word = Some body) ∧
    ∀ c, ∃ l, announce c = "echo" +:+ l +:+ lf ∧ all_printable l = true.
Proof.
  intros Hst. set (w0 := writeCdBuildDir (SW := BashWriter) info
    (writeExports (SW := BashWriter) app info (bash_begin BuildStageUserScript info))).
  assert (H0 : depth_of w0 = Some 0).
  { destruct (begin_depth BuildStageUserScript info) as (Hb & _). rewrite <- Hb.
    etransitivity; [apply (depth_writeCdBuildDir (LW := BashLaws) info)|].
    apply (depth_writeExports (LW := BashLaws) app info). }
  destruct (bash_optional (SSI_PreBuildScript info) w0 H0) as [H1 T1].
  destruct (bash_commands (Step_Script st) _ H1) as [H2 T2].
  destruct (bash_optional (SSI_PostBuildScript info) _ H2) as [H3 T3].
  cbv zeta in T1, T2, T3, H1, H2, H3. rewrite T2, T1 in T3.
  eexists (text w0), _. cbv zeta. split; [|split; [|split; [|apply announce_line]]].
  - unfold bash_GenerateScript, writeScript, writeUserScript. rewrite Hst. cbn [finish_script].
    fold w0. rewrite (depth_not_panicked _ _ H3). unfold bash_Finish. rewrite T3. reflexivity.
  - apply ShellEscape_printable.
  - unfold script_text in *. rewrite !fmap_app, !concat_all_app, !string_app_assoc.
    apply ShellEscape_word.
Qed.

End Shells.

(** ** What PowerShell reads back *)

(** A text rewritten byte by byte. *)
Fixpoint smap (f : ascii → string) (s : string) : string :=
  match s with "" => "" | String c s' => f c +:+ smap f s' end.

Lemma smap_app f a b : smap f (a +:+ b) = smap f a +:+ smap f b.
Proof.
  induction a as [|c a IH]; [by rewrite !string_app_nil_l|].
  rewrite string_app_cons. simpl. by rewrite IH, string_app_assoc.
Qed.

Lemma smap_smap f g s : smap f (smap g s) = smap (λ c, smap f (g c)) s.
Proof. induction s as [|c s IH]; [done|]. simpl. by rewrite smap_app, IH. Qed.

Lemma smap_ext f g s : (∀ c, f c = g c) → smap f s = smap g s.
Proof. intros H. induction s as [|c s IH]; [done|]. simpl. by rewrite H, IH. Qed.

Definition subst_char (c : ascii) (new : string) (x : ascii) : string :=
  if bool_decide (x = c) then new else String x "".

Lemma Replace_char s c new : Replace s (String c "") new = smap (subst_char c new) s.
Proof.
  unfold Replace. induction s as [|x s IH]; [done|]. simpl. unfold subst_char at 1. rewrite andb_true_r.
  repeat case_bool_decide; try congruence; by rewrite IH.
Qed.

(** What the replacements of [psQuoteVariable] make of a byte. *)
Definition ps_char (c : ascii) : string :=
  let z := z_of c in
  (if z =? 96 then "``" else if z =? 7 then "`a" else if z =? 8 then "`b" else if z =? 12 then "^f"
   else if z =? 13 then "`r" else if z =? 10 then "`n" else if z =? 9 then "^t" else if z =? 11 then "^v"
   else if z =? 35 then "`#" else if z =? 39 then "`'" else if z =? 34 then "`" +:+ dq
   else if z =? 36 then "`$" else String c "")%Z.

Lemma psQuoteVariable_smap s : psQuoteVariable s = dq +:+ smap ps_char s +:+ dq.
Proof.
  unfold psQuoteVariable, psQuote. cbv zeta. unfold dq, bstr. rewrite !Replace_char, !smap_app.
  rewrite !smap_smap. simpl. f_equal. f_equal.
  apply smap_ext. intros [[] [] [] [] [] [] [] []]; reflexivity.
Qed.

(** PowerShell's reading of an expandable string in ASCII, up to and including the closing
    quote, which must end it: the backtick escapes, and [None] where a dollar sign
    starts an expansion. *)
Fixpoint ps_inside (s : string) : option string :=
  match s with
  | "" => None
  | String c s' =>
      if (z_of c =? 34)%Z then match s' with "" => Some "" | _ => None end
      else if (z_of c =? 36)%Z then None
      else if (z_of c =? 96)%Z then
        match s' with
        | "" => None
        | String e s'' =>
            let z := (if bool_decide (e = "0"%char) then 0
                     else if bool_decide (e = "a"%char) then 7 else if bool_decide (e = "b"%char) then 8
                     else if bool_decide (e = "t"%char) then 9 else if bool_decide (e = "n"%char) then 10
                     else if bool_decide (e = "v"%char) then 11 else if bool_decide (e = "f"%char) then 12
                     else if bool_decide (e = "r"%char) then 13 else z_of e)%Z in
            String (byte_of z) <$> ps_inside s''
        end
      else String c <$> ps_inside s'
  end.

Definition ps_string (s : string) : option string :=
  match s with
  | String c s' => if (z_of c =? 34)%Z then ps_inside s' else None
  | "" => None
  end.

(** Form feed, tab and vertical tab are written with a caret instead of a backtick. *)
Definition ps_lossy (c : ascii) : string :=
  (if z_of c =? 12 then "^f" else if z_of c =? 9 then "^t" else if z_of c =? 11 then "^v"
   else String c "")%Z.

Lemma ps_inside_char c t :
  (z_of c < 128)%Z → ps_inside (ps_char c +:+ t) = String.append (ps_lossy c) <$> ps_inside t.
Proof.
  intros Hc. destruct c as [[] [] [] [] [] [] [] []]; try (vm_compute in Hc; discriminate Hc); try reflexivity.
  all: match goal with |- context [ps_char ?x] =>
         let v := eval vm_compute in (ps_char x) in change (ps_char x) with v end.
  all: rewrite !string_app_cons, string_app_nil_l; simpl; by destruct (ps_inside t).
Qed.

Lemma ps_lossy_length s :
  slen s ≤ slen (smap ps_lossy s) ∧
  ((∃ c, c ∈ String.list_ascii_of_string s ∧ z_of c ∈ [9; 11; 12]%Z) → slen s < slen (smap ps_lossy s)).
Proof.
  induction s as [|c s [IH1 IH2]]; simpl; [split; [done|set_solver]|].
  rewrite slen_app. unfold ps_lossy at 1 3.
  repeat match goal with |- context [(?a =? ?b)%Z] => destruct (Z.eqb_spec a b) end; simpl;
    (split; [lia|]); try (intros _; lia).
  intros (d & Hd & Hz). apply elem_of_cons in Hd as [->|Hd]; [set_solver|].
  apply -> Nat.succ_lt_mono. apply IH2. eauto.
Qed.

Lemma ps_lossy_exact s :
  (∀ c, c ∈ String.list_ascii_of_string s → z_of c ∉ [9; 11; 12]%Z) → smap ps_lossy s = s.
Proof.
  induction s as [|c s IH]; intros H; simpl; [done|].
  rewrite IH by (intros d Hd; apply H; simpl; set_solver).
  assert (Hc : z_of c ∉ [9; 11; 12]%Z) by (apply H; simpl; set_solver).
  unfold ps_lossy. repeat match goal with |- context [(?a =? ?b)%Z] => destruct (Z.eqb_spec a b) end;
    [set_solver..|]. by rewrite string_app_cons, string_app_nil_l.
Qed.

(** A variable's value in a PowerShell script: the quoted text is one literal string,
    nothing in it is expanded or ends it early, and PowerShell reads it as the value,
    except that form feeds, tabs and vertical tabs have become the two characters of a
    caret escape, because those three are replaced with a caret instead of a backtick.
    So a value is preserved exactly when it has none of them. *)
Theorem powershell_reads_back_the_value s :
  ascii_text s = true →
  ps_string (psQuoteVariable s) = Some (smap ps_lossy s) ∧
  (ps_string (psQuoteVariable s) = Some s ↔
   ∀ c, c ∈ String.list_ascii_of_string s → z_of c ∉ [9; 11; 12]%Z).
Proof.
  intros Ha. assert (Hi : ps_inside (smap ps_char s +:+ dq) = Some (smap ps_lossy s)).
  { revert Ha. induction s as [|c s IH]; intros Ha; [reflexivity|]. simpl in *.
    apply andb_prop in Ha as [Hc%Z.ltb_lt Hs]. rewrite <- string_app_assoc, ps_inside_char by done.
    by rewrite (IH Hs). }
  assert (Hr : ps_string (psQuoteVariable s) = Some (smap ps_lossy s)).
  { rewrite psQuoteVariable_smap. unfold dq at 1, bstr. rewrite string_app_cons, string_app_nil_l. exact Hi. }
  split; [done|]. rewrite Hr. split.
  - intros [= He] c Hc Hz. destruct (ps_lossy_length s) as [_ Hl].
    rewrite He in Hl. assert (slen s < slen s) by eauto. lia.
  - intros H. by rewrite ps_lossy_exact.
Qed.

Lemma powershell_reads_back_the_value_witness :
  ps_string (psQuoteVariable ("$it's " +:+ bstr 9)) = Some "$it's ^t".
Proof. apply (powershell_reads_back_the_value ("$it's " +:+ bstr 9)). reflexivity. Defined.

(** A runner on Linux, to run the generators. *)
Module DemoShell.
#[global] Instance platform : Platform := { GOOS := "linux"; fp_IsAbs := IsAbs; fp_Join := pathJoin }.

#[global, program] Instance env : ShellEnv := {
  serverHost _ := Ok "https://gitlab.example.com"; cacheFactories := ∅;
  tlsEntries := [("CI_SERVER_TLS_CA_FILE", "sslCAInfo"); ("CI_SERVER_TLS_CERT_FILE", "sslCert");
                 ("CI_SERVER_TLS_KEY_FILE", "sslKey")] }.
Next Obligation. done. Qed.

Definition script_step : Step :=
  {| Step_Name := StepNameScript; Step_Script := ["make"; "echo done"]; Step_Timeout := 0;
     Step_When := "on_success"; Step_AllowFailure := false |}.

Definition job : JobResponse :=
  let j := DemoBuild.job [] in
  {| JR_ID := JR_ID j; JR_Token := JR_Token j; JR_AllowGitFetch := JR_AllowGitFetch j;
     JR_JobInfo := JR_JobInfo j; JR_GitInfo := JR_GitInfo j; JR_RunnerInfo := JR_RunnerInfo j;
     JR_Variables := []; JR_Steps := [script_step]; JR_Image := JR_Image j; JR_Services := [];
     JR_Artifacts := []; JR_Cache := []; JR_Credentials := []; JR_Dependencies := [];
     JR_Features := JR_Features j; JR_TLSCAChain := ""; JR_TLSAuthCert := ""; JR_TLSAuthKey := "" |}.

Definition info : ShellScriptInfo :=
  {| SSI_Build := NewBuild job (some_runner 0 0); SSI_Hostname := ""; SSI_Type := NormalShell;
     SSI_User := ""; RunnerCommand := ""; SSI_PreCloneScript := ""; SSI_PreBuildScript := "";
     SSI_PostBuildScript := "" |}.
End DemoShell.

Lemma bash_evaluates_the_commands_witness :
  ∃ setup word,
    bash_GenerateScript DemoBuild.app BuildStageUserScript DemoShell.info =
      Some ("set -eo pipefail" +:+ lf +:+ "set +o noclobber" +:+ lf +:+
            ": | eval " +:+ word +:+ lf +:+ "exit 0" +:+ lf, None) ∧
    (byte_of 0 ∉ String.list_ascii_of_string (setup +:+ script_text ["make"; "echo done"]) →
     bash_word word = Some (setup +:+ script_text ["make"; "echo done"])).
Proof.
  destruct (bash_evaluates_the_commands DemoBuild.app DemoShell.info DemoShell.script_step)
    as (setup & word & H1 & _ & H2 & _); [reflexivity|].
  exists setup, word. split; [exact H1|exact H2].
Defined.

Lemma scripts_are_balanced_witness :
  match writeScript (SW := BashWriter) DemoBuild.app BuildStageUserScript DemoShell.info
          (bash_begin BuildStageUserScript DemoShell.info) with
  | Done w' | Failed_ _ w' => depth_of w' = Some 0
  | Panic => True
  end.
Proof.
  apply (scripts_are_balanced (LW := BashLaws) DemoBuild.app BuildStageUserScript DemoShell.info
           (bash_begin BuildStageUserScript DemoShell.info)).
Defined.
