(* ===== verification/Regex.v ===== *)
(** Go's [regexp] package as the runner uses it: a pattern is a syntax tree, the
    input is the sequence of runes of the string (an undecodable byte is the rune
    U+FFFD), and of the possible matches the one a backtracking search finds first
    is reported ("leftmost-first"). [Match] is the language of a pattern, without
    the search; [m_sound] and [m_complete] relate the two. *)

From S2P Require Import Prelude GoLib.

(** ** Input *)

(** A rune with the bytes it was decoded from. *)
Definition tok : Type := Z * string.

Fixpoint tokens_go (skip : nat) (s : string) : list tok :=
  match s with
  | "" => []
  | String _ s' =>
      match skip with
      | S k => tokens_go k s'
      | 0 => let '(r, w) := DecodeRune s in (r, stake w s) :: tokens_go (w - 1) s'
      end
  end.
Definition tokens (s : string) : list tok := tokens_go 0 s.

Definition text (ts : list tok) : string := foldr (λ t acc, t.2 +:+ acc) "" ts.

(** An ASCII rune is its byte; any other rune comes from bytes above 0x7F. *)
Definition tok_ok (t : tok) : Prop :=
  (∃ c, t = (z_of c, String c "") ∧ (z_of c < 128)%Z) ∨
  ((128 ≤ t.1)%Z ∧ t.2 ≠ "" ∧ Forall (λ c, 128 ≤ z_of c)%Z (String.list_ascii_of_string t.2)).

(** ** Patterns *)

Inductive regex :=
| REps
| RSet (neg : bool) (ranges : list (Z * Z))
| RCat (r1 r2 : regex)
| RAlt (r1 r2 : regex)
| RStar (greedy : bool) (r : regex)
| RCap (n : nat) (r : regex)
| RBegin
| REnd.

Definition in_set (neg : bool) (ranges : list (Z * Z)) (r : Z) : bool :=
  xorb neg (existsb (λ '(lo, hi), (lo <=? r) && (r <=? hi))%Z ranges).

#[global] Arguments in_set : simpl never.

(** The captured groups, the latest capture of a group first. *)
Definition caps : Type := list (nat * string).

(** The search: [k] is the rest of the pattern; the result of the first way of
    matching [r] that [k] accepts is returned. An iteration of a star that consumes
    nothing is not taken, so the number of remaining runes bounds the iterations. *)
Fixpoint m {R : Type} (r : regex) (c : caps) (i : nat) (s : list tok)
    (k : caps → nat → list tok → option R) {struct r} : option R :=
  match r with
  | REps => k c i s
  | RSet neg rs =>
      match s with
      | t :: s' => if in_set neg rs t.1 then k c (S i) s' else None
      | [] => None
      end
  | RCat r1 r2 => m r1 c i s (λ c1 i1 s1, m r2 c1 i1 s1 k)
  | RAlt r1 r2 =>
      match m r1 c i s k with
      | Some x => Some x
      | None => m r2 c i s k
      end
  | RStar greedy r1 =>
      (fix star (n : nat) (c : caps) (i : nat) (s : list tok) {struct n} :=
        let more :=
          match n with
          | 0 => None
          | S n' => m r1 c i s (λ c1 i1 s1, if i <? i1 then star n' c1 i1 s1 else None)
          end in
        if greedy
        then match more with Some x => Some x | None => k c i s end
        else match k c i s with Some x => Some x | None => more end) (length s) c i s
  | RCap n r1 => m r1 c i s (λ c1 i1 s1, k ((n, text (take (i1 - i) s)) :: c1) i1 s1)
  | RBegin => if i =? 0 then k c i s else None
  | REnd => match s with [] => k c i s | _ => None end
  end.

(** [FindStringSubmatch]: the search from each position in turn. *)
Fixpoint find_from (r : regex) (i : nat) (s : list tok) : option caps :=
  match m (RCap 0 r) [] i s (λ c _ _, Some c) with
  | Some c => Some c
  | None => match s with [] => None | _ :: s' => find_from r (S i) s' end
  end.

Definition FindStringSubmatch (r : regex) (s : string) : option caps := find_from r 0 (tokens s).

(** [FindAllStringSubmatch]: the matches that do not overlap, from left to right. The input
    shrinks with each one (a match of nothing is followed by one rune), so its length is
    enough fuel. *)
Fixpoint find_all (fuel : nat) (r : regex) (i : nat) (s : list tok) : list caps :=
  match fuel with
  | 0 => []
  | S n =>
      match m (RCap 0 r) [] i s (λ c i' s', Some (c, i', s')) with
      | Some (c, i', s') =>
          c :: (if i <? i' then find_all n r i' s'
                else match s with [] => [] | _ :: s' => find_all n r (S i) s' end)
      | None => match s with [] => [] | _ :: s' => find_all n r (S i) s' end
      end
  end.
Definition FindAllStringSubmatch (r : regex) (s : string) : list caps :=
  find_all (S (length (tokens s))) r 0 (tokens s).

(** The text of a group, empty for a group that took no part in the match. *)
Fixpoint group (c : caps) (n : nat) : string :=
  match c with
  | [] => ""
  | (k, v) :: c' => if k =? n then v else group c' n
  end.

(** Pattern syntax: [r?], [r+], a literal, and a literal or a class under [(?i)],
    where a letter also matches its simple case folds (K U+212A and s U+017F
    included). *)
Definition ROpt (r : regex) : regex := RAlt r REps.
Definition RPlus (r : regex) : regex := RCat r (RStar true r).
Definition RChar (c : ascii) : regex := RSet false [(z_of c, z_of c)].
Definition set_of (s : string) : list (Z * Z) :=
  (λ c, (z_of c, z_of c)) <$> String.list_ascii_of_string s.

Definition fold_ranges (c : ascii) : list (Z * Z) :=
  let z := z_of c in
  let lower := (if (65 <=? z) && (z <=? 90) then z + 32 else z)%Z in
  if ((97 <=? lower) && (lower <=? 122))%Z
  then [(lower, lower); (lower - 32, lower - 32)%Z]
         ++ (if (lower =? 107)%Z then [(0x212A, 0x212A)%Z] else [])
         ++ (if (lower =? 115)%Z then [(0x17F, 0x17F)%Z] else [])
  else [(z, z)].

Definition RFold (c : ascii) : regex := RSet false (fold_ranges c).
Definition fold_az : list (Z * Z) := [(97, 122); (65, 90); (0x212A, 0x212A); (0x17F, 0x17F)]%Z.

Fixpoint RLit (one : ascii → regex) (s : string) : regex :=
  match s with
  | "" => REps
  | String c "" => one c
  | String c s' => RCat (one c) (RLit one s')
  end.

(** ** The language of a pattern *)

Inductive Match : regex → caps → nat → list tok → caps → nat → list tok → Prop :=
| MEps c i s : Match REps c i s c i s
| MSet neg rs c i t s : in_set neg rs t.1 = true → Match (RSet neg rs) c i (t :: s) c (S i) s
| MCat r1 r2 c i s c1 i1 s1 c2 i2 s2 :
    Match r1 c i s c1 i1 s1 → Match r2 c1 i1 s1 c2 i2 s2 → Match (RCat r1 r2) c i s c2 i2 s2
| MAltL r1 r2 c i s c1 i1 s1 : Match r1 c i s c1 i1 s1 → Match (RAlt r1 r2) c i s c1 i1 s1
| MAltR r1 r2 c i s c1 i1 s1 : Match r2 c i s c1 i1 s1 → Match (RAlt r1 r2) c i s c1 i1 s1
| MStar0 g r c i s : Match (RStar g r) c i s c i s
| MStarS g r c i s c1 i1 s1 c2 i2 s2 :
    Match r c i s c1 i1 s1 → i < i1 → Match (RStar g r) c1 i1 s1 c2 i2 s2 →
    Match (RStar g r) c i s c2 i2 s2
| MCap n r c i s c1 i1 s1 :
    Match r c i s c1 i1 s1 → Match (RCap n r) c i s ((n, text (take (i1 - i) s)) :: c1) i1 s1
| MBegin c s : Match RBegin c 0 s c 0 s
| MEnd c i : Match REnd c i [] c i [].

#[export] Hint Constructors Match : runner.

Lemma Match_consumes r c i s c' i' s' :
  Match r c i s c' i' s' → ∃ u, s = u ++ s' ∧ i' = i + length u.
Proof.
  induction 1 as [c i s|neg rs c i t s Ht|r1 r2 c i s c1 i1 s1 c2 i2 s2 _ IH1 _ IH2| | |
                  |g r c i s c1 i1 s1 c2 i2 s2 _ IH1 _ _ IH2| | |]; eauto.
  - by exists [].
  - exists [t]. simpl. split; [done|lia].
  - destruct IH1 as (u & -> & ->), IH2 as (v & -> & ->). exists (u ++ v).
    rewrite app_assoc, length_app. split; [done|lia].
  - exists []. simpl. split; [done|lia].
  - destruct IH1 as (u & -> & ->), IH2 as (v & -> & ->). exists (u ++ v).
    rewrite app_assoc, length_app. split; [done|lia].
  - exists []. by simpl.
  - exists []. split; [done|]. simpl. lia.
Qed.

(** What the search returns comes from a match of the pattern. *)
Lemma m_sound {R} r : ∀ c i s k (x : R), m r c i s k = Some x →
  ∃ c' i' s', Match r c i s c' i' s' ∧ k c' i' s' = Some x.
Proof.
  induction r as [|neg rs|r1 IH1 r2 IH2|r1 IH1 r2 IH2|g r IH|n r IH| |];
    intros c i s k x H; simpl in H.
  - eauto with runner.
  - destruct s as [|t s]; [done|]. split_match_in H; [|done]. eauto 6 with runner.
  - apply IH1 in H as (c1 & i1 & s1 & Hm & H). apply IH2 in H as (c2 & i2 & s2 & Hm2 & H).
    eauto 8 with runner.
  - destruct (m r1 c i s k) as [y|] eqn:E.
    + simplify_eq. apply IH1 in E as (c1 & i1 & s1 & Hm & H). eauto 8 with runner.
    + apply IH2 in H as (c1 & i1 & s1 & Hm & H). eauto 8 with runner.
  - revert H. generalize (length s). intros n; revert c i s.
    induction n as [|n IHn]; intros c i s H.
    + assert (k c i s = Some x) by (destruct g, (k c i s); done). eauto 6 with runner.
    + set (more := m r c i s _) in H.
      assert (k c i s = Some x ∨ more = Some x) as [Hk|Hm]
        by (destruct g, more, (k c i s); naive_solver); [eauto 6 with runner|].
      apply IH in Hm as (c1 & i1 & s1 & Hm & H1). split_match_in H1; [|done].
      apply IHn in H1 as (c2 & i2 & s2 & Hm2 & Hk).
      exists c2, i2, s2. split; [|done]. eapply MStarS; eauto. by apply Nat.ltb_lt.
  - apply IH in H as (c1 & i1 & s1 & Hm & H). eauto 6 with runner.
  - destruct (Nat.eqb_spec i 0); [subst|done]. eauto 6 with runner.
  - destruct s; [|done]. eauto 6 with runner.
Qed.

(** The search finds something whenever some match of the pattern is accepted. *)
Lemma m_complete {R} r : ∀ c i s c' i' s' (k : caps → nat → list tok → option R),
  Match r c i s c' i' s' → is_Some (k c' i' s') → is_Some (m r c i s k).
Proof.
  induction r as [|neg rs|r1 IH1 r2 IH2|r1 IH1 r2 IH2|g r IH|n r IH| |];
    intros c i s c' i' s' k H Hk.
  - by inversion H; subst.
  - inversion H as [|? ? ? ? t ? Ht| | | | | | | |]; subst. simpl. by rewrite Ht.
  - inversion H; subst. simpl. eauto.
  - simpl. destruct (m r1 c i s k) eqn:E; [eauto|].
    inversion H; subst; [|by eapply IH2].
    eapply IH1 in Hk; [|done]. rewrite E in Hk. by destruct Hk.
  - unfold m; fold (@m R). generalize (le_n (length s)). generalize (length s) at 2 3.
    intros n; revert n.
    remember (RStar g r) as sr eqn:Er. revert Hk.
    induction H as [| | | | |g' r' c i s|g' r' c i s c1 i1 s1 c2 i2 s2 Hr _ Hlt _ IHs| | |];
      simplify_eq; intros Hk n Hn.
    + destruct Hk as [x Hk]. destruct n; simpl; rewrite Hk; destruct g; eauto.
      destruct (m _ _ _ _ _); eauto.
    + destruct (Match_consumes _ _ _ _ _ _ _ Hr) as (u & -> & ->).
      rewrite length_app in Hn. destruct n as [|n]; [lia|].
      specialize (IHs eq_refl Hk n ltac:(lia)).
      match goal with |- context [m r c i _ ?kk] =>
        destruct (IH c i (u ++ s1) c1 (i + length u) s1 kk Hr) as [x Hx] end.
      { rewrite (proj2 (Nat.ltb_lt _ _)) by lia. exact IHs. }
      rewrite Hx. destruct g; [eauto|]. destruct (k c i (u ++ s1)); eauto.
  - inversion H; subst. simpl. by eapply IH.
  - by inversion H; subst.
  - by inversion H; subst.
Qed.

(** ** Runes and bytes *)

Lemma text_app a b : text (a ++ b) = text a +:+ text b.
Proof. induction a as [|t a IH]; [done|]. simpl. by rewrite IH, string_app_assoc. Qed.

Lemma DecodeRune_width s : s ≠ "" → 1 ≤ (DecodeRune s).2.
Proof.
  intros Hs. destruct (DecodeRune s) as [r w] eqn:E.
  apply DecodeRune_sound in E as [[_ ->]|(_ & -> & _)]; [simpl; lia| |done].
  simpl. apply EncodeRune_slen.
Qed.

Lemma tokens_go_skip n s : tokens_go n s = tokens (sdrop n s).
Proof.
  revert s. induction n as [|n IH]; intros [|c s]; try done. simpl. apply IH.
Qed.

Lemma tokens_cons c s :
  let '(r, w) := DecodeRune (String c s) in
  tokens (String c s) = (r, stake w (String c s)) :: tokens (sdrop w (String c s)).
Proof.
  pose proof (DecodeRune_width (String c s) ltac:(done)) as Hw.
  destruct (DecodeRune (String c s)) as [r w] eqn:E. unfold tokens at 1.
  change (tokens_go 0 (String c s)) with
    (let '(r, w) := DecodeRune (String c s) in
     (r, stake w (String c s)) :: tokens_go (w - 1) s).
  rewrite E. f_equal. rewrite tokens_go_skip. destruct w as [|w]; [simpl in Hw; lia|].
  simpl. by rewrite Nat.sub_0_r.
Qed.

Lemma tokens_ind (P : string → Prop) :
  P "" →
  (∀ c s r w, DecodeRune (String c s) = (r, w) → 1 ≤ w →
              P (sdrop w (String c s)) → P (String c s)) → ∀ s, P s.
Proof.
  intros H0 HS s. remember (slen s) as n eqn:Hn. revert s Hn.
  induction (lt_wf n) as [n _ IH]. intros [|c s] ->; [done|].
  pose proof (DecodeRune_width (String c s) ltac:(done)) as Hw.
  destruct (DecodeRune (String c s)) as [r w] eqn:E. simpl in Hw.
  apply (HS c s r w); [done|done|].
  eapply IH; [|done]. rewrite slen_sdrop. simpl. lia.
Qed.

Lemma text_tokens s : text (tokens s) = s.
Proof.
  induction s as [|c s r w E Hw IH] using tokens_ind; [done|].
  pose proof (tokens_cons c s) as H. rewrite E in H. rewrite H. simpl text.
  rewrite IH. apply stake_sdrop.
Qed.

Lemma DecodeRune_tok_ok s r w : s ≠ "" → DecodeRune s = (r, w) → tok_ok (r, stake w s).
Proof.
  intros Hs E. destruct s as [|a s1]; [done|]. unfold DecodeRune, is_cont in E.
  pose proof (z_of_range a) as Ha.
  repeat split_match_in E; simplify_eq; reflect_guards;
    try (left; exists a; split; [done|lia]); right; simpl;
    repeat match goal with
    | c : ascii |- _ =>
        lazymatch goal with H : (0 ≤ z_of c < 256)%Z |- _ => fail | _ => pose proof (z_of_range c) end
    end;
    (split; [unfold RuneError; lia|]); (split; [done|]);
    repeat constructor; first [lia | rewrite andb_false_iff, ?Z.leb_gt in *; lia].
Qed.

Lemma tokens_ok s : Forall tok_ok (tokens s).
Proof.
  induction s as [|c s r w E Hw IH] using tokens_ind; [constructor|].
  pose proof (tokens_cons c s) as H. rewrite E in H. rewrite H.
  constructor; [|done]. by eapply DecodeRune_tok_ok.
Qed.

Lemma list_ascii_app a b :
  String.list_ascii_of_string (a +:+ b)
  = String.list_ascii_of_string a ++ String.list_ascii_of_string b.
Proof. induction a as [|c a IH]; [done|]. rewrite string_app_cons. simpl. by rewrite IH. Qed.

(** A property of runes that holds of all non-ASCII runes is a property of bytes. *)
Lemma tokens_bytes (P : Z → Prop) ts :
  Forall tok_ok ts → (∀ r, (128 ≤ r)%Z → P r) →
  (Forall (λ t, P t.1) ts ↔ Forall (λ c, P (z_of c)) (String.list_ascii_of_string (text ts))).
Proof.
  intros Hok HP. induction Hok as [|t ts Ht _ IH]; [simpl; split; constructor|].
  simpl. rewrite list_ascii_app, Forall_cons, Forall_app, IH.
  apply and_iff_compat_r. destruct Ht as [(c & -> & Hc)|(Hr & _ & Hb)]; simpl.
  - rewrite Forall_singleton. done.
  - split; [|auto]. intros _. eapply Forall_impl; [exact Hb|]. eauto.
Qed.

(** Cutting the text at an ASCII byte cuts the runes there. *)
Lemma tokens_cut ts a b c :
  Forall tok_ok ts → (z_of c < 128)%Z → text ts = a +:+ String c b →
  ∃ ta tb, ts = ta ++ (z_of c, String c "") :: tb ∧ text ta = a ∧ text tb = b.
Proof.
  intros Hok Hc. revert a. induction Hok as [|t ts Ht _ IH]; intros a H; simpl in H.
  { destruct a; rewrite ?string_app_cons in H; done. }
  destruct Ht as [(d & -> & Hd)|(Hr & Hne & Hb)].
  - simpl in H. rewrite string_app_cons, string_app_nil_l in H. destruct a as [|x a].
    + rewrite string_app_nil_l in H. simplify_eq. by exists [], ts.
    + rewrite string_app_cons in H. simplify_eq.
      destruct (IH a) as (ta & tb & -> & <- & <-); [done|].
      by exists ((z_of x, String x "") :: ta), tb.
  - destruct t as [r w]; simpl in *.
    assert (∃ a', a = w +:+ a' ∧ text ts = a' +:+ String c b) as (a' & -> & H').
    { clear IH Hne Hr. revert a H. induction w as [|x w IHw]; intros a H; [by exists a|].
      rewrite string_app_cons in H. simpl in Hb. apply Forall_cons in Hb as [Hx Hb].
      destruct a as [|y a]; [rewrite string_app_nil_l in H; simplify_eq; lia|].
      rewrite string_app_cons in H. simplify_eq.
      destruct (IHw Hb a) as (a' & -> & ?); [done|]. exists a'. by rewrite string_app_cons. }
    destruct (IH a' H') as (ta & tb & -> & <- & <-). by exists ((r, w) :: ta), tb.
Qed.

Lemma text_nil ts : Forall tok_ok ts → text ts = "" → ts = [].
Proof.
  intros Hok H. destruct Hok as [|t ts Ht _]; [done|]. simpl in H.
  destruct Ht as [(c & -> & _)|(_ & Hne & _)]; [done|].
  destruct t as [r [|x w]]; done.
Qed.

(** ** Reading off captures *)

Fixpoint no_caps (r : regex) : bool :=
  match r with
  | RCap _ _ => false
  | RCat r1 r2 | RAlt r1 r2 => no_caps r1 && no_caps r2
  | RStar _ r1 => no_caps r1
  | _ => true
  end.

Lemma Match_no_caps r c i s c' i' s' : no_caps r = true → Match r c i s c' i' s' → c' = c.
Proof.
  intros Hn H. induction H; simpl in Hn; reflect_guards; try done; eauto.
  - rewrite IHMatch2 by done. auto.
  - rewrite IHMatch2 by done. auto.
Qed.

(** An anchored pattern is only tried at the start. *)
Lemma find_anchored r i s : find_from (RCat RBegin r) (S i) s = None.
Proof. revert i. induction s as [|t s IH]; intros i; simpl; [done|]. apply IH. Qed.

Lemma FindStringSubmatch_anchored r s :
  FindStringSubmatch (RCat RBegin r) s = m (RCap 0 r) [] 0 (tokens s) (λ c _ _, Some c).
Proof.
  unfold FindStringSubmatch. destruct (tokens s) as [|t ts]; [simpl; by destruct (m _ _ _ _ _)|].
  cbn [find_from]. rewrite find_anchored. simpl. by destruct (m _ _ _ _ _).
Qed.

Lemma take_consumed (u s' : list tok) i : take (i + length u - i) (u ++ s') = u.
Proof. rewrite Nat.add_comm, Nat.add_sub. apply take_app_length. Qed.

Lemma MCap_inv n r c i s c' i' s' :
  Match (RCap n r) c i s c' i' s' →
  ∃ c1 u, Match r c i s c1 i' s' ∧ s = u ++ s' ∧ i' = i + length u ∧ c' = (n, text u) :: c1.
Proof.
  inversion 1 as [| | | | | | |? ? ? ? ? c1 ? ? Hm| |]; subst.
  destruct (Match_consumes _ _ _ _ _ _ _ Hm) as (u & -> & ->).
  exists c1, u. by rewrite take_consumed.
Qed.

Lemma MCap_intro n r c i u s' c1 :
  Match r c i (u ++ s') c1 (i + length u) s' →
  Match (RCap n r) c i (u ++ s') ((n, text u) :: c1) (i + length u) s'.
Proof. intros Hm. rewrite <- (take_consumed u s' i) at 2. by constructor. Qed.

Lemma MSet_inv neg rs c i s c' i' s' :
  Match (RSet neg rs) c i s c' i' s' →
  ∃ t, s = t :: s' ∧ in_set neg rs t.1 = true ∧ c' = c ∧ i' = S i.
Proof. inversion 1; subst. eauto. Qed.
