(* ===== verification/ScrubSecrets.v ===== *)
(** Secrets in URLs that are logged (helpers/url/scrub_secrets.go, log/secrets_cleanup.go). *)

From S2P Require Import Prelude GoLib Regex.

(** ** The expression *)

Definition word (s : string) : regex := RLit RFold s.

(** What is in front of the equal sign: the first group. *)
Definition scrub_name : regex :=
  RAlt (RCat (RSet false (set_of "?&"))
             (RCap 2 (RCat (RAlt (word "private") (RAlt (word "authenticity") (word "rss")))
                           (RCat (RSet false (set_of "-_")) (word "token")))))
       (RAlt (word "X-AMZ-Signature") (word "X-AMZ-Credential")).
Definition scrub_value : regex := RSet true (set_of "& ").
Definition scrubRegexp : regex := RCat (RCap 1 scrub_name) (RCat (RChar "=") (RStar true scrub_value)).

(** [ReplaceAllString] with [$1=[FILTERED]]: matches from left to right that do not overlap;
    no match is empty. What a match gives is its first group and what follows it. *)
Definition try_scrub (ts : list tok) : option (string * list tok) :=
  m scrubRegexp [] 0 ts (λ c _ s', Some (group c 1, s')).

Fixpoint scrub (fuel : nat) (ts : list tok) : string :=
  match fuel with
  | 0 => ""
  | S n =>
      match try_scrub ts with
      | Some (g, rest) => g +:+ "=[FILTERED]" +:+ scrub n rest
      | None => match ts with [] => "" | t :: rest => t.2 +:+ scrub n rest end
      end
  end.
Definition ScrubSecrets (url : string) : string := let ts := tokens url in scrub (S (length ts)) ts.

Example scrub_a_query :
  ScrubSecrets "GET /a?x=1&PRIVATE-TOKEN=abc&y=2 X-Amz-Signature=0f HTTP" =
  "GET /a?x=1&PRIVATE-TOKEN=[FILTERED]&y=2 X-Amz-Signature=[FILTERED] HTTP".
Proof. by vm_compute. Qed.

(** ** Matches are local *)

Fixpoint no_end (r : regex) : bool :=
  match r with
  | RCat r1 r2 | RAlt r1 r2 => no_end r1 && no_end r2
  | RStar _ r1 | RCap _ r1 => no_end r1
  | REnd => false
  | _ => true
  end.

Lemma Match_frame r c i s c' i' s' :
  no_end r = true → Match r c i s c' i' s' →
  ∃ u, s = u ++ s' ∧ i' = i + length u ∧ ∀ x, Match r c i (u ++ x) c' i' x.
Proof.
  intros Hn H. induction H as [c i s|neg rs c i t s Ht|r1 r2 c i s c1 i1 s1 c2 i2 s2 _ IH1 _ IH2
    |r1 r2 c i s c1 i1 s1 _ IH|r1 r2 c i s c1 i1 s1 _ IH|g r c i s|g r c i s c1 i1 s1 c2 i2 s2 _ IH1 Hlt _ IH2
    |n r c i s c1 i1 s1 _ IH|c s|c i]; simpl in Hn; reflect_guards.
  - exists []. split_and!; [done|simpl; lia|intros x; constructor].
  - exists [t]. split_and!; [done|simpl; lia|intros x; by constructor].
  - destruct (IH1 ltac:(done)) as (u & -> & -> & Hu), (IH2 ltac:(done)) as (v & -> & -> & Hv).
    exists (u ++ v). rewrite <- app_assoc, length_app. split_and!; [done|lia|]. intros x. rewrite <- app_assoc.
    econstructor; [apply Hu|apply Hv].
  - destruct (IH ltac:(done)) as (u & -> & -> & Hu). exists u. split_and!; [done..|]. intros x. by constructor.
  - destruct (IH ltac:(done)) as (u & -> & -> & Hu). exists u. split_and!; [done..|]. intros x. by apply MAltR.
  - exists []. split_and!; [done|simpl; lia|intros x; constructor].
  - destruct (IH1 ltac:(done)) as (u & -> & -> & Hu), (IH2 ltac:(done)) as (v & -> & -> & Hv).
    exists (u ++ v). rewrite <- app_assoc, length_app. split_and!; [done|lia|]. intros x. rewrite <- app_assoc.
    econstructor; [apply Hu|lia|apply Hv].
  - destruct (IH ltac:(done)) as (u & -> & -> & Hu). exists u. split_and!; [done..|]. intros x.
    rewrite take_consumed. by apply MCap_intro.
  - exists []. split_and!; [done..|]. intros x. constructor.
  - done.
Qed.

(** All runes that a pattern of single characters accepts satisfy [P]. *)
Fixpoint runes_within (P : Z → bool) (r : regex) : bool :=
  match r with
  | RSet neg rs => negb neg && forallb (λ '(lo, hi), (lo =? hi)%Z && P lo) rs
  | RCat r1 r2 | RAlt r1 r2 => runes_within P r1 && runes_within P r2
  | RStar _ r1 | RCap _ r1 => runes_within P r1
  | _ => true
  end.

Lemma in_set_within P rs r : forallb (λ '(lo, hi), (lo =? hi)%Z && P lo) rs = true → in_set false rs r = true → P r = true.
Proof.
  unfold in_set. intros Hf He. cbn [xorb] in He. apply existsb_exists in He as ([lo hi] & Hin & Hr).
  rewrite forallb_forall in Hf. specialize (Hf _ Hin). simpl in Hf. reflect_guards. assert (r = lo) by lia. by subst.
Qed.

Lemma Match_within P r c i s c' i' s' :
  runes_within P r = true → Match r c i s c' i' s' → ∃ u, s = u ++ s' ∧ Forall (λ t, P t.1 = true) u.
Proof.
  intros Hn H. induction H as [c i s|neg rs c i t s Ht|r1 r2 c i s c1 i1 s1 c2 i2 s2 _ IH1 _ IH2
    | | |g r c i s|g r c i s c1 i1 s1 c2 i2 s2 _ IH1 Hlt _ IH2|n r c i s c1 i1 s1 _ IH|c s|c i]; simpl in Hn; reflect_guards;
    eauto; try by exists [].
  - destruct neg; [done|]. exists [t]. split; [done|]. constructor; [|constructor]. by eapply in_set_within.
  - destruct (IH1 ltac:(done)) as (u & -> & Hu), (IH2 ltac:(done)) as (v & -> & Hv). exists (u ++ v).
    by rewrite <- app_assoc, Forall_app.
  - destruct (IH1 ltac:(done)) as (u & -> & Hu), (IH2 ltac:(done)) as (v & -> & Hv). exists (u ++ v).
    by rewrite <- app_assoc, Forall_app.
Qed.

(** ** Names of secrets *)

(** How a name starts, and what it holds after that. *)
Definition start_rune (r : Z) : bool := existsb (Z.eqb r) [63; 38; 120; 88]%Z.
Definition inner_rune (r : Z) : bool := negb (start_rune r) && negb (r =? 61)%Z && negb (r =? 32)%Z.
Definition sep (t : tok) : bool := (t.1 =? 38)%Z || (t.1 =? 32)%Z.
Definition is_eq (t : tok) : Prop := t.1 = 61%Z.

Definition is_name (nm : list tok) : Prop := ∃ c, Match scrub_name [] 0 nm c (length nm) [].

Lemma cat_shape r1 r2 c i s c' i' s' :
  runes_within start_rune r1 = true → runes_within inner_rune r2 = true →
  (∀ c i s c' i' s', Match r1 c i s c' i' s' → i' = S i) →
  Match (RCat r1 r2) c i s c' i' s' → ∃ h tl, s = (h :: tl) ++ s' ∧ start_rune h.1 = true ∧ Forall (λ t, inner_rune t.1 = true) tl.
Proof.
  intros H1 H2 Hone H. inversion H as [| |? ? ? ? ? c1 i1 s1 ? ? ? Hm1 Hm2| | | | | | |]; subst.
  destruct (Match_within _ _ _ _ _ _ _ _ H1 Hm1) as (u & -> & Hu). destruct (Match_within _ _ _ _ _ _ _ _ H2 Hm2) as (v & -> & Hv).
  destruct (Match_consumes _ _ _ _ _ _ _ Hm1) as (u' & Heq & Hi). apply app_inv_tail in Heq as <-.
  specialize (Hone _ _ _ _ _ _ Hm1). destruct u as [|h [|? ?]]; simpl in Hi; [lia| |lia].
  apply Forall_cons in Hu as [Hu _]. exists h, v. split; [done|]. split; [exact Hu|exact Hv].
Qed.

Lemma set_one neg rs c i s c' i' s' : Match (RSet neg rs) c i s c' i' s' → i' = S i.
Proof. by inversion 1. Qed.

Lemma scrub_name_shape c i s c' i' s' :
  Match scrub_name c i s c' i' s' → ∃ h tl, s = (h :: tl) ++ s' ∧ start_rune h.1 = true ∧ Forall (λ t, inner_rune t.1 = true) tl.
Proof.
  intros H. inversion H as [| | |? ? ? ? ? ? ? ? H1|? ? ? ? ? ? ? ? H1| | | | |]; subst.
  - eapply cat_shape; [| |apply set_one|exact H1]; done.
  - inversion H1 as [| | |? ? ? ? ? ? ? ? H2|? ? ? ? ? ? ? ? H2| | | | |]; subst;
      (eapply cat_shape; [| |apply set_one|exact H2]; done).
Qed.

Lemma is_name_shape nm : is_name nm →
  ∃ h tl, nm = h :: tl ∧ start_rune h.1 = true ∧ Forall (λ t, inner_rune t.1 = true) tl.
Proof. intros [c H]. destruct (scrub_name_shape _ _ _ _ _ _ H) as (h & tl & -> & ?). rewrite app_nil_r. eauto. Qed.

Lemma start_not_eq r : start_rune r = true → r ≠ 61%Z.
Proof. by intros H ->. Qed.
Lemma inner_not_eq r : inner_rune r = true → r ≠ 61%Z.
Proof. by intros H ->. Qed.

Lemma is_name_no_eq nm : is_name nm → Forall (λ t, ¬ is_eq t) nm.
Proof.
  intros (h & tl & -> & Hh & Ht)%is_name_shape. constructor; [by apply start_not_eq|].
  eapply Forall_impl; [exact Ht|]. intros t. apply inner_not_eq.
Qed.

(** The first equal sign ends the name. *)
Lemma first_eq_unique (a b x y : list tok) e e' :
  Forall (λ t, ¬ is_eq t) a → Forall (λ t, ¬ is_eq t) b → is_eq e → is_eq e' →
  a ++ e :: x = b ++ e' :: y → a = b ∧ x = y.
Proof.
  intros Ha. revert b. induction Ha as [|t a Ht Ha IH]; intros b Hb He He' Heq.
  - destruct Hb as [|t b Ht Hb]; simplify_eq/=; done.
  - destruct Hb as [|t' b Ht' Hb]; simplify_eq/=; [done|]. destruct (IH b) as [-> ->]; done.
Qed.

(** ** What one match does *)

(** Where the value of a parameter ends. *)
Fixpoint skip_value (ts : list tok) : list tok :=
  match ts with
  | [] => []
  | t :: ts' => if sep t then ts else skip_value ts'
  end.

Lemma leb_both a r : (a <=? r)%Z && (r <=? a)%Z = (r =? a)%Z.
Proof. destruct (Z.leb_spec a r), (Z.leb_spec r a), (Z.eqb_spec r a); simpl; (done || lia). Qed.

Lemma scrub_value_set r : in_set true (set_of "& ") r = negb ((r =? 38)%Z || (r =? 32)%Z).
Proof.
  unfold in_set. change (set_of "& ") with [(38, 38); (32, 32)]%Z. cbn [existsb]. rewrite !leb_both, orb_false_r. by destruct (_ || _).
Qed.

Lemma star_value c i ts {R} (k : caps → list tok → R) :
  m (RStar true scrub_value) c i ts (λ c _ s, Some (k c s)) = Some (k c (skip_value ts)).
Proof.
  unfold scrub_value. cbn [m]. revert i. induction ts as [|t ts IH]; intros i; [done|]. cbn [length skip_value].
  rewrite scrub_value_set. unfold sep. destruct ((t.1 =? 38)%Z || (t.1 =? 32)%Z); cbn [negb]; [done|].
  rewrite (proj2 (Nat.ltb_lt i (S i))) by lia. by rewrite IH.
Qed.

Lemma RChar_eq t : in_set false [(z_of "=", z_of "=")] t.1 = true ↔ is_eq t.
Proof.
  unfold in_set, is_eq. cbn [existsb]. rewrite leb_both, orb_false_r. change (z_of "=") with 61%Z.
  destruct (Z.eqb_spec t.1 61); simpl; split; done.
Qed.

Lemma try_scrub_spec ts g rest :
  try_scrub ts = Some (g, rest) ↔
  ∃ nm e r, ts = nm ++ e :: r ∧ is_name nm ∧ is_eq e ∧ g = text nm ∧ rest = skip_value r.
Proof.
  assert (Hsound : ∀ g rest, try_scrub ts = Some (g, rest) →
    ∃ nm e r, ts = nm ++ e :: r ∧ is_name nm ∧ is_eq e ∧ g = text nm ∧ rest = skip_value r).
  { intros g' rest' H. unfold try_scrub, scrubRegexp in H. change (m (RCat ?a ?b) ?c ?i ?s ?k) with (m a c i s (λ c1 i1 s1, m b c1 i1 s1 k)) in H.
    apply m_sound in H as (c1 & i1 & s1 & Hm & H).
    apply MCap_inv in Hm as (c2 & u & Hm & -> & -> & ->).
    change (m (RCat ?a ?b) ?c ?i ?s ?k) with (m a c i s (λ c1 i1 s1, m b c1 i1 s1 k)) in H. unfold RChar in H.
    change (m (RSet ?n ?rs) ?c ?i ?s ?k) with (match s with t :: s' => if in_set n rs t.1 then k c (S i) s' else None | [] => None end) in H.
    destruct s1 as [|e r]; [done|]. destruct (in_set false _ e.1) eqn:Ee; [|done]. apply RChar_eq in Ee.
    rewrite (star_value _ _ _ (λ c s, (group c 1, s))) in H. injection H as <- <-. exists u, e, r. split_and!; try done.
    destruct (Match_frame scrub_name _ _ _ _ _ _ eq_refl Hm) as (u' & Hu & _ & Hf). apply app_inv_tail in Hu as <-.
    exists c2. specialize (Hf []). rewrite app_nil_r in Hf. by rewrite Nat.add_0_l in Hf. }
  split; [apply Hsound|]. intros (nm & e & r & -> & Hn & He & -> & ->).
  assert (is_Some (try_scrub (nm ++ e :: r))) as [[g' rest'] Hs].
  { destruct Hn as [c Hc]. destruct (Match_frame scrub_name _ _ _ _ _ _ eq_refl Hc) as (u & Hu & _ & Hf).
    rewrite app_nil_r in Hu. subst u. unfold try_scrub, scrubRegexp.
    eapply m_complete with (c' := (1, text nm) :: c) (i' := S (length nm)) (s' := r); [|by eexists].
    eapply MCat; [apply (MCap_intro 1 _ [] 0); rewrite Nat.add_0_l; apply Hf|].
    eapply MCat; [apply MSet; by apply RChar_eq|apply MStar0]. }
  rewrite Hs. destruct (Hsound _ _ Hs) as (nm' & e' & r' & Heq & Hn' & He' & -> & ->).
  destruct (first_eq_unique nm nm' r r' e e') as [-> ->]; [by apply is_name_no_eq..|done|done|done|done].
Qed.

(** ** The value of a secret does not reach the log *)

Lemma skip_value_length ts : length (skip_value ts) ≤ length ts.
Proof. induction ts as [|t ts IH]; simpl; [lia|]. destruct (sep t); simpl; lia. Qed.

Lemma try_scrub_shrinks ts g rest : try_scrub ts = Some (g, rest) → length rest < length ts.
Proof.
  intros (nm & e & r & -> & _ & _ & _ & ->)%try_scrub_spec. pose proof (skip_value_length r).
  rewrite length_app. simpl. lia.
Qed.

(** The fuel is enough: more changes nothing. *)
Lemma scrub_fuel n k ts : length ts < n → length ts < k → scrub n ts = scrub k ts.
Proof.
  revert k ts. induction n as [|n IH]; intros [|k] ts Hn Hk; [lia..|]. simpl.
  destruct (try_scrub ts) as [[g rest]|] eqn:E.
  - apply try_scrub_shrinks in E. do 2 f_equal. apply IH; lia.
  - destruct ts as [|t ts]; [done|]. simpl in *. f_equal. apply IH; lia.
Qed.

Definition scrub_all (ts : list tok) : string := scrub (S (length ts)) ts.

Lemma scrub_all_eq ts :
  scrub_all ts =
    match try_scrub ts with
    | Some (g, rest) => g +:+ "=[FILTERED]" +:+ scrub_all rest
    | None => match ts with [] => "" | t :: rest => t.2 +:+ scrub_all rest end
    end.
Proof.
  unfold scrub_all at 1. cbn [scrub]. destruct (try_scrub ts) as [[g rest]|] eqn:E.
  - apply try_scrub_shrinks in E. do 2 f_equal. apply scrub_fuel; lia.
  - by destruct ts as [|t ts].
Qed.

(** The end of a value: nothing, or a separator. *)
Definition ends_value (post : list tok) : Prop := match post with [] => True | t :: _ => sep t = true end.

Lemma skip_value_app v post : Forall (λ t, sep t = false) v → ends_value post → skip_value (v ++ post) = post.
Proof.
  intros Hv Hp. induction Hv as [|t v Ht _ IH]; simpl; [|by rewrite Ht].
  destruct post as [|t post]; [done|]. simpl in *. by rewrite Hp.
Qed.

Lemma skip_value_inside p z :
  (∃ p', skip_value (p ++ z) = p' ++ z ∧ length p' ≤ length p ∧ ∀ z', skip_value (p ++ z') = p' ++ z') ∨
  (∀ z', skip_value (p ++ z') = skip_value z').
Proof.
  induction p as [|t p IH]; [by right|]. simpl. destruct (sep t); [left; by exists (t :: p)|].
  destruct IH as [(p' & H1 & H2 & H3)|H]; [left; exists p'; split_and!; [done|lia|done]|by right].
Qed.

(** Something before a name: what matches there ends before the name. *)
Lemma before_start (l r p z : list tok) h :
  Forall (λ t, start_rune t.1 = false) l → start_rune h.1 = true → l ++ r = p ++ h :: z →
  ∃ p', p = l ++ p' ∧ r = p' ++ h :: z.
Proof.
  intros Hl Hh. revert p. induction Hl as [|t l Ht _ IH]; intros p Heq; [by exists p|].
  destruct p as [|t' p]; simplify_eq/=; [congruence|]. destruct (IH p) as (p' & -> & ->); [done|]. by exists p'.
Qed.

Lemma try_scrub_before t p h z g rest :
  start_rune h.1 = true →
  try_scrub ((t :: p) ++ h :: z) = Some (g, rest) ↔
  ∃ nm e p', t :: p = nm ++ e :: p' ∧ is_name nm ∧ is_eq e ∧ g = text nm ∧ rest = skip_value (p' ++ h :: z).
Proof.
  intros Hh. rewrite try_scrub_spec. split.
  - intros (nm & e & r & Heq & Hn & He & -> & ->).
    destruct (is_name_shape nm Hn) as (h1 & tl & -> & Hs & Ht). simpl in Heq. injection Heq as <- Heq.
    destruct (before_start (tl ++ [e]) r p z h) as (p' & -> & ->); [|done|by rewrite <- app_assoc|].
    + apply Forall_app. split; [|constructor; [by rewrite He|constructor]]. eapply Forall_impl; [exact Ht|].
      intros x Hx. unfold inner_rune in Hx. destruct (start_rune x.1); done.
    + exists (t :: tl), e, p'. split_and!; try done. by rewrite <- app_assoc.
  - intros (nm & e & p' & Heq & Hn & He & -> & ->). exists nm, e, (p' ++ h :: z). split_and!; try done.
    rewrite Heq. by rewrite <- app_assoc.
Qed.

Lemma name_value_skip nm e v post :
  is_name nm → is_eq e → Forall (λ t, sep t = false) v → ends_value post →
  (∃ h tl, nm = h :: tl ∧ sep h = true) ∨ skip_value (nm ++ e :: v ++ post) = post.
Proof.
  intros Hn He Hv Hp. destruct (is_name_shape nm Hn) as (h & tl & -> & Hs & Ht).
  destruct (sep h) eqn:Eh; [left; eauto|right].
  change ((h :: tl) ++ e :: v ++ post) with ((h :: tl) ++ ([e] ++ v) ++ post). rewrite app_assoc.
  apply skip_value_app; [|done]. apply Forall_app. split.
  - constructor; [done|]. eapply Forall_impl; [exact Ht|]. intros x Hx. unfold inner_rune, start_rune in Hx. unfold sep.
    simpl in Hx. destruct (Z.eqb_spec x.1 38); [rewrite e0 in Hx; done|]. by destruct (x.1 =? 32)%Z; [rewrite !andb_false_r in Hx|].
  - apply Forall_app. split; [|done]. constructor; [|constructor]. unfold sep. by rewrite He.
Qed.

Lemma scrub_hides_value pre nm e v v' post :
  is_name nm → is_eq e → Forall (λ t, sep t = false) v → Forall (λ t, sep t = false) v' → ends_value post →
  scrub_all (pre ++ nm ++ e :: v ++ post) = scrub_all (pre ++ nm ++ e :: v' ++ post).
Proof.
  intros Hn He Hv Hv' Hp. remember (length pre) as n eqn:Hlen. revert pre Hlen.
  induction (lt_wf n) as [n _ IH]. intros [|t p] ->.
  { assert (H : ∀ x, Forall (λ t, sep t = false) x → try_scrub (nm ++ e :: x ++ post) = Some (text nm, post)).
    { intros x Hx. apply try_scrub_spec. exists nm, e, (x ++ post). split_and!; try done. by rewrite skip_value_app. }
    simpl. rewrite !(scrub_all_eq (nm ++ _)), !H by done. done. }
  destruct (is_name_shape nm Hn) as (h & tl & Hnm & Hs & _).
  assert (Hcase : ∀ x x', Forall (λ t, sep t = false) x → Forall (λ t, sep t = false) x' →
    ∀ g r, try_scrub ((t :: p) ++ nm ++ e :: x ++ post) = Some (g, r) →
    ∃ r', try_scrub ((t :: p) ++ nm ++ e :: x' ++ post) = Some (g, r') ∧
      (r = r' ∨ ∃ p', length p' < length (t :: p) ∧ r = p' ++ nm ++ e :: x ++ post ∧ r' = p' ++ nm ++ e :: x' ++ post)).
  { intros x x' Hx Hx' g r. rewrite Hnm. intros (nm1 & e1 & p' & Heq & Hn1 & He1 & -> & ->)%try_scrub_before; [|done].
    exists (skip_value (p' ++ (h :: tl) ++ e :: x' ++ post)). split; [apply try_scrub_before; eauto 10|].
    assert (Hlt : length p' < length (t :: p)) by (apply (f_equal length) in Heq; rewrite length_app in Heq; simpl in *; unfold tok in *; lia).
    destruct (skip_value_inside p' ((h :: tl) ++ e :: x ++ post)) as [(p2 & H1 & H2 & H3)|H3].
    - right. exists p2. split; [unfold tok in *; lia|]. split; [exact H1|apply H3].
    - change (h :: tl ++ e :: x ++ post) with ((h :: tl) ++ e :: x ++ post).
      change (h :: tl ++ e :: x' ++ post) with ((h :: tl) ++ e :: x' ++ post).
      rewrite !H3. destruct (name_value_skip nm e x post) as [(h' & tl' & Hnm' & Hsep)|H4]; [done..| |].
      + right. exists []. split; [simpl; unfold tok in *; lia|]. rewrite Hnm in Hnm'. injection Hnm' as <- <-. rewrite ?Hnm. simpl. rewrite Hsep. split; reflexivity.
      + left. destruct (name_value_skip nm e x' post) as [(h' & tl' & Hnm' & Hsep)|H5]; [done..| |rewrite Hnm in H4, H5; exact (eq_trans H4 (eq_sym H5))].
        exfalso. rewrite Hnm' in H4. simpl in H4. rewrite Hsep in H4. apply (f_equal length) in H4. simpl in H4.
        rewrite !length_app in H4. simpl in H4. rewrite length_app in H4. unfold tok in *. lia. }
  rewrite (scrub_all_eq ((t :: p) ++ _)), (scrub_all_eq ((t :: p) ++ nm ++ e :: v' ++ post)).
  destruct (try_scrub ((t :: p) ++ nm ++ e :: v ++ post)) as [[g r]|] eqn:E.
  - destruct (Hcase v v' Hv Hv' g r E) as (r' & -> & [->|(p' & Hl & -> & ->)]); [done|]. do 2 f_equal. by eapply IH.
  - destruct (try_scrub ((t :: p) ++ nm ++ e :: v' ++ post)) as [[g r]|] eqn:E'.
    + destruct (Hcase v' v Hv' Hv g r E') as (r' & Hr' & _). congruence.
    + simpl. f_equal. eapply IH; [|done]. simpl. unfold tok in *. lia.
Qed.

(** *** Texts *)

Lemma not_cont c : (z_of c < 128)%Z → is_cont (z_of c) = false.
Proof. intros H. unfold is_cont. rewrite (proj2 (Z.leb_gt 0x80 _)) by lia. done. Qed.

Lemma below_range lo c x : (z_of c < 128)%Z → (128 ≤ lo)%Z → (lo <=? z_of c)%Z && x = false.
Proof. intros H1 H2. by rewrite (proj2 (Z.leb_gt lo _)) by lia. Qed.

(** An ASCII byte after a text does not change how the text is decoded. *)
Lemma DecodeRune_app_ascii x a c b : (z_of c < 128)%Z →
  DecodeRune (String x a +:+ String c b) = DecodeRune (String x a) ∧ (DecodeRune (String x a)).2 ≤ slen (String x a).
Proof.
  intros Hc. rewrite string_app_cons. unfold DecodeRune. set (b0 := z_of x).
  destruct (b0 <? 128)%Z; [simpl; split; [done|lia]|]. destruct ((194 <=? b0) && (b0 <=? 223))%Z.
  { destruct a as [|c1 a]; [rewrite string_app_nil_l, not_cont by done; simpl; split; [done|lia]|].
    rewrite string_app_cons. destruct (is_cont (z_of c1)); simpl; split; (done || lia). }
  destruct ((224 <=? b0) && (b0 <=? 239))%Z.
  { assert (Hlo : (128 ≤ if (b0 =? 224) then 160 else 128)%Z) by (destruct (b0 =? 224)%Z; lia).
    destruct a as [|c1 [|c2 a]]; rewrite ?string_app_cons, ?string_app_nil_l.
    - destruct b as [|? b]; [simpl; split; [done|lia]|]. cbv zeta. rewrite below_range by done. simpl. split; [done|lia].
    - cbv zeta. rewrite not_cont, andb_false_r by done. simpl. split; [done|lia].
    - cbv zeta. destruct (_ && is_cont (z_of c2)); simpl; split; (done || lia). }
  destruct ((240 <=? b0) && (b0 <=? 244))%Z; [|simpl; split; [done|lia]].
  assert (Hlo : (128 ≤ if (b0 =? 240) then 144 else 128)%Z) by (destruct (b0 =? 240)%Z; lia).
  destruct a as [|c1 [|c2 [|c3 a]]]; rewrite ?string_app_cons, ?string_app_nil_l.
  - destruct b as [|? [|? b]]; [simpl; split; [done|lia]..|]. cbv zeta. rewrite below_range by done. simpl. split; [done|lia].
  - destruct b as [|? b]; [simpl; split; [done|lia]|]. cbv zeta. rewrite not_cont, andb_false_r by done. simpl. split; [done|lia].
  - cbv zeta. rewrite (not_cont c), andb_false_r by done. simpl. split; [done|lia].
  - cbv zeta. destruct (_ && is_cont (z_of c3)); simpl; split; (done || lia).
Qed.

Lemma tokens_app_ascii a c b : (z_of c < 128)%Z → tokens (a +:+ String c b) = tokens a ++ tokens (String c b).
Proof.
  intros Hc. induction a as [|x a r w E Hw IH] using tokens_ind; [done|].
  destruct (DecodeRune_app_ascii x a c b Hc) as [Hd Hl]. rewrite E in Hd, Hl. simpl in Hl.
  pose proof (tokens_cons x a) as H1. rewrite E in H1. rewrite H1.
  pose proof (tokens_cons x (a +:+ String c b)) as H2. rewrite <- string_app_cons, Hd in H2. rewrite H2.
  rewrite stake_app_le, sdrop_app_le, IH by done. done.
Qed.

Lemma tokens_ascii_cons c b : (z_of c < 128)%Z → tokens (String c b) = (z_of c, String c "") :: tokens b.
Proof.
  intros Hc. pose proof (tokens_cons c b) as H. unfold DecodeRune in H. rewrite (proj2 (Z.ltb_lt _ 0x80)) in H by lia.
  rewrite H. by destruct b.
Qed.

(** The name of a parameter that holds a secret, with what is in front of it. *)
Definition secret_name (name : string) : bool :=
  match m scrub_name [] 0 (tokens name) (λ c _ s, match s with [] => Some c | _ => None end) with Some _ => true | None => false end.

Lemma secret_name_spec name : secret_name name = true → is_name (tokens name).
Proof.
  unfold secret_name. destruct (m _ _ _ _ _) as [x|] eqn:E; [|done]. intros _.
  apply m_sound in E as (c & i & s & Hm & Hs). destruct s; [|done]. exists c.
  destruct (Match_consumes _ _ _ _ _ _ _ Hm) as (u & Hu & ->). rewrite app_nil_r in Hu. rewrite Hu at 2. done.
Qed.

(** A text without ampersand and space; the end of a value. *)
Definition no_sep (s : string) : bool := forallb (λ c, negb ((z_of c =? 38) || (z_of c =? 32))%Z) (String.list_ascii_of_string s).
Definition at_end (s : string) : bool := match s with "" => true | String c _ => ((z_of c =? 38) || (z_of c =? 32))%Z end.

Lemma no_sep_tokens v : no_sep v = true → Forall (λ t, sep t = false) (tokens v).
Proof.
  intros Hv. unfold sep. apply (tokens_bytes (λ r, ((r =? 38) || (r =? 32))%Z = false) (tokens v)).
  - apply tokens_ok.
  - intros r Hr. rewrite (proj2 (Z.eqb_neq r 38)), (proj2 (Z.eqb_neq r 32)) by lia. done.
  - rewrite text_tokens. unfold no_sep in Hv. rewrite forallb_forall in Hv. apply List.Forall_forall. intros c Hc.
    by apply negb_true_iff, Hv.
Qed.

Lemma at_end_ascii c s : at_end (String c s) = true → (z_of c < 128)%Z.
Proof. simpl. destruct (Z.eqb_spec (z_of c) 38), (Z.eqb_spec (z_of c) 32); simpl; (lia || done). Qed.

Lemma at_end_tokens post : at_end post = true → ends_value (tokens post).
Proof.
  destruct post as [|c s]; [done|]. intros H. pose proof (at_end_ascii c s H). rewrite tokens_ascii_cons by done. exact H.
Qed.

Lemma tokens_value v post : at_end post = true → tokens (v +:+ post) = tokens v ++ tokens post.
Proof.
  destruct post as [|c s]; [by rewrite string_app_nil_r, app_nil_r|]. intros H%at_end_ascii. by apply tokens_app_ascii.
Qed.

Lemma secret_name_head name : secret_name name = true → ∃ c n, name = String c n ∧ (z_of c < 128)%Z.
Proof.
  intros (h & tl & Ht & Hs & _)%secret_name_spec%is_name_shape. pose proof (tokens_ok name) as Hok. rewrite Ht in Hok.
  apply Forall_cons in Hok as [Hh _]. pose proof (text_tokens name) as Hn. rewrite Ht in Hn. simpl in Hn.
  destruct Hh as [(c & -> & Hc)|(Hr & _)].
  - simpl in Hn. rewrite string_app_cons in Hn. eauto.
  - exfalso. unfold start_rune in Hs. simpl in Hs. repeat (apply orb_prop in Hs as [Hs|Hs]; [apply Z.eqb_eq in Hs; lia|]). done.
Qed.

Lemma tokens_line pre name v post : secret_name name = true → at_end post = true →
  tokens (pre +:+ name +:+ "=" +:+ v +:+ post) = tokens pre ++ tokens name ++ (61%Z, "=") :: tokens v ++ tokens post.
Proof.
  intros Hn Hp. destruct (secret_name_head name Hn) as (c & n & -> & Hc).
  rewrite string_app_cons, tokens_app_ascii by done. f_equal. rewrite <- string_app_cons.
  change ("=" +:+ v +:+ post) with (String "=" (v +:+ post)). rewrite tokens_app_ascii by done. f_equal.
  rewrite tokens_ascii_cons by done. f_equal. by apply tokens_value.
Qed.

Lemma scrubbing_hides_value pre name v v' post :
  secret_name name = true → no_sep v = true → no_sep v' = true → at_end post = true →
  ScrubSecrets (pre +:+ name +:+ "=" +:+ v +:+ post) = ScrubSecrets (pre +:+ name +:+ "=" +:+ v' +:+ post).
Proof.
  intros Hn Hv Hv' Hp. unfold ScrubSecrets. rewrite !tokens_line by done.
  apply scrub_hides_value; [by apply secret_name_spec|done|by apply no_sep_tokens..|by apply at_end_tokens].
Qed.
