(* ===== verification/Logging.v ===== *)
(** What the runner logs: the logger of a build (common/build_logger.go), the formatter of the
    service's log (log/runner_formatter.go), the hooks that clean, forward and count entries
    (log/secrets_cleanup.go, log/system_logger.go, helpers/prometheus/log_hook.go,
    helpers/sentry/log_hook.go) and the counts of failed jobs
    (helpers/prometheus/failures_collector.go). *)

From stdpp Require Import sorting.
From S2P Require Import Prelude GoLib Types TraceBuffer Shells HelperCommands Regex ScrubSecrets.

(** ** Entries of the service's log *)

(** logrus's levels, the most severe first. *)
Inductive level := PanicLevel | FatalLevel | ErrorLevel | WarnLevel | InfoLevel | DebugLevel.
#[export] Instance level_eq_dec : EqDecision level.
Proof. solve_decision. Defined.
Definition severity (l : level) : nat :=
  match l with PanicLevel => 0 | FatalLevel => 1 | ErrorLevel => 2 | WarnLevel => 3 | InfoLevel => 4 | DebugLevel => 5 end.
#[export] Instance level_countable : Countable level.
Proof. refine (inj_countable' severity (λ n, match n with 0 => PanicLevel | 1 => FatalLevel | 2 => ErrorLevel | 3 => WarnLevel | 4 => InfoLevel | _ => DebugLevel end) _). by intros []. Defined.

(** An entry: the data is the list of its fields as the loop over the map meets them, each
    with its text. *)
Record Entry := mkEntry { en_Level : level; en_Message : string; en_Data : list (string * string) }.

Definition lf : string := bstr 10.
(** [fmt.Sprintln] of texts, and the message logrus makes of it. *)
Definition Sprintln (args : list string) : string := Join args " " +:+ lf.
Definition message (args : list string) : string := Join args " ".

(** *** Cleaning, log/secrets_cleanup.go *)

Definition SecretsCleanup_Fire (e : Entry) : Entry := mkEntry (en_Level e) (ScrubSecrets (en_Message e)) (en_Data e).

(** *** The formatter, log/runner_formatter.go *)

Definition ANSI_BOLD_WHITE : string := bstr 27 +:+ "[37;1m".
Definition ANSI_CLEAR : string := bstr 27 +:+ "[0K".

Record RunnerTextFormatter := mkFormatter { DisableColors : bool; DisableSorting : bool }.

Definition getColorsAndPrefix (f : RunnerTextFormatter) (l : level) : string * string * string :=
  let '(color, prefix) :=
    match l with
    | DebugLevel => (ANSI_BOLD_WHITE, "")
    | WarnLevel => (ANSI_YELLOW, "WARNING: ")
    | ErrorLevel => (Buffer.ANSI_BOLD_RED, "ERROR: ")
    | FatalLevel => (Buffer.ANSI_BOLD_RED, "FATAL: ")
    | PanicLevel => (Buffer.ANSI_BOLD_RED, "PANIC: ")
    | InfoLevel => ("", "")
    end in
  if DisableColors f then ("", "", prefix) else (color, Buffer.ANSI_RESET, prefix).

Definition prepareKeys (f : RunnerTextFormatter) (e : Entry) : list string :=
  let keys := (en_Data e).*1 in
  if DisableSorting f then keys else merge_sort string_le keys.

Fixpoint spaces (n : nat) : string := match n with 0 => "" | S k => " " +:+ spaces k end.
(** The verb for a text to the left of its field: blanks up to the width, which counts runes. *)
Definition pad_right (width : nat) (s : string) : string := s +:+ spaces (width - length (runes s)).

Fixpoint data_get (d : list (string * string)) (k : string) : string :=
  match d with [] => "" | (k', v) :: d' => if bool_decide (k' = k) then v else data_get d' k end.

Definition printColored (f : RunnerTextFormatter) (e : Entry) : string :=
  let '(levelColor, resetColor, levelPrefix) := getColorsAndPrefix f (en_Level e) in
  let indentLength := 50 - slen levelPrefix in
  levelColor +:+ levelPrefix +:+ pad_right indentLength (en_Message e) +:+ resetColor +:+ " "
  +:+ foldr (λ k acc, " " +:+ levelColor +:+ k +:+ resetColor +:+ "=" +:+ data_get (en_Data e) k +:+ acc) "" (prepareKeys f e).

Definition Format (f : RunnerTextFormatter) (e : Entry) : string := printColored f e +:+ lf.

(** *** The system's log, log/system_logger.go *)

Inductive system_call := SysError (msg : string) | SysWarning (msg : string) | SysInfo (msg : string).

Definition SystemService_Levels : list level := [PanicLevel; FatalLevel; ErrorLevel; WarnLevel; InfoLevel].
(** [entry_String] is [entry.String()]. *)
Definition SystemService_Fire (entry_String : Entry → result string string) (hook_level : level) (e : Entry)
    : option string * list system_call :=
  if severity hook_level <? severity (en_Level e) then (None, [])
  else match entry_String e with
       | Err err => (Some err, [])
       | Ok msg => (None, match en_Level e with
                          | PanicLevel | FatalLevel | ErrorLevel => [SysError msg]
                          | WarnLevel => [SysWarning msg]
                          | InfoLevel => [SysInfo msg]
                          | DebugLevel => []
                          end)
       end.

(** *** Sentry, helpers/sentry/log_hook.go *)

(** What is captured: the message, the fields, and whether it is waited for. *)
Record captured := mkCaptured { cp_message : string; cp_tags : list (string * string); cp_wait : bool }.
Definition sentry_Levels : list level := [PanicLevel; FatalLevel; ErrorLevel].
Definition sentry_Fire (has_client : bool) (e : Entry) : list captured :=
  if negb has_client then []
  else match en_Level e with
       | PanicLevel | FatalLevel => [mkCaptured (en_Message e) (en_Data e) true]
       | ErrorLevel => [mkCaptured (en_Message e) (en_Data e) false]
       | _ => []
       end.

(** *** Counting entries, helpers/prometheus/log_hook.go *)

Definition LogHook_Levels : list level := [PanicLevel; FatalLevel; ErrorLevel; WarnLevel].
Abbreviation LogHook := (gmap level Z).
Definition NewLogHook : LogHook := list_to_map ((λ l, (l, 0%Z)) <$> LogHook_Levels).
(** A level without a counter would be a nil pointer. *)
Definition LogHook_Fire (h : LogHook) (l : level) : option LogHook :=
  match h !! l with Some n => Some (<[l := int64_wrap (n + 1)]> h) | None => None end.
(** What is collected: the number of each level. *)
Definition LogHook_Collect (h : LogHook) : list (level * Z) := (λ l, (l, default 0%Z (h !! l))) <$> LogHook_Levels.

(** logrus calls a hook for the entries of its levels. *)
Definition fire_counted (h : option LogHook) (l : level) : option LogHook :=
  if bool_decide (l ∈ LogHook_Levels) then h ≫= λ h, LogHook_Fire h l else h.

(** ** The logger of a build, common/build_logger.go *)

(** The trace, if any, with what was written to it; the entries given to the service's log. *)
Record BuildLogger := mkLogger {
  bl_trace : option bool; bl_entry : bool; bl_written : string; bl_logged : list Entry }.

Definition SendRawLog (b : BuildLogger) (text : string) : BuildLogger :=
  match bl_trace b with
  | Some _ => mkLogger (bl_trace b) (bl_entry b) (bl_written b +:+ text) (bl_logged b)
  | None => b
  end.

Definition log_entry (l : level) (args : list string) (b : BuildLogger) : BuildLogger :=
  mkLogger (bl_trace b) (bl_entry b) (bl_written b) (bl_logged b ++ [mkEntry l (message args) []]).

(** [bl_trace b = Some stdout]: the trace is the standard output. *)
Definition sendLog (l : level) (logPrefix : string) (args : list string) (b : BuildLogger) : BuildLogger :=
  let b := match bl_trace b with
           | Some _ => SendRawLog (SendRawLog b (ScrubSecrets (logPrefix +:+ Sprintln args))) Buffer.ANSI_RESET
           | None => b
           end in
  match bl_trace b, args with
  | Some true, _ => b
  | _, [] => b
  | _, _ => log_entry l args b
  end.

Definition with_entry (b : BuildLogger) (k : BuildLogger → BuildLogger) : BuildLogger := if bl_entry b then k b else b.

Definition bl_Debugln (args : list string) (b : BuildLogger) : BuildLogger := with_entry b (log_entry DebugLevel args).
Definition bl_Println (args : list string) (b : BuildLogger) : BuildLogger := with_entry b (sendLog DebugLevel ANSI_CLEAR args).
Definition bl_Infoln (args : list string) (b : BuildLogger) : BuildLogger := with_entry b (sendLog InfoLevel ANSI_BOLD_GREEN args).
Definition bl_Warningln (args : list string) (b : BuildLogger) : BuildLogger :=
  with_entry b (sendLog WarnLevel (ANSI_YELLOW +:+ "WARNING: ") args).
Definition bl_SoftErrorln (args : list string) (b : BuildLogger) : BuildLogger :=
  with_entry b (sendLog WarnLevel (Buffer.ANSI_BOLD_RED +:+ "ERROR: ") args).
Definition bl_Errorln (args : list string) (b : BuildLogger) : BuildLogger :=
  with_entry b (sendLog ErrorLevel (Buffer.ANSI_BOLD_RED +:+ "ERROR: ") args).

Definition NewBuildLogger (trace : option bool) (entry : bool) : BuildLogger := mkLogger trace entry "" [].

(** ** Failed jobs, helpers/prometheus/failures_collector.go *)

Definition reason_number (r : JobFailureReason) : nat :=
  match r with NoneFailure => 0 | ScriptFailure => 1 | RunnerSystemFailure => 2 | JobExecutionTimeout => 3 end.
#[export] Instance reason_countable : Countable JobFailureReason.
Proof. refine (inj_countable' reason_number (λ n, match n with 0 => NoneFailure | 1 => ScriptFailure | 2 => RunnerSystemFailure | _ => JobExecutionTimeout end) _). by intros []. Defined.

Abbreviation FailuresCollector := (gmap (string * JobFailureReason) Z).
Definition NewFailuresCollector : FailuresCollector := ∅.
Definition RecordFailure (fc : FailuresCollector) (reason : JobFailureReason) (runnerDescription : string) : FailuresCollector :=
  let failure := (runnerDescription, reason) in
  match fc !! failure with
  | Some n => <[failure := int64_wrap (n + 1)]> fc
  | None => <[failure := 1%Z]> fc
  end.
Definition fc_Collect (fc : FailuresCollector) : list (string * JobFailureReason * Z) := map_to_list fc.

(** *** The trace of a local run, common/trace.go *)

(** [Writer]: what was written, if there is one. *)
Record Trace := mkTraceWriter { tw_Writer : option string }.
Definition Trace_Write (t : Trace) (p : string) : result string nat * Trace :=
  match tw_Writer t with
  | None => (Err "invalid argument", t)
  | Some w => (Ok (slen p), mkTraceWriter (Some (w +:+ p)))
  end.
Definition Trace_IsStdout : bool := true.

(** ** Counters *)

Lemma int64_wrap_succ x : int64_wrap (int64_wrap x + 1) = int64_wrap (x + 1).
Proof.
  unfold int64_wrap.
  replace ((x + 2 ^ 63) mod 2 ^ 64 - 2 ^ 63 + 1 + 2 ^ 63)%Z with ((x + 2 ^ 63) mod 2 ^ 64 + 1)%Z by lia.
  rewrite Zplus_mod_idemp_l. do 2 f_equal. lia.
Qed.

Definition occurrences {A} `{EqDecision A} (x : A) (l : list A) : Z := Z.of_nat (length (filter (λ y, y = x) l)).

Lemma occurrences_snoc {A} `{EqDecision A} (x y : A) l :
  occurrences x (l ++ [y]) = (occurrences x l + if decide (y = x) then 1 else 0)%Z.
Proof.
  unfold occurrences. rewrite filter_app, length_app, filter_cons. destruct (decide (y = x)); simpl; lia.
Qed.

(** The number of entries of each level that is collected is the number that was logged. *)
Lemma log_hook_counts ls :
  ∃ h, foldl fire_counted (Some NewLogHook) ls = Some h ∧
    LogHook_Collect h = (λ l, (l, int64_wrap (occurrences l ls))) <$> LogHook_Levels.
Proof.
  assert (H : ∃ h, foldl fire_counted (Some NewLogHook) ls = Some h ∧
    ∀ l, l ∈ LogHook_Levels → h !! l = Some (int64_wrap (occurrences l ls))).
  { induction ls as [|y ls IH] using rev_ind; [exists NewLogHook; split; [done|]; intros l Hl;
      repeat (apply elem_of_cons in Hl as [->|Hl]; [by vm_compute|]); by apply elem_of_nil in Hl|].
    destruct IH as (h & Hf & Hh). rewrite foldl_app, Hf. simpl. unfold fire_counted. case_bool_decide as Hy.
    - simpl. unfold LogHook_Fire. rewrite (Hh y Hy). eexists. split; [done|]. intros l Hl. rewrite occurrences_snoc.
      destruct (decide (y = l)) as [->|Hne]; [by rewrite lookup_insert_eq, int64_wrap_succ|].
      rewrite lookup_insert_ne, Z.add_0_r by done. by apply Hh.
    - exists h. split; [done|]. intros l Hl. rewrite occurrences_snoc, decide_False by (intros ->; done). rewrite Z.add_0_r. by apply Hh. }
  destruct H as (h & Hf & Hh). exists h. split; [done|]. unfold LogHook_Collect. apply list_fmap_ext. intros i l Hl.
  rewrite Hh; [done|]. by eapply list_elem_of_lookup_2.
Qed.

(** So is the number of failures of each runner and reason. *)
Lemma failures_are_counted fs d r :
  foldl (λ fc '(r, d), RecordFailure fc r d) NewFailuresCollector fs !! (d, r) =
    if decide ((r, d) ∈ fs) then Some (int64_wrap (occurrences (r, d) fs)) else None.
Proof.
  induction fs as [|[r' d'] fs IH] using rev_ind; [done|]. rewrite foldl_app, occurrences_snoc. simpl. unfold RecordFailure at 1.
  destruct (decide ((r', d') = (r, d))) as [[= -> ->]|Hne].
  - rewrite IH, (decide_True (P := _ ∈ fs ++ _)) by set_solver. destruct (decide ((r, d) ∈ fs)) as [Hin|Hout].
    + by rewrite lookup_insert_eq, int64_wrap_succ.
    + rewrite lookup_insert_eq. f_equal. unfold occurrences.
      assert (filter (λ y, y = (r, d)) fs = []) as ->; [|done]. apply elem_of_nil_inv.
      intros x [-> Hx]%list_elem_of_filter. done.
  - assert (Hk : (d', r') ≠ (d, r)) by congruence. rewrite Z.add_0_r.
    assert (Hrest : ∀ z, <[(d', r') := z]> (foldl (λ fc '(r, d), RecordFailure fc r d) NewFailuresCollector fs) !! (d, r) =
      if decide ((r, d) ∈ fs ++ [(r', d')]) then Some (int64_wrap (occurrences (r, d) fs)) else None).
    { intros z. rewrite lookup_insert_ne, IH by done.
      destruct (decide ((r, d) ∈ fs)), (decide ((r, d) ∈ fs ++ [(r', d')])); set_solver. }
    destruct (_ !! (d', r')); apply Hrest.
Qed.

(** ** The formatter does not depend on the order of a map *)

Lemma data_get_elem d k v : NoDup d.*1 → (k, v) ∈ d → data_get d k = v.
Proof.
  induction d as [|[k' v'] d IH]; [by intros _ ?%elem_of_nil|]. rewrite fmap_cons. intros [Hk Hd]%NoDup_cons. simpl in Hk.
  intros [[= -> ->]|Hin]%elem_of_cons; simpl; [by rewrite bool_decide_eq_true_2|].
  rewrite bool_decide_eq_false_2; [by apply IH|]. intros ->. apply Hk, list_elem_of_fmap. by exists (k, v).
Qed.

Lemma data_get_perm d d' k : NoDup d.*1 → d ≡ₚ d' → k ∈ d.*1 → data_get d k = data_get d' k.
Proof.
  intros Hd Hp Hk. apply list_elem_of_fmap in Hk as ([k0 v] & -> & Hin). simpl.
  rewrite (data_get_elem d k0 v) by done. symmetry. apply data_get_elem; [by rewrite <- Hp|by rewrite <- Hp].
Qed.

Lemma leb_cons a x b y :
  String.leb (String a x) (String b y) = match Ascii.compare a b with Eq => String.leb x y | Lt => true | Gt => false end.
Proof. unfold String.leb. simpl. by destruct (Ascii.compare a b). Qed.

#[local] Instance string_le_trans : Transitive string_le.
Proof.
  intros x. unfold string_le. induction x as [|a x IH]; intros [|b y] [|c z]; try done. rewrite !leb_cons. unfold Ascii.compare.
  destruct (N.compare_spec (N_of_ascii a) (N_of_ascii b)), (N.compare_spec (N_of_ascii b) (N_of_ascii c)),
    (N.compare_spec (N_of_ascii a) (N_of_ascii c)); try done; try lia. apply IH.
Qed.
#[local] Instance string_le_antisym : AntiSymm eq string_le.
Proof. intros x y Hx Hy. by apply String.leb_antisym. Qed.

Lemma sorted_keys_perm (l l' : list string) : l ≡ₚ l' → merge_sort string_le l = merge_sort string_le l'.
Proof.
  intros Hp. apply (StronglySorted_unique string_le).
  - apply (StronglySorted_merge_sort string_le).
  - apply (StronglySorted_merge_sort string_le).
  - by rewrite !(merge_sort_Permutation string_le).
Qed.

(** The text of an entry is the same in whatever order the fields of its map are met. *)
Lemma format_is_deterministic f lv msg d d' :
  DisableSorting f = false → NoDup d.*1 → d ≡ₚ d' → Format f (mkEntry lv msg d) = Format f (mkEntry lv msg d').
Proof.
  intros Hs Hd Hp. unfold Format, printColored, prepareKeys. simpl. rewrite Hs.
  destruct (getColorsAndPrefix f lv) as [[color reset] prefix].
  rewrite <- (sorted_keys_perm d.*1 d'.*1) by (by rewrite Hp). do 6 f_equal.
  assert (Hin : Forall (λ k, k ∈ d.*1) (merge_sort string_le d.*1)).
  { apply Forall_forall. intros k. by rewrite (merge_sort_Permutation string_le). }
  induction Hin as [|k ks Hk _ IH]; [done|]. simpl. by rewrite IH, (data_get_perm d d').
Qed.

(** ** Secrets in the log of a build *)



(** A secret at the end of a line takes the end of the line with it. *)
Lemma scrubbing_joins_lines : ScrubSecrets ("/feed?rss_token=abc" +:+ lf) = "/feed?rss_token=[FILTERED]".
Proof. by vm_compute. Qed.
