(* ===== verification/VolumeParser.v ===== *)
(** Volume specifications of the Docker executor,
    executors/docker/internal/volumes/parser: [source:]destination[:mode] parsed by
    a regular expression per operating system. For Linux the expression is shown
    equivalent to splitting at the colons ([linux_parser_is_split]). *)

From S2P Require Import Prelude GoLib Regex.

Record Volume := mkVolume { Source : string; Destination : string; Mode : string }.

#[export] Instance Volume_eq_dec : EqDecision Volume.
Proof. solve_decision. Defined.

Definition newVolume (source destination mode : string) : Volume :=
  mkVolume source destination mode.

Definition VolumeDefinition (v : Volume) : string :=
  let parts := if bool_decide (Source v ≠ "") then [Source v] else [] in
  let parts := parts ++ [Destination v] in
  let parts := if bool_decide (Mode v ≠ "") then parts ++ [Mode v] else parts in
  Join parts ":".

Definition Len (v : Volume) : nat :=
  (if bool_decide (Source v ≠ "") then 1 else 0)
  + (if bool_decide (Destination v ≠ "") then 1 else 0).

Inductive VolumeError :=
| InvalidVolumeSpecError (spec : string)
| ErrOSNotSupported (os : string).

(** A compiled expression with its [SubexpNames]. *)
Record Regexp := { prog : regex; SubexpNames : list string }.

Definition matchesToVolumeSpecParts (spec : string) (specExp : Regexp)
    : result VolumeError (string → string) :=
  match FindStringSubmatch (prog specExp) spec with
  | None => Err (InvalidVolumeSpecError spec)
  | Some match_ =>
      let matchgroups : gmap string string :=
        foldl (λ mg p, <[p.2 := group match_ p.1]> mg) ∅ (imap pair (SubexpNames specExp)) in
      Ok (λ g, default "" (matchgroups !! g))
  end.

(** The characters no directory or volume name holds: backslash, slash, colon, star,
    question mark, double quote, angle brackets, bar, CR and LF. *)
Definition no_name : list (Z * Z) := set_of "\/:*?<>|" ++ [(34, 34); (13, 13); (10, 10)]%Z.

(** A directory holds no space either. *)
Definition no_dir : list (Z * Z) := no_name ++ set_of " ".

(** *** Linux *)

Definition linuxDir : regex :=
  RCat (RChar "/")
       (RStar true (RCat (RPlus (RSet true no_dir)) (ROpt (RChar "/")))).
Definition linuxVolumeName : regex := RPlus (RSet true no_name).
Definition linuxSource : regex :=
  ROpt (RCap 1 (RCat (RCap 2 (RCap 3 (RAlt (RCap 4 linuxDir) (RCap 5 linuxVolumeName))))
                     (RChar ":"))).
Definition linuxDestination : regex := RCap 6 linuxDir.
Definition linuxMode : regex :=
  ROpt (RCap 7 (RCat (RChar ":")
    (RCap 8 (RAlt (RLit RFold "ro") (RAlt (RLit RFold "rw") (RLit RFold "z")))))).

Definition linuxExp : Regexp :=
  {| prog := RCat RBegin (RCat linuxSource (RCat linuxDestination (RCat linuxMode REnd)));
     SubexpNames := [""; ""; "source"; ""; ""; ""; "destination"; ""; "mode"] |}.

Definition linux_ParseVolume (spec : string) : result VolumeError Volume :=
  match matchesToVolumeSpecParts spec linuxExp with
  | Err err => Err err
  | Ok parts => Ok (newVolume (parts "source") (parts "destination") (parts "mode"))
  end.

(** *** Windows *)

Definition win_sep : regex := RSet false (set_of "\/").
Definition win_prefix : regex := ROpt (RLit RFold "\\?\").
Definition windowsHostDir : regex :=
  RCat win_prefix (RCat (RSet false fold_az) (RCat (RChar ":") (RCat win_sep
    (RStar true (RCat (RPlus (RSet true no_name)) (ROpt win_sep)))))).
Definition windowsVolumeName : regex := RPlus (RSet true no_name).
Definition windowsPipe : regex :=
  RCat (RCat win_sep win_sep) (RCat (RSet true [(10, 10)%Z]) (RCat win_sep
    (RCat (RLit RFold "pipe") (RCat win_sep
      (RPlus (RSet true (set_of ":*?<>|" ++ [(34, 34); (13, 13); (10, 10)]%Z))))))).
Definition windowsSource : regex :=
  ROpt (RCap 1 (RCat
    (RCap 2 (RCap 3 (RAlt (RCap 4 windowsHostDir)
                    (RAlt (RCap 5 windowsVolumeName) (RCap 6 windowsPipe)))))
    (RChar ":"))).
Definition windowsDestination : regex :=
  RCap 7 (RAlt
    (RCap 8 (RCat win_prefix (RCat (RCap 9 (RSet false fold_az)) (RCat (RChar ":")
      (RCap 10 (RCat
        (RStar true (RCat win_sep
          (RPlus (RSet true (set_of "\/:*?<>" ++ [(34, 34); (13, 13); (10, 10)]%Z)))))
        (ROpt win_sep)))))))
    (RCap 11 windowsPipe)).
Definition windowsMode : regex :=
  ROpt (RCap 12 (RCat (RChar ":") (RCap 13 (RAlt (RLit RFold "ro") (RLit RFold "rw"))))).

Definition windowsExp : Regexp :=
  {| prog := RCat RBegin (RCat windowsSource (RCat windowsDestination (RCat windowsMode REnd)));
     SubexpNames := [""; ""; "source"; ""; ""; ""; ""; "destination"; ""; ""; ""; ""; ""; "mode"] |}.

Definition windows_ParseVolume (spec : string) : result VolumeError Volume :=
  match matchesToVolumeSpecParts spec windowsExp with
  | Err err => Err err
  | Ok parts => Ok (newVolume (parts "source") (parts "destination") (parts "mode"))
  end.

(** [parser.New]: the parser of the Docker host's operating system. *)
Definition Parser : Type := string → result VolumeError Volume.
Definition OSTypeLinux : string := "linux".
Definition OSTypeWindows : string := "windows".

Definition New_parser (OSType : string) : result VolumeError Parser :=
  if bool_decide (OSType = OSTypeLinux) then Ok linux_ParseVolume
  else if bool_decide (OSType = OSTypeWindows) then Ok windows_ParseVolume
  else Err (ErrOSNotSupported OSType).

Example linux_ex1 : linux_ParseVolume "/a:/b/c/:Rw" = Ok (mkVolume "/a" "/b/c/" "Rw").
Proof. vm_compute. reflexivity. Qed.
Example linux_ex2 : linux_ParseVolume "/b:rw" = Ok (mkVolume "" "/b" "rw").
Proof. vm_compute. reflexivity. Qed.
Example linux_ex3 : linux_ParseVolume "my vol:/b" = Ok (mkVolume "my vol" "/b" "").
Proof. vm_compute. reflexivity. Qed.
Example linux_ex4 : linux_ParseVolume "/b:/c:/d" = Err (InvalidVolumeSpecError "/b:/c:/d").
Proof. vm_compute. reflexivity. Qed.
Example windows_ex1 :
  windows_ParseVolume "c:\foo bar:D:\x:ro" = Ok (mkVolume "c:\foo bar" "D:\x" "ro").
Proof. vm_compute. reflexivity. Qed.

(** ** The Linux grammar without a regular expression *)

(** An absolute path without empty segments and without reserved characters. *)
Definition reserved (c : ascii) : bool := in_set false no_dir (z_of c).
Definition is_dir (s : string) : bool :=
  HasPrefix s "/" && negb (Contains s "//")
  && forallb (λ c, negb (reserved c) || bool_decide (c = "/"%char)) (String.list_ascii_of_string s).

Definition is_volume_name (s : string) : bool :=
  bool_decide (s ≠ "")
  && forallb (λ c, negb (in_set false no_name (z_of c))) (String.list_ascii_of_string s).

Definition is_mode (s : string) : bool :=
  bool_decide (s ∈ ["ro"; "rO"; "Ro"; "RO"; "rw"; "rW"; "Rw"; "RW"; "z"; "Z"]).

Definition is_source (a : string) : bool := is_dir a || is_volume_name a.

Definition split_volume (spec : string) : option Volume :=
  match Split spec ":" with
  | [d] => if is_dir d then Some (mkVolume "" d "") else None
  | [a; b] =>
      if is_source a && is_dir b then Some (mkVolume a b "")
      else if is_dir a && is_mode b then Some (mkVolume "" a b) else None
  | [a; b; c] =>
      if is_source a && is_dir b && is_mode c then Some (mkVolume a b c) else None
  | _ => None
  end.

(** *** Runs of runes *)

Definition is_slash (t : tok) : bool := (t.1 =? 47)%Z.
Definition dir_rune (t : tok) : bool := in_set true no_dir t.1.

Fixpoint tail_toks (after_slash : bool) (ts : list tok) : bool :=
  match ts with
  | [] => true
  | t :: ts' =>
      if is_slash t then negb after_slash && tail_toks true ts'
      else dir_rune t && tail_toks false ts'
  end.

Definition dir_toks (ts : list tok) : bool :=
  match ts with t :: ts' => is_slash t && tail_toks true ts' | [] => false end.

Lemma dir_rune_slash t : dir_rune t = true → is_slash t = false.
Proof.
  unfold dir_rune, is_slash. intros H. apply Z.eqb_neq. intros E. by rewrite E in H.
Qed.

Lemma tail_toks_app b u v : tail_toks b u = true → tail_toks true v = true → tail_toks b (u ++ v) = true.
Proof.
  revert b. induction u as [|t u IH]; intros b Hu Hv; simpl in *.
  - destruct b; [done|]. destruct v as [|t v]; [done|]. simpl in *.
    destruct (is_slash t); [done|]. done.
  - destruct (is_slash t); reflect_guards; rewrite ?andb_true_iff; auto.
    split; [by rewrite negb_true_iff|auto].
Qed.

Lemma tail_toks_runes u : forallb dir_rune u = true → tail_toks true u = true.
Proof.
  intros H. assert (∀ b, tail_toks b u = true); [|done].
  induction u as [|t u IH]; intros b; [done|]. simpl in *. reflect_guards.
  rewrite dir_rune_slash by done. rewrite andb_true_iff. auto.
Qed.

Lemma tail_toks_slash b u t :
  forallb dir_rune u = true → is_slash t = true → u ≠ [] ∨ b = false → tail_toks b (u ++ [t]) = true.
Proof.
  revert b. induction u as [|x u IH]; intros b Hu Ht Hb; simpl in *.
  - rewrite Ht. by destruct Hb as [Hb|Hb]; [done|subst].
  - reflect_guards. rewrite dir_rune_slash by done. rewrite andb_true_iff. auto.
Qed.

(** A star over one set of runes. *)
Lemma MStar_set g neg rs c i s c' i' s' :
  Match (RStar g (RSet neg rs)) c i s c' i' s' ↔
  ∃ u, s = u ++ s' ∧ i' = i + length u ∧ c' = c ∧ forallb (λ t, in_set neg rs t.1) u = true.
Proof.
  split.
  - intros H. remember (RStar g (RSet neg rs)) as r eqn:Er.
    induction H as [| | | | |g' r' c i s|g' r' c i s c1 i1 s1 c2 i2 s2 Hr _ _ _ IH| | |];
      simplify_eq.
    + exists []. split_and!; auto.
    + apply MSet_inv in Hr as (t & -> & Ht & -> & ->).
      destruct (IH eq_refl) as (u & -> & -> & -> & Hu).
      exists (t :: u). simpl. rewrite Ht, Hu. split_and!; auto; lia.
  - intros (u & -> & -> & -> & Hu). revert i. induction u as [|t u IH]; intros i; simpl.
    + rewrite Nat.add_0_r. constructor.
    + simpl in Hu. reflect_guards. rewrite <- Nat.add_succ_comm.
      eapply MStarS; [by constructor|lia|auto].
Qed.

Lemma MPlus_set neg rs c i s c' i' s' :
  Match (RPlus (RSet neg rs)) c i s c' i' s' ↔
  ∃ u, s = u ++ s' ∧ i' = i + length u ∧ c' = c ∧ u ≠ [] ∧ forallb (λ t, in_set neg rs t.1) u = true.
Proof.
  split.
  - unfold RPlus. inversion 1; subst.
    repeat match goal with
    | H : Match (RSet _ _) _ _ _ _ _ _ |- _ => apply MSet_inv in H as (t & -> & Ht & -> & ->)
    | H : Match (RStar _ _) _ _ _ _ _ _ |- _ => apply MStar_set in H as (u & -> & -> & -> & Hu)
    end.
    exists (t :: u). simpl. rewrite Ht, Hu. split_and!; auto; lia.
  - intros (u & -> & -> & -> & Hne & Hu). destruct u as [|t u]; [done|].
    simpl in Hu. reflect_guards. eapply MCat; [by apply (MSet _ _ _ _ t (u ++ s'))|].
    apply MStar_set. exists u. split_and!; auto. simpl. lia.
Qed.

Lemma MOpt_char ch c i s c' i' s' :
  Match (ROpt (RChar ch)) c i s c' i' s' ↔
  c' = c ∧ ((i' = i ∧ s = s') ∨ (i' = S i ∧ ∃ t, s = t :: s' ∧ t.1 = z_of ch)).
Proof.
  assert (Hin : ∀ z, in_set false [(z_of ch, z_of ch)] z = true ↔ z = z_of ch).
  { intros z. unfold in_set. simpl. rewrite orb_false_r, andb_true_iff, !Z.leb_le. lia. }
  split.
  - inversion 1 as [| | |? ? ? ? ? ? ? ? Hm|? ? ? ? ? ? ? ? Hm| | | | |]; subst.
    + apply MSet_inv in Hm as (t & -> & Ht & -> & ->). rewrite Hin in Ht. eauto 8.
    + inversion Hm; subst. auto.
  - intros [-> [[-> ->]|[-> (t & -> & Ht)]]].
    + apply MAltR. constructor.
    + apply MAltL. constructor. by apply Hin.
Qed.

Lemma linuxDir_tail c i s c' i' s' :
  Match (RStar true (RCat (RPlus (RSet true no_dir)) (ROpt (RChar "/")))) c i s c' i' s' ↔
  ∃ u, s = u ++ s' ∧ i' = i + length u ∧ c' = c ∧ tail_toks true u = true.
Proof.
  set (r := RStar _ _). split.
  - intros H. remember r as r0 eqn:Er.
    induction H as [| | | | |g' r' c i s|g' r' c i s c1 i1 s1 c2 i2 s2 Hr _ _ _ IH| | |];
      unfold r in Er; simplify_eq.
    + exists []. split_and!; auto.
    + destruct (IH eq_refl) as (v & -> & -> & -> & Hv). clear IH.
      inversion Hr as [| |? ? ? ? ? ? ? ? ? ? ? H1 H2| | | | | | |]; subst.
      apply MPlus_set in H1 as (u & -> & -> & -> & Hne & Hu).
      apply MOpt_char in H2 as [-> [[-> ->]|[-> (t & -> & Ht)]]].
      * exists (u ++ v). rewrite app_assoc, length_app. split_and!; auto; [lia|].
        apply tail_toks_app; [by apply tail_toks_runes|done].
      * exists ((u ++ [t]) ++ v). rewrite <- !app_assoc, !length_app. split_and!; auto; [simpl; lia|].
        rewrite app_assoc. apply tail_toks_app; [|done].
        apply tail_toks_slash; [done|by apply Z.eqb_eq|by left].
  - intros (u & -> & -> & -> & Hu).
    remember (length u) as n eqn:Hn. revert i u Hn Hu.
    induction (lt_wf n) as [n _ IH]. intros i [|t u] -> Hu; simpl.
    { rewrite Nat.add_0_r. constructor. }
    simpl in Hu. destruct (is_slash t); [done|]. reflect_guards.
    assert (Hone : ∀ j rest, Match (RPlus (RSet true no_dir)) c j (t :: rest) c (S j) rest).
    { intros j rest. apply MPlus_set. exists [t]. simpl. split_and!; auto; [lia|].
      by rewrite andb_true_r. }
    destruct u as [|t1 u]; [|simpl in *; destruct (is_slash t1) eqn:E1].
    + eapply MStarS; [eapply MCat; [apply Hone|apply MOpt_char; eauto]|lia|].
      rewrite Nat.add_1_r. constructor.
    + reflect_guards. unfold is_slash in E1. apply Z.eqb_eq in E1.
      eapply MStarS; [eapply MCat; [apply Hone|apply MOpt_char; split; eauto 6]|lia|].
      replace (i + S (S (length u))) with (S (S i) + length u) by lia.
      apply (IH (length u)); auto.
    + eapply MStarS; [eapply MCat; [apply Hone|apply MOpt_char; eauto]|lia|].
      replace (i + S (S (length u))) with (S i + length (t1 :: u)) by (simpl; lia).
      apply (IH (S (length u)) ltac:(lia) (S i) (t1 :: u)); auto. simpl. by rewrite E1.
Qed.

Lemma linuxDir_spec c i s c' i' s' :
  Match linuxDir c i s c' i' s' ↔
  ∃ u, s = u ++ s' ∧ i' = i + length u ∧ c' = c ∧ dir_toks u = true.
Proof.
  assert (Hin : ∀ z, in_set false [(47, 47)%Z] z = (z =? 47)%Z).
  { intros z. unfold in_set. simpl. rewrite orb_false_r.
    destruct (Z.eqb_spec z 47), (Z.leb_spec 47 z), (Z.leb_spec z 47); simpl; done || lia. }
  split.
  - inversion 1 as [| |? ? ? ? ? ? ? ? ? ? ? H1 H2| | | | | | |]; subst.
    apply MSet_inv in H1 as (t & -> & Ht & -> & ->).
    apply linuxDir_tail in H2 as (u & -> & -> & -> & Hu).
    exists (t :: u). simpl. split_and!; [done|lia|done|]. unfold is_slash.
    change (z_of "/") with 47%Z in Ht. by rewrite <- Hin, Ht.
  - intros (u & -> & -> & -> & Hu). destruct u as [|t u]; [done|]. simpl in Hu. reflect_guards.
    eapply MCat; [apply (MSet _ _ _ _ t (u ++ s'))|].
    + change (z_of "/") with 47%Z. by rewrite Hin.
    + apply linuxDir_tail. exists u. split_and!; auto. simpl. lia.
Qed.

(** *** From runes to bytes *)

Fixpoint dir_tail (after_slash : bool) (s : string) : bool :=
  match s with
  | "" => true
  | String c s' =>
      if bool_decide (c = "/"%char) then negb after_slash && dir_tail true s'
      else negb (reserved c) && dir_tail false s'
  end.

Lemma reserved_rune c : in_set true no_dir (z_of c) = negb (reserved c).
Proof. unfold reserved, in_set. by destruct (existsb _ _). Qed.

Lemma in_set_high rs z :
  Forall (λ p, p.2 < 128)%Z rs → (128 ≤ z)%Z → in_set true rs z = true.
Proof.
  intros Hrs Hz. unfold in_set. induction Hrs as [|[lo hi] rs Hp _ IH]; [done|]. simpl in *.
  rewrite (proj2 (Z.leb_gt z hi)) by lia. by rewrite andb_false_r.
Qed.

Lemma no_name_low : Forall (λ p, p.2 < 128)%Z no_dir.
Proof. repeat constructor. Qed.
#[local] Hint Resolve no_name_low : runner.

Lemma tail_toks_text b ts : Forall tok_ok ts → tail_toks b ts = dir_tail b (text ts).
Proof.
  intros Hok. revert b. induction Hok as [|t ts Ht _ IH]; intros b; [done|]. simpl.
  destruct Ht as [(c & -> & Hc)|(Hr & Hne & Hb)].
  - unfold is_slash, dir_rune. simpl. rewrite reserved_rune, !IH.
    change (String c "" +:+ text ts) with (String c (text ts)). cbn [dir_tail].
    destruct (Z.eqb_spec (z_of c) 47) as [E|E].
    + apply (z_of_inj c "/"%char) in E. by subst.
    + rewrite bool_decide_false; [done|]. by intros ->.
  - destruct t as [r w]; simpl in *. unfold is_slash, dir_rune. simpl.
    rewrite (proj2 (Z.eqb_neq r 47)) by lia.
    rewrite in_set_high by eauto with runner. simpl. rewrite IH. clear IH.
    assert (∀ b, dir_tail b (w +:+ text ts) = dir_tail (if bool_decide (w = "") then b else false) (text ts))
      as ->; [|by rewrite bool_decide_false].
    clear Hne. induction w as [|x w IHw]; intros b'; [done|].
    rewrite string_app_cons. simpl in *. apply Forall_cons in Hb as [Hx Hb].
    rewrite bool_decide_false by (intros ->; vm_compute in Hx; done).
    rewrite <- reserved_rune, in_set_high by eauto with runner. simpl. rewrite IHw by done.
    by destruct (bool_decide (w = "")).
Qed.

Lemma Contains_cons c s sep :
  Contains (String c s) sep = HasPrefix (String c s) sep || Contains s sep.
Proof.
  unfold Contains. simpl. destruct (HasPrefix (String c s) sep); [done|].
  by destruct (cut s sep) as [[]|].
Qed.

Lemma dir_tail_spec b s :
  dir_tail b s =
  negb (b && HasPrefix s "/") && negb (Contains s "//")
  && forallb (λ c, negb (reserved c) || bool_decide (c = "/"%char)) (String.list_ascii_of_string s).
Proof.
  revert b. induction s as [|c s IH]; intros b; [by destruct b|].
  rewrite Contains_cons. simpl. rewrite (bool_decide_ext ("/"%char = c) (c = "/"%char)) by (split; by intros ->).
  case_bool_decide as Hc; simpl.
  - rewrite !IH. rewrite !andb_true_r, orb_true_r. simpl.
    by rewrite negb_orb, !andb_assoc.
  - rewrite !IH, orb_false_r, andb_false_r. simpl. destruct (reserved c); simpl.
    + by rewrite andb_false_r.
    + done.
Qed.

Lemma dir_toks_text ts : Forall tok_ok ts → dir_toks ts = is_dir (text ts).
Proof.
  intros Hok. destruct Hok as [|t ts Ht Hts]; [done|]. simpl. rewrite tail_toks_text by done.
  destruct Ht as [(c & -> & Hc)|(Hr & Hne & Hb)].
  - unfold is_slash. simpl. rewrite string_app_cons, string_app_nil_l.
    unfold is_dir. rewrite Contains_cons, dir_tail_spec. simpl.
    rewrite (bool_decide_ext ("/"%char = c) (c = "/"%char)) by (split; by intros ->).
    destruct (Z.eqb_spec (z_of c) 47) as [E|E].
    + apply (z_of_inj c "/"%char) in E. subst. rewrite bool_decide_true by done.
      rewrite orb_true_r. simpl. by rewrite negb_orb.
    + rewrite bool_decide_false by (by intros ->). done.
  - destruct t as [r w]; simpl in *. unfold is_slash. simpl.
    rewrite (proj2 (Z.eqb_neq r 47)) by lia. simpl.
    destruct w as [|x w]; [done|]. rewrite string_app_cons. unfold is_dir. simpl.
    rewrite bool_decide_false; [done|]. intros <-. simpl in Hb.
    apply Forall_cons in Hb as [Hx _]. by vm_compute in Hx.
Qed.

Lemma name_toks_text ts : Forall tok_ok ts →
  bool_decide (ts ≠ []) && forallb (λ t, in_set true no_name t.1) ts = is_volume_name (text ts).
Proof.
  intros Hok. unfold is_volume_name. f_equal.
  - apply bool_decide_ext. split; [|by intros H ->]. intros H E. by apply H, text_nil.
  - apply eq_true_iff_eq. rewrite !forallb_forall, <- !List.Forall_forall.
    assert (∀ z, negb (in_set false no_name z) = in_set true no_name z) as E.
    { intros z. unfold in_set. by destruct (existsb _ _). }
    rewrite (Forall_iff _ _ (λ c, in_set true no_name (z_of c) = true)) by (intros c; by rewrite E).
    apply (tokens_bytes (λ z, in_set true no_name z = true)); [done|].
    intros z Hz. apply in_set_high; [repeat constructor|done].
Qed.

(** *** Modes *)

Definition mode_alt : regex := RAlt (RLit RFold "ro") (RAlt (RLit RFold "rw") (RLit RFold "z")).

Lemma text_cons_inv ts c s :
  Forall tok_ok ts → (z_of c < 128)%Z → text ts = String c s →
  ∃ ts', ts = (z_of c, String c "") :: ts' ∧ text ts' = s.
Proof.
  intros Hok Hc H. destruct (tokens_cut ts "" s c Hok Hc H) as (ta & tb & -> & Ha & Hb).
  apply Forall_app in Hok as [Hok _]. apply text_nil in Ha as ->; [|done]. eauto.
Qed.

(** A letter under [(?i)] that has no fold outside ASCII. *)
Definition ctok (c : ascii) : tok := (z_of c, String c "").
Definition plain_fold (lo up : ascii) : Prop :=
  fold_ranges lo = [(z_of lo, z_of lo); (z_of up, z_of up)] ∧ (z_of lo < 128)%Z ∧ (z_of up < 128)%Z.

Lemma RFold_spec lo up c i s c' i' s' :
  Forall tok_ok s → plain_fold lo up →
  Match (RFold lo) c i s c' i' s' ↔
  ∃ x, (x = lo ∨ x = up) ∧ s = ctok x :: s' ∧ c' = c ∧ i' = S i.
Proof.
  intros Hok (Hf & Hlo & Hup). unfold RFold. rewrite Hf.
  assert (Hin : ∀ z, in_set false [(z_of lo, z_of lo); (z_of up, z_of up)] z = true ↔
                z = z_of lo ∨ z = z_of up).
  { intros z. unfold in_set. simpl. rewrite orb_false_r, orb_true_iff, !andb_true_iff, !Z.leb_le. lia. }
  split.
  - intros H. apply MSet_inv in H as (t & -> & Hi & -> & ->).
    apply Hin in Hi. apply Forall_cons in Hok as [[(d & -> & Hd)|(Hr & _)] _]; [|lia].
    exists d. simpl in Hi. split_and!; auto. destruct Hi as [Hi|Hi]; apply z_of_inj in Hi; auto.
  - intros (x & Hor & -> & -> & ->). constructor. apply Hin. destruct Hor as [->| ->]; auto.
Qed.

Lemma RFold2_spec lo up lo' up' c i s c' i' s' :
  Forall tok_ok s → plain_fold lo up → plain_fold lo' up' →
  Match (RCat (RFold lo) (RFold lo')) c i s c' i' s' ↔
  ∃ x y, (x = lo ∨ x = up) ∧ (y = lo' ∨ y = up') ∧
         s = ctok x :: ctok y :: s' ∧ c' = c ∧ i' = S (S i).
Proof.
  intros Hok H1 H2. split.
  - inversion 1 as [| |? ? ? ? ? ? ? ? ? ? ? Ha Hb| | | | | | |]; subst.
    apply (RFold_spec _ _ _ _ _ _ _ _ Hok H1) in Ha as (x & Hx & -> & -> & ->).
    apply Forall_cons in Hok as [_ Hok].
    apply (RFold_spec _ _ _ _ _ _ _ _ Hok H2) in Hb as (y & Hy & -> & -> & ->). eauto 8.
  - intros (x & y & Hx & Hy & -> & -> & ->). apply Forall_cons in Hok as Hok'. destruct Hok' as [_ Hok'].
    eapply MCat; [apply RFold_spec with (up := up); eauto|].
    apply RFold_spec with (up := up'); eauto.
Qed.

Lemma plain_folds : plain_fold "r" "R" ∧ plain_fold "o" "O" ∧ plain_fold "w" "W" ∧ plain_fold "z" "Z".
Proof. repeat split. Qed.

Lemma mode_spec c i s c' i' s' :
  Forall tok_ok s →
  Match mode_alt c i s c' i' s' ↔
  ∃ u, s = u ++ s' ∧ i' = i + length u ∧ c' = c ∧ is_mode (text u) = true.
Proof.
  intros Hok. destruct plain_folds as (Hr & Ho & Hw & Hz). unfold is_mode.
  assert (Hsplit : Match mode_alt c i s c' i' s' ↔
    Match (RCat (RFold "r") (RFold "o")) c i s c' i' s' ∨
    Match (RCat (RFold "r") (RFold "w")) c i s c' i' s' ∨ Match (RFold "z") c i s c' i' s').
  { split.
    - inversion 1 as [| | |? ? ? ? ? ? ? ? H1|? ? ? ? ? ? ? ? H1| | | | |]; subst; [by left|].
      inversion H1; subst; auto.
    - intros [H|[H|H]]; [by apply MAltL|by apply MAltR, MAltL|by apply MAltR, MAltR]. }
  rewrite Hsplit, (RFold2_spec _ _ _ _ _ _ _ _ _ _ Hok Hr Ho),
    (RFold2_spec _ _ _ _ _ _ _ _ _ _ Hok Hr Hw), (RFold_spec _ _ _ _ _ _ _ _ Hok Hz).
  clear Hsplit. split.
  - intros [(x & y & Hx & Hy & -> & -> & ->)|[(x & y & Hx & Hy & -> & -> & ->)|(x & Hx & -> & -> & ->)]].
    1-2: exists [ctok x; ctok y]; split_and!; [done|simpl; lia|done|];
      destruct Hx, Hy; subst; by apply bool_decide_eq_true; vm_compute; set_solver.
    exists [ctok x]; split_and!; [done|simpl; lia|done|];
      destruct Hx; subst; by apply bool_decide_eq_true; vm_compute; set_solver.
  - intros (u & -> & -> & -> & Hm). apply bool_decide_eq_true in Hm.
    apply Forall_app in Hok as [Hok _].
    assert (∀ a, (z_of a < 128)%Z → text u = String a "" → u = [ctok a]) as H1.
    { intros a Ha H. apply text_cons_inv in H as (v & -> & H); [|done..].
      apply Forall_cons in Hok as [_ Hok]. by apply text_nil in H as ->. }
    assert (∀ a b, (z_of a < 128)%Z → (z_of b < 128)%Z → text u = String a (String b "") →
            u = [ctok a; ctok b]) as H2.
    { intros a b Ha Hb H. apply text_cons_inv in H as (v & -> & H); [|done..].
      apply Forall_cons in Hok as [_ Hok]. apply text_cons_inv in H as (v' & -> & H); [|done..].
      apply Forall_cons in Hok as [_ Hok]. by apply text_nil in H as ->. }
    repeat (apply elem_of_cons in Hm as [Hm|Hm]); [..|by apply elem_of_nil in Hm];
      first [apply H2 in Hm; [|done..]|apply H1 in Hm; [|done..]]; subst; simpl;
      rewrite ?(Nat.add_comm i); simpl.
    1-4: left; eauto 10.
    1-4: right; left; eauto 10.
    1-2: right; right; eauto 10.
Qed.

(** *** The whole expression *)

(** The volumes the Linux parser can return. *)
Definition linux_volume (v : Volume) : bool :=
  is_dir (Destination v)
  && (bool_decide (Source v = "") || is_source (Source v))
  && (bool_decide (Mode v = "") || is_mode (Mode v)).

Definition linux_body : regex := RCat linuxSource (RCat linuxDestination (RCat linuxMode REnd)).

Lemma colon_inv c i s c' i' s' :
  Forall tok_ok s → Match (RChar ":") c i s c' i' s' → s = ctok ":" :: s' ∧ c' = c ∧ i' = S i.
Proof.
  intros Hok H. apply MSet_inv in H as (t & -> & Ht & -> & ->). split; [|done].
  assert (t.1 = z_of ":") as E.
  { unfold in_set in Ht. simpl in Ht. rewrite orb_false_r, andb_true_iff, !Z.leb_le in Ht. lia. }
  apply Forall_cons in Hok as [[(d & -> & Hd)|(Hr & _)] _]; [|rewrite E in Hr; by vm_compute in Hr].
  simpl in E. apply z_of_inj in E. by subst.
Qed.

Lemma colon_intro c i s : Match (RChar ":") c i (ctok ":" :: s) c (S i) s.
Proof. by constructor. Qed.

Lemma source_spec i s c' i' s' :
  Forall tok_ok s →
  Match linuxSource [] i s c' i' s' →
  ∃ u, s = u ++ s' ∧ group c' 6 = "" ∧ group c' 8 = "" ∧
    ((u = [] ∧ group c' 2 = "") ∨
     (text u = group c' 2 +:+ ":" ∧ is_source (group c' 2) = true)).
Proof.
  intros Hok. unfold linuxSource.
  inversion 1 as [| | |? ? ? ? ? ? ? ? H1|? ? ? ? ? ? ? ? H1| | | | |]; subst.
  2: { inversion H1; subst. exists []. auto 6. }
  apply MCap_inv in H1 as (c1 & u & H1 & -> & -> & ->).
  inversion H1 as [| |? ? ? ? ? ? ? ? ? ? ? H2 H3| | | | | | |]; subst.
  apply MCap_inv in H2 as (c2 & v & H2 & Hv & -> & ->).
  apply MCap_inv in H2 as (c3 & v' & H2 & Hv' & Hlen & ->).
  assert (v' = v) as ->.
  { rewrite Hv' in Hv. apply app_inv_tail in Hv. done. }
  rewrite Hv in Hok. apply Forall_app in Hok as [Hokv Hok].
  apply colon_inv in H3 as (-> & -> & _); [|done].
  replace (v ++ ctok ":" :: s') with ((v ++ [ctok ":"]) ++ s') in Hv by (by rewrite <- app_assoc).
  apply app_inv_tail in Hv as ->.
  exists (v ++ [ctok ":"]). split; [done|].
  assert (is_source (text v) = true ∧ group c3 6 = "" ∧ group c3 8 = "") as (Hs & H6 & H8).
  { unfold is_source. rewrite orb_true_iff.
    inversion H2 as [| | |? ? ? ? ? ? ? ? H4|? ? ? ? ? ? ? ? H4| | | | |]; subst;
      apply MCap_inv in H4 as (c4 & w & H4 & Hw & Hl & ->); rewrite <- app_assoc in Hw; apply app_inv_tail in Hw as <-.
    - apply linuxDir_spec in H4 as (w & Hw & _ & -> & Hd). rewrite <- app_assoc in Hw; apply app_inv_tail in Hw as <-.
      rewrite <- dir_toks_text by done. auto.
    - apply MPlus_set in H4 as (w & Hw & _ & -> & Hne & Hd). rewrite <- app_assoc in Hw; apply app_inv_tail in Hw as <-.
      rewrite <- name_toks_text by done. rewrite Hd, bool_decide_true by done. auto. }
  simpl. rewrite text_app. simpl. split_and!; auto.
Qed.

Lemma linux_decompose ts c i s' :
  Forall tok_ok ts → Match linux_body [] 0 ts c i s' →
  let v := mkVolume (group c 2) (group c 6) (group c 8) in
  linux_volume v = true ∧ text ts = VolumeDefinition v.
Proof.
  intros Hok. unfold linux_body.
  inversion 1 as [| |? ? ? ? ? c1 ? ? ? ? ? H1 H2| | | | | | |]; subst.
  apply source_spec in H1 as (u & -> & H6 & H8 & Hu); [|done].
  apply Forall_app in Hok as [_ Hok].
  inversion H2 as [| |? ? ? ? ? c2 ? sd ? ? ? H3 H4| | | | | | |]; subst. clear H2.
  apply MCap_inv in H3 as (c3 & d & H3 & -> & -> & ->).
  apply linuxDir_spec in H3 as (w & Hw & _ & -> & Hd). apply app_inv_tail in Hw as <-.
  apply Forall_app in Hok as [Hokd Hok].
  rewrite dir_toks_text in Hd by done.
  inversion H4 as [| |? ? ? ? ? c4 ? ? ? ? ? H5 H7| | | | | | |]; subst. clear H4.
  inversion H7; subst. clear H7.
  assert (∃ md, group c 8 = md ∧ group c 2 = group c1 2 ∧ group c 6 = text d ∧
    ((sd = [] ∧ md = "") ∨ (text sd = ":" +:+ md ∧ is_mode md = true))) as (md & E8 & E2 & E6 & Hm).
  { unfold linuxMode in H5.
    inversion H5 as [| | |? ? ? ? ? ? ? ? H1|? ? ? ? ? ? ? ? H1| | | | |]; subst.
    2: { inversion H1; subst. exists "". split_and!; auto. }
    apply MCap_inv in H1 as (c5 & x & H1 & -> & _ & ->). rewrite app_nil_r in *.
    inversion H1 as [| |? ? ? ? ? ? ? ? ? ? ? Ha Hb| | | | | | |]; subst.
    apply colon_inv in Ha as (-> & -> & ->); [|done]. apply Forall_cons in Hok as [_ Hok].
    apply MCap_inv in Hb as (c6 & y & Hb & Hy & _ & ->). rewrite app_nil_r in Hy. subst.
    apply mode_spec in Hb as (y' & Hy' & _ & -> & Hm); [|done].
    rewrite app_nil_r in Hy'. subst.
    exists (text y'). simpl. split_and!; auto. }
  unfold linux_volume, VolumeDefinition. simpl. rewrite E2, E6, E8, Hd.
  rewrite !text_app.
  assert (∀ x, is_mode x = true → x ≠ "") as Hm0 by (by intros x Hx ->).
  assert (∀ x, is_source x = true → x ≠ "") as Hs0 by (by intros x Hx ->).
  assert (∀ a b, (a +:+ ":") +:+ b = a +:+ ":" +:+ b) as Ha by (intros; by rewrite string_app_assoc).
  destruct Hu as [[-> ->]|[-> Hs]], Hm as [[-> ->]|[-> Hm]]; simpl;
    rewrite ?Hs, ?Hm, ?orb_true_r, ?Ha, ?string_app_nil_r, ?(bool_decide_true (_ ≠ "")) by auto;
    split; done.
Qed.

Lemma MOpt_some r c i s c' i' s' : Match r c i s c' i' s' → Match (ROpt r) c i s c' i' s'.
Proof. apply MAltL. Qed.
Lemma MOpt_none r c i s : Match (ROpt r) c i s c i s.
Proof. apply MAltR. constructor. Qed.

Lemma source_intro u s :
  Forall tok_ok u → is_source (text u) = true →
  ∃ c, Match linuxSource [] 0 (u ++ ctok ":" :: s) c (S (length u)) s.
Proof.
  intros Hok Hs. unfold is_source in Hs. rewrite orb_true_iff in Hs.
  assert (∃ c, Match (RAlt (RCap 4 linuxDir) (RCap 5 linuxVolumeName)) [] 0 (u ++ ctok ":" :: s)
                 c (length u) (ctok ":" :: s)) as [c Hc].
  { destruct Hs as [Hs|Hs].
    - rewrite <- dir_toks_text in Hs by done. eexists. apply MAltL, (MCap_intro 4 _ [] 0 u).
      apply linuxDir_spec. eauto.
    - rewrite <- name_toks_text in Hs by done. reflect_guards. eexists.
      apply MAltR, (MCap_intro 5 _ [] 0 u). apply MPlus_set. eauto 8. }
  assert (E : u ++ ctok ":" :: s = (u ++ [ctok ":"]) ++ s) by (by rewrite <- app_assoc).
  assert (El : S (length u) = 0 + length (u ++ [ctok ":"])) by (rewrite length_app; simpl; lia).
  eexists. apply MOpt_some. rewrite E, El. apply MCap_intro. rewrite <- E, <- El.
  eapply MCat; [|apply colon_intro].
  apply (MCap_intro 2 _ [] 0 u), (MCap_intro 3 _ [] 0 u), Hc.
Qed.

Lemma mode_intro c i u :
  Forall tok_ok u → is_mode (text u) = true →
  ∃ c', Match linuxMode c i (ctok ":" :: u) c' (i + S (length u)) [].
Proof.
  intros Hok Hm. eexists. apply MOpt_some.
  rewrite <- (app_nil_r (ctok ":" :: u)).
  change (S (length u)) with (length (ctok ":" :: u)). apply MCap_intro.
  eapply MCat; [apply colon_intro|]. simpl. rewrite <- Nat.add_succ_comm.
  apply MCap_intro. apply mode_spec; [by rewrite app_nil_r|]. eauto.
Qed.

Lemma Definition_source src dst md :
  src ≠ "" → VolumeDefinition (mkVolume src dst md)
             = src +:+ String ":" (VolumeDefinition (mkVolume "" dst md)).
Proof.
  intros H. unfold VolumeDefinition. simpl. rewrite (bool_decide_true (src ≠ "")) by done.
  by destruct (bool_decide (md ≠ "")).
Qed.

Lemma Definition_mode dst md :
  md ≠ "" → VolumeDefinition (mkVolume "" dst md) = dst +:+ String ":" md.
Proof. intros H. unfold VolumeDefinition. simpl. by rewrite bool_decide_true. Qed.

Lemma linux_compose v s :
  linux_volume v = true → s = VolumeDefinition v →
  ∃ c i, Match linux_body [] 0 (tokens s) c i [].
Proof.
  destruct v as [src dst md]. unfold linux_volume. simpl. intros Hv Hs.
  apply andb_prop in Hv as [[H H1]%andb_prop H0].
  rewrite orb_true_iff, bool_decide_eq_true in H0, H1.
  pose proof (tokens_ok s) as Hok. pose proof (text_tokens s) as Ht.
  set (ts := tokens s) in *. clearbody ts. rewrite Hs in Ht. clear Hs.
  assert (∃ us td c0, ts = us ++ td ∧ Match linuxSource [] 0 ts c0 (length us) td ∧
    text td = VolumeDefinition (mkVolume "" dst md)) as (us & td & c0 & -> & Hsrc & Htd).
  { destruct (decide (src = "")) as [->|Hne].
    - exists [], ts, []. split_and!; [done|apply MOpt_none|exact Ht].
    - destruct H1 as [H1|H1]; [done|]. rewrite Definition_source in Ht by done.
      apply tokens_cut in Ht as (ta & tb & -> & <- & Htb); [|done..].
      apply Forall_app in Hok as [Hoka _]. destruct (source_intro ta tb Hoka H1) as [c Hc].
      exists (ta ++ [ctok ":"]), tb, c. rewrite <- app_assoc, length_app. simpl.
      rewrite Nat.add_1_r. auto. }
  apply Forall_app in Hok as [_ Hok].
  assert (∃ ud tm, td = ud ++ tm ∧ text ud = dst ∧
    ((tm = [] ∧ md = "") ∨ ∃ um, tm = ctok ":" :: um ∧ text um = md ∧ is_mode md = true))
    as (ud & tm & -> & <- & Hmd).
  { destruct (decide (md = "")) as [->|Hne].
    - exists td, []. rewrite app_nil_r. auto.
    - destruct H0 as [H0|H0]; [done|]. rewrite Definition_mode in Htd by done.
      apply tokens_cut in Htd as (ta & tb & -> & <- & Htb); [|done..]. eauto 10. }
  apply Forall_app in Hok as [Hokd Hokm].
  assert (Hd : ∀ c i, Match linuxDestination c i (ud ++ tm) ((6, text ud) :: c) (i + length ud) tm).
  { intros c i. apply MCap_intro, linuxDir_spec. rewrite <- dir_toks_text in H by done. eauto. }
  destruct Hmd as [[-> _]|(um & -> & <- & Hm)].
  - do 2 eexists. eapply MCat; [exact Hsrc|]. eapply MCat; [apply Hd|].
    eapply MCat; [apply MOpt_none|constructor].
  - apply Forall_cons in Hokm as [_ Hokm].
    edestruct mode_intro as [c' Hc']; [exact Hokm|exact Hm|].
    do 2 eexists. eapply MCat; [exact Hsrc|]. eapply MCat; [apply Hd|].
    eapply MCat; [exact Hc'|constructor].
Qed.

Lemma linux_parts spec :
  linux_ParseVolume spec =
  match m (RCap 0 linux_body) [] 0 (tokens spec) (λ c _ _, Some c) with
  | None => Err (InvalidVolumeSpecError spec)
  | Some c => Ok (mkVolume (group c 2) (group c 6) (group c 8))
  end.
Proof.
  unfold linux_ParseVolume, matchesToVolumeSpecParts.
  change (prog linuxExp) with (RCat RBegin linux_body).
  rewrite FindStringSubmatch_anchored. by destruct (m _ _ _ _ _).
Qed.

(** *** Printing determines the volume *)

Lemma no_colon s : is_source s = true ∨ is_mode s = true → ":"%char ∉ String.list_ascii_of_string s.
Proof.
  unfold is_source, is_dir, is_volume_name. intros [H|H].
  - rewrite orb_true_iff, !andb_true_iff in H. intros Hin.
    destruct H as [(_ & H)|(_ & H)]; rewrite forallb_forall in H;
      apply list_elem_of_In in Hin; apply H in Hin; by vm_compute in Hin.
  - apply bool_decide_eq_true in H.
    repeat (apply elem_of_cons in H as [->|H]; [by vm_compute; set_solver|]).
    by apply elem_of_nil in H.
Qed.

Lemma is_dir_source d : is_dir d = true → is_source d = true.
Proof. unfold is_source. by intros ->. Qed.

Lemma mode_not_dir md : is_mode md = true → is_dir md = false ∧ md ≠ "".
Proof.
  intros H. apply bool_decide_eq_true in H.
  repeat (apply elem_of_cons in H as [->|H]; [done|]). by apply elem_of_nil in H.
Qed.

(** Splitting the printed form at the colons gives the parts back. *)
Lemma split_Definition v : linux_volume v = true → split_volume (VolumeDefinition v) = Some v.
Proof.
  destruct v as [src dst md]. unfold linux_volume. simpl. intros Hv.
  apply andb_prop in Hv as [[Hd Hs]%andb_prop Hm].
  rewrite orb_true_iff, bool_decide_eq_true in Hs, Hm.
  pose proof (no_colon dst (or_introl (is_dir_source _ Hd))) as Hdc.
  assert (Split (VolumeDefinition (mkVolume "" dst md)) ":"
          = dst :: if bool_decide (md = "") then [] else [md]) as E.
  { case_bool_decide as E; [subst; by apply Split_absent|].
    destruct Hm as [Hm|Hm]; [done|]. rewrite Definition_mode by done.
    rewrite Split_app by done. f_equal. apply Split_absent, no_colon. auto. }
  unfold split_volume.
  destruct (decide (src = "")) as [->|Hne].
  - rewrite E. case_bool_decide as Em; [subst; by rewrite Hd|].
    destruct Hm as [Hm|Hm]; [done|]. destruct (mode_not_dir md Hm) as [-> _].
    by rewrite andb_false_r, Hd, Hm.
  - destruct Hs as [Hs|Hs]; [done|]. rewrite Definition_source by done.
    rewrite Split_app by (apply no_colon; auto). rewrite E.
    case_bool_decide as Em; rewrite Hs, Hd; simpl; [by subst|].
    destruct Hm as [Hm|Hm]; [done|]. by rewrite Hm.
Qed.

Lemma split_sound spec v :
  split_volume spec = Some v → linux_volume v = true ∧ spec = VolumeDefinition v.
Proof.
  unfold split_volume. pose proof (Join_Split spec ":") as HJ.
  assert (∀ x, is_source x = true → bool_decide (x = "") = false) as Hs0.
  { intros x Hx. apply bool_decide_eq_false. by intros ->. }
  assert (∀ x, is_mode x = true → bool_decide (x = "") = false) as Hm0.
  { intros x Hx. apply bool_decide_eq_false. by intros ->. }
  intros H.
  repeat split_match_in H; simplify_eq; reflect_guards; unfold linux_volume, VolumeDefinition; simpl;
    rewrite ?bool_decide_not, ?Hs0, ?Hm0 by done; simpl;
    repeat match goal with Ha : ?x = true |- context [?x] => rewrite Ha end;
    rewrite ?orb_true_r; done.
Qed.

Lemma linux_parse_sound spec v :
  linux_ParseVolume spec = Ok v → linux_volume v = true ∧ spec = VolumeDefinition v.
Proof.
  intros H. rewrite linux_parts in H.
  destruct (m _ _ _ _ _) as [c|] eqn:E; [|done]. simplify_eq.
  apply m_sound in E as (c' & i' & s' & Hm & Hc). injection Hc as ->.
  apply MCap_inv in Hm as (c1 & u & Hm & _ & _ & ->).
  apply linux_decompose in Hm as [Hv Ht]; [|apply tokens_ok].
  rewrite text_tokens in Ht. simpl. auto.
Qed.

Lemma linux_parse_split spec :
  linux_ParseVolume spec =
  match split_volume spec with
  | Some v => Ok v
  | None => Err (InvalidVolumeSpecError spec)
  end.
Proof.
  destruct (linux_ParseVolume spec) as [v|e] eqn:E.
  - apply linux_parse_sound in E as [Hv ->]. by rewrite split_Definition.
  - destruct (split_volume spec) as [v|] eqn:Es.
    + apply split_sound in Es as [Hv Hs]. destruct (linux_compose v spec Hv Hs) as (c & i & Hm).
      destruct (m_complete (RCap 0 linux_body) [] 0 (tokens spec) _ _ _ (λ c _ _, Some c)
                  (MCap 0 _ _ _ _ _ _ _ Hm)) as [c' Hc']; [by eexists|].
      rewrite linux_parts, Hc' in E. done.
    + rewrite linux_parts in E. destruct (m _ _ _ _ _); by simplify_eq.
Qed.

(** ** Claims *)

(** C20: Equivalence of the Linux volume parser with a grammar: matching the
    regular expression of linux_parser.go, with its captures, gives on every byte
    string the same volume or the same error as splitting the specification at the
    colons and checking each part. *)
Theorem linux_parser_is_split (spec : string) :
  linux_ParseVolume spec =
  match split_volume spec with
  | Some v => Ok v
  | None => Err (InvalidVolumeSpecError spec)
  end.
Proof. exact (linux_parse_split spec). Qed.

(** [ParseVolume] and [Definition] are inverse to each other on Linux: the
    parser accepts exactly the printed forms of well-formed volumes, and returns the
    volume that was printed. *)
Theorem linux_volume_roundtrip (spec : string) (v : Volume) :
  linux_ParseVolume spec = Ok v ↔ linux_volume v = true ∧ spec = VolumeDefinition v.
Proof.
  split; [apply linux_parse_sound|]. intros [Hv ->].
  by rewrite linux_parse_split, split_Definition.
Qed.
