(* ===== verification/Executor.v ===== *)
(** The executor registry (common/executor.go), the default provider
    (executors/default_executor_provider.go) and what every executor shares
    (executors/executor_abstract.go). *)

From S2P Require Import Prelude GoLib Path Types Variables Config Build AbstractShell Shells.

(** ** The registry *)

Definition ExecutorStageCreated : string := "created".
Definition ExecutorStagePrepare : string := "prepare".
Definition ExecutorStageFinish : string := "finish".
Definition ExecutorStageCleanup : string := "cleanup".

(** The provider of an executor; [E] is the type of the executors it makes. A nil
    [Creator] or [FeaturesUpdater] is [None]. *)
Record DefaultExecutorProvider (E : Type) := mkProvider {
  Creator : option E;
  FeaturesUpdater : option (FeaturesInfo → FeaturesInfo);
  DefaultShellName : string }.
Arguments mkProvider {E}.
Arguments Creator {E}.
Arguments FeaturesUpdater {E}.
Arguments DefaultShellName {E}.

Section Registry.
Context {E : Type}.
Implicit Types p : DefaultExecutorProvider E.

Definition CanCreate p : bool := match Creator p with Some _ => true | None => false end.
Definition Create p : option E := Creator p.

Definition p_GetFeatures p (features : FeaturesInfo) : result string FeaturesInfo :=
  match FeaturesUpdater p with
  | None => Err "cannot evaluate features"
  | Some f => Ok (f features)
  end.

Definition GetDefaultShell p : string := DefaultShellName p.

Definition validateExecutorProvider p : option string :=
  if bool_decide (GetDefaultShell p = "") then Some "default shell not implemented"
  else if negb (CanCreate p) then Some "cannot create executor"
  else match p_GetFeatures p no_features with
       | Err e => Some ("cannot get features: " +:+ e)
       | Ok _ => None
       end.

(** [None] is the panic of an invalid or a repeated registration. *)
Definition RegisterExecutor (executors : gmap string (DefaultExecutorProvider E)) (executor : string) p
    : option (gmap string (DefaultExecutorProvider E)) :=
  match validateExecutorProvider p with
  | Some _ => None
  | None =>
      match executors !! executor with
      | Some _ => None
      | None => Some (<[executor := p]> executors)
      end
  end.

Definition GetExecutor (executors : gmap string (DefaultExecutorProvider E)) (executor : string)
    : option (DefaultExecutorProvider E) := executors !! executor.

Definition GetExecutors (executors : gmap string (DefaultExecutorProvider E)) : list string :=
  (map_to_list executors).*1.

Definition GetExecutorProviders (executors : gmap string (DefaultExecutorProvider E))
    : list (DefaultExecutorProvider E) := (map_to_list executors).*2.

Definition NewExecutor (executors : gmap string (DefaultExecutorProvider E)) (executor : string) : option E :=
  match GetExecutor executors executor with
  | Some provider => Create provider
  | None => None
  end.

(** The registrations of a program in order; [None] once one of them panics. *)
Fixpoint register_all (executors : gmap string (DefaultExecutorProvider E))
    (l : list (string * DefaultExecutorProvider E)) : option (gmap string (DefaultExecutorProvider E)) :=
  match l with
  | [] => Some executors
  | (name, p) :: l' =>
      match RegisterExecutor executors name p with
      | Some executors' => register_all executors' l'
      | None => None
      end
  end.

(** A provider [validateExecutorProvider] accepts. *)
Definition usable p : Prop :=
  DefaultShellName p ≠ "" ∧ is_Some (Creator p) ∧ is_Some (FeaturesUpdater p).

Lemma validate_usable p : validateExecutorProvider p = None ↔ usable p.
Proof.
  unfold validateExecutorProvider, usable, GetDefaultShell, CanCreate, p_GetFeatures.
  assert (∀ A (o : option A), is_Some o ↔ o ≠ None) as Hs by (intros; symmetry; apply not_eq_None_Some).
  rewrite !Hs. destruct (Creator p), (FeaturesUpdater p); simpl; case_bool_decide; naive_solver.
Qed.

Lemma register_all_spec l : ∀ executors executors',
  register_all executors l = Some executors' ↔
  Forall (λ x, usable x.2) l ∧ NoDup l.*1 ∧ (∀ n, n ∈ l.*1 → executors !! n = None) ∧
  executors' = list_to_map l ∪ executors.
Proof.
  induction l as [|[name p] l IH]; intros ex ex'; simpl.
  - rewrite (left_id_L ∅ (∪)). split; [intros [= ->]|intros (_ & _ & _ & ->)]; [|done].
    split_and!; auto using NoDup_nil_2. intros n Hn. by apply elem_of_nil in Hn.
  - unfold RegisterExecutor. rewrite Forall_cons, NoDup_cons.
    destruct (validateExecutorProvider p) as [e|] eqn:Ev.
    { split; [done|]. intros ([Hp _] & _). apply validate_usable in Hp. simpl in Hp. congruence. }
    apply validate_usable in Ev. destruct (ex !! name) as [q|] eqn:El.
    { split; [done|]. intros (_ & _ & Hn & _). rewrite Hn in El by left. done. }
    rewrite IH. split.
    + intros (Hl & Hd & Hn & ->).
      assert (name ∉ l.*1) as Hni. { intros Hin. apply Hn in Hin. by rewrite lookup_insert_eq in Hin. }
      split_and!; auto.
      * intros n [->|Hin]%elem_of_cons; [done|]. pose proof (Hn n Hin) as H.
        rewrite lookup_insert_ne in H; [done|]. by intros <-.
      * rewrite <- insert_union_l, insert_union_r; [done|]. by apply not_elem_of_list_to_map_1.
    + intros ([_ Hl] & [Hni Hd] & Hn & ->). split_and!; auto.
      * intros n Hin. rewrite lookup_insert_ne by (by intros ->). apply Hn. by right.
      * rewrite <- insert_union_l, insert_union_r; [done|]. by apply not_elem_of_list_to_map_1.
Qed.
End Registry.

(** ** What every executor shares *)

Record ExecutorOptions := {
  DefaultCustomBuildsDirEnabled : bool; DefaultBuildsDir : string; DefaultCacheDir : string;
  OptSharedBuildsDir : bool; OptShell : string; OptShellType : ShellType;
  OptRunnerCommand : string; ShowHostname : bool; Metadata : gmap string string }.

Section Abstract.
Context `{!GoText} (app : AppVersionInfo).

(** The embedded [AbstractExecutor] once [PrepareConfiguration] ran; [os.Hostname] and the
    registry of shells are the program's. *)
Definition abs_RootDir (o : ExecutorOptions) (config : RunnerConfig) : string :=
  if bool_decide (BuildsDir config ≠ "") then BuildsDir config else DefaultBuildsDir o.

Definition abs_CacheDir (o : ExecutorOptions) (config : RunnerConfig) : string :=
  if bool_decide (CacheDir config ≠ "") then CacheDir config else DefaultCacheDir o.

Definition CustomBuildEnabled (o : ExecutorOptions) (config : RunnerConfig) : bool :=
  match CustomBuildDir config with
  | Some enabled => enabled
  | None => DefaultCustomBuildsDirEnabled o
  end.

(** [updateShell]: the name of the shell the job runs in. *)
Definition updateShell (o : ExecutorOptions) (config : RunnerConfig) : string :=
  if bool_decide (Config.Shell config ≠ "") then Config.Shell config else OptShell o.

Definition generateShellConfiguration (shells : gmap string Shells.Shell) (o : ExecutorOptions)
    (config : RunnerConfig) (b : Build) (hostname user : string)
    : result string ShellConfiguration :=
  GetShellConfiguration shells (updateShell o config)
    {| SSI_Build := b; SSI_Hostname := hostname; SSI_Type := OptShellType o; SSI_User := user;
       RunnerCommand := OptRunnerCommand o;
       SSI_PreCloneScript := PreCloneScript config; SSI_PreBuildScript := PreBuildScript config;
       SSI_PostBuildScript := PostBuildScript config |}.

Definition startBuild (o : ExecutorOptions) (config : RunnerConfig) (sharedBuildsDir : bool) (b : Build)
    : option error * Build :=
  StartBuild app b (abs_RootDir o config) (abs_CacheDir o config) (CustomBuildEnabled o config) sharedBuildsDir.

(** [PrepareBuildAndShell]: the build with its directories, and the shell or the error. *)
Definition PrepareBuildAndShell (shells : gmap string Shells.Shell) (o : ExecutorOptions)
    (config : RunnerConfig) (sharedBuildsDir : bool) (hostname user : string) (b : Build)
    : result error ShellConfiguration * Build :=
  match startBuild o config sharedBuildsDir b with
  | (Some e, b') => (Err e, b')
  | (None, b') =>
      match generateShellConfiguration shells o config b' hostname user with
      | Err e => (Err (ErrText e), b')
      | Ok c => (Ok c, b')
      end
  end.
End Abstract.
