(* ===== verification/DockerImages.v ===== *)
(** Images, services, devices and credentials of the Docker executor: the parts of
    executors/docker/executor_docker.go that decide without talking to Docker,
    helpers/docker/auth_config.go, helpers/docker/helperimage, and the Docker section
    of common/config.go. *)

From S2P Require Import Prelude GoLib Path Types Variables Config Build Regex.

(** ** Configuration *)

(** [DockerConfig], less the credentials of the Docker connection itself. *)
Record DockerConfig := {
  Hostname : string; Image : string; Runtime : string; Memory : string; MemorySwap : string;
  MemoryReservation : string; CPUSetCPUs : string; CPUS : string; DNS : list string;
  DNSSearch : list string; Privileged : bool; DisableEntrypointOverwrite : bool;
  UsernsMode : string; CapAdd : list string; CapDrop : list string; OomKillDisable : bool;
  SecurityOpt : list string; Devices : list string; DisableCache : bool;
  Volumes : list string; VolumeDriver : string; DockerCacheDir : string;
  ExtraHosts : list string; VolumesFrom : list string; NetworkMode : string;
  Links : list string; Services : list string; WaitForServicesTimeout : Z;
  AllowedImages : list string; AllowedServices : list string; PullPolicy : string;
  ShmSize : Z; Tmpfs : gmap string string; ServicesTmpfs : gmap string string;
  SysCtls : gmap string string; HelperImage : string }.

(** ** Code the executor takes from elsewhere *)

Record AuthConfig := mkAuth { AC_Username : string; AC_Password : string; AC_ServerAddress : string }.
Definition AuthConfigs : Type := gmap string AuthConfig.

Inductive OpenError := NotExist (msg : string) | OtherOpenError (msg : string).

(** [zglob.Match] (a match or an error counts as its boolean), the first two groups of
    [reference.ReferenceRegexp], [units.RAMInBytes], the nanoseconds of CPU a rational
    number stands for ([big.Rat] scaled by 1e9 and truncated), a Docker configuration file
    ([configfile.LoadFromReader]: its [AuthConfigs] and [CredentialsStore]) and what the
    named credentials store holds; the home directory, [user.Lookup] and [os.Open] of this
    host; the order in which a map of credentials is walked; [runtime.GOARCH]. *)
Class DockerLib := {
  zglob_Match : string → string → bool;
  ReferenceRegexp : string → option (string * string);
  RAMInBytes : string → result string Z;
  RatNano : string → option Z;
  LoadFromReader : string → result string (AuthConfigs * string);
  NativeStore_GetAll : string → result string AuthConfigs;
  HomeDirectory : string;
  user_Lookup : string → result string string;
  os_Open : string → result OpenError string;
  walk : AuthConfigs → list (string * AuthConfig);
  GOARCH : string }.

Section Images.
Context `{!GoText} {DL : DockerLib}.

(** *** common/config.go *)

Definition GetNanoCPUs (c : DockerConfig) : result string Z :=
  if bool_decide (CPUS c = "") then Ok 0%Z
  else match RatNano (CPUS c) with
       | None => Err ("failed to parse " +:+ CPUS c +:+ " as a rational number")
       | Some nano => Ok nano
       end.

(** The error of [getMemoryBytes] is [logrus.Fatalf], the end of the process. *)
Definition getMemoryBytes (size fieldName : string) : result string Z :=
  if bool_decide (size = "") then Ok 0%Z
  else match RAMInBytes size with
       | Err e => Err ("Error parsing docker " +:+ fieldName +:+ ": " +:+ e)
       | Ok n => Ok n
       end.
Definition GetMemory (c : DockerConfig) : result string Z := getMemoryBytes (Memory c) "memory".
Definition GetMemorySwap (c : DockerConfig) : result string Z := getMemoryBytes (MemorySwap c) "memory_swap".
Definition GetMemoryReservation (c : DockerConfig) : result string Z :=
  getMemoryBytes (MemoryReservation c) "memory_reservation".

(** *** Registry credentials, helpers/docker/auth_config.go *)

Definition DefaultDockerRegistry : string := "docker.io".

Definition SplitDockerImageName (reposName : string) : string * string :=
  let '(indexName, remoteName) :=
    match SplitN2 reposName "/" with
    | [first; rest] =>
        if negb (Contains first ".") && negb (Contains first ":") && bool_decide (first ≠ "localhost")
        then (DefaultDockerRegistry, reposName) else (first, rest)
    | _ => (DefaultDockerRegistry, reposName)
    end in
  (if bool_decide (indexName = "index." +:+ DefaultDockerRegistry)
   then DefaultDockerRegistry else indexName, remoteName).

Definition convertToHostname (url : string) : string :=
  let stripped :=
    if HasPrefix url "http://" then TrimPrefix url "http://"
    else if HasPrefix url "https://" then TrimPrefix url "https://" else url in
  let first := hd "" (SplitN2 stripped "/") in
  if bool_decide (first = "index." +:+ DefaultDockerRegistry) then DefaultDockerRegistry else first.

(** [configs] in the order the map is walked. *)
Fixpoint resolve (indexName : string) (configs : list (string * AuthConfig)) : option AuthConfig :=
  match configs with
  | [] => None
  | (registry, authConfig) :: rest =>
      if bool_decide (indexName = convertToHostname registry) then Some authConfig
      else resolve indexName rest
  end.
Definition ResolveDockerAuthConfig (indexName : string) (configs : AuthConfigs) : option AuthConfig :=
  resolve indexName (walk configs).

Definition addAll (to from : AuthConfigs) : AuthConfigs := from ∪ to.

Definition ReadAuthConfigsFromReader (r : string) : result string AuthConfigs :=
  match LoadFromReader r with
  | Err e => Err e
  | Ok (authConfigs, store) =>
      let auths := addAll ∅ authConfigs in
      if bool_decide (store = "") then Ok auths
      else match NativeStore_GetAll store with
           | Err e => Err e
           | Ok newAuths => Ok (addAll auths newAuths)
           end
  end.

Definition ReadDockerAuthConfigsFromHomeDir (userName : string) : result string AuthConfigs :=
  match (if bool_decide (userName = "") then Ok HomeDirectory else user_Lookup userName) with
  | Err e => Err e
  | Ok homeDir =>
      if bool_decide (homeDir = "") then Err "Failed to get home directory"
      else match os_Open (pathJoin [homeDir; ".docker"; "config.json"]) with
           | Ok r => ReadAuthConfigsFromReader r
           | Err _ =>
               match os_Open (pathJoin [homeDir; ".dockercfg"]) with
               | Ok r => ReadAuthConfigsFromReader r
               | Err (NotExist _) => Ok ∅
               | Err (OtherOpenError e) => Err e
               end
           end
  end.

(** *** Credentials of an image *)

Context (app : AppVersionInfo).

Definition resolve_read (indexName : string) (r : result string AuthConfigs) : option AuthConfig :=
  match r with
  | Ok authConfigs => ResolveDockerAuthConfig indexName authConfigs
  | Err _ => None
  end.

Definition getUserAuthConfiguration (b : Build) (indexName : string) : option AuthConfig :=
  resolve_read indexName (ReadAuthConfigsFromReader (GetDockerAuthConfig app b)).

Definition getHomeDirAuthConfiguration (user indexName : string) : option AuthConfig :=
  resolve_read indexName (ReadDockerAuthConfigsFromHomeDir user).

Definition registry_auths (credentials : list Credentials) : AuthConfigs :=
  foldl (λ authConfigs c,
    if bool_decide (Cred_Type c = "registry")
    then <[Cred_URL c := mkAuth (Cred_Username c) (Cred_Password c) (Cred_URL c)]> authConfigs
    else authConfigs) ∅ credentials.

Definition getBuildAuthConfiguration (b : Build) (indexName : string) : option AuthConfig :=
  ResolveDockerAuthConfig indexName (registry_auths (JR_Credentials (Job b))).

(** The job's own DOCKER_AUTH_CONFIG, then the files of the runner's user, then what
    GitLab sent with the job. *)
Definition getAuthConfig (b : Build) (user imageName : string) : option AuthConfig :=
  let indexName := fst (SplitDockerImageName imageName) in
  match getUserAuthConfiguration b indexName with
  | Some a => Some a
  | None =>
      match getHomeDirAuthConfiguration user indexName with
      | Some a => Some a
      | None => getBuildAuthConfiguration b indexName
      end
  end.

(** *** Which images a job may use *)

(** [None] is the nil error. *)
Definition verifyAllowedImage (image : string) (allowedImages internalImages : list string) : option error :=
  if existsb (λ allowedImage, zglob_Match allowedImage image) allowedImages then None
  else if bool_decide (image ∈ internalImages) then None
  else match allowedImages with
       | [] => None
       | _ => Some (ErrText "invalid image")
       end.

Definition expandImageName (c : DockerConfig) (b : Build) (imageName : string)
    (allowedInternalImages : list string) : result error string :=
  if bool_decide (imageName ≠ "") then
    let image := ExpandValue (GetAllVariables app b) imageName in
    match verifyAllowedImage image (AllowedImages c) (allowedInternalImages ++ [Image c]) with
    | Some err => Err err
    | None => Ok image
    end
  else if bool_decide (Image c = "") then Err (ErrText "No Docker image specified to run the build in")
  else Ok (Image c).

Definition overwriteEntrypoint (c : DockerConfig) (image : Types.Image) : list string :=
  match Image_Entrypoint image with
  | [] => []
  | entrypoint => if negb (DisableEntrypointOverwrite c) then entrypoint else []
  end.

Definition named_image (name : string) : Types.Image :=
  {| Image_Name := name; Image_Alias := ""; Image_Command := []; Image_Entrypoint := []; Image_Ports := [] |}.

Definition set_image_name (i : Types.Image) (name : string) : Types.Image :=
  {| Image_Name := name; Image_Alias := Image_Alias i; Image_Command := Image_Command i;
     Image_Entrypoint := Image_Entrypoint i; Image_Ports := Image_Ports i |}.

Fixpoint job_services (c : DockerConfig) (b : Build) (services : list Types.Image)
    : result error (list Types.Image) :=
  match services with
  | [] => Ok []
  | service :: rest =>
      let serviceName := ExpandValue (GetAllVariables app b) (Image_Name service) in
      match verifyAllowedImage serviceName (AllowedServices c) (Services c) with
      | Some err => Err err
      | None =>
          match job_services c b rest with
          | Err err => Err err
          | Ok defs => Ok (set_image_name service serviceName :: defs)
          end
      end
  end.

Definition getServicesDefinitions (c : DockerConfig) (b : Build) : result error (list Types.Image) :=
  match job_services c b (JR_Services (Job b)) with
  | Err err => Err err
  | Ok defs => Ok ((named_image <$> Services c) ++ defs)
  end.

Definition getServiceVariables (b : Build) : list string :=
  StringList (PublicOrInternal (GetAllVariables app b)).

(** *** Services *)

(** The anchored pattern of three groups: as few characters as possible, an optional port,
    and an optional path. A dot is any character but a newline. *)
Definition RDot : regex := RSet true [(10, 10)%Z].
Definition ReferenceRegexpNoPort : regex :=
  RCat RBegin (RCat (RCap 1 (RStar false RDot))
    (RCat (RCap 2 (RAlt REps (RCat (RChar ":") (RPlus (RSet false [(48, 57)%Z])))))
      (RCat (RCap 3 (RAlt REps (RCat (RChar "/") (RStar true RDot)))) REnd))).

(** The service, its version, the image and the names it is linked under; [None] is the
    panic of indexing a failed match. *)
Definition splitServiceAndVersion (serviceDescription : string)
    : option (string * string * string * list string) :=
  match ReferenceRegexp serviceDescription with
  | None => Some ("", "latest", serviceDescription, [])
  | Some (match1, match2) =>
      match FindStringSubmatch ReferenceRegexpNoPort match1 with
      | None => None
      | Some matchService =>
          let service := group matchService 1 +:+ group matchService 3 in
          let '(version, imageName) :=
            if bool_decide (match2 ≠ "") then (match2, serviceDescription)
            else ("latest", match1 +:+ ":latest") in
          let linkName := Replace service "/" "__" in
          let alternativeName := Replace service "/" "-" in
          Some (service, version, imageName,
                linkName :: if bool_decide (linkName ≠ alternativeName) then [alternativeName] else [])
      end
  end.

(** *** Devices and labels *)

Record DeviceMapping := mkDevice {
  PathOnHost : string; PathInContainer : string; CgroupPermissions : string }.

Definition parseDeviceString (deviceString : string) : result error DeviceMapping :=
  match Split deviceString ":" with
  | [h] => Ok (mkDevice h h "rwm")
  | [h; c] => Ok (mkDevice h c "rwm")
  | [h; c; p] => Ok (mkDevice h c p)
  | [] => Err (ErrText "Too many colons")           (* strings.Split never returns this *)
  | _ => Err (ErrText "Too many colons")
  end.

(** The devices parsed before the first error are kept. *)
Fixpoint parse_devices (devices : list string) : list DeviceMapping * option error :=
  match devices with
  | [] => ([], None)
  | d :: rest =>
      match parseDeviceString d with
      | Err err => ([], Some (ErrText ("Failed to parse device string " +:+ Quote d +:+ ": " +:+ Error err)))
      | Ok device => let '(ds, err) := parse_devices rest in (device :: ds, err)
      end
  end.

Definition dockerLabelPrefix : string := "com.gitlab.gitlab-runner".

Definition add_label (labels : gmap string string) (label : string) : gmap string string :=
  match SplitN2 label "=" with
  | [k; v] => <[dockerLabelPrefix +:+ "." +:+ k := v]> labels
  | _ => labels
  end.

Definition getLabels (b : Build) (containerType : string) (otherLabels : list string) : gmap string string :=
  let l (k v : string) := (dockerLabelPrefix +:+ k, v) in
  let labels := list_to_map (reverse
    [l ".job.id" (Itoa (JR_ID (Job b)));
     l ".job.sha" (GI_Sha (JR_GitInfo (Job b)));
     l ".job.before_sha" (GI_BeforeSha (JR_GitInfo (Job b)));
     l ".job.ref" (GI_Ref (JR_GitInfo (Job b)));
     l ".project.id" (Itoa (JI_ProjectID (JR_JobInfo (Job b))));
     l ".runner.id" (ShortDescription (Credentials_ (Runner b)));
     l ".runner.local_id" (Itoa (RunnerID b));
     l ".type" containerType]) in
  foldl add_label labels otherLabels.

End Images.

(** ** The helper image, helpers/docker/helperimage *)

Record HelperInfo := mkHelper {
  Architecture : string; HelperName : string; Tag : string; IsSupportingLocalImport : bool;
  Cmd : list string }.

Definition HelperInfo_String (i : HelperInfo) : string := HelperName i +:+ ":" +:+ Tag i.

Definition helper_name : string := "gitlab/gitlab-runner-helper".
Definition bashCmd : list string := ["gitlab-runner-build"].
Definition powerShellCmd : list string :=
  ["PowerShell"; "-NoProfile"; "-NoLogo"; "-InputFormat"; "text"; "-OutputFormat"; "text";
   "-NonInteractive"; "-ExecutionPolicy"; "Bypass"; "-Command"; "-"].

Definition linux_architecture `{!DockerLib} (arch : string) : string :=
  if bool_decide (arch ∈ ["armv6l"; "armv7l"; "aarch64"]) then "arm"
  else if bool_decide (arch = "amd64") then "x86_64"
  else if bool_decide (arch ≠ "") then arch
  else if bool_decide (GOARCH = "amd64") then "x86_64" else GOARCH.

Definition linux_Create `{!DockerLib} (revision arch : string) : HelperInfo :=
  let a := linux_architecture arch in
  mkHelper a helper_name (a +:+ "-" +:+ revision) true bashCmd.

Definition supportedOSVersions : list (string * string) :=
  [("1803", "servercore1803"); ("1809", "servercore1809")].

(** The two versions of the map, in one order of walking it. *)
Definition osVersion (operatingSystem : string) : result string string :=
  match List.find (λ v, Contains operatingSystem (" " +:+ v.1 +:+ " ")) supportedOSVersions with
  | Some v => Ok v.2
  | None => Err "could not determine windows version"
  end.

Definition windows_Create (revision operatingSystem : string) : result string HelperInfo :=
  match osVersion operatingSystem with
  | Err e => Err e
  | Ok v => Ok (mkHelper "x86_64" helper_name ("x86_64-" +:+ revision +:+ "-" +:+ v) false powerShellCmd)
  end.

Definition imageRevision (revision : string) : string :=
  if bool_decide (revision ≠ "HEAD") then revision else "latest".

Definition helperimage_Get `{!GoText, !DockerLib} (revision OSType arch operatingSystem : string)
    : result string HelperInfo :=
  if bool_decide (OSType = "windows") then windows_Create (imageRevision revision) operatingSystem
  else if bool_decide (OSType = "linux") then Ok (linux_Create (imageRevision revision) arch)
  else Err ("unsupported OSType " +:+ Quote OSType).
