(* ===== verification/Docker.v ===== *)
(** The Docker executor (executors/docker/executor_docker.go, executor_docker_command.go,
    executor_docker_ssh.go, volume_manager_adapter.go) with its volumes manager
    (executors/docker/internal/volumes).

    The Docker daemon is not part of the program: every call of the client is recorded in
    the history of the executor together with its answer, and the answer is an arbitrary
    function of the call and of everything that happened before ([Daemon]). Operations
    are functions from the executor's state to a result and the state they leave, errors
    included. Goroutines that only wait for one another are run one after the other. *)

From S2P Require Import Prelude GoMonad GoLib Path Types Variables Config TraceBuffer Build AbstractShell Shells.
From S2P Require Import Regex VolumeParser Executor DockerImages.

(** ** Data *)

Inductive derror :=
| EGo (e : error)                            (* an error the executor does not tell apart *)
| ENotFound (msg : string)                   (* docker_helpers.IsErrNotFound *)
| EVolume (e : VolumeError)
| EVolumeAlreadyDefined (containerPath : string)
| ECacheVolumesDisabled
| EVolumesManagerUndefined
| EHealthCheck (inner : derror) (logs : string)
| EPanic                                     (* a run-time panic *)
| EFatal (msg : string).                     (* logrus.Fatalf *)

Record ContainerJSON := mkContainer {
  CJ_ID : string; CJ_Running : bool; CJ_ExitCode : Z; CJ_Volumes : list string }.

Record ServiceContainer := mkService { SC_ID : string; SC_Name : string }.

Record Network := { Net_ID : string; Net_Containers : list string (* their names *) }.

Record ContainerConfig := mkConfig {
  CC_Image : string; CC_Hostname : string; CC_Cmd : list string; CC_Entrypoint : list string;
  CC_Labels : gmap string string; CC_Attach : bool; CC_Env : list string; CC_Volumes : list string }.

Record HostConfig := mkHost {
  HC_Memory : Z; HC_MemorySwap : Z; HC_MemoryReservation : Z; HC_CpusetCpus : string;
  HC_NanoCPUs : Z; HC_Devices : list DeviceMapping; HC_OomKillDisable : bool;
  HC_DNS : list string; HC_DNSSearch : list string; HC_Runtime : string; HC_Privileged : bool;
  HC_UsernsMode : string; HC_CapAdd : list string; HC_CapDrop : list string;
  HC_SecurityOpt : list string; HC_NeverRestart : bool; HC_ExtraHosts : list string;
  HC_NetworkMode : string; HC_Links : list string; HC_Binds : list string; HC_ShmSize : Z;
  HC_VolumeDriver : string; HC_VolumesFrom : list string; HC_Tmpfs : gmap string string;
  HC_Sysctls : gmap string string }.

Definition no_host : HostConfig :=
  mkHost 0 0 0 "" 0 [] false [] [] "" false "" [] [] [] false [] "" [] [] 0 "" [] ∅ ∅.

(** Why a container is made. *)
Inductive purpose := ForCache | ForService | ForJob | ForHealthCheck.

(** One call of the client, with its answer. *)
Inductive call :=
| CInfo
| CInspect (id : string)
| CCreate (p : purpose) (name : string) (config : ContainerConfig) (host : HostConfig)
    (answer : result (derror * string) string)
| CStart (id : string) (err : option derror)
| CAttach (id : string) (err : option derror)
| CKill (id : string)
| CRemove (id : string) (err : option derror)
| CNetworkList
| CNetworkDisconnect (network id : string) (err : option derror)
| CImageInspect (name : string) (answer : result derror string)
| CImagePull (ref : string) (auth : option AuthConfig) (err : option derror)
| CImageImport (path ref tag : string) (err : option derror)
| CLogs (id : string)
| CSSHConnect (host : string)
| CClose.

Definition dhist : Type := list call.          (* latest first *)

(** What ends the wait of [watchContainer]. *)
Inductive watch := WatchCtxDone | WatchAttach (err : derror) | WatchContainer.

(** The daemon's answers. [d_polls] is the number of times [waitForContainer] finds the
    context alive, [d_ctxErr] the error of the context then, and [d_kills] how many
    seconds a killed container takes to be gone. *)
Record Daemon := {
  d_new : option derror;                                  (* docker_helpers.New *)
  d_info : dhist → result derror (string * string * string);
                                        (* OSType, Architecture, OperatingSystem *)
  d_inspect : dhist → string → result derror ContainerJSON;
  d_create : dhist → string → result (derror * string) string;
  d_start : dhist → string → option derror;
  d_attach : dhist → string → option derror;
  d_remove : dhist → string → option derror;
  d_networks : dhist → result derror (list Network);
  d_disconnect : dhist → string → string → option derror;
  d_image : dhist → string → result derror string;
  d_pull : dhist → string → option derror;
  d_open : dhist → string → option derror;
  d_import : dhist → string → option derror;
  d_logs : dhist → string → result derror string;
  d_ssh : dhist → option derror;
  d_polls : dhist → nat;
  d_ctxErr : dhist → error;
  d_kills : dhist → nat;
  d_watch : dhist → watch;
  d_timeout : dhist → bool }.

(** *** The volumes manager and the executor *)

Record ManagerConfig := {
  MC_CacheDir : string; MC_BaseContainerPath : string; MC_UniqueName : string; MC_DisableCache : bool }.

(** [manager] with its [cacheContainerManager]. *)
Record manager := mkManager {
  m_config : ManagerConfig; m_parser : Parser; m_helperImage : string;
  volumeBindings : list string; cacheContainerIDs : list string; tmpContainerIDs : list string;
  managedVolumes : gset string; failedContainerIDs : list string }.

Record executor := mkExecutor {
  hist : dhist; temporary : list string; builds : list string; services : list ServiceContainer;
  links : list string; devices : list DeviceMapping; info : string * string * string;
  helperImageInfo : HelperInfo; usedImages : gmap string string; volumesManager : option manager;
  SharedBuildsDir : bool; eBuild : Build; BuildShell : option ShellConfiguration;
  buildContainer : option string; connected : bool; Trace : string; currentStage : string }.

(** Field updates. *)
Definition upd_hist (h : dhist) (e : executor) : executor :=
  mkExecutor h (temporary e) (builds e) (services e) (links e) (devices e) (info e) (helperImageInfo e)
    (usedImages e) (volumesManager e) (SharedBuildsDir e) (eBuild e) (BuildShell e) (buildContainer e)
    (connected e) (Trace e) (currentStage e).
Definition upd_temporary (t : list string) (e : executor) : executor :=
  mkExecutor (hist e) t (builds e) (services e) (links e) (devices e) (info e) (helperImageInfo e)
    (usedImages e) (volumesManager e) (SharedBuildsDir e) (eBuild e) (BuildShell e) (buildContainer e)
    (connected e) (Trace e) (currentStage e).
Definition upd_builds (b : list string) (e : executor) : executor :=
  mkExecutor (hist e) (temporary e) b (services e) (links e) (devices e) (info e) (helperImageInfo e)
    (usedImages e) (volumesManager e) (SharedBuildsDir e) (eBuild e) (BuildShell e) (buildContainer e)
    (connected e) (Trace e) (currentStage e).
Definition upd_services (s : list ServiceContainer) (e : executor) : executor :=
  mkExecutor (hist e) (temporary e) (builds e) s (links e) (devices e) (info e) (helperImageInfo e)
    (usedImages e) (volumesManager e) (SharedBuildsDir e) (eBuild e) (BuildShell e) (buildContainer e)
    (connected e) (Trace e) (currentStage e).
Definition upd_links (l : list string) (e : executor) : executor :=
  mkExecutor (hist e) (temporary e) (builds e) (services e) l (devices e) (info e) (helperImageInfo e)
    (usedImages e) (volumesManager e) (SharedBuildsDir e) (eBuild e) (BuildShell e) (buildContainer e)
    (connected e) (Trace e) (currentStage e).
Definition upd_devices (d : list DeviceMapping) (e : executor) : executor :=
  mkExecutor (hist e) (temporary e) (builds e) (services e) (links e) d (info e) (helperImageInfo e)
    (usedImages e) (volumesManager e) (SharedBuildsDir e) (eBuild e) (BuildShell e) (buildContainer e)
    (connected e) (Trace e) (currentStage e).
Definition upd_info (i : string * string * string) (e : executor) : executor :=
  mkExecutor (hist e) (temporary e) (builds e) (services e) (links e) (devices e) i (helperImageInfo e)
    (usedImages e) (volumesManager e) (SharedBuildsDir e) (eBuild e) (BuildShell e) (buildContainer e)
    (connected e) (Trace e) (currentStage e).
Definition upd_connected (e : executor) : executor :=
  mkExecutor (hist e) (temporary e) (builds e) (services e) (links e) (devices e) (info e) (helperImageInfo e)
    (usedImages e) (volumesManager e) (SharedBuildsDir e) (eBuild e) (BuildShell e) (buildContainer e)
    true (Trace e) (currentStage e).
Definition upd_helper (h : HelperInfo) (e : executor) : executor :=
  mkExecutor (hist e) (temporary e) (builds e) (services e) (links e) (devices e) (info e) h
    (usedImages e) (volumesManager e) (SharedBuildsDir e) (eBuild e) (BuildShell e) (buildContainer e)
    (connected e) (Trace e) (currentStage e).
Definition upd_used (u : gmap string string) (e : executor) : executor :=
  mkExecutor (hist e) (temporary e) (builds e) (services e) (links e) (devices e) (info e) (helperImageInfo e)
    u (volumesManager e) (SharedBuildsDir e) (eBuild e) (BuildShell e) (buildContainer e)
    (connected e) (Trace e) (currentStage e).
Definition upd_manager (m : manager) (e : executor) : executor :=
  mkExecutor (hist e) (temporary e) (builds e) (services e) (links e) (devices e) (info e) (helperImageInfo e)
    (usedImages e) (Some m) (SharedBuildsDir e) (eBuild e) (BuildShell e) (buildContainer e)
    (connected e) (Trace e) (currentStage e).
Definition upd_shared (b : bool) (e : executor) : executor :=
  mkExecutor (hist e) (temporary e) (builds e) (services e) (links e) (devices e) (info e) (helperImageInfo e)
    (usedImages e) (volumesManager e) b (eBuild e) (BuildShell e) (buildContainer e)
    (connected e) (Trace e) (currentStage e).
Definition upd_build (b : Build) (e : executor) : executor :=
  mkExecutor (hist e) (temporary e) (builds e) (services e) (links e) (devices e) (info e) (helperImageInfo e)
    (usedImages e) (volumesManager e) (SharedBuildsDir e) b (BuildShell e) (buildContainer e)
    (connected e) (Trace e) (currentStage e).
Definition upd_shell (c : ShellConfiguration) (e : executor) : executor :=
  mkExecutor (hist e) (temporary e) (builds e) (services e) (links e) (devices e) (info e) (helperImageInfo e)
    (usedImages e) (volumesManager e) (SharedBuildsDir e) (eBuild e) (Some c) (buildContainer e)
    (connected e) (Trace e) (currentStage e).
Definition upd_buildContainer (c : option string) (e : executor) : executor :=
  mkExecutor (hist e) (temporary e) (builds e) (services e) (links e) (devices e) (info e) (helperImageInfo e)
    (usedImages e) (volumesManager e) (SharedBuildsDir e) (eBuild e) (BuildShell e) c
    (connected e) (Trace e) (currentStage e).
Definition upd_trace (t : string) (e : executor) : executor :=
  mkExecutor (hist e) (temporary e) (builds e) (services e) (links e) (devices e) (info e) (helperImageInfo e)
    (usedImages e) (volumesManager e) (SharedBuildsDir e) (eBuild e) (BuildShell e) (buildContainer e)
    (connected e) t (currentStage e).
Definition upd_currentStage (s : string) (e : executor) : executor :=
  mkExecutor (hist e) (temporary e) (builds e) (services e) (links e) (devices e) (info e) (helperImageInfo e)
    (usedImages e) (volumesManager e) (SharedBuildsDir e) (eBuild e) (BuildShell e) (buildContainer e)
    (connected e) (Trace e) s.

(** ** Operations with a state and an error *)

Notation M := (GoM executor derror).
Open Scope go_scope.

Fixpoint derror_text `{!GoText} (err : derror) : string :=
  match err with
  | EGo e => Error e
  | ENotFound msg => msg
  | EVolume (InvalidVolumeSpecError spec) => "invalid volume specification: " +:+ Quote spec
  | EVolume (ErrOSNotSupported os) => "unsupported OSType " +:+ Quote os
  | EVolumeAlreadyDefined p => "volume for container path " +:+ Quote p +:+ " is already defined"
  | ECacheVolumesDisabled => "cache volumes feature disabled"
  | EVolumesManagerUndefined => "volumesManager is undefined"
  | EHealthCheck inner _ => derror_text inner
  | EPanic => ""
  | EFatal msg => msg
  end.

(** ** The client *)

Section Client.
Context (D : Daemon).

Definition record (c : call) (e : executor) : executor := upd_hist (c :: hist e) e.

Definition ContainerInspect (id : string) : M ContainerJSON :=
  λ e, (d_inspect D (hist e) id, record (CInspect id) e).

(** The error of a failed creation may come with the id of a container. *)
Definition ContainerCreate (p : purpose) (config : ContainerConfig) (host : HostConfig) (name : string)
    : M (result (derror * string) string) :=
  λ e, let answer := d_create D (hist e) name in
       (Ok answer, record (CCreate p name config host answer) e).

Definition ContainerStart (id : string) : M unit :=
  λ e, let err := d_start D (hist e) id in (of_option err, record (CStart id err) e).
Definition ContainerAttach (id : string) : M unit :=
  λ e, let err := d_attach D (hist e) id in (of_option err, record (CAttach id err) e).
Definition ContainerKill (id : string) : M unit := mupd (record (CKill id)).
Definition ContainerRemove (id : string) : M unit :=
  λ e, let err := d_remove D (hist e) id in (of_option err, record (CRemove id err) e).
Definition NetworkList : M (list Network) :=
  λ e, (d_networks D (hist e), record CNetworkList e).
Definition NetworkDisconnect (network id : string) : M unit :=
  λ e, let err := d_disconnect D (hist e) network id in
       (of_option err, record (CNetworkDisconnect network id err) e).
Definition ImageInspect (name : string) : M string :=
  λ e, let answer := d_image D (hist e) name in (answer, record (CImageInspect name answer) e).
Definition ImagePull (ref : string) (auth : option AuthConfig) : M unit :=
  λ e, let err := d_pull D (hist e) ref in (of_option err, record (CImagePull ref auth err) e).
Definition ImageImport (path ref tag : string) : M unit :=
  λ e, let err := d_import D (hist e) path in (of_option err, record (CImageImport path ref tag err) e).
Definition ContainerLogs (id : string) : M string :=
  λ e, (d_logs D (hist e) id, record (CLogs id) e).

Definition SetCurrentStage (stage : string) : M unit := mupd (upd_currentStage stage).

(** *** Containers *)

(** The networks one after the other; the error is that of the last disconnection. *)
Fixpoint disconnect_all (networks : list Network) (id : string) (err : option derror) : M unit :=
  match networks with
  | [] => lift (of_option err)
  | network :: rest =>
      if bool_decide (id ∈ Net_Containers network) then
        let! r := attempt (NetworkDisconnect (Net_ID network) id) in
        disconnect_all rest id (match r with Ok _ => None | Err e => Some e end)
      else disconnect_all rest id err
  end.

Definition disconnectNetwork (id : string) : M unit :=
  let! networks := NetworkList in disconnect_all networks id None.

Definition removeContainer (id : string) : M unit :=
  attempt (disconnectNetwork id) ;;! ContainerRemove id.

(** [n] is the number of times the context is still alive. *)
Fixpoint wait_loop (n : nat) (retries : Z) (id : string) : M unit :=
  match n with
  | 0 => λ e, (Err (EGo (d_ctxErr D (hist e))), e)
  | S n' =>
      let! r := attempt (ContainerInspect id) in
      match r with
      | Err (ENotFound msg) => failM (ENotFound msg)
      | Err err => if (3 <? retries)%Z then failM err else wait_loop n' (retries + 1) id
      | Ok container =>
          if CJ_Running container then wait_loop n' 0 id
          else if negb (CJ_ExitCode container =? 0)%Z
               then failM (EGo (BuildError (ErrText ("exit code " +:+ Itoa (CJ_ExitCode container))) NoneFailure))
               else returnM tt
      end
  end.

Definition waitForContainer (id : string) : M unit :=
  λ e, wait_loop (d_polls D (hist e)) 0 id e.

(** [n + 1] rounds of the loop until the container's end is reported. *)
Fixpoint kill_loop (n : nat) (id : string) : M unit :=
  attempt (disconnectNetwork id) ;;!
  ContainerKill id ;;!
  match n with 0 => returnM tt | S n' => kill_loop n' id end.

Definition killContainer (id : string) : M unit := λ e, kill_loop (d_kills D (hist e)) id e.

Definition watchContainer (id : string) : M unit :=
  ContainerAttach id ;;!
  ContainerStart id ;;!
  let! w := mget (λ e, d_watch D (hist e)) in
  match w with
  | WatchCtxDone => killContainer id ;;! failM (EGo (ErrText "Aborted"))
  | WatchAttach err => killContainer id ;;! failM err
  | WatchContainer => waitForContainer id
  end.

(** [strings.TrimSpace] of the logs, or of the error of asking for them. *)
Definition readContainerLogs `{!GoText} (id : string) : M string :=
  let! r := attempt (ContainerLogs id) in
  returnM (TrimSpace match r with Ok logs => logs | Err err => derror_text err end).

Fixpoint getValidContainers (containers : list string) : M (list string) :=
  match containers with
  | [] => returnM []
  | container :: rest =>
      let! r := attempt (ContainerInspect container) in
      let! valid := getValidContainers rest in
      returnM (match r with Ok _ => container :: valid | Err _ => valid end)
  end.

End Client.

(** ** The executor *)

Definition errVolumesManagerUndefined : derror := EVolumesManagerUndefined.

Section Executor.
Context `{!GoText} {DL : DockerLib} (app : AppVersionInfo) (D : Daemon).
(** The configuration of the runner and its Docker section, the options the executor was
    registered with, the user of the shell, the registered shells, the paths of prebuilt
    images, and the hash of a container path ([hashContainerPath], the MD5 sum). *)
Context (config : RunnerConfig) (dconfig : DockerConfig) (options : ExecutorOptions)
  (shells : gmap string Shells.Shell) (user hostname : string)
  (prebuiltPaths : list string) (hashContainerPath : string → string)
  (filepath_Abs : string → result error string).

(** *** Images *)

Definition wasImageUsed (imageName imageID : string) (e : executor) : bool :=
  bool_decide (default "" (usedImages e !! imageName) = imageID).

Definition markImageAsUsed (imageName imageID : string) : M unit :=
  mupd (λ e, upd_used (<[imageName := imageID]> (usedImages e)) e).

(** The pattern (repository does not exist|not found). *)
Definition image_missing (msg : string) : bool :=
  Contains msg "repository does not exist" || Contains msg "not found".

Definition DockerExecutorStagePullingImage : string := "docker_pulling_image".

Definition pullDockerImage (imageName : string) (ac : option AuthConfig) : M string :=
  SetCurrentStage DockerExecutorStagePullingImage ;;!
  let ref := if Contains imageName ":" || Contains imageName "@" then imageName
             else imageName +:+ ":latest" in
  let! r := attempt (ImagePull D ref ac) in
  match r with
  | Err err =>
      if image_missing (derror_text err)
      then failM (EGo (BuildError (ErrText (derror_text err)) NoneFailure)) else failM err
  | Ok _ => ImageInspect D imageName
  end.

(** The deferred [markImageAsUsed] of the successful ways out. *)
Definition marking (imageName : string) (c : M string) : M string :=
  let! image := c in markImageAsUsed imageName image ;;! returnM image.

Definition getDockerImage (imageName : string) : M string :=
  let! pullPolicy := lift match DockerPullPolicy_Get (PullPolicy dconfig) with
                          | Ok p => Ok p | Err msg => Err (EGo (ErrText msg)) end in
  let! authConfig := mget (λ e, getAuthConfig app (eBuild e) user imageName) in
  let! existing := attempt (ImageInspect D imageName) in
  let! used := mget (λ e, match existing with Ok id => wasImageUsed imageName id e | Err _ => false end) in
  if used then lift existing
  else marking imageName
    (if bool_decide (pullPolicy = PullPolicyNever) then lift existing
     else match existing with
          | Ok id =>
              if bool_decide (id = imageName) then returnM id
              else if bool_decide (pullPolicy = PullPolicyIfNotPresent) then returnM id
              else pullDockerImage imageName authConfig
          | Err _ => pullDockerImage imageName authConfig
          end).

Definition from_error {A} (r : result error A) : result derror A :=
  match r with Ok a => Ok a | Err e => Err (EGo e) end.

Definition expandAndGetDockerImage (imageName : string) (allowedImages : list string) : M string :=
  let! b := mget eBuild in
  let! imageName := lift (from_error (expandImageName app dconfig b imageName allowedImages)) in
  getDockerImage imageName.

(** [os.OpenFile] is the daemon's [d_open]; its errors only differ in their text. *)
Definition loadPrebuiltImage (path ref tag : string) : M string :=
  let! opened := mget (λ e, d_open D (hist e) path) in
  match opened with
  | Some err => failM err
  | None =>
      let! r := attempt (ImageImport D path ref tag) in
      match r with
      | Err err => failM (EGo (ErrText ("Failed to import image: " +:+ derror_text err)))
      | Ok _ => ImageInspect D (ref +:+ ":" +:+ tag)
      end
  end.

Definition prebuiltImageName : string := "gitlab/gitlab-runner-helper".
Definition prebuiltImageExtension : string := ".tar.xz".

Fixpoint load_first (paths : list string) (architecture tag : string) : M (option string) :=
  match paths with
  | [] => returnM None
  | p :: rest =>
      let! r := attempt (loadPrebuiltImage (pathJoin [p; "prebuilt-" +:+ architecture +:+ prebuiltImageExtension])
                           prebuiltImageName tag) in
      match r with
      | Ok image => returnM (Some image)
      | Err _ => load_first rest architecture tag
      end
  end.

Definition getLocalHelperImage : M (option string) :=
  let! helper := mget helperImageInfo in
  if negb (IsSupportingLocalImport helper) then returnM None
  else load_first prebuiltPaths (Architecture helper) (Tag helper).

Definition getPrebuiltImage : M string :=
  if bool_decide (HelperImage dconfig ≠ "")
  then getDockerImage (ExpandValue (VersionVariables app) (HelperImage dconfig))
  else
    let! helper := mget helperImageInfo in
    let! r := attempt (ImageInspect D (HelperInfo_String helper)) in
    match r with
    | Ok image => returnM image
    | Err _ =>
        let! loaded := getLocalHelperImage in
        match loaded with
        | Some image => returnM image
        | None => getDockerImage (HelperInfo_String helper)
        end
    end.

Definition getBuildImage : M string :=
  let! b := mget eBuild in
  let! imageName := lift (from_error (expandImageName app dconfig b (Image_Name (JR_Image (Job b))) [])) in
  getDockerImage imageName.

Definition bindDevices : M unit :=
  let '(ds, err) := parse_devices (Devices dconfig) in
  mupd (λ e, upd_devices (devices e ++ ds) e) ;;!
  lift match err with None => Ok tt | Some e => Err (EGo e) end.

(** *** Volumes: cache containers *)

Definition get_manager : M manager :=
  λ e, match volumesManager e with Some m => (Ok m, e) | None => (Err EPanic, e) end.
Definition upd_m (f : manager → manager) : M unit :=
  mupd (λ e, match volumesManager e with Some m => upd_manager (f m) e | None => e end).

Definition add_failed (id : string) (m : manager) : manager :=
  mkManager (m_config m) (m_parser m) (m_helperImage m) (volumeBindings m) (cacheContainerIDs m)
    (tmpContainerIDs m) (managedVolumes m) (failedContainerIDs m ++ [id]).
Definition add_bind (b : string) (m : manager) : manager :=
  mkManager (m_config m) (m_parser m) (m_helperImage m) (volumeBindings m ++ [b]) (cacheContainerIDs m)
    (tmpContainerIDs m) (managedVolumes m) (failedContainerIDs m).
Definition add_cache (id : string) (m : manager) : manager :=
  mkManager (m_config m) (m_parser m) (m_helperImage m) (volumeBindings m) (cacheContainerIDs m ++ [id])
    (tmpContainerIDs m) (managedVolumes m) (failedContainerIDs m).
Definition add_tmp (id : string) (m : manager) : manager :=
  mkManager (m_config m) (m_parser m) (m_helperImage m) (volumeBindings m) (cacheContainerIDs m)
    (tmpContainerIDs m ++ [id]) (managedVolumes m) (failedContainerIDs m).
Definition add_path (p : string) (m : manager) : manager :=
  mkManager (m_config m) (m_parser m) (m_helperImage m) (volumeBindings m) (cacheContainerIDs m)
    (tmpContainerIDs m) ({[ p ]} ∪ managedVolumes m) (failedContainerIDs m).

(** [FindOrCleanExisting]; the empty string stands for no usable container. *)
Definition FindOrCleanExisting (containerName containerPath : string) : M string :=
  let! r := attempt (ContainerInspect D containerName) in
  match r with
  | Err _ => returnM ""
  | Ok inspected =>
      if bool_decide (containerPath ∈ CJ_Volumes inspected) then returnM (CJ_ID inspected)
      else attempt (removeContainer D (CJ_ID inspected)) ;;! returnM ""
  end.

Definition createCacheContainer (containerName containerPath : string) : M string :=
  let! m := get_manager in
  let! b := mget eBuild in
  let cc := mkConfig (m_helperImage m) "" ["gitlab-runner-helper"; "cache-init"; containerPath] []
              (getLabels b "cache" ["cache.dir=" +:+ containerPath]) false [] [containerPath] in
  let! r := ContainerCreate D ForCache cc no_host containerName in
  match r with
  | Err (err, id) =>
      (if bool_decide (id ≠ "") then upd_m (add_failed id) else returnM tt) ;;! failM err
  | Ok id => returnM id
  end.

Definition startCacheContainer (containerID : string) : M unit :=
  let! r := attempt (ContainerStart D containerID) in
  match r with
  | Err err => upd_m (add_failed containerID) ;;! failM err
  | Ok _ =>
      let! r := attempt (waitForContainer D containerID) in
      match r with
      | Err err => upd_m (add_failed containerID) ;;! failM err
      | Ok _ => returnM tt
      end
  end.

Definition cacheContainer_Create (containerName containerPath : string) : M string :=
  let! containerID := createCacheContainer containerName containerPath in
  startCacheContainer containerID ;;! returnM containerID.

(** *** Volumes: the manager *)

(** [pathList.Add] *)
Definition pathList_Add (containerPath : string) : M unit :=
  let! m := get_manager in
  if bool_decide (containerPath ∈ managedVolumes m) then failM (EVolumeAlreadyDefined containerPath)
  else upd_m (add_path containerPath).

Definition getAbsoluteContainerPath (m : manager) (dir : string) : string :=
  if IsAbs dir then dir else pathJoin [MC_BaseContainerPath (m_config m); dir].

Definition appendVolumeBind (v : Volume) : M unit := upd_m (add_bind (VolumeDefinition v)).

Definition addHostVolume (v : Volume) : M unit :=
  let! m := get_manager in
  let v := mkVolume (Source v) (getAbsoluteContainerPath m (Destination v)) (Mode v) in
  pathList_Add (Destination v) ;;! appendVolumeBind v.

Definition createHostBasedCacheVolume (containerPath : string) : M unit :=
  let! m := get_manager in
  let containerPath := getAbsoluteContainerPath m containerPath in
  pathList_Add containerPath ;;!
  let hostPath := pathJoin [MC_CacheDir (m_config m); MC_UniqueName (m_config m); hashContainerPath containerPath] in
  let! hostPath := lift (from_error (filepath_Abs hostPath)) in
  appendVolumeBind (mkVolume hostPath containerPath "").

Definition createContainerBasedCacheVolume (containerPath : string) : M string :=
  let! m := get_manager in
  let containerPath := getAbsoluteContainerPath m containerPath in
  pathList_Add containerPath ;;!
  let containerName := MC_UniqueName (m_config m) +:+ "-cache-" +:+ hashContainerPath containerPath in
  let! found := FindOrCleanExisting containerName containerPath in
  let! containerID :=
    if bool_decide (found = "") then cacheContainer_Create containerName containerPath else returnM found in
  upd_m (add_cache containerID) ;;! returnM containerID.

Definition addCacheVolume (v : Volume) : M unit :=
  let! m := get_manager in
  if MC_DisableCache (m_config m) then failM ECacheVolumesDisabled
  else if bool_decide (MC_CacheDir (m_config m) ≠ "") then createHostBasedCacheVolume (Destination v)
  else createContainerBasedCacheVolume (Destination v) ;;! returnM tt.

Definition manager_Create (volume : string) : M unit :=
  if bool_decide (slen volume < 1) then returnM tt
  else
    let! m := get_manager in
    match m_parser m volume with
    | Err err => failM (EVolume err)
    | Ok parsed =>
        match Len parsed with
        | 2 => addHostVolume parsed
        | 1 => addCacheVolume parsed
        | _ => failM (EGo (ErrText ("unsupported volume definition " +:+ volume)))
        end
    end.

Definition CreateTemporary (containerPath : string) : M unit :=
  let! id := createContainerBasedCacheVolume containerPath in upd_m (add_tmp id).

Definition Binds (e : executor) : list string :=
  match volumesManager e with Some m => volumeBindings m | None => [] end.
Definition ContainerIDs (e : executor) : list string :=
  match volumesManager e with Some m => cacheContainerIDs m | None => [] end.

(** [createVolumesManager] of volume_manager_adapter.go *)
Definition createVolumesManager : M unit :=
  let! helperImage := getPrebuiltImage in
  let! i := mget info in
  match New_parser i.1.1 with
  | Err err => failM (EVolume err)
  | Ok p =>
      mupd (λ e, upd_manager
        (mkManager {| MC_CacheDir := DockerCacheDir dconfig;
                      MC_BaseContainerPath := FullProjectDir (eBuild e);
                      MC_UniqueName := ProjectUniqueName (eBuild e);
                      MC_DisableCache := DisableCache dconfig |}
           p helperImage [] [] [] ∅ []) e)
  end.

Definition require_manager {A} (c : M A) : M A :=
  λ e, match volumesManager e with None => (Err errVolumesManagerUndefined, e) | Some _ => c e end.

Definition is_disabled (err : derror) : bool := match err with ECacheVolumesDisabled => true | _ => false end.
Definition is_already_defined (err : derror) : bool :=
  match err with EVolumeAlreadyDefined _ => true | _ => false end.

Fixpoint create_volumes (l : list string) : M unit :=
  match l with
  | [] => returnM tt
  | volume :: rest =>
      let! r := attempt (manager_Create volume) in
      match r with
      | Err err => if is_disabled err then create_volumes rest else failM err
      | Ok _ => create_volumes rest
      end
  end.

Definition createVolumes : M unit :=
  SetCurrentStage "docker_creating_user_volumes" ;;!
  require_manager (create_volumes (Volumes dconfig)).

Definition createBuildVolume : M unit :=
  SetCurrentStage "docker_creating_build_volumes" ;;!
  require_manager
    (let! b := mget eBuild in
     let jobsDir := if IsFeatureFlagOn app b UseLegacyBuildsDirForDocker
                    then Dir (FullProjectDir b) else RootDir b in
     let! r :=
       match GetGitStrategy app b with
       | GitFetch =>
           let! r := attempt (manager_Create jobsDir) in
           match r with
           | Err err => if is_disabled err then attempt (CreateTemporary jobsDir) else returnM (Err err)
           | Ok _ => returnM (Ok tt)
           end
       | _ => attempt (CreateTemporary jobsDir)
       end in
     match r with
     | Err err => if is_already_defined err then returnM tt else failM err
     | Ok _ => returnM tt
     end).

(** *** Services *)

Definition add_temporary (id : string) : M unit := mupd (λ e, upd_temporary (temporary e ++ [id]) e).

Definition createService (serviceIndex : nat) (service version image : string) (serviceDefinition : Types.Image)
    : M ServiceContainer :=
  if bool_decide (service = "") then failM (EGo (ErrText "invalid service name"))
  else require_manager
    (let! serviceImage := getDockerImage image in
     let! b := mget eBuild in
     let containerName := ProjectUniqueName b +:+ "-" +:+ Replace service "/" "__" +:+ "-"
                            +:+ Itoa (Z.of_nat serviceIndex) in
     attempt (removeContainer D containerName) ;;!
     let cc := mkConfig serviceImage "" (Image_Command serviceDefinition)
                 (overwriteEntrypoint dconfig serviceDefinition)
                 (getLabels b "service" ["service=" +:+ service; "service.version=" +:+ version])
                 false (getServiceVariables app b) [] in
     let! binds := mget Binds in
     let! volumesFrom := mget ContainerIDs in
     let hc := mkHost 0 0 0 "" 0 [] false (DNS dconfig) (DNSSearch dconfig) "" (Privileged dconfig) "" [] [] []
                 true (ExtraHosts dconfig) (NetworkMode dconfig) [] binds (ShmSize dconfig) "" volumesFrom
                 (ServicesTmpfs dconfig) ∅ in
     let! r := ContainerCreate D ForService cc hc containerName in
     match r with
     | Err (err, _) => failM err
     | Ok id =>
         let! r := attempt (ContainerStart D id) in
         match r with
         | Err err => add_temporary id ;;! failM err
         | Ok _ => returnM (mkService id containerName)
         end
     end).

(** The loop over the link names of one service; [container] is the service's container
    once it was made. *)
Fixpoint link_service (serviceIndex : nat) (service version imageName : string) (def : Types.Image)
    (linkNames : list string) (container : option ServiceContainer) (linksMap : gmap string ServiceContainer)
    : M (gmap string ServiceContainer) :=
  match linkNames with
  | [] => returnM linksMap
  | linkName :: rest =>
      match linksMap !! linkName with
      | Some _ => link_service serviceIndex service version imageName def rest container linksMap
      | None =>
          let! c :=
            match container with
            | Some c => returnM c
            | None =>
                let! c := createService serviceIndex service version imageName def in
                mupd (λ e, upd_temporary (temporary e ++ [SC_ID c]) (upd_services (services e ++ [c]) e)) ;;!
                returnM c
            end in
          link_service serviceIndex service version imageName def rest (Some c) (<[linkName := c]> linksMap)
      end
  end.

Definition createFromServiceDefinition (serviceIndex : nat) (def : Types.Image)
    (linksMap : gmap string ServiceContainer) : M (gmap string ServiceContainer) :=
  match splitServiceAndVersion (Image_Name def) with
  | None => failM EPanic
  | Some (service, version, imageName, linkNames) =>
      let linkNames := if bool_decide (Image_Alias def ≠ "") then linkNames ++ [Image_Alias def] else linkNames in
      link_service serviceIndex service version imageName def linkNames None linksMap
  end.

Fixpoint create_services (index : nat) (defs : list Types.Image) (linksMap : gmap string ServiceContainer)
    : M (gmap string ServiceContainer) :=
  match defs with
  | [] => returnM linksMap
  | def :: rest =>
      let! linksMap := createFromServiceDefinition index def linksMap in
      create_services (S index) rest linksMap
  end.

(** [runServiceHealthCheckContainer]: the check's container is removed on every way out
    after its creation. *)
Definition after {A} (c : M A) (fin : M unit) : M A :=
  λ e, let '(r, e') := c e in (r, (fin e').2).

Definition runServiceHealthCheckContainer (service : ServiceContainer) : M unit :=
  let! r := attempt getPrebuiltImage in
  match r with
  | Err err => failM (EGo (ErrText ("getPrebuiltImage: " +:+ derror_text err)))
  | Ok waitImage =>
      let! b := mget eBuild in
      let containerName := SC_Name service +:+ "-wait-for-service" in
      let cc := mkConfig waitImage "" ["gitlab-runner-helper"; "health-check"] []
                  (getLabels b "wait" ["wait=" +:+ SC_ID service]) false [] [] in
      let hc := mkHost 0 0 0 "" 0 [] false [] [] "" false "" [] [] [] true [] (NetworkMode dconfig)
                  [SC_Name service +:+ ":service"] [] 0 "" [] ∅ ∅ in
      let! r := ContainerCreate D ForHealthCheck cc hc containerName in
      match r with
      | Err (err, _) => failM (EGo (ErrText ("ContainerCreate: " +:+ derror_text err)))
      | Ok id =>
          after
            (let! r := attempt (ContainerStart D id) in
             match r with
             | Err err => failM (EGo (ErrText ("ContainerStart: " +:+ derror_text err)))
             | Ok _ =>
                 let! late := mget (λ e, d_timeout D (hist e)) in
                 let! r := if (late : bool)
                           then returnM (Err (EGo (ErrText ("service " +:+ Quote containerName +:+ " timeout"))))
                           else attempt (waitForContainer D id) in
                 match r with
                 | Ok _ => returnM tt
                 | Err err => let! logs := readContainerLogs D id in failM (EHealthCheck err logs)
                 end
             end)
            (attempt (removeContainer D id) ;;! returnM tt)
      end
  end.

(** The warning about a service that did not start. *)
Definition health_warning (name : string) (err : derror) (serviceLogs : string) : string :=
  lf +:+ ANSI_YELLOW +:+ "*** WARNING:" +:+ Buffer.ANSI_RESET +:+ " Service " +:+ name
    +:+ " probably didn't start properly." +:+ lf +:+ lf +:+ "Health check error:" +:+ lf
    +:+ TrimSpace (derror_text err) +:+ lf
    +:+ (match err with
         | EHealthCheck _ logs => lf +:+ "Health check container logs:" +:+ lf +:+ logs +:+ lf
         | _ => ""
         end)
    +:+ lf +:+ "Service container logs:" +:+ lf +:+ serviceLogs +:+ lf
    +:+ lf +:+ ANSI_YELLOW +:+ "*********" +:+ Buffer.ANSI_RESET +:+ lf +:+ lf.

Definition waitForServiceContainer (service : ServiceContainer) : M unit :=
  let! r := attempt (runServiceHealthCheckContainer service) in
  match r with
  | Ok _ => returnM tt
  | Err err =>
      let! logs := readContainerLogs D (SC_ID service) in
      mupd (λ e, upd_trace (Trace e +:+ health_warning (SC_Name service) err logs) e) ;;!
      failM err
  end.

Definition DefaultWaitForServicesTimeout : Z := 30.

Fixpoint wait_for_all (l : list ServiceContainer) : M unit :=
  match l with
  | [] => returnM tt
  | service :: rest => attempt (waitForServiceContainer service) ;;! wait_for_all rest
  end.

(** The errors of the health checks are warnings only. *)
Definition waitForServices : M unit :=
  let timeout := if (WaitForServicesTimeout dconfig =? 0)%Z then DefaultWaitForServicesTimeout
                 else WaitForServicesTimeout dconfig in
  let! ss := mget services in
  if (0 <? timeout)%Z then wait_for_all ss else returnM tt.

(** The map of links, in one order of walking it. *)
Fixpoint build_links (l : list (string * ServiceContainer)) : M (list string) :=
  match l with
  | [] => returnM []
  | (linkName, linkee) :: rest =>
      let! r := attempt (ContainerInspect D (SC_ID linkee)) in
      let! more := build_links rest in
      returnM (match r with
               | Ok c => if CJ_Running c then (SC_ID linkee +:+ ":" +:+ linkName) :: more else more
               | Err _ => more
               end)
  end.

Definition buildServiceLinks (linksMap : gmap string ServiceContainer) : M (list string) :=
  build_links (map_to_list linksMap).

Definition createServices : M unit :=
  SetCurrentStage "docker_creating_services" ;;!
  let! b := mget eBuild in
  let! defs := lift (from_error (getServicesDefinitions app dconfig b)) in
  let! linksMap := create_services 0 defs ∅ in
  waitForServices ;;!
  let! l := buildServiceLinks linksMap in
  mupd (upd_links l).

(** *** The containers of the job *)

Definition fatal {A} (r : result string A) : result derror A :=
  match r with Ok a => Ok a | Err msg => Err (EFatal msg) end.

Definition createContainer (containerType : string) (imageDefinition : Types.Image) (cmd : list string)
    (allowedInternalImages : list string) : M string :=
  require_manager
    (let! image := expandAndGetDockerImage (Image_Name imageDefinition) allowedInternalImages in
     let! e := mget id in
     let b := eBuild e in
     let hostname := if bool_decide (Hostname dconfig = "") then ProjectUniqueName b else Hostname dconfig in
     let containerName := ProjectUniqueName b +:+ "-" +:+ containerType +:+ "-"
                            +:+ Itoa (Z.of_nat (length (builds e))) in
     let shellEnv := match BuildShell e with Some s => Environment_ s | None => [] end in
     let cc := mkConfig image hostname cmd (overwriteEntrypoint dconfig imageDefinition)
                 (getLabels b containerType []) true (StringList (GetAllVariables app b) ++ shellEnv) [] in
     let! nanoCPUs := lift match GetNanoCPUs dconfig with
                           | Ok n => Ok n | Err msg => Err (EGo (ErrText msg)) end in
     let volumesFrom := match last (builds e) with Some id => [id] | None => ContainerIDs e end in
     let! memory := lift (fatal (GetMemory dconfig)) in
     let! memorySwap := lift (fatal (GetMemorySwap dconfig)) in
     let! memoryReservation := lift (fatal (GetMemoryReservation dconfig)) in
     let hc := mkHost memory memorySwap memoryReservation (CPUSetCPUs dconfig) nanoCPUs (devices e)
                 (OomKillDisable dconfig) (DNS dconfig) (DNSSearch dconfig) (Runtime dconfig)
                 (Privileged dconfig) (UsernsMode dconfig) (CapAdd dconfig) (CapDrop dconfig)
                 (SecurityOpt dconfig) true (ExtraHosts dconfig) (NetworkMode dconfig)
                 (Links dconfig ++ links e) (Binds e) (ShmSize dconfig) (VolumeDriver dconfig)
                 (VolumesFrom dconfig ++ volumesFrom) (Tmpfs dconfig) (SysCtls dconfig) in
     attempt (removeContainer D containerName) ;;!
     let! r := ContainerCreate D ForJob cc hc containerName in
     match r with
     | Err (err, id) =>
         (if bool_decide (id ≠ "") then add_temporary id else returnM tt) ;;! failM err
     | Ok id =>
         let! r := attempt (ContainerInspect D id) in
         match r with
         | Err err => add_temporary id ;;! failM err
         | Ok inspect =>
             mupd (λ e, upd_temporary (temporary e ++ [id]) (upd_builds (builds e ++ [id]) e)) ;;!
             returnM (CJ_ID inspect)
         end
     end).

(** *** Preparation *)

Definition validateOSType : M unit :=
  let! i := mget info in
  lift match Metadata options !! "OSType" with
       | None => Err (EGo (MakeBuildError (Executor config +:+ " does not have any OSType specified")))
       | Some executorOSType =>
           if bool_decide (executorOSType = i.1.1) then Ok tt
           else Err (EGo (MakeBuildError ("executor requires OSType=" +:+ executorOSType
                  +:+ ", but Docker Engine supports only OSType=" +:+ i.1.1)))
       end.

Definition connectDocker : M unit :=
  match d_new D with
  | Some err => failM err
  | None =>
      mupd upd_connected ;;!
      let! i := λ e, (d_info D (hist e), record CInfo e) in
      mupd (upd_info i) ;;!
      validateOSType ;;!
      match helperimage_Get (App_Revision app) i.1.1 i.1.2 i.2 with
      | Err msg => failM (EGo (ErrText msg))
      | Ok h => mupd (upd_helper h)
      end
  end.

(** [createDependencies]: the steps in the order of the feature flag. *)
Definition createDependencies : M unit :=
  let! b := mget eBuild in
  if IsFeatureFlagOn app b UseLegacyVolumesMountingOrder
  then bindDevices ;;! createVolumesManager ;;! createBuildVolume ;;! createServices ;;! createVolumes
  else bindDevices ;;! createVolumesManager ;;! createVolumes ;;! createBuildVolume ;;! createServices.

(** *** Host directories, internal/volumes/utils.go *)

(** [isParentOf] with the [filepath.Dir] of the platform; [None] when [fuel] steps up did
    not end the loop. *)
Fixpoint isParentOf_go (dir_of : string → string) (fuel : nat) (parent dir : string) : option bool :=
  match fuel with
  | 0 => None
  | S n =>
      if bool_decide (dir ≠ "/") && bool_decide (dir ≠ ".") then
        if bool_decide (dir = parent) then Some true
        else isParentOf_go dir_of n parent (dir_of dir)
      else Some false
  end.

(** On a slash system a path has no more ancestors than characters. *)
Definition isParentOf (parent dir : string) : bool :=
  default false (isParentOf_go Dir (S (slen dir)) parent dir).

Fixpoint IsHostMountedVolume (volumeParser : Parser) (dir : string) (volumes : list string)
    : result VolumeError bool :=
  match volumes with
  | [] => Ok false
  | volume :: rest =>
      match volumeParser volume with
      | Err err => Err err
      | Ok parsedVolume =>
          if Len parsedVolume <? 2 then IsHostMountedVolume volumeParser dir rest
          else if isParentOf (Clean (Destination parsedVolume)) (Clean dir) then Ok true
          else IsHostMountedVolume volumeParser dir rest
      end
  end.

Definition buildDirectoryNotAbsoluteErr : derror :=
  EGo (MakeBuildError "build directory needs to be an absolute path").
Definition buildDirectoryIsRootPathErr : derror :=
  EGo (MakeBuildError "build directory needs to be a non-root path").

Definition prepareBuildsDir : M unit :=
  let! i := mget info in
  match New_parser i.1.1 with
  | Err err => failM (EGo (ErrText ("couldn't create volumes parser: " +:+ derror_text (EVolume err))))
  | Ok volumeParser =>
      let root := abs_RootDir options config in
      match IsHostMountedVolume volumeParser root (Volumes dconfig) with
      | Err err => failM (EVolume err)
      | Ok isHostMounted =>
          (if (isHostMounted : bool) then mupd (upd_shared true) else returnM tt) ;;!
          if negb (IsAbs root) then failM buildDirectoryNotAbsoluteErr
          else if bool_decide (root = "/") then failM buildDirectoryIsRootPathErr
          else returnM tt
      end
  end.

(** [AbstractExecutor.PrepareBuildAndShell] on the executor's build. *)
Definition prepareBuildAndShell : M ShellConfiguration :=
  λ e, let '(r, b) := PrepareBuildAndShell app shells options config (SharedBuildsDir e) hostname user (eBuild e) in
       match r with
       | Err err => (Err (EGo err), upd_build b e)
       | Ok c => (Ok c, upd_shell c (upd_build b e))
       end.

(** [Prepare] of a runner with a Docker section. *)
Definition Prepare : M unit :=
  SetCurrentStage "docker_prepare" ;;!
  SetCurrentStage ExecutorStagePrepare ;;!
  connectDocker ;;!
  prepareBuildsDir ;;!
  let! shell := prepareBuildAndShell in
  if PassFile shell then failM (EGo (ErrText "docker doesn't support shells that require script file"))
  else
    let! b := mget eBuild in
    let! _ := lift (from_error (expandImageName app dconfig b (Image_Name (JR_Image (Job b))) [])) in
    createDependencies.

(** *** Cleanup *)

(** The ids removed concurrently, in the order the goroutines get to run. *)
Fixpoint remove_all (ids : list string) : M unit :=
  match ids with
  | [] => returnM tt
  | id :: rest => attempt (removeContainer D id) ;;! remove_all rest
  end.

(** [cacheContainerManager.Cleanup] removes the failed containers and the given ids. *)
Definition cache_Cleanup (m : manager) : list string := failedContainerIDs m ++ tmpContainerIDs m.

(** What [Cleanup] removes: its own temporary containers and those of the volumes manager,
    failed cache containers included. *)
Definition cleanup_ids (e : executor) : list string :=
  temporary e ++ match volumesManager e with
                 | Some m => cache_Cleanup m
                 | None => []
                 end.

(** [order] is the order in which the scheduler runs the removals. *)
Definition Cleanup (order : list string → list string) : M unit :=
  SetCurrentStage "docker_cleanup" ;;!
  let! ids := mget cleanup_ids in
  remove_all (order ids) ;;!
  let! c := mget connected in
  (if (c : bool) then mupd (record CClose) else returnM tt) ;;!
  SetCurrentStage ExecutorStageCleanup.

(** ** The docker executor, executor_docker_command.go *)

Definition command_Prepare : M unit :=
  Prepare ;;!
  let! shell := mget BuildShell in
  match shell with
  | None => failM EPanic
  | Some shell =>
      match DockerCommand shell with
      | [] => failM (EGo (ErrText "Script is not compatible with Docker"))
      | _ => getPrebuiltImage ;;! getBuildImage ;;! returnM tt
      end
  end.

Definition requestNewPredefinedContainer : M string :=
  let! prebuildImage := getPrebuiltImage in
  let! helper := mget helperImageInfo in
  createContainer "predefined" (named_image prebuildImage) (Cmd helper) [prebuildImage].

Definition requestBuildContainer : M string :=
  let! existing := mget buildContainer in
  match existing with
  | Some c => returnM c
  | None =>
      let! b := mget eBuild in
      let! shell := mget BuildShell in
      let cmd := match shell with Some s => DockerCommand s | None => [] end in
      let! c := createContainer "build" (JR_Image (Job b)) cmd [] in
      mupd (upd_buildContainer (Some c)) ;;! returnM c
  end.

Definition command_Run (predefined : bool) : M unit :=
  let! runOn := if predefined then requestNewPredefinedContainer else requestBuildContainer in
  SetCurrentStage "docker_run" ;;!
  watchContainer D runOn.

(** ** The docker-ssh executor, executor_docker_ssh.go *)

(** The container's address and the SSH client are outside: [d_ssh] says whether the
    connection succeeds. *)
Definition ssh_Prepare (ssh_configured : bool) : M unit :=
  Prepare ;;!
  if negb ssh_configured then failM (EGo (ErrText "Missing SSH configuration"))
  else
    let! b := mget eBuild in
    let! container := createContainer "build" (JR_Image (Job b)) [] [] in
    ContainerStart D container ;;!
    let! containerData := ContainerInspect D container in
    λ e, (of_option (d_ssh D (hist e)), record (CSSHConnect (CJ_ID containerData)) e).

(** ** A whole job *)

(** What a build asks of the executor after it was prepared, whatever the outcome of each
    stage; [Cleanup] ends it. *)
Fixpoint run_stages (stages : list bool) : M unit :=
  match stages with
  | [] => returnM tt
  | predefined :: rest => attempt (command_Run predefined) ;;! run_stages rest
  end.

Definition job (stages : list bool) (order : list string → list string) : M unit :=
  let! r := attempt command_Prepare in
  (match r with Ok _ => run_stages stages | Err _ => returnM tt end) ;;!
  Cleanup order.

End Executor.

(** The registered options. *)
Definition docker_options : ExecutorOptions :=
  {| DefaultCustomBuildsDirEnabled := true; DefaultBuildsDir := "/builds"; DefaultCacheDir := "/cache";
     OptSharedBuildsDir := false; OptShell := "bash"; OptShellType := NormalShell;
     OptRunnerCommand := "/usr/bin/gitlab-runner-helper"; ShowHostname := true;
     Metadata := {["OSType" := "linux"]} |}.

Definition docker_ssh_options : ExecutorOptions :=
  {| DefaultCustomBuildsDirEnabled := true; DefaultBuildsDir := "builds"; DefaultCacheDir := "";
     OptSharedBuildsDir := false; OptShell := "bash"; OptShellType := LoginShell;
     OptRunnerCommand := "gitlab-runner"; ShowHostname := true;
     Metadata := {["OSType" := "linux"]} |}.

Definition docker_windows_options : ExecutorOptions :=
  {| DefaultCustomBuildsDirEnabled := true; DefaultBuildsDir := "c:\builds"; DefaultCacheDir := "c:\cache";
     OptSharedBuildsDir := false; OptShell := "powershell"; OptShellType := NormalShell;
     OptRunnerCommand := "gitlab-runner-helper"; ShowHostname := true;
     Metadata := {["OSType" := "windows"]} |}.

(** The executor as the creator of a provider makes it, for a build. *)
Definition new_executor (options : ExecutorOptions) (b : Build) : executor :=
  mkExecutor [] [] [] [] [] [] ("", "", "") (mkHelper "" "" "" false []) ∅ None (OptSharedBuildsDir options) b
    None None false "" ExecutorStageCreated.
