(* ===== verification/DockerProofs.v ===== *)
(** Properties of the Docker executor: which images are pulled and allowed, and that
    every container made for a job is removed when the job ends. The operations are
    reasoned about with a triple for the executor's error monad; operations that only
    look around are [quiet], and a hint database composes them. *)

From S2P Require Import Prelude GoMonad GoLib Path Types Variables Config Build AbstractShell Shells.
From S2P Require Import Regex VolumeParser Executor DockerImages Docker.

(** ** Quiet operations *)

(** No container was made between [h] and [h']. *)
Definition is_creation (c : call) : bool :=
  match c with CCreate _ _ _ _ (Ok _) => true | _ => false end.
Definition adds_no_container (h h' : dhist) : Prop :=
  ∃ new, h' = new ++ h ∧ Forall (λ c, is_creation c = false) new.

(** An operation that makes no container and keeps the lists of what is to be removed. *)
Definition still (e e' : executor) : Prop :=
  adds_no_container (hist e) (hist e') ∧ temporary e' = temporary e ∧ volumesManager e' = volumesManager e.
Definition quiet {A} (c : M A) : Prop := ∀ e, still e (c e).2.

#[export] Instance still_preorder : PreOrder still.
Proof.
  split.
  - intros e. split_and!; [|done..]. exists []. auto.
  - intros e1 e2 e3 ((n1 & H1 & F1) & T1 & M1) ((n2 & H2 & F2) & T2 & M2).
    split_and!; [|congruence..]. exists (n2 ++ n1). rewrite H2, H1, app_assoc.
    split; [done|]. by apply Forall_app.
Qed.

Lemma still_upd (f : executor → executor) e :
  hist (f e) = hist e → temporary (f e) = temporary e → volumesManager (f e) = volumesManager e →
  still e (f e).
Proof. intros H ??. split_and!; [|done..]. exists []. by rewrite H. Qed.

Lemma still_record c e : is_creation c = false → still e (record c e).
Proof. intros H. split_and!; [|done..]. exists [c]. by repeat constructor. Qed.

Create HintDb quiet.

Lemma q_ret {A} (a : A) : quiet (returnM a).
Proof. by intros e. Qed.
Lemma q_fail {A} err : quiet (failM (A := A) err).
Proof. by intros e. Qed.
Lemma q_lift {A} (r : result derror A) : quiet (lift r).
Proof. by intros e. Qed.
Lemma q_get {A} (f : executor → A) : quiet (mget f).
Proof. by intros e. Qed.
Lemma q_bind {A B} (c : M A) (k : A → M B) : quiet c → (∀ a, quiet (k a)) → quiet (bindM c k).
Proof.
  intros Hc Hk e. unfold bindM. specialize (Hc e). destruct (c e) as [[a|err] e'] eqn:E; [|done].
  etrans; [exact Hc|]. apply Hk.
Qed.
Lemma q_attempt {A} (c : M A) : quiet c → quiet (attempt c).
Proof. intros Hc e. unfold attempt. specialize (Hc e). by destruct (c e). Qed.
Lemma q_upd f :
  (∀ e, hist (f e) = hist e ∧ temporary (f e) = temporary e ∧ volumesManager (f e) = volumesManager e) →
  quiet (mupd f).
Proof. intros H e. destruct (H e) as (?&?&?). by apply still_upd. Qed.
Lemma q_if {A} (b : bool) (c1 c2 : M A) : quiet c1 → quiet c2 → quiet (if b then c1 else c2).
Proof. by destruct b. Qed.
Lemma q_state {A} (f : executor → M A) : (∀ e, quiet (f e)) → quiet (λ e, f e e).
Proof. intros H e. apply H. Qed.
Lemma q_record {A} (r : executor → result derror A) (c : executor → call) :
  (∀ e, is_creation (c e) = false) → quiet (λ e, (r e, record (c e) e)).
Proof. intros H e. by apply still_record. Qed.
#[export] Hint Resolve q_ret q_fail q_lift q_get q_bind q_attempt q_if : quiet.
#[export] Hint Extern 1 (quiet (mupd _)) => (apply q_upd; intros; split_and!; reflexivity) : quiet.
#[export] Hint Extern 1 (quiet (λ e, (_, record _ e))) => (apply q_record; reflexivity) : quiet.
#[export] Hint Extern 2 (quiet (match ?x with _ => _ end)) => destruct x : quiet.
#[export] Hint Extern 5 (∀ _, quiet _) => intro : quiet.

Section Client.
Context (D : Daemon).

Lemma q_ContainerInspect id : quiet (ContainerInspect D id).
Proof. unfold ContainerInspect. auto with quiet. Qed.
Lemma q_ContainerStart id : quiet (ContainerStart D id).
Proof. apply (q_record _ (λ e, CStart id (d_start D (hist e) id))). done. Qed.
Lemma q_ContainerAttach id : quiet (ContainerAttach D id).
Proof. apply (q_record _ (λ e, CAttach id (d_attach D (hist e) id))). done. Qed.
Lemma q_ContainerKill id : quiet (ContainerKill id).
Proof. intros e. by apply still_record. Qed.
Lemma q_ContainerRemove id : quiet (ContainerRemove D id).
Proof. apply (q_record _ (λ e, CRemove id (d_remove D (hist e) id))). done. Qed.
Lemma q_NetworkList : quiet (NetworkList D).
Proof. unfold NetworkList. auto with quiet. Qed.
Lemma q_NetworkDisconnect n id : quiet (NetworkDisconnect D n id).
Proof. apply (q_record _ (λ e, CNetworkDisconnect n id (d_disconnect D (hist e) n id))). done. Qed.
Lemma q_ImageInspect n : quiet (ImageInspect D n).
Proof. apply (q_record _ (λ e, CImageInspect n (d_image D (hist e) n))). done. Qed.
Lemma q_ImagePull n a : quiet (ImagePull D n a).
Proof. apply (q_record _ (λ e, CImagePull n a (d_pull D (hist e) n))). done. Qed.
Lemma q_ImageImport p r t : quiet (ImageImport D p r t).
Proof. apply (q_record _ (λ e, CImageImport p r t (d_import D (hist e) p))). done. Qed.
Lemma q_ContainerLogs id : quiet (ContainerLogs D id).
Proof. unfold ContainerLogs. auto with quiet. Qed.
Hint Resolve q_ContainerInspect q_ContainerStart q_ContainerAttach q_ContainerKill q_ContainerRemove
  q_NetworkList q_NetworkDisconnect q_ImageInspect q_ImagePull q_ImageImport q_ContainerLogs : quiet.

Lemma q_disconnect_all ns id err : quiet (disconnect_all D ns id err).
Proof. revert err. induction ns; intros err; simpl; auto with quiet. Qed.
Hint Resolve q_disconnect_all : quiet.
Lemma q_disconnectNetwork id : quiet (disconnectNetwork D id).
Proof. unfold disconnectNetwork. auto with quiet. Qed.
Hint Resolve q_disconnectNetwork : quiet.
Lemma q_removeContainer id : quiet (removeContainer D id).
Proof. unfold removeContainer. auto with quiet. Qed.
Lemma q_wait_loop n : ∀ retries id, quiet (wait_loop D n retries id).
Proof. induction n as [|n IH]; intros retries id; [by intros e|]. simpl. auto 10 with quiet. Qed.
Lemma q_waitForContainer id : quiet (waitForContainer D id).
Proof. apply (q_state (λ e, wait_loop D (d_polls D (hist e)) 0 id)). intros. apply q_wait_loop. Qed.
Lemma q_kill_loop n id : quiet (kill_loop D n id).
Proof. induction n; simpl; auto 10 with quiet. Qed.
Lemma q_killContainer id : quiet (killContainer D id).
Proof. apply (q_state (λ e, kill_loop D (d_kills D (hist e)) id)). intros. apply q_kill_loop. Qed.
Hint Resolve q_removeContainer q_waitForContainer q_killContainer : quiet.
Lemma q_watchContainer id : quiet (watchContainer D id).
Proof. unfold watchContainer. auto 10 with quiet. Qed.
Lemma q_readContainerLogs `{!GoText} id : quiet (readContainerLogs D id).
Proof. unfold readContainerLogs. auto with quiet. Qed.
End Client.

#[export] Hint Resolve q_ContainerInspect q_ContainerStart q_ContainerAttach q_ContainerKill
  q_NetworkList q_NetworkDisconnect q_ImageInspect q_ImagePull q_ImageImport q_removeContainer
  q_waitForContainer q_killContainer q_watchContainer q_readContainerLogs : quiet.

(** ** No container is lost *)

Definition created (p : purpose) (id : string) (h : dhist) : Prop :=
  ∃ name cc hc, CCreate p name cc hc (Ok id) ∈ h.
Definition removed (id : string) (h : dhist) : Prop := ∃ err, CRemove id err ∈ h.

(** Where the executor remembers a container it made: the job's and the services'
    containers are in [temporary], cache containers in one of the manager's lists, and
    the container of a health check is already removed. *)
Definition tracked (e : executor) (p : purpose) (id : string) : Prop :=
  match p with
  | ForJob | ForService => id ∈ temporary e
  | ForHealthCheck => removed id (hist e)
  | ForCache => ∃ m, volumesManager e = Some m ∧
      (id ∈ failedContainerIDs m ∨ id ∈ cacheContainerIDs m)
  end.

(** All containers are remembered, except perhaps one that was just made. *)
Definition owned (x : option (purpose * string)) (e : executor) : Prop :=
  ∀ p id, created p id (hist e) → tracked e p id ∨ x = Some (p, id).

Lemma adds_no_container_created h h' p id :
  adds_no_container h h' → created p id h' → created p id h.
Proof.
  intros (new & -> & Hnew) (name & cc & hc & Hin). exists name, cc, hc.
  apply elem_of_app in Hin as [Hin|Hin]; [|done].
  rewrite Forall_forall in Hnew. by specialize (Hnew _ Hin).
Qed.

Lemma still_removed e e' id : still e e' → removed id (hist e) → removed id (hist e').
Proof. intros ((new & -> & _) & _) [err Hin]. exists err. apply elem_of_app. by right. Qed.

Lemma still_owned x e e' : still e e' → owned x e → owned x e'.
Proof.
  intros Hs Ho p id Hc. pose proof Hs as (Ha & Ht & Hm).
  destruct (Ho p id (adds_no_container_created _ _ _ _ Ha Hc)) as [Htr|Hx]; [left|by right].
  destruct p; simpl in *; rewrite ?Ht, ?Hm; eauto using still_removed.
Qed.

(** A quiet operation keeps every statement about containers and managers. *)
Definition stable (P : executor → Prop) : Prop := ∀ e e', still e e' → P e → P e'.

Lemma stable_owned x : stable (owned x).
Proof. intros e e'. apply still_owned. Qed.
Lemma stable_and P Q : stable P → stable Q → stable (λ e, P e ∧ Q e).
Proof. intros HP HQ e e' Hs [??]. split; eauto. Qed.
Lemma stable_manager (f : option manager → Prop) : stable (λ e, f (volumesManager e)).
Proof. intros e e' (_ & _ & ->). done. Qed.
#[export] Hint Resolve stable_owned stable_and stable_manager : quiet.

Lemma t_quiet {A} (c : M A) (P : executor → Prop) :
  quiet c → stable P → triple P c (λ _, P) P.
Proof.
  intros Hq Hs e He. specialize (Hq e). destruct (c e) as [[a|err] e']; by eapply Hs.
Qed.

Definition has_manager (e : executor) : Prop := is_Some (volumesManager e).
Lemma stable_has_manager : stable has_manager.
Proof. apply (stable_manager is_Some). Qed.
#[export] Hint Resolve stable_has_manager : quiet.

(** *** Ways to start and to stop owing a container *)

Lemma created_cons c p id h :
  created p id (c :: h) → created p id h ∨ ∃ name cc hc, c = CCreate p name cc hc (Ok id).
Proof.
  intros (name & cc & hc & Hin). apply elem_of_cons in Hin as [<-|Hin]; [right|left]; unfold created; eauto.
Qed.

Lemma t_create D p cc hc name E :
  triple (owned None) (ContainerCreate D p cc hc name)
    (λ r, owned match r with Ok id => Some (p, id) | Err _ => None end) E.
Proof.
  intros e He. unfold ContainerCreate. intros q id Hc. simpl in Hc.
  apply created_cons in Hc as [Hc|(? & ? & ? & Heq)].
  - destruct (He q id Hc) as [Htr|]; [left|done].
    destruct q; simpl in *; auto. destruct Htr as [err Hin]. exists err. by right.
  - injection Heq as -> -> -> -> Heq. right. by rewrite Heq.
Qed.

Lemma t_create_manager D p cc hc name E :
  triple (λ e, owned None e ∧ has_manager e) (ContainerCreate D p cc hc name)
    (λ r e, owned match r with Ok id => Some (p, id) | Err _ => None end e ∧ has_manager e) E.
Proof.
  intros e [He Hm]. pose proof (t_create D p cc hc name E e He) as H.
  destruct (ContainerCreate D p cc hc name e) as [[r|err] e'] eqn:Ec; [|done].
  unfold ContainerCreate in Ec. simplify_eq. auto.
Qed.

(** Remembering the container just made. *)
Lemma owned_temporary p id e :
  (p = ForJob ∨ p = ForService) → owned (Some (p, id)) e →
  owned None (upd_temporary (temporary e ++ [id]) e).
Proof.
  intros Hp Ho q i Hc. left. destruct (Ho q i Hc) as [Htr|[= -> ->]].
  - destruct q; simpl in *; auto; apply elem_of_app; auto.
  - destruct Hp; subst; simpl; apply elem_of_app; right; by left.
Qed.

Lemma owned_more_temporary x id e : owned x e → owned x (upd_temporary (temporary e ++ [id]) e).
Proof.
  intros Ho q i Hc. destruct (Ho q i Hc) as [Htr|]; [left|by right].
  destruct q; simpl in *; auto; apply elem_of_app; auto.
Qed.

(** The manager's lists only grow. *)
Definition grows (f : manager → manager) : Prop :=
  ∀ m, failedContainerIDs m ⊆ failedContainerIDs (f m) ∧ cacheContainerIDs m ⊆ cacheContainerIDs (f m).

Lemma owned_upd_m x f e : grows f → owned x e → owned x (upd_m f e).2.
Proof.
  intros Hf Ho. unfold upd_m, mupd. simpl. destruct (volumesManager e) as [m|] eqn:Em; [|done].
  intros q i Hc. destruct (Ho q i Hc) as [Htr|]; [left|by right].
  destruct q; simpl in *; auto. destruct Htr as (m' & Hm' & Hin).
  assert (m' = m) as -> by congruence.
  exists (f m). split; [done|]. destruct (Hf m). set_solver.
Qed.

Lemma owned_upd_m_track f id e :
  grows f → (∀ m, id ∈ failedContainerIDs (f m) ∨ id ∈ cacheContainerIDs (f m)) → has_manager e →
  owned (Some (ForCache, id)) e → owned None (upd_m f e).2.
Proof.
  intros Hf Hid [m Hm] Ho q i Hc. left.
  destruct (owned_upd_m _ _ _ Hf Ho q i Hc) as [Htr|[= <- <-]]; [done|].
  unfold upd_m, mupd in *. simpl in *. rewrite Hm. simpl. eauto.
Qed.

Lemma grows_add_failed id : grows (add_failed id).
Proof. intros m. simpl. set_solver. Qed.
Lemma grows_add_cache id : grows (add_cache id).
Proof. intros m. simpl. set_solver. Qed.
Lemma grows_add_tmp id : grows (add_tmp id).
Proof. intros m. simpl. set_solver. Qed.
Lemma grows_add_bind b : grows (add_bind b).
Proof. intros m. simpl. set_solver. Qed.
Lemma grows_add_path p : grows (add_path p).
Proof. intros m. simpl. set_solver. Qed.
#[export] Hint Resolve grows_add_failed grows_add_cache grows_add_tmp grows_add_bind grows_add_path : quiet.

Lemma has_manager_upd_m f e : has_manager e → has_manager (upd_m f e).2.
Proof. unfold has_manager, upd_m, mupd. simpl. intros [m Hm]. rewrite Hm. simpl. by eexists. Qed.

Lemma removeContainer_removes D id e : removed id (hist (removeContainer D id e).2).
Proof.
  unfold removeContainer, bindM, attempt. destruct (disconnectNetwork D id e) as [r e'].
  unfold ContainerRemove. simpl. eexists. by left.
Qed.

(** *** Rules used throughout *)

Definition J (e : executor) : Prop := owned None e ∧ has_manager e.
Lemma stable_J : stable J.
Proof. unfold J. auto with quiet. Qed.
Definition J' (id : string) (e : executor) : Prop := owned (Some (ForCache, id)) e ∧ has_manager e.
Lemma stable_J' id : stable (J' id).
Proof. unfold J'. auto with quiet. Qed.
#[export] Hint Resolve stable_J stable_J' : quiet.

Lemma t_quiet_bind {A B} (c : M A) (k : A → M B) P Q (E : executor → Prop) :
  quiet c → stable P → (∀ e, P e → E e) → (∀ a, triple P (k a) Q E) → triple P (bindM c k) Q E.
Proof.
  intros Hq Hs HE Hk. eapply t_bind; [|exact Hk].
  eapply t_mono; [by apply (t_quiet c P)|auto..].
Qed.

Lemma t_quiet_last {A} (c : M A) (P : executor → Prop) (Q : A → executor → Prop) (E : executor → Prop) :
  quiet c → stable P → (∀ a e, P e → Q a e) → (∀ e, P e → E e) → triple P c Q E.
Proof. intros Hq Hs HQ HE. eapply t_mono; [by apply (t_quiet c P)|auto..]. Qed.

Lemma t_upd_m f P Q E :
  (∀ e, P e → Q (upd_m f e).2) → triple P (upd_m f) (λ _, Q) E.
Proof. intros H e He. by apply H. Qed.

Lemma t_grow f E : grows f → triple J (upd_m f) (λ _, J) E.
Proof. intros Hf. apply t_upd_m. intros e [??]. split; [by apply owned_upd_m|by apply has_manager_upd_m]. Qed.

Lemma t_failed id E : triple (J' id) (upd_m (add_failed id)) (λ _, J) E.
Proof.
  apply t_upd_m. intros e [??]. split; [|by apply has_manager_upd_m].
  eapply (owned_upd_m_track _ id); auto with quiet. intros m. left. simpl. set_solver.
Qed.

Lemma t_cached id E : triple (J' id) (upd_m (add_cache id)) (λ _, J) E.
Proof.
  apply t_upd_m. intros e [??]. split; [|by apply has_manager_upd_m].
  eapply (owned_upd_m_track _ id); auto with quiet. intros m. right. simpl. set_solver.
Qed.

Lemma J_owned e : J e → owned None e.
Proof. by intros []. Qed.
Lemma J_J' id e : J e → J' id e.
Proof. intros [Ho Hm]. split; [|done]. intros p i Hc. left. by destruct (Ho p i Hc). Qed.

Lemma q_get_manager : quiet get_manager.
Proof. intros e. unfold get_manager. by destruct (volumesManager e). Qed.
#[export] Hint Resolve q_get_manager : quiet.

(** *** The operations of the executor *)

Section Operations.
Context `{!GoText} {DL : DockerLib} (app : AppVersionInfo) (D : Daemon).
Context (config : RunnerConfig) (dconfig : DockerConfig) (options : ExecutorOptions)
  (shells : gmap string Shells.Shell) (user hostname : string)
  (prebuiltPaths : list string) (hashContainerPath : string → string)
  (filepath_Abs : string → result error string).

Lemma q_pullDockerImage name ac : quiet (pullDockerImage D name ac).
Proof. unfold pullDockerImage, SetCurrentStage. auto 10 with quiet. Qed.
Hint Resolve q_pullDockerImage : quiet.
Lemma q_getDockerImage name : quiet (getDockerImage app D dconfig user name).
Proof. unfold getDockerImage, marking, markImageAsUsed. auto 20 with quiet. Qed.
Hint Resolve q_getDockerImage : quiet.
Lemma q_expandAndGetDockerImage name l : quiet (expandAndGetDockerImage app D dconfig user name l).
Proof. unfold expandAndGetDockerImage. auto with quiet. Qed.
Lemma q_loadPrebuiltImage p r t : quiet (loadPrebuiltImage D p r t).
Proof. unfold loadPrebuiltImage. auto 10 with quiet. Qed.
Hint Resolve q_loadPrebuiltImage q_expandAndGetDockerImage : quiet.
Lemma q_load_first ps a t : quiet (load_first D ps a t).
Proof. induction ps; simpl; auto 10 with quiet. Qed.
Hint Resolve q_load_first : quiet.
Lemma q_getPrebuiltImage : quiet (getPrebuiltImage app D dconfig user prebuiltPaths).
Proof. unfold getPrebuiltImage, getLocalHelperImage. auto 12 with quiet. Qed.
Lemma q_getBuildImage : quiet (getBuildImage app D dconfig user).
Proof. unfold getBuildImage. auto 10 with quiet. Qed.
Lemma q_bindDevices : quiet (bindDevices dconfig).
Proof. unfold bindDevices. destruct (parse_devices _). auto with quiet. Qed.
Lemma q_FindOrCleanExisting n p : quiet (FindOrCleanExisting D n p).
Proof. unfold FindOrCleanExisting. auto 10 with quiet. Qed.
Hint Resolve q_getPrebuiltImage q_getBuildImage q_bindDevices q_FindOrCleanExisting : quiet.

Lemma t_createCacheContainer n p : triple J (createCacheContainer D n p) (λ id, J' id) J.
Proof.
  unfold createCacheContainer. do 2 (apply t_quiet_bind; auto with quiet; intros ?).
  eapply t_bind; [apply (t_create_manager D)|]. intros [id|[err id]]; simpl.
  - by apply t_ret.
  - eapply (t_seq _ _ _ J); [|intros; by apply t_fail].
    apply t_if; [apply t_grow; auto with quiet|by apply t_ret].
Qed.

Lemma t_startCacheContainer id : triple (J' id) (startCacheContainer D id) (λ _, J' id) J.
Proof.
  assert (Hfail : ∀ err, triple (J' id) (upd_m (add_failed id) ;;! failM err) (λ _ : unit, J' id) J).
  { intros err. eapply t_seq; [apply t_failed|]. intros. by apply t_fail. }
  unfold startCacheContainer.
  eapply (t_attempt_bind _ _ _ (λ _, J' id) (J' id)); [apply t_quiet; auto with quiet| |auto].
  intros _. eapply (t_attempt_bind _ _ _ (λ _, J' id) (J' id)); [apply t_quiet; auto with quiet| |auto].
  intros _. by apply t_ret.
Qed.

Lemma t_cacheContainer_Create n p : triple J (cacheContainer_Create D n p) (λ id, J' id) J.
Proof.
  unfold cacheContainer_Create. eapply t_bind; [apply t_createCacheContainer|]. intros id.
  eapply t_seq; [apply t_startCacheContainer|]. intros _. by apply t_ret.
Qed.

Lemma t_pathList_Add p : triple J (pathList_Add p) (λ _, J) J.
Proof.
  unfold pathList_Add. apply t_quiet_bind; auto with quiet. intros m.
  apply t_if; [by apply t_fail|apply t_grow; auto with quiet].
Qed.

Lemma t_createContainerBasedCacheVolume p :
  triple J (createContainerBasedCacheVolume D hashContainerPath p) (λ _, J) J.
Proof.
  unfold createContainerBasedCacheVolume. apply t_quiet_bind; auto with quiet. intros m.
  eapply t_seq; [apply t_pathList_Add|]. intros _.
  apply t_quiet_bind; auto with quiet. intros found.
  eapply (t_bind _ _ _ (λ id, J' id)).
  - apply t_if; [apply t_cacheContainer_Create|apply t_ret; apply J_J'].
  - intros id. eapply t_seq; [apply t_cached|]. intros _. by apply t_ret.
Qed.

Lemma t_CreateTemporary p : triple J (CreateTemporary D hashContainerPath p) (λ _, J) J.
Proof.
  unfold CreateTemporary. eapply t_seq; [apply t_createContainerBasedCacheVolume|].
  intros id. apply t_grow. auto with quiet.
Qed.

Lemma t_appendVolumeBind v : triple J (appendVolumeBind v) (λ _, J) J.
Proof. apply t_grow. auto with quiet. Qed.

Lemma t_manager_Create v : triple J (manager_Create D hashContainerPath filepath_Abs v) (λ _, J) J.
Proof.
  unfold manager_Create. apply t_if; [by apply t_ret|].
  apply t_quiet_bind; auto with quiet. intros m.
  destruct (m_parser m v) as [parsed|err]; [|by apply t_fail].
  destruct (Len parsed) as [|[|[|]]]; try (by apply t_fail).
  - unfold addCacheVolume. apply t_quiet_bind; auto with quiet. intros m'.
    apply t_if; [by apply t_fail|]. apply t_if.
    + unfold createHostBasedCacheVolume. apply t_quiet_bind; auto with quiet. intros m''.
      eapply t_seq; [apply t_pathList_Add|]. intros _.
      apply t_quiet_bind; auto with quiet. intros hp. apply t_appendVolumeBind.
    + eapply t_seq; [apply t_createContainerBasedCacheVolume|]. intros _. by apply t_ret.
  - unfold addHostVolume. apply t_quiet_bind; auto with quiet. intros m'.
    eapply t_seq; [apply t_pathList_Add|]. intros _. apply t_appendVolumeBind.
Qed.

Lemma t_require {A} (c : M A) Q : triple J c Q J → triple J (require_manager c) Q J.
Proof.
  intros Hc e He. unfold require_manager. destruct (volumesManager e) eqn:Em; [by apply Hc|done].
Qed.

Lemma t_createVolumes : triple J (createVolumes D dconfig hashContainerPath filepath_Abs) (λ _, J) J.
Proof.
  unfold createVolumes, SetCurrentStage. apply t_quiet_bind; auto with quiet. intros _.
  apply t_require. induction (Volumes dconfig) as [|v l IH]; simpl; [by apply t_ret|].
  eapply (t_attempt_bind _ _ _ (λ _, J) J); [apply t_manager_Create|auto|].
  intros err. destruct (is_disabled err); [done|by apply t_fail].
Qed.

Lemma t_createBuildVolume : triple J (createBuildVolume app D hashContainerPath filepath_Abs) (λ _, J) J.
Proof.
  unfold createBuildVolume, SetCurrentStage. apply t_quiet_bind; auto with quiet. intros _.
  apply t_require. apply t_quiet_bind; auto with quiet. intros b.
  assert (Htmp : ∀ p, triple J (attempt (CreateTemporary D hashContainerPath p)) (λ _, J) J).
  { intros p. eapply t_mono; [apply (t_attempt _ J (λ _, J) J J), t_CreateTemporary|auto..].
    by intros []. }
  eapply (t_seq _ _ _ J).
  - destruct (GetGitStrategy app b); auto.
    eapply (t_attempt_bind _ _ _ (λ _, J) J); [apply t_manager_Create|intros; by apply t_ret|].
    intros err. apply t_if; [auto|by apply t_ret].
  - intros [|err]; [by apply t_ret|]. apply t_if; [by apply t_ret|by apply t_fail].
Qed.

(** *** Services *)

Definition owes (p : purpose) (id : string) (e : executor) : Prop :=
  owned (Some (p, id)) e ∧ has_manager e.
Lemma stable_owes p id : stable (owes p id).
Proof. unfold owes. auto with quiet. Qed.
Hint Resolve stable_owes : quiet.

Lemma t_temporary p id E : p = ForJob ∨ p = ForService → triple (owes p id) (add_temporary id) (λ _, J) E.
Proof. intros Hp. apply t_upd. intros e [??]. split; [by eapply owned_temporary|done]. Qed.

Lemma t_more_temporary id E : triple J (add_temporary id) (λ _, J) E.
Proof. apply t_upd. intros e [??]. split; [by apply owned_more_temporary|done]. Qed.

Lemma t_createService i s v im def :
  triple J (createService app D dconfig user i s v im def) (λ c, owes ForService (SC_ID c)) J.
Proof.
  unfold createService. apply t_if; [by apply t_fail|]. apply t_require.
  do 5 (apply t_quiet_bind; auto with quiet; intros ?).
  eapply t_bind; [apply (t_create_manager D)|]. intros [id|[err id]]; simpl; [|by apply t_fail].
  eapply (t_attempt_bind _ _ _ (λ _, owes ForService id) (owes ForService id));
    [apply t_quiet; auto with quiet|intros; by apply t_ret|].
  intros err. eapply t_seq; [apply t_temporary; auto|]. intros _. by apply t_fail.
Qed.

Lemma t_link_service i s v im def names : ∀ c links,
  triple J (link_service app D dconfig user i s v im def names c links) (λ _, J) J.
Proof.
  induction names as [|n names IH]; intros c links; simpl; [by apply t_ret|].
  destruct (links !! n); [apply IH|].
  eapply (t_seq _ _ _ J); [|intros; apply IH]. destruct c as [c|]; [by apply t_ret|].
  eapply t_bind; [apply t_createService|]. intros c. eapply (t_seq _ _ _ J); [|intros; by apply t_ret].
  apply t_upd. intros e [??]. split; [|done].
  eapply still_owned; [|eapply (owned_temporary ForService); [by right|done]].
  by split_and!; [exists []|..].
Qed.

Lemma t_create_services defs : ∀ i links,
  triple J (create_services app D dconfig user i defs links) (λ _, J) J.
Proof.
  induction defs as [|def defs IH]; intros i links; simpl; [by apply t_ret|].
  eapply (t_seq _ _ _ J); [|intros; apply IH]. unfold createFromServiceDefinition.
  destruct (splitServiceAndVersion _) as [[[[]]]|]; [apply t_link_service|by apply t_fail].
Qed.

Lemma t_after {A} (c : M A) fin P Q :
  triple P c (λ _, P) P → (∀ e, P e → Q (fin e).2) → triple P (after c fin) (λ _, Q) Q.
Proof.
  intros Hc Hf e He. unfold after. specialize (Hc e He).
  destruct (c e) as [[a|err] e']; auto.
Qed.

Lemma t_runServiceHealthCheckContainer s :
  triple J (runServiceHealthCheckContainer app D dconfig user prebuiltPaths s) (λ _, J) J.
Proof.
  unfold runServiceHealthCheckContainer. apply t_quiet_bind; auto with quiet.
  intros [waitImage|err]; [|by apply t_fail].
  apply t_quiet_bind; auto with quiet. intros b.
  eapply t_bind; [apply (t_create_manager D)|]. intros [id|[err id]]; simpl; [|by apply t_fail].
  apply (t_after _ _ (owes ForHealthCheck id)).
  - apply t_quiet; [|auto with quiet]. auto 20 with quiet.
  - intros e [Ho Hm]. set (e' := ((attempt (removeContainer D id) ;;! returnM tt) e).2).
    assert (still e e') as Hs.
    { assert (quiet (attempt (removeContainer D id) ;;! returnM tt)) as Hq by auto with quiet. apply Hq. }
    assert (removed id (hist e')) as Hr.
    { pose proof (removeContainer_removes D id e) as Hr. unfold e', bindM, attempt.
      by destruct (removeContainer D id e). }
    split; [|by eapply stable_has_manager].
    intros p i Hc. left. destruct (still_owned _ _ _ Hs Ho p i Hc) as [Htr|[= <- <-]]; done.
Qed.

Lemma t_waitForServices : triple J (waitForServices app D dconfig user prebuiltPaths) (λ _, J) J.
Proof.
  unfold waitForServices. apply t_quiet_bind; auto with quiet. intros ss. apply t_if; [|by apply t_ret].
  induction ss as [|s ss IH]; simpl; [by apply t_ret|].
  eapply (t_attempt_bind _ _ _ (λ _, J) J); [|auto|auto].
  unfold waitForServiceContainer.
  eapply (t_attempt_bind _ _ _ (λ _, J) J); [apply t_runServiceHealthCheckContainer|intros; by apply t_ret|].
  intros err. apply t_quiet_last; auto 10 with quiet.
Qed.

Lemma q_build_links l : quiet (build_links D l).
Proof. induction l as [|[]]; simpl; auto 10 with quiet. Qed.
Hint Resolve q_build_links : quiet.

Lemma t_createServices : triple J (createServices app D dconfig user prebuiltPaths) (λ _, J) J.
Proof.
  unfold createServices, SetCurrentStage, buildServiceLinks.
  do 3 (apply t_quiet_bind; auto with quiet; intros ?).
  eapply t_seq; [apply t_create_services|]. intros links.
  eapply t_seq; [apply t_waitForServices|]. intros _.
  apply t_quiet_last; auto 10 with quiet.
Qed.

(** *** The containers of the job *)

Lemma t_createContainer ty im cmd l :
  triple J (createContainer app D dconfig user ty im cmd l) (λ _, J) J.
Proof.
  unfold createContainer. apply t_require.
  do 7 (apply t_quiet_bind; auto with quiet; intros ?).
  eapply t_bind; [apply (t_create_manager D)|]. intros [id|[err id]]; simpl.
  - eapply (t_attempt_bind _ _ _ (λ _, owes ForJob id) (owes ForJob id)); [apply t_quiet; auto with quiet| |].
    + intros inspect. eapply (t_seq _ _ _ J); [|intros; by apply t_ret].
      apply t_upd. intros e [??]. split; [|done].
      eapply still_owned; [|eapply (owned_temporary ForJob); [by left|done]].
      by split_and!; [exists []|..].
    + intros err. eapply t_seq; [apply t_temporary; auto|]. intros _. by apply t_fail.
  - eapply (t_seq _ _ _ J); [|intros; by apply t_fail].
    apply t_if; [apply t_more_temporary|by apply t_ret].
Qed.

Lemma t_command_Run predefined :
  triple J (command_Run app D dconfig user prebuiltPaths predefined) (λ _, J) J.
Proof.
  unfold command_Run, SetCurrentStage. eapply (t_seq _ _ _ J).
  - apply t_if.
    + unfold requestNewPredefinedContainer. do 2 (apply t_quiet_bind; auto with quiet; intros ?).
      apply t_createContainer.
    + unfold requestBuildContainer. apply t_quiet_bind; auto with quiet. intros [c|]; [by apply t_ret|].
      do 2 (apply t_quiet_bind; auto with quiet; intros ?).
      eapply t_seq; [apply t_createContainer|]. intros c. apply t_quiet_last; auto with quiet.
  - intros c. apply t_quiet_last; auto with quiet.
Qed.

(** *** A whole job *)

Definition fresh (e : executor) : Prop := owned None e ∧ volumesManager e = None.
Lemma stable_fresh : stable fresh.
Proof. apply stable_and; [auto with quiet|]. apply (stable_manager (λ m, m = None)). Qed.
Lemma fresh_owned e : fresh e → owned None e.
Proof. by intros []. Qed.
Hint Resolve stable_fresh fresh_owned J_owned : quiet.

Lemma q_connectDocker : quiet (connectDocker app D config options).
Proof.
  unfold connectDocker, validateOSType. destruct (d_new D); [auto with quiet|].
  apply q_bind; [auto with quiet|]. intros _. apply q_bind; [apply q_record; done|]. intros i.
  destruct (helperimage_Get _ _ _ _); auto 10 with quiet.
Qed.
Lemma q_prepareBuildsDir : quiet (prepareBuildsDir config dconfig options).
Proof.
  unfold prepareBuildsDir. apply q_bind; [auto with quiet|]. intros i.
  destruct (New_parser _); [|auto with quiet]. destruct (IsHostMountedVolume _ _ _); auto 10 with quiet.
Qed.
Lemma q_prepareBuildAndShell : quiet (prepareBuildAndShell app config options shells user hostname).
Proof.
  intros e. unfold prepareBuildAndShell. destruct (PrepareBuildAndShell _ _ _ _ _ _ _ _) as [[c|err] b];
    split_and!; try done; by exists [].
Qed.
Hint Resolve q_connectDocker q_prepareBuildsDir q_prepareBuildAndShell : quiet.

Lemma t_createVolumesManager :
  triple fresh (createVolumesManager app D dconfig user prebuiltPaths) (λ _, J) (owned None).
Proof.
  unfold createVolumesManager. do 2 (apply t_quiet_bind; auto with quiet; intros ?).
  destruct (New_parser _) as [p|err]; [|apply t_fail; auto with quiet].
  apply t_upd. intros e [Ho Hm]. split; [|by eexists].
  intros q i Hc. left. destruct (Ho q i Hc) as [Htr|]; [|done].
  destruct q; simpl in *; auto. destruct Htr as (m & Hm' & _). congruence.
Qed.

Lemma t_J {A} (c : M A) : triple J c (λ _, J) J → triple J c (λ _, J) (owned None).
Proof. intros Hc. eapply t_mono; [exact Hc|auto..]. apply J_owned. Qed.

Lemma t_createDependencies :
  triple fresh (createDependencies app D dconfig user prebuiltPaths hashContainerPath filepath_Abs)
    (λ _, J) (owned None).
Proof.
  unfold createDependencies. apply t_quiet_bind; auto with quiet. intros b.
  apply t_if; (apply t_quiet_bind; auto with quiet; intros _);
    (eapply t_seq; [apply t_createVolumesManager|]; intros _);
    repeat (eapply t_seq; [apply t_J; first [apply t_createBuildVolume|apply t_createServices|apply t_createVolumes]|];
            intros _);
    apply t_J; first [apply t_createServices|apply t_createVolumes].
Qed.

Lemma t_Prepare :
  triple fresh (Prepare app D config dconfig options shells user hostname prebuiltPaths hashContainerPath filepath_Abs)
    (λ _, J) (owned None).
Proof.
  unfold Prepare, SetCurrentStage. do 5 (apply t_quiet_bind; auto with quiet; intros ?).
  apply t_if; [apply t_fail; auto with quiet|].
  do 2 (apply t_quiet_bind; auto with quiet; intros ?). apply t_createDependencies.
Qed.

Lemma t_command_Prepare :
  triple fresh (command_Prepare app D config dconfig options shells user hostname prebuiltPaths
                  hashContainerPath filepath_Abs) (λ _, J) (owned None).
Proof.
  unfold command_Prepare. eapply t_seq; [apply t_Prepare|]. intros _.
  apply t_J. apply t_quiet_last; auto 10 with quiet.
Qed.

Lemma t_run_stages stages E : triple J (run_stages app D dconfig user prebuiltPaths stages) (λ _, J) E.
Proof.
  induction stages as [|s stages IH]; simpl; [by apply t_ret|].
  eapply (t_attempt_bind _ _ _ (λ _, J) J); [apply t_command_Run|auto|auto].
Qed.

(** A job ends with [Cleanup], and then every container is remembered. *)
Lemma job_ends_with_Cleanup stages order b :
  ∃ e, owned None e ∧
    job app D config dconfig options shells user hostname prebuiltPaths hashContainerPath filepath_Abs
      stages order (new_executor options b) = Cleanup D order e.
Proof.
  assert (Hf : fresh (new_executor options b)).
  { split; [|done]. intros p id (name & cc & hc & Hin). by apply elem_of_nil in Hin. }
  unfold job, bindM, attempt. apply t_command_Prepare in Hf.
  destruct (command_Prepare _ _ _ _ _ _ _ _ _ _ _ (new_executor options b)) as [[[]|err] e']; [|by exists e'].
  pose proof (t_run_stages stages (λ _, False) e' Hf) as Hr.
  destruct (run_stages _ _ _ _ _ _ e') as [[|] e2]; [|done]. exists e2. split; [by apply J_owned|done].
Qed.
End Operations.

Section Cleanup.
Context (D : Daemon).

Lemma remove_all_ok ids e : (remove_all D ids e).1 = Ok tt.
Proof.
  revert e. induction ids as [|i ids IH]; intros e; [done|]. simpl. unfold bindM, attempt.
  by destruct (removeContainer D i e).
Qed.

Lemma remove_all_removes ids e id : id ∈ ids → removed id (hist (remove_all D ids e).2).
Proof.
  assert (Hq : ∀ l, quiet (remove_all D l)) by (induction l; simpl; auto with quiet).
  revert e. induction ids as [|i ids IH]; intros e Hin; [by apply elem_of_nil in Hin|].
  simpl. unfold bindM, attempt at 1. destruct (removeContainer D i e) as [r e'] eqn:Er.
  apply elem_of_cons in Hin as [->|Hin]; [|by apply IH].
  eapply still_removed; [apply Hq|]. pose proof (removeContainer_removes D i e) as Hr. by rewrite Er in Hr.
Qed.

(** What [Cleanup] leaves behind. *)
Lemma Cleanup_leaves order e :
  (∀ l, order l ≡ₚ l) → owned None e →
  let e' := (Cleanup D order e).2 in
  ∀ p id, created p id (hist e') →
    removed id (hist e') ∨
    (p = ForCache ∧ ∃ m, volumesManager e' = Some m ∧ id ∈ cacheContainerIDs m).
Proof.
  intros Horder Ho e' p id Hc.
  assert (Hq : ∀ l, quiet (remove_all D l)) by (induction l; simpl; auto with quiet).
  set (e1 := (remove_all D (order (cleanup_ids e)) (upd_currentStage "docker_cleanup" e)).2).
  assert (Hs : still e1 e').
  { unfold e', Cleanup, SetCurrentStage. unfold bindM at 1 2 3, mupd at 1, mget at 1.
    change (cleanup_ids (upd_currentStage "docker_cleanup" e)) with (cleanup_ids e).
    unfold e1. destruct (remove_all D _ _) as [r e2] eqn:Er. simpl.
    pose proof (remove_all_ok (order (cleanup_ids e)) (upd_currentStage "docker_cleanup" e)) as Hok.
    rewrite Er in Hok. simpl in Hok. subst r.
    unfold bindM, mget, mupd. destruct (connected e2); simpl; [|by apply still_upd].
    etrans; [by apply (still_record CClose)|by apply still_upd]. }
  assert (Hs1 : still e e1) by (etrans; [by apply (still_upd (upd_currentStage "docker_cleanup"))|apply Hq]).
  assert (Hc0 : created p id (hist e)).
  { eapply adds_no_container_created; [apply Hs1|]. eapply adds_no_container_created; [apply Hs|done]. }
  assert (Hrem : id ∈ cleanup_ids e → removed id (hist e')).
  { intros Hin. eapply still_removed; [exact Hs|]. apply remove_all_removes. by rewrite Horder. }
  pose proof Hs as (_ & _ & Hm). pose proof Hs1 as (_ & _ & Hm1).
  destruct (Ho p id Hc0) as [Htr|]; [|done]. unfold cleanup_ids in Hrem.
  destruct p; simpl in Htr.
  - destruct Htr as (m & Em & [Hin|Hin]).
    + left. apply Hrem. rewrite Em. unfold cache_Cleanup. set_solver.
    + right. split; [done|]. exists m. by rewrite Hm, Hm1.
  - left. apply Hrem. set_solver.
  - left. apply Hrem. set_solver.
  - left. by eapply still_removed, still_removed.
Qed.
End Cleanup.


