(* ===== verification/DockerClaims.v ===== *)
(** What the Docker executor guarantees about images, volumes, host directories and
    waiting, with a concrete daemon for the witnesses. *)

From S2P Require Import Prelude GoMonad GoLib Path Types Variables Config Build BuildProofs AbstractShell Shells.
From S2P Require Import Regex VolumeParser Executor DockerImages Docker DockerProofs.

(** ** Pull policies *)

(** Whether an image is pulled: [existing] is what Docker finds locally and [used] whether
    the job already resolved the name to that image. *)
Definition pull_wanted (policy name : string) (existing : result derror string) (used : bool) : bool :=
  match DockerPullPolicy_Get policy, existing with
  | Err _, _ => false
  | Ok p, Err _ => bool_decide (p ≠ PullPolicyNever)
  | Ok p, Ok id => negb used && bool_decide (p = PullPolicyAlways) && bool_decide (id ≠ name)
  end.

Definition pulls (h h' : dhist) : Prop :=
  ∃ new, h' = new ++ h ∧ ∃ ref ac err, CImagePull ref ac err ∈ new.

Lemma policy_values p q : DockerPullPolicy_Get p = Ok q →
  q = PullPolicyNever ∨ q = PullPolicyIfNotPresent ∨ q = PullPolicyAlways.
Proof.
  unfold DockerPullPolicy_Get. intros H. repeat split_match_in H; simplify_eq; auto.
  reflect_guards. repeat case_bool_decide; naive_solver.
Qed.

Lemma pulls_new new h : pulls h (new ++ h) ↔ ∃ ref ac err, CImagePull ref ac err ∈ new.
Proof.
  split; [|intros H; by exists new]. intros (new' & Heq & H). by apply app_inv_tail in Heq as <-.
Qed.

Section Policy.
Context `{!GoText} {DL : DockerLib} (app : AppVersionInfo) (D : Daemon) (dconfig : DockerConfig) (user : string).

Lemma pullDockerImage_pulls name ac e :
  ∃ new, hist (pullDockerImage D name ac e).2 = new ++ hist e ∧ ∃ ref ac err, CImagePull ref ac err ∈ new.
Proof.
  unfold pullDockerImage, SetCurrentStage, bindM, attempt, mupd. simpl.
  set (ref := if Contains name ":" || Contains name "@" then name else name +:+ ":latest").
  destruct (d_pull D (hist e) ref) as [err|]; simpl.
  - destruct (image_missing _); simpl; eexists [_]; (split; [reflexivity|]); do 3 eexists; by left.
  - eexists [_; _]. split; [reflexivity|]. do 3 eexists. right. by left.
Qed.

Lemma marking_hist name (c : M string) e : hist (marking name c e).2 = hist (c e).2.
Proof. unfold marking, markImageAsUsed, bindM. by destruct (c e) as [[]]. Qed.

Lemma marking_result name (c : M string) e : (marking name c e).1 = (c e).1.
Proof. unfold marking, markImageAsUsed, bindM. by destruct (c e) as [[]]. Qed.

(** [getDockerImage] as a table of its three inputs. *)
Lemma getDockerImage_table name e :
  let existing := d_image D (hist e) name in
  let used := match existing with Ok id => wasImageUsed name id e | Err _ => false end in
  let seen := record (CImageInspect name existing) e in
  getDockerImage app D dconfig user name e =
  match DockerPullPolicy_Get (PullPolicy dconfig) with
  | Err msg => (Err (EGo (ErrText msg)), e)
  | Ok _ =>
      if pull_wanted (PullPolicy dconfig) name existing used
      then marking name (pullDockerImage D name (getAuthConfig app (eBuild e) user name)) seen
      else if used then (existing, seen) else marking name (lift existing) seen
  end.
Proof.
  intros existing used seen. unfold getDockerImage, pull_wanted.
  destruct (DockerPullPolicy_Get (PullPolicy dconfig)) as [p|msg] eqn:Ep; [|done].
  pose proof (policy_values _ _ Ep) as Hp.
  unfold bindM at 1 2 3 4, lift at 1, mget at 1 2, attempt at 1, ImageInspect at 1. simpl.
  fold existing seen.
  assert (match existing with Ok id => wasImageUsed name id seen | Err _ => false end = used) as -> by done.
  destruct existing as [id|err]; simpl in used.
  - destruct used; simpl; [done|].
    destruct Hp as [->|[->| ->]]; simpl; [done| |]; case_bool_decide; simpl;
      rewrite ?bool_decide_true, ?bool_decide_false by (by intros ?); try done.
  - simpl. destruct Hp as [->|[->| ->]]; done.
Qed.
End Policy.

(** The pull policy of the runner is respected: getDockerImage asks Docker to pull
    exactly when the policy calls for it (never: not at all; if-not-present: when Docker
    does not have the image; always: also when it has one, unless the job already uses
    that very image or names it by its id), an unknown policy is refused before Docker is
    asked anything, and without a pull the result is what Docker found locally. *)
Theorem pull_policy_is_respected `{!GoText} {DL : DockerLib} (app : AppVersionInfo) (D : Daemon)
    (dconfig : DockerConfig) (user name : string) (e : executor) :
  let existing := d_image D (hist e) name in
  let used := match existing with Ok id => wasImageUsed name id e | Err _ => false end in
  let wanted := pull_wanted (PullPolicy dconfig) name existing used in
  let '(r, e') := getDockerImage app D dconfig user name e in
  (pulls (hist e) (hist e') ↔ wanted = true) ∧
  match DockerPullPolicy_Get (PullPolicy dconfig) with
  | Ok _ => wanted = false → r = existing
  | Err msg => r = Err (EGo (ErrText msg)) ∧ e' = e
  end.
Proof.
  intros existing used wanted.
  destruct (getDockerImage app D dconfig user name e) as [r e'] eqn:Eg.
  rewrite getDockerImage_table in Eg. fold existing used in Eg. fold wanted in Eg.
  set (seen := record (CImageInspect name existing) e) in Eg.
  assert (Hquiet : ¬ pulls (hist e) (hist seen)).
  { intros Hp. apply (pulls_new [_]) in Hp as (ref & ac & err & Hin).
    by apply list_elem_of_singleton in Hin. }
  destruct (DockerPullPolicy_Get (PullPolicy dconfig)) as [p|msg] eqn:Ep.
  - destruct wanted eqn:Ew.
    + split; [split; [done|]|done]. intros _.
      pose proof (marking_hist name (pullDockerImage D name (getAuthConfig app (eBuild e) user name)) seen) as Hm.
      rewrite Eg in Hm. simpl in Hm.
      destruct (pullDockerImage_pulls D name (getAuthConfig app (eBuild e) user name) seen)
        as (new & Hnew & ref & ac & err & Hin).
      exists (new ++ [CImageInspect name existing]). rewrite Hm, Hnew, <- app_assoc. split; [done|].
      exists ref, ac, err. apply elem_of_app. by left.
    + assert (hist e' = hist seen ∧ r = existing) as [Hh ->].
      { destruct used; [by simplify_eq|].
        pose proof (marking_hist name (lift existing) seen) as Hm.
        pose proof (marking_result name (lift existing) seen) as Hr. by rewrite Eg in Hm, Hr. }
      rewrite Hh. done.
  - simplify_eq. assert (wanted = false) as -> by (unfold wanted, pull_wanted; by rewrite Ep).
    split; [|done]. split; [|done]. intros Hp. apply (pulls_new []) in Hp as (?&?&?&Hin).
    by apply elem_of_nil in Hin.
Qed.

(** ** Allowed images *)

(** The images a job may name: any when the list is empty, else those that match a
    pattern of the list, and always the internal ones. *)
Definition permitted {DL : DockerLib} (allowed internal : list string) (image : string) : Prop :=
  allowed = [] ∨ (∃ pattern, pattern ∈ allowed ∧ zglob_Match pattern image = true) ∨ image ∈ internal.

Lemma verifyAllowedImage_spec {DL : DockerLib} image allowed internal :
  verifyAllowedImage image allowed internal = None ↔ permitted allowed internal image.
Proof.
  unfold verifyAllowedImage, permitted.
  destruct (existsb _ allowed) eqn:Ex.
  - apply existsb_exists in Ex as (p & Hp & Hz). apply list_elem_of_In in Hp. naive_solver.
  - assert (¬ ∃ p, p ∈ allowed ∧ zglob_Match p image = true) as Hno.
    { intros (p & Hp & Hz). apply not_true_iff_false in Ex. apply Ex, existsb_exists.
      exists p. by rewrite <- list_elem_of_In. }
    case_bool_decide as Hi; [naive_solver|]. destruct allowed; naive_solver.
Qed.

(** The image a job runs in: the one it names, if permitted, else the runner's. *)
Definition job_image_permitted `{!GoText} {DL : DockerLib} (app : AppVersionInfo) (c : DockerConfig)
    (b : Build) (name : string) (internal : list string) : Prop :=
  if bool_decide (name = "") then Image c ≠ ""
  else permitted (AllowedImages c) (internal ++ [Image c]) (ExpandValue (GetAllVariables app b) name).

Lemma expandImageName_spec `{!GoText} {DL : DockerLib} app c b name internal :
  (∃ image, expandImageName app c b name internal = Ok image) ↔
  job_image_permitted app c b name internal.
Proof.
  unfold expandImageName, job_image_permitted. rewrite bool_decide_not.
  destruct (bool_decide (name = "")); simpl.
  - case_bool_decide; split; naive_solver.
  - rewrite <- verifyAllowedImage_spec. destruct (verifyAllowedImage _ _ _); naive_solver.
Qed.

Lemma job_services_permitted `{!GoText} {DL : DockerLib} app c b l defs :
  job_services app c b l = Ok defs →
  Forall (λ s, permitted (AllowedServices c) (Services c) (ExpandValue (GetAllVariables app b) (Image_Name s))) l.
Proof.
  revert defs. induction l as [|s l IH]; intros defs Hj; [constructor|]. simpl in Hj.
  destruct (verifyAllowedImage _ _ _) eqn:Ev; [done|].
  destruct (job_services app c b l) as [ds|] eqn:Es; [|done].
  constructor; [by apply verifyAllowedImage_spec|by eapply IH].
Qed.


(** ** Host directories *)

Lemma kept_ok_snoc es x : kept_ok true (reverse (es ++ [x])) → kept_ok true (reverse es) ∧ plain x.
Proof.
  rewrite reverse_snoc. intros (Hp & Hu & Hr). apply Forall_cons in Hp as [Hx Hp].
  split; [|done]. split_and!; [done|apply Hu|]. intros _. specialize (Hr eq_refl). set_solver.
Qed.

Lemma segments_render es :
  Forall plain es → es ≠ [] → segments ("/" +:+ Join es "/") = "" :: es.
Proof.
  intros Hp Hne. unfold segments.
  change (Split ("/" +:+ Join es "/") slash) with ("" :: Split (Join es "/") slash).
  f_equal. apply Split_Join; [done|]. eapply Forall_impl; [done|]. by intros e (_ & _ & ?).
Qed.

Lemma clean_segments_render es : kept_ok true (reverse es) → clean_segments (render true es) = es.
Proof.
  intros Hk. assert (Hp : Forall plain es) by (apply Forall_reverse, Hk).
  destruct es as [|e0 es0]; [done|]. set (es := e0 :: es0) in *.
  unfold clean_segments, render. change (IsAbs ("/" +:+ Join es "/")) with true.
  rewrite segments_render by done. change (foldl (clean_step true) [] ("" :: es)) with (foldl (clean_step true) [] es).
  rewrite clean_fold_id by (by rewrite app_nil_r). by rewrite app_nil_r, reverse_involutive.
Qed.

(** [filepath.Dir] drops the last element. *)
Lemma Dir_render es x : kept_ok true (reverse (es ++ [x])) → Dir (render true (es ++ [x])) = render true es.
Proof.
  intros Hk. destruct (kept_ok_snoc es x Hk) as [Hes Hx].
  assert (Hp : Forall plain (es ++ [x])) by (apply Forall_reverse, Hk).
  unfold Dir. change (render true (es ++ [x])) with ("/" +:+ Join (es ++ [x]) "/").
  rewrite segments_render by (done || by destruct es). rewrite app_comm_cons, removelast_last.
  apply Forall_app in Hp as [Hp _]. destruct es as [|e0 es0]; [done|]. set (es := e0 :: es0) in *.
  assert (E : Join ("" :: es) "/" = "/" +:+ Join es "/") by done. rewrite E.
  unfold Clean. change (IsAbs (("/" +:+ Join es "/") +:+ "/")) with true. f_equal.
  unfold clean_segments. change (IsAbs (("/" +:+ Join es "/") +:+ "/")) with true.
  assert (segments (("/" +:+ Join es "/") +:+ "/") = ("" :: es) ++ [""]) as ->.
  { change (segments (("/" +:+ Join es "/") +:+ "/"))
      with (Split (("/" +:+ Join es "/") +:+ String slash "") slash).
    rewrite Split_app_sep. fold (segments ("/" +:+ Join es "/")). by rewrite segments_render. }
  rewrite foldl_app. change (foldl (clean_step true) [] ("" :: es)) with (foldl (clean_step true) [] es).
  rewrite (clean_fold_id true [] es) by (by rewrite app_nil_r). rewrite app_nil_r.
  change (foldl (clean_step true) (reverse es) [""]) with (reverse es). by rewrite reverse_involutive.
Qed.

Lemma render_not_stop es : kept_ok true (reverse es) → es ≠ [] → render true es ≠ "/" ∧ render true es ≠ ".".
Proof.
  intros Hk Hne. split; [|done]. intros E.
  pose proof (clean_segments_render es Hk) as H. rewrite E in H. by destruct es.
Qed.

Lemma prefix_snoc_inv {A} (ps es : list A) x :
  ps `prefix_of` es ++ [x] → ps `prefix_of` es ∨ ps = es ++ [x].
Proof.
  intros [k Hk]. destruct k as [|y k _] using rev_ind; [right; by rewrite app_nil_r in Hk|].
  left. rewrite app_assoc in Hk. apply app_inj_tail in Hk as [-> _]. by exists k.
Qed.

(** The search climbs one element at a time. *)
Lemma isParentOf_climbs parent es fuel :
  kept_ok true (reverse es) → length es < fuel →
  ∃ r, isParentOf_go Dir fuel parent (render true es) = Some r ∧
    (r = true ↔ ∃ ps, ps ≠ [] ∧ ps `prefix_of` es ∧ parent = render true ps).
Proof.
  revert fuel. induction es as [|x es IH] using rev_ind; intros fuel Hk Hf; (destruct fuel as [|fuel]; [lia|]).
  - exists false. split; [done|]. split; [done|]. intros (ps & Hne & Hp & _).
    apply prefix_nil_inv in Hp. done.
  - rewrite length_app in Hf. simpl in Hf. destruct (kept_ok_snoc es x Hk) as [Hes Hx].
    destruct (render_not_stop (es ++ [x]) Hk) as [H1 H2]; [by destruct es|].
    cbn [isParentOf_go]. rewrite !bool_decide_true by done. cbn [andb].
    case_bool_decide as Heq.
    + exists true. split; [done|]. split; [|done]. intros _. exists (es ++ [x]).
      split_and!; [by destruct es|done|done].
    + rewrite Dir_render by done. destruct (IH fuel Hes ltac:(lia)) as (r & Hr & Hiff).
      exists r. split; [done|]. rewrite Hiff. split; intros (ps & Hne & Hp & ->); exists ps; split_and!; auto.
      * by apply prefix_app_r.
      * apply prefix_snoc_inv in Hp as [Hp|Hp]; [done|by subst].
Qed.

Lemma Join_slen es : Forall plain es → length es ≤ slen (Join es "/").
Proof.
  intros Hp. induction Hp as [|e es He Hes IH]; [done|].
  assert (1 ≤ slen e) by (destruct e; [by destruct He|simpl; lia]).
  destruct es as [|e' es']; [simpl; lia|].
  change (Join (e :: e' :: es') "/") with (e +:+ "/" +:+ Join (e' :: es') "/").
  rewrite !slen_app. change (slen "/") with 1. cbn [length] in *. lia.
Qed.

(** An absolute directory strictly below the root that contains [dir]. *)
Definition contains_dir (parent dir : string) : Prop :=
  IsAbs parent = true ∧ clean_segments parent ≠ [] ∧ clean_segments parent `prefix_of` clean_segments dir.

Lemma isParentOf_spec parent dir :
  IsAbs dir = true →
  isParentOf_go Dir (S (slen (Clean dir))) (Clean parent) (Clean dir) ≠ None ∧
  (isParentOf (Clean parent) (Clean dir) = true ↔ contains_dir parent dir).
Proof.
  intros Hd. pose proof (clean_segments_ok dir) as Hk. pose proof (clean_segments_plain dir) as Hpl.
  assert (Ed : Clean dir = render true (clean_segments dir)) by (unfold Clean; by rewrite Hd).
  rewrite Hd in Hk.
  destruct (isParentOf_climbs (Clean parent) (clean_segments dir) (S (slen (Clean dir))) Hk) as (r & Hr & Hiff).
  { rewrite Ed. unfold render. rewrite slen_app. pose proof (Join_slen _ Hpl). simpl. lia. }
  unfold isParentOf. rewrite Ed in *. rewrite Hr. split; [done|]. simpl. rewrite Hiff.
  unfold contains_dir. split.
  - intros (ps & Hne & Hp & Heq).
    assert (Ha : IsAbs parent = true) by (rewrite <- IsAbs_Clean, Heq; done).
    assert (Hps : kept_ok true (reverse ps)).
    { destruct Hp as [k Hk']. rewrite Hk', reverse_app in Hk. clear -Hk.
      induction (reverse k) as [|y l IH]; [done|]. apply IH.
      destruct Hk as (H1 & H2 & H3). simpl in H1. apply Forall_cons in H1 as [_ H1].
      split_and!; [done|apply H2|]. intros _. specialize (H3 eq_refl). set_solver. }
    rewrite <- (clean_segments_Clean parent), Heq, clean_segments_render by done. done.
  - intros (Ha & Hne & Hp). exists (clean_segments parent). split_and!; auto.
    unfold Clean. by rewrite Ha.
Qed.

Lemma host_mount_spec (P : Parser) dir vols :
  IsAbs dir = true → (∀ v, v ∈ vols → ∃ pv, P v = Ok pv) →
  IsHostMountedVolume P dir vols =
    Ok (existsb (λ v, match P v with
                      | Ok pv => negb (Len pv <? 2) && isParentOf (Clean (Destination pv)) (Clean dir)
                      | Err _ => false
                      end) vols).
Proof.
  intros Hd. induction vols as [|v vols IH]; intros Hall; [done|]. simpl.
  destruct (Hall v) as [pv Hv]; [by left|]. rewrite Hv.
  rewrite IH by (intros; apply Hall; by right).
  destruct (Len pv <? 2); simpl; [done|]. by destruct (isParentOf _ _).
Qed.

(** The executor recognises a builds directory that is mounted from the host: for
    volumes that all parse and an absolute builds directory, [IsHostMountedVolume] returns
    (the climb to the root ends) and says yes exactly when some volume with a source is
    mounted at that directory or at one of its ancestors other than the root. *)
Theorem host_mount_is_detected (P : Parser) (dir : string) (vols : list string)
    (Habs : IsAbs dir = true) (Hparse : ∀ v, v ∈ vols → ∃ pv, P v = Ok pv) :
  ∃ r, IsHostMountedVolume P dir vols = Ok r ∧
    (r = true ↔ ∃ v pv, v ∈ vols ∧ P v = Ok pv ∧ Source pv ≠ "" ∧ Destination pv ≠ "" ∧
                        contains_dir (Destination pv) dir).
Proof.
  rewrite host_mount_spec by done. eexists. split; [done|]. rewrite existsb_exists. split.
  - intros (v & Hin & Hv). apply list_elem_of_In in Hin. exists v.
    destruct (P v) as [pv|] eqn:Ev; [|done]. exists pv. reflect_guards.
    unfold Len in *. split_and!; auto.
    + intros E. rewrite E in *. simpl in *. by case_bool_decide.
    + intros E. rewrite E in *. simpl in *. by repeat case_bool_decide.
    + by apply isParentOf_spec.
  - intros (v & pv & Hin & Hv & Hs & Hdst & Hc). exists v. rewrite <- list_elem_of_In. split; [done|].
    rewrite Hv. unfold Len. rewrite !bool_decide_true by done. simpl. by apply isParentOf_spec.
Qed.

Lemma host_mount_is_detected_witness :
  IsAbs "/builds/x" = true ∧
  ∃ r, IsHostMountedVolume linux_ParseVolume "/builds/x" ["/cache"; "/mnt/b:/builds/"] = Ok r ∧ r = true.
Proof.
  split; [reflexivity|].
  destruct (host_mount_is_detected linux_ParseVolume "/builds/x" ["/cache"; "/mnt/b:/builds/"]) as (r & Hr & _).
  - reflexivity.
  - intros v Hv. repeat (apply elem_of_cons in Hv as [->|Hv]; [eexists; vm_compute; reflexivity|]).
    by apply elem_of_nil in Hv.
  - exists r. split; [exact Hr|]. vm_compute in Hr. congruence.
Defined.

(** *** Windows *)

(** [filepath.Dir] on Windows for a path on a drive: the drive, then everything up to the
    last separator, cleaned. *)
Definition FromSlash_win (p : string) : string := Replace p "/" "\".
Definition Dir_windows (p : string) : string := stake 2 p +:+ FromSlash_win (Dir (ToSlash (sdrop 2 p))).

Example Dir_windows_ex : Dir_windows "c:\a\b" = "c:\a" ∧ Dir_windows "c:\a" = "c:\" ∧ Dir_windows "c:\" = "c:\".
Proof. vm_compute. done. Qed.

(** On Windows the search for a host mount does not end: [filepath.Dir] of a drive's
    root is that root, which is neither / nor a dot, so for the default builds directory
    [isParentOf] loops for ever on every volume that is not mounted at it or at its drive's
    root, whatever number of steps is allowed. *)
Theorem host_mount_search_diverges_on_windows (parent : string)
    (Hdir : parent ≠ DefaultBuildsDir docker_windows_options) (Hroot : parent ≠ "c:\") (fuel : nat) :
  isParentOf_go Dir_windows fuel parent (DefaultBuildsDir docker_windows_options) = None.
Proof.
  assert (Hloop : ∀ n, isParentOf_go Dir_windows n parent "c:\" = None).
  { induction n as [|n IH]; [done|]. cbn [isParentOf_go].
    rewrite (bool_decide_false ("c:\" = parent)) by congruence.
    change (Dir_windows "c:\") with "c:\". rewrite IH. done. }
  destruct fuel as [|fuel]; [done|]. cbn [isParentOf_go].
  rewrite (bool_decide_false (_ = parent)) by congruence.
  change (Dir_windows (DefaultBuildsDir docker_windows_options)) with "c:\". rewrite Hloop. done.
Qed.

Lemma host_mount_search_diverges_on_windows_witness :
  isParentOf_go Dir_windows 1000 "c:\data" (DefaultBuildsDir docker_windows_options) = None.
Proof. apply host_mount_search_diverges_on_windows; vm_compute; congruence. Defined.

(** ** docker-ssh *)

(** The docker-ssh executor cannot run with its own default builds directory: the
    default is relative and [Prepare] requires an absolute one, so a runner without a
    builds_dir setting fails at every job, whatever Docker answers, before any container
    is created. *)
Theorem docker_ssh_default_builds_dir_fails `{!GoText} {DL : DockerLib} (app : AppVersionInfo) (D : Daemon)
    (config : RunnerConfig) (dconfig : DockerConfig) (shells : gmap string Shells.Shell)
    (user hostname : string) (prebuiltPaths : list string) (hashContainerPath : string → string)
    (filepath_Abs : string → result error string) (b : Build) (ssh_configured : bool)
    (Hdir : BuildsDir config = "") :
  let '(r, e) := ssh_Prepare app D config dconfig docker_ssh_options shells user hostname prebuiltPaths
                   hashContainerPath filepath_Abs ssh_configured (new_executor docker_ssh_options b) in
  (∃ err, r = Err err) ∧ ∀ p id, ¬ created p id (hist e).
Proof.
  set (e0 := new_executor docker_ssh_options b).
  assert (Hroot : abs_RootDir docker_ssh_options config = "builds") by (unfold abs_RootDir; by rewrite Hdir).
  assert (Hfail : ∀ e, ∃ err, (prepareBuildsDir config dconfig docker_ssh_options e).1 = Err err).
  { intros e. unfold prepareBuildsDir. rewrite Hroot. unfold bindM at 1, mget. simpl.
    destruct (New_parser _); [|eexists; done]. destruct (IsHostMountedVolume _ _ _) as [[]|]; eexists; done. }
  assert (Hstill : ∃ err e', Prepare app D config dconfig docker_ssh_options shells user hostname prebuiltPaths
                     hashContainerPath filepath_Abs e0 = (Err err, e') ∧ still e0 e').
  { unfold Prepare, SetCurrentStage. unfold bindM at 1 2, mupd at 1 2.
    set (e1 := upd_currentStage ExecutorStagePrepare _).
    assert (Hs1 : still e0 e1) by (split_and!; [by exists []|done..]).
    pose proof (q_connectDocker app D config docker_ssh_options e1) as Hs2.
    unfold bindM at 1. destruct (connectDocker app D config docker_ssh_options e1) as [[[]|err] e2]; simpl in Hs2.
    2: { do 2 eexists. split; [done|]. by etrans. }
    destruct (Hfail e2) as [err Herr].
    pose proof (q_prepareBuildsDir config dconfig docker_ssh_options e2) as Hs3.
    unfold bindM at 1. destruct (prepareBuildsDir config dconfig docker_ssh_options e2) as [r e3].
    simpl in *. subst r. do 2 eexists. split; [done|]. etrans; [exact Hs1|]. by etrans. }
  destruct Hstill as (err & e' & Hp & Hs). unfold ssh_Prepare, bindM at 1. rewrite Hp.
  split; [by eexists|]. intros p id Hc.
  eapply adds_no_container_created in Hc; [|apply Hs]. destruct Hc as (?&?&?&Hin). by apply elem_of_nil in Hin.
Qed.

(** ** Volumes *)

Definition binds_of (e : executor) : option (list string * gset string) :=
  (λ m, (volumeBindings m, managedVolumes m)) <$> volumesManager e.

(** Every bind is a volume of its own path, and the paths are recorded. *)
Definition mounts_ok (bm : list string * gset string) : Prop :=
  ∃ vs, bm.1 = VolumeDefinition <$> vs ∧ NoDup (Destination <$> vs) ∧
        ∀ v, v ∈ vs → Destination v ∈ bm.2.
Definition one_mount_per_path (e : executor) : Prop := ∀ bm, binds_of e = Some bm → mounts_ok bm.

(** The same, with [p] recorded and not mounted yet. *)
Definition path_reserved (p : string) (e : executor) : Prop :=
  ∀ bm, binds_of e = Some bm →
    p ∈ bm.2 ∧ ∃ vs, bm.1 = VolumeDefinition <$> vs ∧ NoDup (Destination <$> vs) ∧
      ∀ v, v ∈ vs → Destination v ∈ bm.2 ∧ Destination v ≠ p.

Lemma reserved_ok p e : path_reserved p e → one_mount_per_path e.
Proof.
  intros H bm Hb. destruct (H bm Hb) as (_ & vs & H1 & H2 & H3). exists vs. split_and!; auto.
  intros v Hv. by apply H3.
Qed.

(** Operations that leave the binds alone. *)
Definition keeps_binds {A} (c : M A) : Prop := ∀ e, binds_of (c e).2 = binds_of e.
Lemma kb_quiet {A} (c : M A) : quiet c → keeps_binds c.
Proof. intros Hq e. destruct (Hq e) as (_ & _ & Hm). unfold binds_of. by rewrite Hm. Qed.
Lemma kb_bind {A B} (c : M A) (k : A → M B) : keeps_binds c → (∀ a, keeps_binds (k a)) → keeps_binds (bindM c k).
Proof.
  intros Hc Hk e. unfold bindM. specialize (Hc e). destruct (c e) as [[a|err] e']; [|done].
  by rewrite Hk.
Qed.
Lemma kb_attempt {A} (c : M A) : keeps_binds c → keeps_binds (attempt c).
Proof. intros Hc e. unfold attempt. specialize (Hc e). by destruct (c e). Qed.
Lemma kb_upd_m f :
  (∀ m, volumeBindings (f m) = volumeBindings m ∧ managedVolumes (f m) = managedVolumes m) → keeps_binds (upd_m f).
Proof.
  intros Hf e. unfold upd_m, mupd, binds_of. simpl. destruct (volumesManager e) as [m|] eqn:E; simpl.
  - destruct (Hf m) as [-> ->]. done.
  - by rewrite E.
Qed.
Lemma kb_if {A} (b : bool) (c1 c2 : M A) : keeps_binds c1 → keeps_binds c2 → keeps_binds (if b then c1 else c2).
Proof. by destruct b. Qed.
Create HintDb binds.
#[local] Hint Resolve kb_bind kb_attempt kb_if : binds.
#[local] Hint Extern 1 (keeps_binds (upd_m _)) => (apply kb_upd_m; intros; split; reflexivity) : binds.
#[local] Hint Extern 2 (keeps_binds (match ?x with _ => _ end)) => destruct x : binds.
#[local] Hint Extern 3 (∀ _, keeps_binds _) => intro : binds.
#[local] Hint Extern 4 (keeps_binds _) => (apply kb_quiet; solve [auto 3 with quiet]) : binds.

Lemma t_kb {A} (c : M A) (P : executor → Prop) :
  (∀ e e', binds_of e' = binds_of e → P e → P e') → keeps_binds c → triple P c (λ _, P) P.
Proof.
  intros HP Hc e He. specialize (Hc e). destruct (c e) as [[a|err] e'] eqn:E; by eapply HP.
Qed.

Lemma bo_mounts e e' : binds_of e' = binds_of e → one_mount_per_path e → one_mount_per_path e'.
Proof. unfold one_mount_per_path. by intros ->. Qed.
Lemma bo_reserved p e e' : binds_of e' = binds_of e → path_reserved p e → path_reserved p e'.
Proof. unfold path_reserved. by intros ->. Qed.

Lemma t_pathList_Add_reserves p :
  triple one_mount_per_path (pathList_Add p) (λ _, path_reserved p) one_mount_per_path.
Proof.
  intros e He. unfold pathList_Add, get_manager, bindM.
  destruct (volumesManager e) as [m|] eqn:Em; [|done].
  case_bool_decide as Hp; simpl; [done|]. unfold upd_m, mupd. rewrite Em.
  destruct (He (volumeBindings m, managedVolumes m)) as (vs & H1 & H2 & H3); [unfold binds_of; by rewrite Em|].
  intros bm Hb. unfold binds_of in Hb. simpl in Hb. simplify_eq. simpl in *. split; [set_solver|].
  exists vs. split_and!; auto. intros v Hv. specialize (H3 v Hv). split; [set_solver|]. by intros <-.
Qed.

Lemma t_appendVolumeBind_mounts v E :
  triple (path_reserved (Destination v)) (appendVolumeBind v) (λ _, one_mount_per_path) E.
Proof.
  intros e He. unfold appendVolumeBind, upd_m, mupd. intros bm Hb.
  destruct (volumesManager e) as [m|] eqn:Em; [|unfold binds_of in Hb; by rewrite Em in Hb].
  destruct (He (volumeBindings m, managedVolumes m)) as (Hp & vs & H1 & H2 & H3); [unfold binds_of; by rewrite Em|].
  unfold binds_of in Hb. simpl in *. simplify_eq. exists (vs ++ [v]). simpl.
  rewrite !fmap_app, H1. split_and!; [done| |].
  - apply NoDup_app. split_and!; [done| |apply NoDup_singleton].
    intros x Hx Hv. apply list_elem_of_singleton in Hv. subst.
    apply list_elem_of_fmap in Hx as (w & Hw & Hin). by destruct (H3 w Hin).
  - intros w Hw. apply elem_of_app in Hw as [Hw|Hw]; [by apply H3|].
    apply list_elem_of_singleton in Hw. by subst.
Qed.

Section Volumes.
Context (D : Daemon) (hashContainerPath : string → string).

Lemma kb_ContainerCreate p cc hc n : keeps_binds (ContainerCreate D p cc hc n).
Proof. by intros e. Qed.
Hint Resolve kb_ContainerCreate : binds.
Lemma kb_createCacheContainer n p : keeps_binds (createCacheContainer D n p).
Proof. unfold createCacheContainer. auto 10 with binds. Qed.
Lemma kb_startCacheContainer id : keeps_binds (startCacheContainer D id).
Proof. unfold startCacheContainer. auto 12 with binds. Qed.
Hint Resolve kb_createCacheContainer kb_startCacheContainer : binds.
Lemma kb_cacheContainer_Create n p : keeps_binds (cacheContainer_Create D n p).
Proof. unfold cacheContainer_Create. auto 10 with binds. Qed.
Hint Resolve kb_cacheContainer_Create : binds.

Lemma t_container_mounts p :
  triple one_mount_per_path (createContainerBasedCacheVolume D hashContainerPath p)
    (λ _, one_mount_per_path) one_mount_per_path.
Proof.
  unfold createContainerBasedCacheVolume. eapply t_seq.
  { apply t_kb; [apply bo_mounts|apply kb_quiet; auto with quiet]. }
  intros m. eapply t_seq; [apply t_pathList_Add_reserves|]. intros _.
  eapply t_mono; [apply (t_kb _ one_mount_per_path bo_mounts)|apply reserved_ok|done|done].
  pose proof (q_FindOrCleanExisting D). auto 10 with binds quiet.
Qed.
End Volumes.

(** No path of a container is mounted twice: over every call of the volumes manager,
    for every Docker daemon and whether the call succeeds or fails, the binds are volumes
    with pairwise different container paths, all of them recorded as managed, so a second
    volume for the same path is refused instead of being mounted over the first. *)
Theorem volumes_manager_mounts_each_path_once `{!GoText} (D : Daemon) (hashContainerPath : string → string)
    (filepath_Abs : string → result error string) (spec : string) (e : executor)
    (Hmounts : one_mount_per_path e) :
  one_mount_per_path (manager_Create D hashContainerPath filepath_Abs spec e).2 ∧
  one_mount_per_path (CreateTemporary D hashContainerPath spec e).2.
Proof.
  assert (Ht : ∀ A (c : M A), triple one_mount_per_path c (λ _, one_mount_per_path) one_mount_per_path →
                              one_mount_per_path (c e).2).
  { intros A c Hc. specialize (Hc e Hmounts). by destruct (c e) as [[]]. }
  assert (Hget : ∀ B (k : manager → M B), (∀ m, triple one_mount_per_path (k m) (λ _, one_mount_per_path) one_mount_per_path) →
    triple one_mount_per_path (bindM get_manager k) (λ _, one_mount_per_path) one_mount_per_path).
  { intros B k Hk. eapply t_seq; [|exact Hk]. apply t_kb; [apply bo_mounts|apply kb_quiet; auto with quiet]. }
  split; apply Ht.
  - unfold manager_Create. apply t_if; [by apply t_ret|]. apply Hget. intros m.
    destruct (m_parser m spec) as [v|]; [|by apply t_fail].
    destruct (Len v) as [|[|[|]]]; try (by apply t_fail); apply Hget; intros m'.
    + apply t_if; [by apply t_fail|]. apply t_if.
      * apply Hget. intros m''. eapply t_seq; [apply t_pathList_Add_reserves|]. intros _.
        set (p := getAbsoluteContainerPath m'' (Destination v)).
        cbv zeta. eapply (t_seq _ _ _ (path_reserved p)).
        -- eapply t_mono; [apply (t_kb _ (path_reserved p) (bo_reserved p)), kb_quiet|done|done|apply reserved_ok].
           auto with quiet.
        -- intros hostPath. apply (t_appendVolumeBind_mounts (mkVolume hostPath p "")).
      * eapply t_seq; [apply t_container_mounts|]. intros _. by apply t_ret.
    + eapply t_seq; [apply t_pathList_Add_reserves|]. intros _.
      apply (t_appendVolumeBind_mounts (mkVolume (Source v) (getAbsoluteContainerPath m' (Destination v)) (Mode v))).
  - unfold CreateTemporary. eapply t_seq; [apply t_container_mounts|]. intros id.
    eapply t_mono; [apply (t_kb _ one_mount_per_path bo_mounts)|done..]. auto with binds.
Qed.

(** ** Waiting for a container *)

Lemma wait_loop_ok D n : ∀ retries id e e',
  wait_loop D n retries id e = (Ok tt, e') →
  ∃ h c, hist e' = CInspect id :: h ∧ d_inspect D h id = Ok c ∧ CJ_Running c = false ∧ CJ_ExitCode c = 0%Z.
Proof.
  induction n as [|n IH]; intros retries id e e' Hw; [done|]. simpl in Hw.
  unfold bindM, attempt, ContainerInspect in Hw.
  destruct (d_inspect D (hist e) id) as [c|err] eqn:Ei.
  - destruct (CJ_Running c) eqn:Er; [by eapply IH|].
    destruct (Z.eqb_spec (CJ_ExitCode c) 0); simpl in Hw; [|done].
    unfold returnM in Hw. simplify_eq. exists (hist e), c. done.
  - destruct err; try done; destruct (3 <? retries)%Z; try done; by eapply IH.
Qed.

Definition inspection_fails (D : Daemon) (id : string) : Prop :=
  ∀ h, ∃ err, d_inspect D h id = Err err ∧ (∀ msg, err ≠ ENotFound msg).

Lemma wait_loop_gives_up D id k : ∀ n e,
  inspection_fails D id → k < n →
  ∃ err, wait_loop D n (4 - Z.of_nat k) id e
         = (Err err, Nat.iter (S k) (record (CInspect id)) e) ∧ (∀ msg, err ≠ ENotFound msg).
Proof.
  induction k as [|k IH]; intros n e Hf Hn; (destruct n as [|n]; [lia|]);
    destruct (Hf (hist e)) as (err & Ei & Hne); simpl; unfold bindM, attempt, ContainerInspect;
    rewrite Ei.
  - exists err. split; [|done]. destruct err; try done; by destruct (Hne msg).
  - destruct (IH n (record (CInspect id) e) Hf ltac:(lia)) as (err' & Hw & Hne').
    exists err'. split; [|done].
    replace (4 - Z.of_nat (S k) + 1)%Z with (4 - Z.of_nat k)%Z by lia.
    rewrite (proj2 (Z.ltb_ge 3 (4 - Z.of_nat (S k)))) by lia.
    rewrite <- Nat.iter_succ_r in Hw.
    destruct err; try exact Hw. by destruct (Hne msg).
Qed.

(** Waiting for a container tells the truth and does not wait for ever on a broken
    daemon: [waitForContainer] reports success only right after Docker said that the
    container is not running and exited with 0, and when every inspection fails (other
    than by the container being unknown) it gives up with an error after exactly five. *)
Theorem container_wait_outcome (D : Daemon) (id : string) (e : executor) :
  (∀ e', waitForContainer D id e = (Ok tt, e') →
     ∃ h c, hist e' = CInspect id :: h ∧ d_inspect D h id = Ok c ∧
            CJ_Running c = false ∧ CJ_ExitCode c = 0%Z) ∧
  (inspection_fails D id → 5 ≤ d_polls D (hist e) →
     ∃ err, waitForContainer D id e = (Err err, Nat.iter 5 (record (CInspect id)) e)).
Proof.
  split.
  - intros e' Hw. by eapply wait_loop_ok.
  - intros Hf Hn. destruct (wait_loop_gives_up D id 4 (d_polls D (hist e)) e Hf ltac:(lia)) as (err & Hw & _).
    exists err. exact Hw.
Qed.

(** ** A concrete daemon *)

Module DemoDocker.
#[global] Instance lib : DockerLib := {
  zglob_Match p s := bool_decide (p = s);
  ReferenceRegexp s := Some (match SplitN2 s ":" with [a; b] => (a, b) | _ => (s, "") end);
  RAMInBytes _ := Err "invalid size";
  RatNano _ := None;
  LoadFromReader _ := Err "EOF";
  NativeStore_GetAll _ := Ok ∅;
  HomeDirectory := "/root";
  user_Lookup _ := Err "unknown user";
  os_Open p := Err (NotExist p);
  walk m := map_to_list m;
  GOARCH := "amd64" }.

(** A daemon that has every image and gives each container the length of the history as
    its id; containers exit with 0 at once. *)
Definition daemon : Daemon :=
  {| d_new := None; d_info _ := Ok ("linux", "x86_64", "");
     d_inspect h id := if bool_decide (Contains id "-" = true) then Err (ENotFound id) else Ok (mkContainer id false 0 []);
     d_create h _ := Ok ("c" +:+ Itoa (Z.of_nat (length h)));
     d_start _ _ := None; d_attach _ _ := None; d_remove _ _ := None; d_networks _ := Ok [];
     d_disconnect _ _ _ := None; d_image _ n := Ok ("sha256:" +:+ n); d_pull _ _ := None;
     d_open _ p := Some (ENotFound p); d_import _ _ := None; d_logs _ _ := Ok ""; d_ssh _ := None;
     d_polls _ := 10; d_ctxErr _ := ErrCanceled; d_kills _ := 0; d_watch _ := WatchContainer;
     d_timeout _ := false |}.

Definition config : DockerConfig :=
  {| Hostname := ""; Image := "ruby"; Runtime := ""; Memory := ""; MemorySwap := ""; MemoryReservation := "";
     CPUSetCPUs := ""; CPUS := ""; DNS := []; DNSSearch := []; Privileged := false;
     DisableEntrypointOverwrite := false; UsernsMode := ""; CapAdd := []; CapDrop := [];
     OomKillDisable := false; SecurityOpt := []; Devices := []; DisableCache := false;
     Volumes := ["/cache"]; VolumeDriver := ""; DockerCacheDir := ""; ExtraHosts := []; VolumesFrom := [];
     NetworkMode := ""; Links := []; Services := ["postgres:11"]; WaitForServicesTimeout := 0;
     AllowedImages := []; AllowedServices := []; PullPolicy := "if-not-present"; ShmSize := 0;
     Tmpfs := ∅; ServicesTmpfs := ∅; SysCtls := ∅; HelperImage := "" |}.

Definition shells : gmap string Shells.Shell :=
  {["bash" := mkShell "bash" true (λ _, mkConfiguration [] ["sh"] "bash" [] false "") (λ _ _, None)]}.

Definition run (stages : list bool) : executor :=
  (job DemoBuild.app daemon (some_runner 0 0) config docker_options shells "" "host" [] (λ p, "h" +:+ Itoa (Z.of_nat (slen p)))
     Ok stages id (new_executor docker_options (DemoBuild.build []))).2.

Definition creations (e : executor) : list (purpose * string) :=
  omap (λ c, match c with CCreate p _ _ _ (Ok id) => Some (p, id) | _ => None end) (reverse (hist e)).
Definition removals (e : executor) : list string :=
  omap (λ c, match c with CRemove id _ => Some id | _ => None end) (reverse (hist e)).
End DemoDocker.


Lemma docker_ssh_default_builds_dir_fails_witness :
  let '(r, e) := ssh_Prepare DemoBuild.app DemoDocker.daemon (some_runner 0 0) DemoDocker.config
      docker_ssh_options DemoDocker.shells "" "host" [] (λ p, p) Ok true
      (new_executor docker_ssh_options (DemoBuild.build [])) in
  (∃ err, r = Err err) ∧ ∀ p id, ¬ created p id (hist e).
Proof.
  exact (docker_ssh_default_builds_dir_fails DemoBuild.app DemoDocker.daemon (some_runner 0 0) DemoDocker.config
    DemoDocker.shells "" "host" [] (λ p, p) Ok (DemoBuild.build []) true eq_refl).
Defined.

(** The state of the demo executor when the job is over holds two managed paths. *)
Lemma volumes_manager_mounts_each_path_once_witness :
  one_mount_per_path (manager_Create DemoDocker.daemon (λ p, p) Ok "/a:/b" (DemoDocker.run [])).2 ∧
  option_map fst (binds_of (manager_Create DemoDocker.daemon (λ p, p) Ok "/a:/b" (DemoDocker.run [])).2)
    = Some ["/a:/b"] ∧
  (manager_Create DemoDocker.daemon (λ p, p) Ok "/a:/cache" (DemoDocker.run [])).1
    = Err (EVolumeAlreadyDefined "/cache").
Proof.
  split; [|split; vm_compute; reflexivity].
  refine (proj1 (volumes_manager_mounts_each_path_once DemoDocker.daemon (λ p, p) Ok "/a:/b" (DemoDocker.run []) _)).
  intros bm Hb. exists []. assert (bm.1 = []) as Hb1.
  { assert (option_map fst (binds_of (DemoDocker.run [])) = Some []) as H by (vm_compute; reflexivity).
    rewrite Hb in H. injection H as H. exact H. }
  clear Hb. split; [exact Hb1|]. split; [apply NoDup_nil_2|]. intros v Hv.
  destruct (not_elem_of_nil v Hv).
Defined.


Lemma container_wait_outcome_witness :
  ∃ h c, hist (waitForContainer DemoDocker.daemon "c7" (DemoDocker.run [])).2 = CInspect "c7" :: h ∧
         d_inspect DemoDocker.daemon h "c7" = Ok c ∧ CJ_Running c = false ∧ CJ_ExitCode c = 0%Z.
Proof.
  apply (container_wait_outcome DemoDocker.daemon "c7" (DemoDocker.run [])).
  apply injective_projections; [vm_compute|]; reflexivity.
Defined.
