(* ===== verification/KubernetesExecutor.v ===== *)
(** The Kubernetes executor: executors/kubernetes (executor_kubernetes.go, overwrites.go,
    util.go, the request checks of service_proxy.go, exec.go), session/proxy and
    helpers/dns.

    As for Docker, the cluster's API is outside: every call is recorded with its answer,
    which is an arbitrary function of the call and of the history ([Cluster]). *)

From S2P Require Import Prelude GoLib Path Types Variables Config TraceBuffer Build AbstractShell Shells.
From S2P Require Import Regex Executor DockerImages.

(** ** Names, helpers/dns/utils.go *)

Definition RFC1123NameMaximumLength : nat := 63.

(** [strings.ToLower], given the lower case of the runes above ASCII. *)
Definition lower_rune (ToLower_rune : Z → Z) (r : Z) : Z :=
  if ((65 <=? r) && (r <=? 90))%Z then (r + 32)%Z
  else if (r <? 128)%Z then r else ToLower_rune r.
Definition ToLower (ToLower_rune : Z → Z) (s : string) : string :=
  encode_all (lower_rune ToLower_rune <$> runes s).

(** [ReplaceAllString] with an empty replacement of the class of characters outside
    a-z, 0-9 and the hyphen; any other rune, an undecodable byte included, is dropped. *)
Definition rfc_char (r : Z) : bool :=
  ((97 <=? r) && (r <=? 122) || (48 <=? r) && (r <=? 57) || (r =? 45))%Z.
Definition rfc_start (r : Z) : bool := ((97 <=? r) && (r <=? 122) || (48 <=? r) && (r <=? 57))%Z.

Fixpoint drop_start (rs : list Z) : list Z :=
  match rs with
  | r :: rs' => if rfc_start r then rs else drop_start rs'
  | [] => []
  end.

Definition MakeRFC1123Compatible (ToLower_rune : Z → Z) (name : string) : string :=
  let name := ToLower ToLower_rune name in
  let kept := filter (λ r, rfc_char r = true) (runes name) in
  let name := encode_all (drop_start kept) in
  if bool_decide (RFC1123NameMaximumLength < slen name) then stake RFC1123NameMaximumLength name else name.

(** ** Overwrites, overwrites.go *)

Definition NamespaceOverwriteVariableName : string := "KUBERNETES_NAMESPACE_OVERWRITE".
Definition ServiceAccountOverwriteVariableName : string := "KUBERNETES_SERVICE_ACCOUNT_OVERWRITE".
Definition BearerTokenOverwriteVariableValue : string := "KUBERNETES_BEARER_TOKEN".
Definition PodAnnotationsOverwriteVariablePrefix : string := "KUBERNETES_POD_ANNOTATIONS_".

Record overwrites := mkOverwrites {
  o_namespace : string; o_serviceAccount : string; o_bearerToken : string;
  o_podAnnotations : gmap string string }.

(** What the executor takes from elsewhere: [regexp.Compile] with [MatchString] for a
    pattern of the configuration (an error is one of compiling), [resource.ParseQuantity]
    (the empty string is the zero quantity), and the lower case of runes above ASCII. *)
Class KubeLib := {
  regexp_Match : string → string → result string bool;
  ParseQuantity : string → result string string;
  ToLower_rune : Z → Z }.

Section Kubernetes.
Context `{!GoText} {DL : DockerLib} {KL : KubeLib}.

Definition overwriteRegexCheck (regex value : string) : option string :=
  match regexp_Match regex value with
  | Err e => Some e
  | Ok true => None
  | Ok false => Some ("Provided value " +:+ Quote value +:+ " does not match regex " +:+ Quote regex)
  end.

Definition evaluateOverwrite (value regex overwriteValue : string) : result string string :=
  if bool_decide (regex = "") then Ok value
  else if bool_decide (overwriteValue = "") then Ok value
  else match overwriteRegexCheck regex overwriteValue with
       | Some err => Err err
       | None => Ok overwriteValue
       end.

Definition evaluateBoolControlledOverwrite (value : string) (canOverride : bool) (overwriteValue : string)
    : result string string :=
  if canOverride then evaluateOverwrite value ".+" overwriteValue
  else evaluateOverwrite value "" overwriteValue.

Definition splitMapOverwrite (str : string) : result string (string * string) :=
  match SplitN2 str "=" with
  | [k; v] => Ok (k, v)
  | _ => Err ("Provided value " +:+ Quote str +:+ " is malformed, does not match k=v")
  end.

Fixpoint overwrite_map (regex selector : string) (variables : JobVariables) (finalValues : gmap string string)
    : result string (gmap string string) :=
  match variables with
  | [] => Ok finalValues
  | variable :: rest =>
      if HasPrefix (Key variable) selector then
        match overwriteRegexCheck regex (Value variable) with
        | Some err => Err err
        | None =>
            match splitMapOverwrite (Value variable) with
            | Err err => Err err
            | Ok (key, value) => overwrite_map regex selector rest (<[key := value]> finalValues)
            end
        end
      else overwrite_map regex selector rest finalValues
  end.

Definition evaluateMapOverwrite (values : list (string * string)) (regex : string) (variables : JobVariables)
    (variablesSelector : string) : result string (gmap string string) :=
  if bool_decide (regex = "") then Ok (list_to_map values)
  else overwrite_map regex variablesSelector variables (list_to_map values).

Definition createOverwrites (config : KubernetesConfig) (variables : JobVariables) : result string overwrites :=
  let expanded := ExpandAll variables in
  let? namespace := evaluateOverwrite (K_Namespace config) (K_NamespaceOverwriteAllowed config)
                      (Get expanded NamespaceOverwriteVariableName) in
  let? serviceAccount := evaluateOverwrite (K_ServiceAccount config) (K_ServiceAccountOverwriteAllowed config)
                           (Get expanded ServiceAccountOverwriteVariableName) in
  let? bearerToken := evaluateBoolControlledOverwrite (K_BearerToken config) (K_BearerTokenOverwriteAllowed config)
                        (Get expanded BearerTokenOverwriteVariableValue) in
  let? podAnnotations := evaluateMapOverwrite (K_PodAnnotations config) (K_PodAnnotationsOverwriteAllowed config)
                           variables PodAnnotationsOverwriteVariablePrefix in
  Ok (mkOverwrites namespace serviceAccount bearerToken podAnnotations).

(** ** util.go *)

Record KubeClientConfig := mkClientConfig {
  kc_Host : string; kc_BearerToken : string; kc_CAFile : string; kc_CertFile : string;
  kc_KeyFile : string; kc_UserAgent : string }.

Definition getOutClusterClientConfig (config : KubernetesConfig) : result string KubeClientConfig :=
  if bool_decide (K_CertFile config ≠ "") then
    if bool_decide (K_KeyFile config = "") || bool_decide (K_CAFile config = "")
    then Err "ca file, cert file and key file must be specified when using file based auth"
    else Ok (mkClientConfig (K_Host config) (K_BearerToken config) (K_CAFile config) (K_CertFile config)
               (K_KeyFile config) "")
  else Ok (mkClientConfig (K_Host config) (K_BearerToken config) (K_CAFile config) "" "" "").

(** [inCluster] and [defaultKubectl] are the two ways client-go finds a configuration. *)
Definition guessClientConfig (inCluster defaultKubectl : result string KubeClientConfig)
    : result string KubeClientConfig :=
  match inCluster with
  | Ok c => Ok c
  | Err _ => defaultKubectl
  end.

Definition getKubeClientConfig (app : AppVersionInfo) (inCluster defaultKubectl : result string KubeClientConfig)
    (config : KubernetesConfig) (o : overwrites) : result string KubeClientConfig :=
  match (if bool_decide (K_Host config ≠ "") then getOutClusterClientConfig config
         else guessClientConfig inCluster defaultKubectl) with
  | Err e => Err e
  | Ok c =>
      Ok (mkClientConfig (kc_Host c)
            (if bool_decide (o_bearerToken o ≠ "") then o_bearerToken o else kc_BearerToken c)
            (kc_CAFile c) (kc_CertFile c) (kc_KeyFile c) (UserAgent app))
  end.

(** [limits]: a quantity that does not parse gives an empty list and no error. *)
Definition ResourceList : Type := list (string * string).
Definition parse_quantity (s : string) : result string string :=
  if bool_decide (s = "") then Ok ""
  else match ParseQuantity s with
       | Err e => Err ("error parsing resource limit: " +:+ e)
       | Ok q => Ok q
       end.
Definition limits (cpu memory : string) : result string ResourceList :=
  match parse_quantity cpu with
  | Err _ => Ok []
  | Ok rCPU =>
      match parse_quantity memory with
      | Err _ => Ok []
      | Ok rMem =>
          Ok ((if bool_decide (rCPU ≠ "") then [("cpu", rCPU)] else [])
              ++ (if bool_decide (rMem ≠ "") then [("memory", rMem)] else []))
      end
  end.

Definition buildVariables (bv : JobVariables) : list (string * string) := (λ b, (Key b, Value b)) <$> bv.

Record ContainerStatus := { cs_Ready : bool; cs_Waiting : option (string * string) (* reason, message *) }.
Record PodStatus := { ps_Phase : string; ps_ContainerStatuses : list ContainerStatus }.

Definition PodRunning : string := "Running".
Definition PodSucceeded : string := "Succeeded".
Definition PodFailed : string := "Failed".
Definition PodUnknown : string := "Unknown".

Definition isRunning (pod : PodStatus) : result string bool :=
  if bool_decide (ps_Phase pod = PodRunning) then Ok true
  else if bool_decide (ps_Phase pod = PodSucceeded) then Err "pod already succeeded before it begins running"
  else if bool_decide (ps_Phase pod = PodFailed) then Err "pod status is failed"
  else Ok false.

(** The message of the first container whose image cannot be pulled. *)
Definition pull_failure (c : ContainerStatus) : option string :=
  if cs_Ready c then None
  else match cs_Waiting c with
       | Some (reason, message) =>
           if bool_decide (reason = "ErrImagePull") || bool_decide (reason = "ImagePullBackOff")
           then Some message else None
       | None => None
       end.

Fixpoint first_pull_failure (l : list ContainerStatus) : option string :=
  match l with
  | [] => None
  | c :: rest => match pull_failure c with Some m => Some m | None => first_pull_failure rest end
  end.

Record podPhaseResponse := mkPhase { pp_done : bool; pp_phase : string; pp_err : option error }.

Definition getPodPhase (answer : result error PodStatus) : podPhaseResponse :=
  match answer with
  | Err err => mkPhase true PodUnknown (Some err)
  | Ok pod =>
      match isRunning pod with
      | Err msg => mkPhase true (ps_Phase pod) (Some (ErrText msg))
      | Ok true => mkPhase true (ps_Phase pod) None
      | Ok false =>
          match first_pull_failure (ps_ContainerStatuses pod) with
          | Some message =>
              mkPhase true PodUnknown (Some (BuildError (ErrText ("image pull failed: " +:+ message)) NoneFailure))
          | None => mkPhase false (ps_Phase pod) None
          end
      end
  end.

(** ** The pod, executor_kubernetes.go *)

Definition buildContainerName : string := "build".
Definition helperContainerName : string := "helper".

(** A proxy of session/proxy: its settings. *)
Record ProxySettings := mkProxy { ServiceName : string; Ports : list Port }.
Definition ProxyPool : Type := gmap string ProxySettings.

Record VolumeMount := mkMount { vm_Name : string; vm_MountPath : string; vm_ReadOnly : bool }.
Inductive VolumeSource :=
| EmptyDir (medium : string)
| HostPath (path : string)
| SecretSource (name : string) (items : list (string * string))
| PersistentVolumeClaim (claim : string) (readOnly : bool)
| ConfigMap (name : string) (items : list (string * string)).
Record KVolume := mkKVolume { v_Name : string; v_Source : VolumeSource }.

Record KContainer := mkKContainer {
  c_Name : string; c_Image : string; c_ImagePullPolicy : string; c_Command : list string; c_Args : list string;
  c_Env : list (string * string); c_Limits : ResourceList; c_Requests : ResourceList; c_Ports : list Z;
  c_VolumeMounts : list VolumeMount; c_Privileged : bool }.

Record PodConfig := mkPod {
  pod_GenerateName : string; pod_Namespace : string; pod_Labels : gmap string string;
  pod_Annotations : gmap string string; pod_Volumes : list KVolume; pod_ServiceAccountName : string;
  pod_NodeSelector : list (string * string); pod_Tolerations : list Toleration;
  pod_Containers : list KContainer; pod_GracePeriod : Z; pod_ImagePullSecrets : list string;
  pod_SecurityContext : option PodSecurityContext }.

Definition getCommandAndArgs (imageDefinition : Types.Image) (command : list string) : list string * list string :=
  (match command with [] => Image_Entrypoint imageDefinition | _ => command end, Image_Command imageDefinition).

Definition getVolumeMounts (config : KubernetesConfig) (b : Build) : list VolumeMount :=
  let v := K_Volumes config in
  mkMount "repo" (RootDir b) false
    :: ((λ m, mkMount (KHP_Name m) (KHP_MountPath m) (KHP_ReadOnly m)) <$> KV_HostPaths v)
    ++ ((λ m, mkMount (KS_Name m) (KS_MountPath m) (KS_ReadOnly m)) <$> KV_Secrets v)
    ++ ((λ m, mkMount (KPVC_Name m) (KPVC_MountPath m) (KPVC_ReadOnly m)) <$> KV_PVCs v)
    ++ ((λ m, mkMount (KCM_Name m) (KCM_MountPath m) (KCM_ReadOnly m)) <$> KV_ConfigMaps v)
    ++ ((λ m, mkMount (KED_Name m) (KED_MountPath m) false) <$> KV_EmptyDirs v).

Definition getVolumes (config : KubernetesConfig) : list KVolume :=
  let v := K_Volumes config in
  mkKVolume "repo" (EmptyDir "")
    :: ((λ m, mkKVolume (KHP_Name m)
                (HostPath (if bool_decide (KHP_HostPath m = "") then KHP_MountPath m else KHP_HostPath m)))
          <$> KV_HostPaths v)
    ++ ((λ m, mkKVolume (KS_Name m) (SecretSource (KS_Name m) (KS_Items m))) <$> KV_Secrets v)
    ++ ((λ m, mkKVolume (KPVC_Name m) (PersistentVolumeClaim (KPVC_Name m) (KPVC_ReadOnly m))) <$> KV_PVCs v)
    ++ ((λ m, mkKVolume (KCM_Name m) (ConfigMap (KCM_Name m) (KCM_Items m))) <$> KV_ConfigMaps v)
    ++ ((λ m, mkKVolume (KED_Name m) (EmptyDir (KED_Medium m))) <$> KV_EmptyDirs v).

(** The executor's settings while it builds the pod. *)
Record KSettings := {
  ks_config : KubernetesConfig; ks_build : Build; ks_shell : ShellConfiguration; ks_helper : HelperInfo;
  ks_overwrites : overwrites; ks_image : Types.Image; ks_services : list Types.Image; ks_pullPolicy : string;
  ks_buildLimits : ResourceList; ks_serviceLimits : ResourceList; ks_helperLimits : ResourceList;
  ks_buildRequests : ResourceList; ks_serviceRequests : ResourceList; ks_helperRequests : ResourceList }.

Context (app : AppVersionInfo).

(** The conversion [int32(port.Number)]. *)
Definition int32_wrap (z : Z) : Z := ((z + 2 ^ 31) mod 2 ^ 32 - 2 ^ 31)%Z.

(** [buildContainer]: the container, and the proxies with one more if the image has ports. *)
Definition buildContainer (s : KSettings) (pool : ProxyPool) (name image : string) (def : Types.Image)
    (requests limits_ : ResourceList) (containerCommand : list string) : KContainer * ProxyPool :=
  let serviceName :=
    if bool_decide (Image_Alias def = "")
    then if bool_decide (name ≠ buildContainerName) then "proxy-" +:+ name else name
    else Image_Alias def in
  let pool := match Image_Ports def with
              | [] => pool
              | ports => <[serviceName := mkProxy serviceName ports]> pool
              end in
  let '(command, args) := getCommandAndArgs def containerCommand in
  (mkKContainer name image (ks_pullPolicy s) command args
     (buildVariables (PublicOrInternal (GetAllVariables app (ks_build s)))) limits_ requests
     ((λ p, int32_wrap (Port_Number p)) <$> Image_Ports def)
     (getVolumeMounts (ks_config s) (ks_build s)) (K_Privileged (ks_config s)), pool).

Fixpoint service_containers (s : KSettings) (i : nat) (services : list Types.Image) (pool : ProxyPool)
    : list KContainer * ProxyPool :=
  match services with
  | [] => ([], pool)
  | service :: rest =>
      let resolvedImage := ExpandValue (GetAllVariables app (ks_build s)) (Image_Name service) in
      let '(c, pool) := buildContainer s pool ("svc-" +:+ Itoa (Z.of_nat i)) resolvedImage service
                          (ks_serviceRequests s) (ks_serviceLimits s) [] in
      let '(cs, pool) := service_containers s (S i) rest pool in
      (c :: cs, pool)
  end.

Definition getHelperImage (s : KSettings) : string :=
  if bool_decide (K_HelperImage (ks_config s) ≠ "")
  then ExpandValue (VersionVariables app) (K_HelperImage (ks_config s))
  else HelperInfo_String (ks_helper s).

Definition projectUniqueName (s : KSettings) : string :=
  MakeRFC1123Compatible ToLower_rune (ProjectUniqueName (ks_build s)).

Definition preparePodConfig (s : KSettings) (pool : ProxyPool) (labels annotations : gmap string string)
    (services : list KContainer) (imagePullSecrets : list string) : PodConfig * ProxyPool :=
  let buildImage := ExpandValue (GetAllVariables app (ks_build s)) (Image_Name (ks_image s)) in
  let '(b, pool) := buildContainer s pool buildContainerName buildImage (ks_image s)
                      (ks_buildRequests s) (ks_buildLimits s) (DockerCommand (ks_shell s)) in
  let '(h, pool) := buildContainer s pool helperContainerName (getHelperImage s) (named_image "")
                      (ks_helperRequests s) (ks_helperLimits s) (DockerCommand (ks_shell s)) in
  (mkPod (projectUniqueName s) (o_namespace (ks_overwrites s)) labels annotations
     (getVolumes (ks_config s)) (o_serviceAccount (ks_overwrites s)) (K_NodeSelector (ks_config s))
     (GetNodeTolerations (ks_config s)) (b :: h :: services) (K_TerminationGracePeriodSeconds (ks_config s))
     imagePullSecrets (GetPodSecurityContext (ks_config s)), pool).

(** The labels and annotations of the pod; the variables here are those of the job. *)
Definition pod_labels (s : KSettings) : gmap string string :=
  foldl (λ m kv, <[kv.1 := ExpandValue (JR_Variables (Job (ks_build s))) kv.2]> m)
    {["pod" := projectUniqueName s]} (K_PodLabels (ks_config s)).
Definition pod_annotations (s : KSettings) : gmap string string :=
  ExpandValue (JR_Variables (Job (ks_build s))) <$> o_podAnnotations (ks_overwrites s).

(** The pod [setupBuildPod] asks for, with the pool of proxies it filled. *)
Definition build_pod (s : KSettings) (pool : ProxyPool) (credentials : option string) : PodConfig * ProxyPool :=
  let '(services, pool) := service_containers s 0 (ks_services s) pool in
  preparePodConfig s pool (pod_labels s) (pod_annotations s) services
    (K_ImagePullSecrets (ks_config s) ++ match credentials with Some name => [name] | None => [] end).

(** A service of the cluster. *)
Record KService := mkKService {
  svc_GenerateName : string; svc_Namespace : string; svc_Ports : list (Z * string); svc_Selector : string }.

Definition prepareServiceConfig (s : KSettings) (name : string) (ports : list (Z * string)) : KService :=
  mkKService name (o_namespace (ks_overwrites s)) ports (projectUniqueName s).

Definition proxy_service (s : KSettings) (entry : string * ProxySettings) : KService :=
  let serviceName := MakeRFC1123Compatible ToLower_rune entry.1 in
  prepareServiceConfig s serviceName
    ((λ p, (int32_wrap (Port_Number p), serviceName +:+ "-" +:+ Itoa (Port_Number p))) <$> Ports entry.2).

End Kubernetes.

(** ** session/proxy *)

Fixpoint PortByNameOrNumber (ports : list Port) (portNameOrNumber : string) : result string Port :=
  match ports with
  | [] => Err "invalid port"
  | port :: rest =>
      if (Port_Number port =? (Atoi portNameOrNumber).1)%Z || bool_decide (Port_Name port = portNameOrNumber)
      then Ok port else PortByNameOrNumber rest portNameOrNumber
  end.

Definition Scheme (p : Port) : result string string :=
  if bool_decide (Port_Protocol p = "http") || bool_decide (Port_Protocol p = "https")
  then Ok (Port_Protocol p) else Err "invalid port scheme".

Definition WebsocketProtocolFor (httpProtocol : string) : string :=
  if bool_decide (httpProtocol = "https") then "wss" else "ws".

(** [servicesRunning] of service_proxy.go on the answer of the cluster. *)
Definition servicesRunning (answer : result error PodStatus) : bool :=
  match answer with
  | Err _ => false
  | Ok pod => bool_decide (ps_Phase pod = PodRunning) && forallb cs_Ready (ps_ContainerStatuses pod)
  end.

(** The checks of [ProxyRequest]: the port to forward to, or the HTTP status of the refusal. *)
Definition ProxyRequest (settings : ProxySettings) (port : string) (answer : result error PodStatus) : Z + Port :=
  match PortByNameOrNumber (Ports settings) port with
  | Err _ => inl 404%Z
  | Ok portSettings => if servicesRunning answer then inr portSettings else inl 503%Z
  end.

(** [handleProxyHTTPErr]: [None] is an error that is no status of the cluster, else its code,
    its message, and the messages of the causes ([None] without details). *)
Definition handleProxyHTTPErr (status : option (Z * option (list string))) : string * Z :=
  match status with
  | None => ("", 500%Z)
  | Some (code, details) =>
      if (code =? 503)%Z then ("", code)
      else match details with
           | Some (cause :: _) => (cause, code)
           | _ => ("", code)
           end
  end.
