(* ===== verification/Kubernetes.v ===== *)
(** The Kubernetes executor at work: what executors/kubernetes/executor_kubernetes.go,
    util.go and exec.go ask of the cluster while a job runs.

    Every request is recorded with its answer, and an answer is an arbitrary function of
    the request and of what happened before ([Cluster]). The goroutines of
    [makePodProxyServices] and [Cleanup] are run one after the other in the order the walk
    of the map gives; the one of [runInContainer] runs before the [select] of [Run] picks
    what it saw first. *)

From S2P Require Import Prelude GoLib Path Types Variables Config TraceBuffer Build AbstractShell Shells.
From S2P Require Import Regex Executor DockerImages KubernetesExecutor.

(** ** The cluster *)

Inductive kind := KPod | KSecret | KServiceKind.

Record object := mkObject { ob_kind : kind; ob_namespace : string; ob_name : string }.

#[export] Instance kind_eq_dec : EqDecision kind.
Proof. solve_decision. Defined.
#[export] Instance object_eq_dec : EqDecision object.
Proof. solve_decision. Defined.

(** The secret of [setupCredentials]: the registries with their user and password. *)
Record SecretConfig := mkSecret {
  sec_GenerateName : string; sec_Namespace : string; sec_Auths : gmap string (string * string) }.

Inductive kcall :=
| QCreatePod (config : PodConfig) (answer : result error (string * string)) (* name, namespace *)
| QCreateSecret (config : SecretConfig) (name : string) (err : option error)
| QCreateService (namespace : string) (config : KService) (name : string) (err : option error)
| QDelete (o : object) (err : option error)
| QGetPod (namespace name : string) (answer : result error PodStatus)
| QExec (namespace name container : string) (command : list string) (script : string)
    (err : option error).

Definition khist : Type := list kcall.         (* latest first *)

(** The clients of the library return an object next to an error too: its name is part of
    the answer. [cl_ctxDone] and [cl_aborted] decide the two [select]s; [cl_new] is
    [kubernetes.NewForConfig]. *)
Record Cluster := {
  cl_new : KubeClientConfig → option error;
  cl_createPod : khist → PodConfig → result error (string * string);
  cl_createSecret : khist → SecretConfig → string * option error;
  cl_createService : khist → KService → string * option error;
  cl_delete : khist → object → option error;
  cl_getPod : khist → string → string → result error PodStatus;
  cl_exec : khist → string → option error;
  cl_ctxDone : khist → option error;
  cl_aborted : khist → bool }.

(** The executor: [k_pod] is the name and the namespace of its pod. *)
Record kexecutor := mkKExecutor {
  k_hist : khist; k_client : bool; k_settings : KSettings; k_pod : option (string * string);
  k_credentials : option string; k_services : list string; k_pool : ProxyPool }.

Definition k_record (c : kcall) (e : kexecutor) : kexecutor :=
  mkKExecutor (c :: k_hist e) (k_client e) (k_settings e) (k_pod e) (k_credentials e) (k_services e) (k_pool e).
Definition k_set_pod (p : string * string) (e : kexecutor) : kexecutor :=
  mkKExecutor (k_hist e) (k_client e) (k_settings e) (Some p) (k_credentials e) (k_services e) (k_pool e).
Definition k_set_credentials (c : string) (e : kexecutor) : kexecutor :=
  mkKExecutor (k_hist e) (k_client e) (k_settings e) (k_pod e) (Some c) (k_services e) (k_pool e).
Definition k_set_services (s : list string) (e : kexecutor) : kexecutor :=
  mkKExecutor (k_hist e) (k_client e) (k_settings e) (k_pod e) (k_credentials e) s (k_pool e).
Definition k_set_pool (p : ProxyPool) (e : kexecutor) : kexecutor :=
  mkKExecutor (k_hist e) (k_client e) (k_settings e) (k_pod e) (k_credentials e) (k_services e) p.

Section Operations.
Context `{!GoText} {DL : DockerLib} {KL : KubeLib}.
Context (app : AppVersionInfo) (C : Cluster).
Context (inCluster defaultKubectl : result string KubeClientConfig).

Definition ns (e : kexecutor) : string := o_namespace (ks_overwrites (k_settings e)).

Definition deleteObject (o : object) (e : kexecutor) : kexecutor :=
  k_record (QDelete o (cl_delete C (k_hist e) o)) e.

(** ** Preparation *)

(** [setupResources]: limits and requests of the build, the services and the helper. *)
Definition setupResources (c : KubernetesConfig) : result string (list ResourceList) :=
  let wrap what (r : result string ResourceList) :=
    match r with Ok l => Ok l | Err e => Err ("invalid " +:+ what +:+ " specified: " +:+ e) end in
  let? buildLimits := wrap "build limits" (limits (K_CPULimit c) (K_MemoryLimit c)) in
  let? serviceLimits := wrap "service limits" (limits (K_ServiceCPULimit c) (K_ServiceMemoryLimit c)) in
  let? helperLimits := wrap "helper limits" (limits (K_HelperCPULimit c) (K_HelperMemoryLimit c)) in
  let? buildRequests := wrap "build requests" (limits (K_CPURequest c) (K_MemoryRequest c)) in
  let? serviceRequests := wrap "service requests" (limits (K_ServiceCPURequest c) (K_ServiceMemoryRequest c)) in
  let? helperRequests := wrap "helper requests" (limits (K_HelperCPURequest c) (K_HelperMemoryRequest c)) in
  Ok [buildLimits; serviceLimits; helperLimits; buildRequests; serviceRequests; helperRequests].

(** [prepareOptions] keeps the services with a name. *)
Definition prepareOptions (b : Build) : Types.Image * list Types.Image :=
  (JR_Image (Job b), filter (λ s, Image_Name s ≠ "") (JR_Services (Job b))).

(** [checkDefaults]: the image of the job or of the configuration, and the namespace. *)
Definition checkDefaults (c : KubernetesConfig) (image : Types.Image) (o : overwrites)
    : result string (Types.Image * overwrites) :=
  let? image := if bool_decide (Image_Name image = "") then
                  if bool_decide (K_Image c = "") then Err "no image specified and no default set in config"
                  else Ok (named_image (K_Image c))
                else Ok image in
  Ok (image, if bool_decide (o_namespace o = "")
             then mkOverwrites "default" (o_serviceAccount o) (o_bearerToken o) (o_podAnnotations o)
             else o).

(** The registered options and the executor of [createFn]: no pod, no client. *)
Definition kubernetes_options : ExecutorOptions :=
  {| DefaultCustomBuildsDirEnabled := true; DefaultBuildsDir := "/builds"; DefaultCacheDir := "/cache";
     OptSharedBuildsDir := false; OptShell := "bash"; OptShellType := NormalShell;
     OptRunnerCommand := "/usr/bin/gitlab-runner-helper"; ShowHostname := true; Metadata := ∅ |}.

Definition createFn : result string HelperInfo := helperimage_Get (App_Revision app) "linux" "amd64" "".

(** [Prepare] of a runner with a Kubernetes section: the executor ready to run, or the
    error. A failed preparation leaves no client, no pod, no secret and no service, and
    [Cleanup] of it looks at nothing else. *)
Definition k_Prepare (shells : gmap string Shells.Shell) (hostname user : string) (config : RunnerConfig)
    (kconfig : KubernetesConfig) (helper : HelperInfo) (b : Build) : result error kexecutor * Build :=
  match PrepareBuildAndShell app shells kubernetes_options config (OptSharedBuildsDir kubernetes_options)
          hostname user b with
  | (Err e, b') => (Err e, b')
  | (Ok shell, b') =>
      (if PassFile shell then Err (ErrText "kubernetes doesn't support shells that require script file")
       else
         match (let? res := setupResources kconfig in
                let? pullPolicy := KubernetesPullPolicy_Get (K_PullPolicy kconfig) in
                let? o := createOverwrites kconfig (JR_Variables (Job b')) in
                let '(image, services) := prepareOptions b' in
                let? defaults := checkDefaults kconfig image o in
                let '(image, o) := defaults in
                match getKubeClientConfig app inCluster defaultKubectl kconfig o with
                | Err e => Err ("error connecting to Kubernetes: " +:+ e)
                | Ok c =>
                    match cl_new C c with
                    | Some e => Err ("error connecting to Kubernetes: " +:+ Error e)
                    | None =>
                        Ok {| ks_config := kconfig; ks_build := b'; ks_shell := shell; ks_helper := helper;
                              ks_overwrites := o; ks_image := image; ks_services := services;
                              ks_pullPolicy := pullPolicy; ks_buildLimits := nth 0 res [];
                              ks_serviceLimits := nth 1 res []; ks_helperLimits := nth 2 res [];
                              ks_buildRequests := nth 3 res []; ks_serviceRequests := nth 4 res [];
                              ks_helperRequests := nth 5 res [] |}
                    end
                end) with
         | Err msg => Err (ErrText msg)
         | Ok settings => Ok (mkKExecutor [] true settings None None [] ∅)
         end, b')
  end.

(** ** The pod *)

(** [setupCredentials]: the secret is made only if the job has registry credentials; the
    executor keeps what the client returns whether or not there is an error. *)
Definition registry_secrets (b : Build) : gmap string (string * string) :=
  foldl (λ m c, if bool_decide (Cred_Type c = "registry") then <[Cred_URL c := (Cred_Username c, Cred_Password c)]> m else m)
    ∅ (JR_Credentials (Job b)).

Definition setupCredentials (e : kexecutor) : option error * kexecutor :=
  let auths := registry_secrets (ks_build (k_settings e)) in
  if bool_decide (auths = ∅) then (None, e)
  else
    let secret := mkSecret (projectUniqueName (k_settings e)) (ns e) auths in
    let '(name, err) := cl_createSecret C (k_hist e) secret in
    (err, k_set_credentials name (k_record (QCreateSecret secret name err) e)).

(** [createKubernetesService]; the proxy takes the name the cluster chose. *)
Definition createKubernetesService (namespace : string) (entry : string * ProxySettings) (e : kexecutor)
    : (string * option error) * kexecutor :=
  let service := proxy_service (k_settings e) entry in
  let '(name, err) := cl_createService C (k_hist e) service in
  let e := k_record (QCreateService namespace service name err) e in
  ((name, err), match err with
                | None => k_set_pool (<[entry.1 := mkProxy name (Ports entry.2)]> (k_pool e)) e
                | Some _ => e
                end).

(** Every service is asked for; the first error, in the order the answers arrive, is the
    result and then no service is returned. *)
Fixpoint create_proxy_services (namespace : string) (entries : list (string * ProxySettings)) (names : list string)
    (failed : option error) (e : kexecutor) : result error (list string) * kexecutor :=
  match entries with
  | [] => (match failed with Some err => Err err | None => Ok names end, e)
  | entry :: rest =>
      match createKubernetesService namespace entry e with
      | ((name, None), e') => create_proxy_services namespace rest (names ++ [name]) failed e'
      | ((name, Some err), e') =>
          let err := ErrText ("error creating the proxy service " +:+ Quote name +:+ ": " +:+ Error err) in
          create_proxy_services namespace rest names (match failed with Some f => Some f | None => Some err end) e'
      end
  end.

Definition makePodProxyServices (namespace : string) (e : kexecutor) : result error (list string) * kexecutor :=
  create_proxy_services namespace (map_to_list (k_pool e)) [] None e.

Definition setupBuildPod (e : kexecutor) : option error * kexecutor :=
  let '(podConfig, pool) := build_pod app (k_settings e) (k_pool e) (k_credentials e) in
  let e := k_set_pool pool e in
  let answer := cl_createPod C (k_hist e) podConfig in
  let e := k_record (QCreatePod podConfig answer) e in
  match answer with
  | Err err => (Some err, e)
  | Ok (name, namespace) =>
      match makePodProxyServices namespace (k_set_pod (name, namespace) e) with
      | (Err err, e) => (Some err, k_set_services [] e)
      | (Ok names, e) => (None, k_set_services names e)
      end
  end.

(** ** Running a command *)

Definition GetPod (name namespace : string) (e : kexecutor) : result error PodStatus * kexecutor :=
  let answer := cl_getPod C (k_hist e) namespace name in
  (answer, k_record (QGetPod namespace name answer) e).

(** [waitForPodRunning] with [n] rounds left; the time between two rounds is not modelled. *)
Fixpoint poll_pod (n : nat) (name namespace : string) (e : kexecutor) : (string * option error) * kexecutor :=
  match n with
  | 0 => ((PodUnknown, Some (ErrText "timed out waiting for pod to start")), e)
  | S n' =>
      match cl_ctxDone C (k_hist e) with
      | Some err => ((PodUnknown, Some err), e)
      | None =>
          let '(answer, e) := GetPod name namespace e in
          let r := getPodPhase answer in
          if pp_done r then ((pp_phase r, pp_err r), e) else poll_pod n' name namespace e
      end
  end.

Definition waitForPodRunning (name namespace : string) (e : kexecutor) : (string * option error) * kexecutor :=
  poll_pod (S (Z.to_nat (GetPollAttempts (ks_config (k_settings e))))) name namespace e.

(** [ExecOptions.Run] with a container named. *)
Definition exec_Run (name namespace container : string) (command : list string) (script : string) (e : kexecutor)
    : option error * kexecutor :=
  let '(answer, e) := GetPod name namespace e in
  match answer with
  | Err err => (Some err, e)
  | Ok pod =>
      if bool_decide (ps_Phase pod ≠ PodRunning)
      then (Some (ErrText ("Pod '" +:+ name +:+ "' (on namespace '" +:+ namespace
                    +:+ "') is not running and cannot execute commands; current phase is '"
                    +:+ ps_Phase pod +:+ "'")), e)
      else let err := cl_exec C (k_hist e) container in
           (err, k_record (QExec namespace name container command script err) e)
  end.

Definition runInContainer (name namespace container : string) (command : list string) (script : string)
    (e : kexecutor) : option error * kexecutor :=
  let '((status, err), e) := waitForPodRunning name namespace e in
  match err with
  | Some err => (Some err, e)
  | None =>
      if bool_decide (status ≠ PodRunning)
      then (Some (ErrText ("pod failed to enter running state: " +:+ status)), e)
      else match getKubeClientConfig app inCluster defaultKubectl (ks_config (k_settings e))
                   (ks_overwrites (k_settings e)) with
           | Err msg => (Some (ErrText msg), e)
           | Ok _ => exec_Run name namespace container command script e
           end
  end.

(** [Run]: a command of the helper or of the job. *)
Definition k_Run (predefined : bool) (script : string) (e : kexecutor) : option error * kexecutor :=
  let '(err, e) :=
    match k_pod e with
    | Some _ => (None, e)
    | None =>
        match setupCredentials e with
        | (Some err, e) => (Some err, e)
        | (None, e) => setupBuildPod e
        end
    end in
  match err, k_pod e with
  | Some err, _ => (Some err, e)
  | None, None => (None, e)                    (* not reached: a set up executor has its pod *)
  | None, Some (name, namespace) =>
      let container := if predefined then helperContainerName else buildContainerName in
      let command := if predefined then Cmd (ks_helper (k_settings e)) else DockerCommand (ks_shell (k_settings e)) in
      let '(err, e) := runInContainer name namespace container command script e in
      (if cl_aborted C (k_hist e) then Some (ErrText "build aborted")
       else match err with
            | None => None
            | Some err =>
                if Contains (Error err) "command terminated with exit code"
                then Some (BuildError err NoneFailure) else Some err
            end, e)
  end.

(** ** Cleanup *)

Definition cleanup_objects (e : kexecutor) : list object :=
  match k_pod e with Some (name, namespace) => [mkObject KPod namespace name] | None => [] end
  ++ match k_credentials e with Some name => [mkObject KSecret (ns e) name] | None => [] end
  ++ ((λ name, mkObject KServiceKind (ns e) name) <$> k_services e).

Definition k_Cleanup (e : kexecutor) : kexecutor := foldl (λ e o, deleteObject o e) e (cleanup_objects e).

(** ** A whole job *)

(** The commands of a prepared job: a failure of the first one, which the build never
    repeats, ends the job; later ones run whatever the outcome of those before. *)
Fixpoint k_runs (commands : list (bool * string)) (e : kexecutor) : kexecutor :=
  match commands with
  | [] => e
  | (predefined, script) :: rest => k_runs rest (k_Run predefined script e).2
  end.

Definition k_job (commands : list (bool * string)) (e : kexecutor) : kexecutor :=
  k_Cleanup match commands with
            | [] => e
            | (predefined, script) :: rest =>
                match k_Run predefined script e with
                | (Some _, e) => e
                | (None, e) => k_runs rest e
                end
            end.

End Operations.
