(* ===== verification/KubernetesProofs.v ===== *)
(** What the Kubernetes executor guarantees: the objects it makes in the cluster and who
    deletes them, the wait for the pod, the shape of the pod, the overwrites a job may
    ask for. *)

From S2P Require Import Prelude GoLib Path Types Variables Config TraceBuffer Build AbstractShell Shells.
From S2P Require Import Regex Executor DockerImages KubernetesExecutor Kubernetes.

(** ** The objects of a history *)

(** What a request made: nothing if it failed. *)
Definition made (c : kcall) : list object :=
  match c with
  | QCreatePod _ (Ok (name, namespace)) => [mkObject KPod namespace name]
  | QCreateSecret s name None => [mkObject KSecret (sec_Namespace s) name]
  | QCreateService namespace _ name None => [mkObject KServiceKind namespace name]
  | _ => []
  end.
Definition created (h : khist) : list object := h ≫= made.

Definition deletions (h : khist) : list object :=
  h ≫= λ c, match c with QDelete o _ => [o] | _ => [] end.

(** A service the cluster refused. *)
Definition service_failed (c : kcall) : bool :=
  match c with QCreateService _ _ _ (Some _) => true | _ => false end.

(** The requests of a running command: they make and delete nothing. *)
Definition looks (c : kcall) : bool :=
  match c with QGetPod _ _ _ | QExec _ _ _ _ _ _ => true | _ => false end.

(** [e'] is [e] after requests that all satisfy [P]. *)
Definition extends (P : kcall → Prop) (e e' : kexecutor) : Prop :=
  ∃ h, k_hist e' = h ++ k_hist e ∧ Forall P h ∧
       k_settings e' = k_settings e ∧ k_pod e' = k_pod e ∧
       k_credentials e' = k_credentials e ∧ k_services e' = k_services e.

Lemma extends_refl P e : extends P e e.
Proof. exists []. split_and!; auto. Qed.
Lemma k_extends_trans P e1 e2 e3 : extends P e1 e2 → extends P e2 e3 → extends P e1 e3.
Proof.
  intros (h & H1 & F1 & S1 & P1 & C1 & V1) (h' & H2 & F2 & S2 & P2 & C2 & V2).
  exists (h' ++ h). rewrite H2, H1, <- (assoc_L (++)). split_and!; try congruence. by apply Forall_app.
Qed.
Lemma extends_record (P : kcall → Prop) c e : P c → extends P e (k_record c e).
Proof. intros Hc. exists [c]. split_and!; auto. Qed.
#[local] Hint Resolve extends_refl extends_record : kube.

Lemma created_app h h' : created (h ++ h') = created h ++ created h'.
Proof. unfold created. by rewrite bind_app. Qed.
Lemma deletions_app h h' : deletions (h ++ h') = deletions h ++ deletions h'.
Proof. unfold deletions. by rewrite bind_app. Qed.

Lemma looks_create_nothing h : Forall (λ c, looks c = true) h → created h = [] ∧ deletions h = [].
Proof. induction 1 as [|c h Hc _ [IH1 IH2]]; [done|]. destruct c; try done. Qed.

Lemma filter_none {A} (P : A → Prop) `{!∀ x, Decision (P x)} (l : list A) :
  (∀ x, x ∈ l → ¬ P x) → filter P l = [].
Proof.
  induction l as [|x l IH]; intros Hn; [done|]. rewrite filter_cons, decide_False by (apply Hn; left).
  apply IH. intros y Hy. apply Hn. by right.
Qed.

Section Proofs.
Context `{!GoText} {DL : DockerLib} {KL : KubeLib}.
Context (app : AppVersionInfo) (C : Cluster).
Context (inCluster defaultKubectl : result string KubeClientConfig).

(** *** The wait for the pod *)

(** An answer after which [waitForPodRunning] asks again. *)
Definition pending (name namespace : string) (c : kcall) : Prop :=
  ∃ answer, c = QGetPod namespace name answer ∧ pp_done (getPodPhase answer) = false.

(** How the wait with [n] rounds ends, given the requests [before] it and those it
    made, latest first. *)
Inductive wait_end (n : nat) (name namespace : string) (before : khist) : khist → string * option error → Prop :=
| WaitCtx h err : length h < n → Forall (pending name namespace) h →
    cl_ctxDone C (h ++ before) = Some err →
    wait_end n name namespace before h (PodUnknown, Some err)
| WaitDone h answer : length h < n → Forall (pending name namespace) h →
    pp_done (getPodPhase answer) = true →
    wait_end n name namespace before (QGetPod namespace name answer :: h)
      (pp_phase (getPodPhase answer), pp_err (getPodPhase answer))
| WaitTimeout h : length h = n → Forall (pending name namespace) h →
    wait_end n name namespace before h (PodUnknown, Some (ErrText "timed out waiting for pod to start")).

Lemma poll_pod_end n : ∀ name namespace e,
  ∃ h, k_hist (poll_pod C n name namespace e).2 = h ++ k_hist e ∧
       wait_end n name namespace (k_hist e) h (poll_pod C n name namespace e).1 ∧
       extends (λ c, looks c = true) e (poll_pod C n name namespace e).2.
Proof.
  induction n as [|n IH]; intros name namespace e; simpl.
  { exists []. split_and!; [done|by constructor|auto with kube]. }
  destruct (cl_ctxDone C (k_hist e)) as [err|] eqn:Ectx.
  { exists []. split_and!; [done|constructor; [simpl; lia|done|done]|auto with kube]. }
  set (a := cl_getPod C (k_hist e) namespace name).
  assert (extends (λ c, looks c = true) e (k_record (QGetPod namespace name a) e)) as Hx by auto with kube.
  destruct (pp_done (getPodPhase a)) eqn:Ed; simpl.
  { exists [QGetPod namespace name a]. split_and!; [done| |done].
    apply (WaitDone (S n) name namespace _ []); [simpl; lia|done|done]. }
  destruct (IH name namespace (k_record (QGetPod namespace name a) e)) as (h & -> & Hw & He).
  exists (h ++ [QGetPod namespace name a]). rewrite <- (assoc_L (++)).
  split_and!; [done| |by eapply k_extends_trans].
  assert (pending name namespace (QGetPod namespace name a)) as Hp by (exists a; done).
  inversion Hw; subst.
  - constructor; [rewrite length_app; simpl; lia|apply Forall_app; auto|by rewrite <- (assoc_L (++))].
  - rewrite <- app_comm_cons. constructor; [rewrite length_app; simpl; lia|apply Forall_app; auto|done].
  - constructor; [rewrite length_app; simpl; lia|apply Forall_app; auto].
Qed.

Lemma getPodPhase_running answer phase :
  pp_done (getPodPhase answer) = true ∧ pp_phase (getPodPhase answer) = phase ∧ pp_err (getPodPhase answer) = None ↔
  phase = PodRunning ∧ ∃ pod, answer = Ok pod ∧ ps_Phase pod = PodRunning.
Proof.
  unfold getPodPhase, isRunning. destruct answer as [pod|err]; [|naive_solver].
  destruct (decide (ps_Phase pod = PodRunning)) as [Hr|Hr].
  - rewrite bool_decide_true by done. rewrite Hr. simpl. naive_solver.
  - rewrite bool_decide_false by done.
    repeat (case_bool_decide; simpl; [naive_solver|]).
    destruct (first_pull_failure _); simpl; naive_solver.
Qed.

(** [waitForPodRunning] ends after at most [GetPollAttempts] plus one requests for the
    pod, whatever the cluster answers: because the context is done, because an answer
    settles the matter (all earlier ones were of a pod neither running nor ended, with no
    image that cannot be pulled), or with a time-out after exactly that many unsettled
    answers. It reports no error precisely when its last answer is a pod whose phase is
    Running, and that phase is then its result, whether or not its containers are ready. *)
Theorem pod_wait_is_bounded name namespace e :
  let attempts := S (Z.to_nat (GetPollAttempts (ks_config (k_settings e)))) in
  let '((phase, err), e') := waitForPodRunning C name namespace e in
  ∃ h, k_hist e' = h ++ k_hist e ∧ length h ≤ attempts ∧
       wait_end attempts name namespace (k_hist e) h (phase, err) ∧
       (err = None ↔ ∃ pod rest, h = QGetPod namespace name (Ok pod) :: rest ∧ ps_Phase pod = PodRunning) ∧
       (err = None → phase = PodRunning).
Proof.
  cbv zeta. unfold waitForPodRunning. set (n := S _).
  destruct (poll_pod_end n name namespace e) as (h & Hh & Hw & _).
  destruct (poll_pod C n name namespace e) as [[phase err] e'] eqn:Ep. simpl in *.
  exists h. assert (∀ pod rest, Forall (pending name namespace) (QGetPod namespace name (Ok pod) :: rest) →
    ps_Phase pod ≠ PodRunning) as Hnot.
  { intros pod rest [(a & [= <-] & Hd) _]%Forall_cons Hr.
    assert (PodRunning = PodRunning ∧ ∃ p, @Ok error _ pod = Ok p ∧ ps_Phase p = PodRunning) as Hx by eauto.
    apply getPodPhase_running in Hx as [Hx _]. congruence. }
  split_and!; [done|by inversion Hw; subst; simpl; lia|done| |].
  - inversion Hw as [h' er Hl Hf Hc|h' a Hl Hf Hd|h' Hl Hf]; subst; (split; [|intros (pod & rest & Heq & Hr)]).
    + done.
    + subst. by destruct (Hnot _ _ Hf).
    + intros Hn. destruct (getPodPhase_running a (pp_phase (getPodPhase a))) as [Hx _].
      destruct Hx as (_ & pod & -> & Hr); [done|]. eauto.
    + injection Heq as -> ->.
      destruct (getPodPhase_running (Ok pod) PodRunning) as [_ Hx]. apply Hx; eauto.
    + done.
    + subst. by destruct (Hnot _ _ Hf).
  - intros ->. inversion Hw as [|h' a Hl Hf Hd Heq|]; subst.
    destruct (getPodPhase_running a (pp_phase (getPodPhase a))) as [Hx _]. by apply Hx.
Qed.
(** *** What a command does *)

Lemma runInContainer_looks name namespace container command script e :
  extends (λ c, looks c = true) e
    (runInContainer app C inCluster defaultKubectl name namespace container command script e).2.
Proof.
  unfold runInContainer, waitForPodRunning.
  destruct (poll_pod_end (S (Z.to_nat (GetPollAttempts (ks_config (k_settings e))))) name namespace e)
    as (_ & _ & _ & Hx).
  destruct (poll_pod _ _ _ _ _) as [[status err] e1]. simpl in Hx.
  destruct err; [done|]. case_bool_decide; [done|].
  destruct (getKubeClientConfig _ _ _ _ _); [|done].
  eapply k_extends_trans; [done|]. unfold exec_Run, GetPod.
  destruct (cl_getPod _ _ _ _); [|by apply extends_record].
  case_bool_decide; [by apply extends_record|].
  eapply k_extends_trans; apply extends_record; done.
Qed.

(** A service of [namespace] that was asked for. *)
Definition asks_service (namespace : string) (c : kcall) : Prop :=
  ∃ s n err, c = QCreateService namespace s n err.

Lemma created_services namespace h : Forall (asks_service namespace) h →
  created h = mkObject KServiceKind namespace <$> (ob_name <$> created h).
Proof.
  induction 1 as [|c h (s & n & err & ->) _ IH]; [done|].
  unfold created in *. simpl. destruct err; simpl; [done|by f_equal].
Qed.

(** A service is asked for each entry of the pool; the result is their names, in order,
    unless one of them failed. *)
Lemma create_proxy_services_spec namespace entries : ∀ names failed e,
  let '(r, e') := create_proxy_services C namespace entries names failed e in
  ∃ h, k_hist e' = h ++ k_hist e ∧ Forall (asks_service namespace) h ∧
       k_settings e' = k_settings e ∧ k_pod e' = k_pod e ∧ k_credentials e' = k_credentials e ∧
       match failed with
       | Some err => r = Err err
       | None =>
           (Forall (λ c, service_failed c = false) h ∧ r = Ok (names ++ reverse (ob_name <$> created h))) ∨
           (Exists (λ c, service_failed c = true) h ∧ ∃ err, r = Err err)
       end.
Proof.
  induction entries as [|entry entries IH]; intros names failed e; simpl.
  { exists []. split_and!; auto. destruct failed; [done|]. left. split; [done|]. simpl. by rewrite app_nil_r. }
  unfold createKubernetesService.
  destruct (cl_createService C (k_hist e) (proxy_service (k_settings e) entry)) as [name [err|]] eqn:Ec; simpl.
  - specialize (IH names (match failed with Some f => Some f | None =>
      Some (ErrText ("error creating the proxy service " +:+ Quote name +:+ ": " +:+ Error err)) end)
      (k_record (QCreateService namespace (proxy_service (k_settings e) entry) name (Some err)) e)).
    destruct (create_proxy_services _ _ _ _ _) as [r e']. destruct IH as (h & -> & Hf & Hs & Hp & Hc & Hr).
    exists (h ++ [QCreateService namespace (proxy_service (k_settings e) entry) name (Some err)]).
    rewrite <- (assoc_L (++)). split_and!; auto.
    + apply Forall_app. split; [done|]. constructor; [by repeat eexists|done].
    + destruct failed; [done|]. right. split; [|eauto]. apply Exists_app. right. by constructor.
  - set (e1 := k_set_pool _ _).
    specialize (IH (names ++ [name]) failed e1).
    destruct (create_proxy_services _ _ _ _ _) as [r e']. destruct IH as (h & Hh & Hf & Hs & Hp & Hc & Hr).
    exists (h ++ [QCreateService namespace (proxy_service (k_settings e) entry) name None]).
    rewrite <- (assoc_L (++)). split_and!; auto.
    + apply Forall_app. split; [done|]. constructor; [by repeat eexists|done].
    + destruct failed; [done|]. destruct Hr as [[Hok ->]|[Hx Hr]].
      * left. split; [apply Forall_app; auto|].
        rewrite created_app, fmap_app, reverse_app. simpl. by rewrite <- (assoc_L (++)).
      * right. split; [apply Exists_app; by left|done].
Qed.

(** *** The objects of a job *)

(** Nothing was made yet. *)
Definition fresh (e : kexecutor) : Prop :=
  k_hist e = [] ∧ k_pod e = None ∧ k_credentials e = None ∧ k_services e = [].

(** A cluster makes a pod in the namespace the request names. *)
Definition keeps_namespace : Prop :=
  ∀ h config name namespace, cl_createPod C h config = Ok (name, namespace) → namespace = pod_Namespace config.

(** What [Cleanup] would delete covers what was made; services only if none failed and
    the cluster puts pods where it is asked to. *)
Record owns (e : kexecutor) : Prop := {
  owns_deletes : deletions (k_hist e) = [];
  owns_pod : ∀ o, o ∈ created (k_hist e) → ob_kind o = KPod → o ∈ cleanup_objects e;
  owns_one : length (filter (λ o, ob_kind o = KPod) (created (k_hist e))) ≤ 1;
  owns_secret : ∀ o, o ∈ created (k_hist e) → ob_kind o = KSecret → o ∈ cleanup_objects e;
  owns_services : keeps_namespace →
    Forall (λ c, service_failed c = false) (k_hist e) →
    ∀ o, o ∈ created (k_hist e) → ob_kind o = KServiceKind → o ∈ cleanup_objects e;
  owns_failed : Exists (λ c, service_failed c = true) (k_hist e) → k_services e = [] }.

Lemma owns_extends e e' : extends (λ c, looks c = true) e e' → owns e → owns e'.
Proof.
  intros (h & Hh & Hl & Hs & Hp & Hc & Hv) [Hd Ho H1 Hsec Hsvc Hfail].
  destruct (looks_create_nothing h Hl) as [Hc0 Hd0].
  assert (cleanup_objects e' = cleanup_objects e) as Hcl.
  { unfold cleanup_objects, ns. by rewrite Hs, Hp, Hc, Hv. }
  assert (Forall (λ c, service_failed c = false) h) as Hlf.
  { eapply Forall_impl; [done|]. by intros [] ?. }
  constructor; rewrite ?Hh, ?created_app, ?deletions_app, ?Hc0, ?Hd0, ?Hcl; simpl; auto.
  - intros Hns [_ Hf]%Forall_app. by apply Hsvc.
  - rewrite Hv. intros [He|He]%Exists_app; [|auto].
    apply Exists_exists in He as (c & Hin & Hf). rewrite Forall_forall in Hlf. by rewrite Hlf in Hf.
Qed.
(** The executor once its secret exists or failed. *)
Definition has_credentials (e : kexecutor) : Prop :=
  k_pod e = None ∧ k_services e = [] ∧ deletions (k_hist e) = [] ∧
  Forall (λ c, service_failed c = false) (k_hist e) ∧
  ∀ o, o ∈ created (k_hist e) → ob_kind o = KSecret ∧ o ∈ cleanup_objects e.

Lemma setupCredentials_spec e : fresh e → has_credentials (setupCredentials C e).2.
Proof.
  intros (Hh & Hp & Hc & Hs). unfold setupCredentials, has_credentials, created, deletions.
  case_bool_decide; simpl; [rewrite Hh, Hp, Hs; split_and!; auto; intros o Hin; by apply elem_of_nil in Hin|].
  destruct (cl_createSecret _ _ _) as [name err]. simpl. rewrite Hh, Hp, Hs. split_and!; auto.
  intros o. destruct err; simpl; [by intros Hin%elem_of_nil|].
  intros ->%list_elem_of_singleton. split; [done|].
  unfold cleanup_objects. simpl. rewrite Hp. simpl. left.
Qed.

Lemma has_credentials_owns e : has_credentials e → owns e.
Proof.
  intros (Hp & Hs & Hd & Hf & Ho). constructor; auto.
  - intros o Hin Hk. destruct (Ho o Hin). congruence.
  - rewrite filter_none; [simpl; lia|]. intros o Hin Hk. destruct (Ho o Hin). congruence.
  - intros o Hin _. by destruct (Ho o Hin).
  - intros _ _ o Hin Hk. destruct (Ho o Hin). congruence.
Qed.

(** With its pod and the services [sv], after the requests [h] for the services. *)
Lemma owns_with_pod e e' config name namespace h :
  has_credentials e → k_hist e' = h ++ QCreatePod config (Ok (name, namespace)) :: k_hist e →
  k_settings e' = k_settings e → k_pod e' = Some (name, namespace) → k_credentials e' = k_credentials e →
  Forall (asks_service namespace) h → (keeps_namespace → namespace = ns e') →
  (Forall (λ c, service_failed c = false) h → k_services e' = reverse (ob_name <$> created h)) →
  (Exists (λ c, service_failed c = true) h → k_services e' = []) → owns e'.
Proof.
  intros (Hp & Hs & Hd & Hf & Ho) Hh Hset Hpod Hcr Hask Hkn Hall Hsome.
  assert (∀ o, o ∈ created h → ob_kind o = KServiceKind) as Hk.
  { intros o Hin. rewrite (created_services _ _ Hask) in Hin. by apply list_elem_of_fmap in Hin as (n & -> & _). }
  assert (deletions h = []) as Hdh.
  { clear -Hask. induction Hask as [|c h (s & n & er & ->) _ IH]; [done|]. exact IH. }
  assert (∀ o, o ∈ cleanup_objects e → o ∈ cleanup_objects e') as Hcl.
  { intros o. unfold cleanup_objects, ns. rewrite Hp, Hs, Hset, Hcr, app_nil_r. simpl.
    rewrite Hpod. intros Hin. apply elem_of_app. right. apply elem_of_app. by left. }
  assert (∀ o, o ∈ created (k_hist e') ↔
    o ∈ created h ∨ o = mkObject KPod namespace name ∨ o ∈ created (k_hist e)) as Hin.
  { intros o. rewrite Hh, created_app, elem_of_app. unfold created at 2. simpl. by rewrite elem_of_cons. }
  constructor.
  - rewrite Hh, deletions_app, Hdh. simpl. exact Hd.
  - intros o [H1|[->|H1]]%Hin Hkd; [apply Hk in H1; congruence| |destruct (Ho o H1); congruence].
    unfold cleanup_objects. rewrite Hpod. left.
  - rewrite Hh, created_app, filter_app, length_app.
    change (created (QCreatePod config (Ok (name, namespace)) :: k_hist e))
      with (mkObject KPod namespace name :: created (k_hist e)).
    rewrite (filter_none _ (created h)). 2:{ intros o H1 Hkd. apply Hk in H1. congruence. }
    assert (filter (λ o, ob_kind o = KPod) (created (k_hist e)) = []) as Hn.
    { apply filter_none. intros o H1 Hkd. destruct (Ho o H1). congruence. }
    rewrite filter_cons, decide_True, Hn by done. simpl. lia.
  - intros o [H1|[->|H1]]%Hin Hkd; [apply Hk in H1; congruence|done|]. apply Hcl. by destruct (Ho o H1).
  - intros Hns Hfa o [H1|[->|H1]]%Hin Hkd; [|done|destruct (Ho o H1); congruence].
    rewrite Hh in Hfa. apply Forall_app in Hfa as [Hfa _]. specialize (Hall Hfa).
    unfold cleanup_objects. apply elem_of_app. right. apply elem_of_app. right.
    rewrite Hall, <- (Hkn Hns). rewrite (created_services _ _ Hask) in H1.
    rewrite fmap_reverse. by apply elem_of_reverse.
  - rewrite Hh. intros [He|He]%Exists_app; [auto|]. apply Exists_cons in He as [He|He]; [done|].
    apply Exists_exists in He as (c & Hc & Hfc). rewrite Forall_forall in Hf. by rewrite Hf in Hfc.
Qed.

Lemma build_pod_namespace s pool credentials config pool' :
  build_pod app s pool credentials = (config, pool') → pod_Namespace config = o_namespace (ks_overwrites s).
Proof.
  unfold build_pod, preparePodConfig. destruct (service_containers _ _ _ _ _) as [services pool1].
  do 2 destruct (buildContainer _ _ _ _ _ _ _ _ _). by intros [= <- _].
Qed.

Lemma setupBuildPod_spec e : has_credentials e →
  let '(err, e') := setupBuildPod app C e in
  owns e' ∧ (err = None → is_Some (k_pod e')).
Proof.
  intros Hcred. unfold setupBuildPod.
  destruct (build_pod app (k_settings e) (k_pool e) (k_credentials e)) as [config pool] eqn:Epod.
  apply build_pod_namespace in Epod.
  set (e1 := k_set_pool pool e). destruct (cl_createPod C (k_hist e1) config) as [[name namespace]|err] eqn:Ec.
  2:{ split; [|done]. apply has_credentials_owns. destruct Hcred as (Hp & Hs & Hd & Hf & Ho).
      split_and!; try done. by constructor. }
  set (e2 := k_set_pod _ _). unfold makePodProxyServices.
  assert (∀ e', k_settings e' = k_settings e → keeps_namespace → namespace = ns e') as Hkn.
  { intros e' He Hk. apply Hk in Ec. unfold ns. by rewrite He, <- Epod. }
  pose proof (create_proxy_services_spec namespace (map_to_list (k_pool e2)) [] None e2) as Hspec.
  destruct (create_proxy_services _ _ _ _ _ _) as [r e3].
  destruct Hspec as (h & Hh & Hask & Hs3 & Hp3 & Hc3 & [[Hall ->]|[Hx [err ->]]]); (split; [|]).
  - eapply (owns_with_pod e _ config name namespace h); simpl; try done; [by apply Hkn|].
    intros He. apply Exists_exists in He as (c & Hc & Hfc). rewrite Forall_forall in Hall. by rewrite Hall in Hfc.
  - intros _. simpl. rewrite Hp3. by eexists.
  - eapply (owns_with_pod e _ config name namespace h); simpl; try done; [by apply Hkn|].
    intros Hall. apply Exists_exists in Hx as (c & Hc & Hfc). rewrite Forall_forall in Hall. by rewrite Hall in Hfc.
  - done.
Qed.

Lemma k_Run_owns predefined script e : owns e → is_Some (k_pod e) →
  let e' := (k_Run app C inCluster defaultKubectl predefined script e).2 in owns e' ∧ is_Some (k_pod e').
Proof.
  intros Ho [[name namespace] Hp]. unfold k_Run. rewrite Hp. simpl. rewrite Hp.
  pose proof (runInContainer_looks name namespace (if predefined then helperContainerName else buildContainerName)
    (if predefined then Cmd (ks_helper (k_settings e)) else DockerCommand (ks_shell (k_settings e))) script e) as Hx.
  destruct (runInContainer _ _ _ _ _ _ _ _ _ _) as [err e']. simpl in *. split; [by eapply owns_extends|].
  destruct Hx as (h & _ & _ & _ & -> & _). by rewrite Hp.
Qed.

Lemma k_Run_first predefined script e : fresh e →
  let '(err, e') := k_Run app C inCluster defaultKubectl predefined script e in
  owns e' ∧ (err = None → is_Some (k_pod e')).
Proof.
  intros Hfr. pose proof (setupCredentials_spec e Hfr) as Hc. unfold k_Run.
  destruct Hfr as (_ & -> & _). destruct (setupCredentials C e) as [[err|] e1]; simpl in *.
  { split; [by apply has_credentials_owns|done]. }
  pose proof (setupBuildPod_spec e1 Hc) as Hb. destruct (setupBuildPod app C e1) as [[err|] e2].
  { split; [apply Hb|done]. }
  destruct Hb as [Ho [[name namespace] Hp]]; [done|]. rewrite Hp.
  pose proof (runInContainer_looks name namespace (if predefined then helperContainerName else buildContainerName)
    (if predefined then Cmd (ks_helper (k_settings e2)) else DockerCommand (ks_shell (k_settings e2))) script e2) as Hx.
  destruct (runInContainer _ _ _ _ _ _ _ _ _ _) as [err e']. simpl in *. split; [by eapply owns_extends|].
  destruct Hx as (h & _ & _ & _ & -> & _). by rewrite Hp.
Qed.

Lemma k_runs_owns commands : ∀ e, owns e → is_Some (k_pod e) →
  owns (k_runs app C inCluster defaultKubectl commands e).
Proof.
  induction commands as [|[predefined script] rest IH]; intros e Ho Hp; [done|]. simpl.
  destruct (k_Run_owns predefined script e Ho Hp). by apply IH.
Qed.

Lemma k_Cleanup_spec e :
  ∃ h, k_hist (k_Cleanup C e) = h ++ k_hist e ∧ created h = [] ∧
       deletions h ≡ₚ cleanup_objects e ∧ Forall (λ c, service_failed c = false) h.
Proof.
  unfold k_Cleanup. generalize (cleanup_objects e) as os. intros os. revert e.
  induction os as [|o os IH]; intros e; simpl; [by exists []|].
  destruct (IH (deleteObject C o e)) as (h & -> & Hc & Hd & Hf).
  exists (h ++ [QDelete o (cl_delete C (k_hist e) o)]). rewrite <- (assoc_L (++)), created_app, deletions_app, Hc.
  split_and!; [done|done| |apply Forall_app; auto].
  rewrite Hd. simpl. by rewrite (comm (++)).
Qed.
Lemma k_job_spec commands e : fresh e →
  ∃ e0, owns e0 ∧ k_job app C inCluster defaultKubectl commands e = k_Cleanup C e0.
Proof.
  intros Hfr. unfold k_job. destruct commands as [|[predefined script] rest].
  - exists e. split; [|done]. apply has_credentials_owns. destruct Hfr as (Hh & Hp & Hc & Hs).
    split_and!; auto; rewrite Hh; [done|done|]. intros o Ho. by apply elem_of_nil in Ho.
  - pose proof (k_Run_first predefined script e Hfr) as H1.
    destruct (k_Run _ _ _ _ _ _ _) as [[err|] e1]; destruct H1 as [Ho Hp]; eexists; (split; [|done]); [done|].
    apply k_runs_owns; auto.
Qed.

(** C10: Whatever the cluster answers and whatever the commands are, a job makes at most one
    pod, and after its last creation [Cleanup] asks to delete that pod and the secret with
    the registry passwords. If no proxy service failed to be created, and pods are made in
    the namespace asked for, the proxy services are deleted too. *)
Theorem kubernetes_job_deletes_its_objects commands e (Hfresh : fresh e) :
  ∃ after before, k_hist (k_job app C inCluster defaultKubectl commands e) = after ++ before ∧
    created after = [] ∧ deletions before = [] ∧
    length (filter (λ o, ob_kind o = KPod) (created before)) ≤ 1 ∧
    (∀ o, o ∈ created before → ob_kind o ≠ KServiceKind → o ∈ deletions after) ∧
    (keeps_namespace → Forall (λ c, service_failed c = false) before →
       ∀ o, o ∈ created before → o ∈ deletions after).
Proof.
  destruct (k_job_spec commands e Hfresh) as (e0 & [Hd Hp H1 Hs Hv _] & ->).
  destruct (k_Cleanup_spec e0) as (h & -> & Hc & Hdel & _). exists h, (k_hist e0).
  split_and!; auto; [intros o Hin Hk|intros Hns Hf o Hin]; rewrite Hdel; destruct (ob_kind o) eqn:Ek; try done; auto.
Qed.

(** When the creation of one proxy service fails, the executor forgets the others:
    [Cleanup] deletes no service, those the cluster did make included. *)
Theorem failed_proxy_service_leaks_the_others commands e (Hfresh : fresh e)
    (Hfailed : Exists (λ c, service_failed c = true) (k_hist (k_job app C inCluster defaultKubectl commands e))) :
  ∀ o, o ∈ deletions (k_hist (k_job app C inCluster defaultKubectl commands e)) → ob_kind o ≠ KServiceKind.
Proof.
  destruct (k_job_spec commands e Hfresh) as (e0 & [Hd _ _ _ _ Hs] & Heq). rewrite Heq in *.
  destruct (k_Cleanup_spec e0) as (h & Hh & _ & Hdel & Hf). rewrite Hh in *.
  assert (k_services e0 = []) as Hnil.
  { apply Hs. apply Exists_app in Hfailed as [He|He]; [|done].
    apply Exists_exists in He as (c & Hc & Hfc). rewrite Forall_forall in Hf. by rewrite Hf in Hfc. }
  intros o. rewrite deletions_app, Hd, app_nil_r, Hdel. unfold cleanup_objects. rewrite Hnil, app_nil_r.
  destruct (k_pod e0) as [[name namespace]|], (k_credentials e0) as [c|]; simpl; set_solver.
Qed.
End Proofs.
