(* ===== verification/KubernetesClaims.v ===== *)
(** Names, overwrites, limits and the pod of the Kubernetes executor, and its theorems at
    work on a concrete cluster. *)

From S2P Require Import Prelude GoLib Path Types Variables Config TraceBuffer Build BuildProofs AbstractShell Shells.
From S2P Require Import Regex Executor DockerImages DockerClaims KubernetesExecutor Kubernetes KubernetesProofs.

(** ** Names *)

Fixpoint rfc_text (s : string) : bool :=
  match s with
  | "" => true
  | String c s' => rfc_char (z_of c) && rfc_text s'
  end.

(** A name of lower case letters, digits and hyphens that starts with no hyphen and is not
    too long; the empty one included. *)
Definition rfc_name (s : string) : bool :=
  rfc_text s && match s with "" => true | String c _ => rfc_start (z_of c) end
  && (slen s <=? RFC1123NameMaximumLength).

Lemma rfc_char_range r : rfc_char r = true → (45 ≤ r ≤ 122)%Z ∧ ¬ (65 ≤ r ≤ 90)%Z.
Proof. unfold rfc_char. intros Hr. repeat (apply orb_prop in Hr as [Hr|Hr]); reflect_guards; lia. Qed.

Lemma EncodeRune_ascii r : (0 ≤ r < 128)%Z → EncodeRune r = String (byte_of r) "".
Proof.
  intros Hr. unfold EncodeRune, valid_rune, bstr.
  rewrite (proj2 (Z.leb_le 0 r)), (proj2 (Z.leb_le r 0x10FFFF)), (proj2 (Z.leb_gt 0xD800 r))
    by lia. cbn [negb andb]. by rewrite (proj2 (Z.leb_le r 0x7F)) by lia.
Qed.

Lemma rfc_text_encode rs : Forall (λ r, rfc_char r = true) rs →
  rfc_text (encode_all rs) = true ∧ slen (encode_all rs) = length rs.
Proof.
  induction 1 as [|r rs Hr _ [IH1 IH2]]; [done|]. pose proof (rfc_char_range r Hr) as Hx. simpl.
  rewrite EncodeRune_ascii by lia. rewrite string_app_cons, string_app_nil_l. simpl.
  rewrite z_of_byte_of by lia. rewrite Hr, IH1, IH2. done.
Qed.

Lemma rfc_text_stake n s : rfc_text s = true → rfc_text (stake n s) = true.
Proof.
  revert n. induction s as [|c s IH]; intros [|n]; simpl; try done.
  intros [Hc Hs]%andb_prop. rewrite Hc. by apply IH.
Qed.

Lemma rfc_text_ascii s : rfc_text s = true → ascii_text s = true.
Proof.
  induction s as [|c s IH]; simpl; [done|]. intros [Hc Hs]%andb_prop. rewrite (IH Hs), andb_true_r.
  apply Z.ltb_lt. pose proof (rfc_char_range _ Hc). lia.
Qed.

Lemma rfc_text_runes s : rfc_text s = true → Forall (λ r, rfc_char r = true) (runes s).
Proof.
  induction s as [|c s IH]; simpl; [constructor|]. intros [Hc Hs]%andb_prop.
  pose proof (rfc_char_range _ Hc) as Hx.
  replace (String c s) with (EncodeRune (z_of c) +:+ s).
  2:{ rewrite EncodeRune_ascii, string_app_cons, string_app_nil_l, byte_of_z_of by lia. done. }
  rewrite runes_EncodeRune; [constructor; auto|].
  unfold valid_rune. rewrite !andb_true_iff, negb_true_iff, andb_false_iff, !Z.leb_le, !Z.leb_gt. lia.
Qed.

Lemma drop_start_kept rs : Forall (λ r, rfc_char r = true) rs → Forall (λ r, rfc_char r = true) (drop_start rs).
Proof. induction 1; simpl; [done|]. split_match; [by constructor|done]. Qed.

Lemma drop_start_head rs : match drop_start rs with [] => True | r :: _ => rfc_start r = true end.
Proof. induction rs as [|r rs IH]; [done|]. simpl. by destruct (rfc_start r) eqn:E. Qed.

(** [MakeRFC1123Compatible] gives a name of at most 63 lower case letters, digits and
    hyphens that starts with a letter or a digit, or the empty name, and it leaves such a
    name alone. That includes names that end in a hyphen, which RFC 1123 excludes. *)
Theorem rfc1123_names_are_clean (lower : Z → Z) (s : string) :
  rfc_name (MakeRFC1123Compatible lower s) = true ∧
  (rfc_name s = true → MakeRFC1123Compatible lower s = s) ∧
  MakeRFC1123Compatible lower "My_Service-" = "myservice-".
Proof.
  unfold MakeRFC1123Compatible. split_and!; [| |by vm_compute].
  - set (kept := drop_start _).
    assert (Forall (λ r, rfc_char r = true) kept) as Hk.
    { apply drop_start_kept, Forall_forall. intros r Hr. by apply list_elem_of_filter in Hr as [Hr _]. }
    pose proof (rfc_text_encode kept Hk) as [Ht Hl].
    assert (match encode_all kept with "" => true | String c _ => rfc_start (z_of c) end = true) as Hs.
    { pose proof (drop_start_head (filter (λ r, rfc_char r = true) (runes (ToLower lower s)))) as Hd.
      fold kept in Hd. destruct kept as [|r kept']; [done|]. apply Forall_inv in Hk.
      pose proof (rfc_char_range r Hk). simpl. rewrite EncodeRune_ascii by lia.
      rewrite string_app_cons. by rewrite z_of_byte_of by lia. }
    unfold rfc_name. case_bool_decide as Hlen.
    + rewrite rfc_text_stake by done. rewrite slen_stake.
      rewrite (proj2 (Nat.leb_le _ _)) by lia.
      destruct (encode_all kept); [done|]. simpl. by rewrite Hs.
    + rewrite Ht, Hs. apply Nat.leb_le. lia.
  - unfold rfc_name. intros [[Ht Hs]%andb_prop Hlen%Nat.leb_le]%andb_prop.
    pose proof (rfc_text_runes s Ht) as Hr. pose proof (utf8_text_encode s (ascii_text_utf8 s (rfc_text_ascii s Ht))) as He.
    assert (lower_rune lower <$> runes s = runes s) as Hm.
    { clear -Hr. induction Hr as [|r rs Hr _ IH]; [done|]. rewrite fmap_cons, IH. f_equal.
      pose proof (rfc_char_range r Hr). unfold lower_rune.
      rewrite (proj2 (Z.ltb_lt r 128)) by lia.
      destruct (Z.leb_spec 65 r), (Z.leb_spec r 90); simpl; lia. }
    unfold ToLower. rewrite Hm, He. 
    assert (filter (λ r, rfc_char r = true) (runes s) = runes s) as Hf.
    { clear -Hr. induction Hr as [|r rs Hr _ IH]; [done|]. rewrite filter_cons, decide_True, IH by done. done. }
    assert (drop_start (runes s) = runes s) as Hd.
    { destruct s as [|c s']; [done|]. simpl in Ht. apply andb_prop in Ht as [Hc _].
      pose proof (rfc_char_range _ Hc). unfold runes. simpl.
      rewrite (proj2 (Z.ltb_lt _ _)) by lia. simpl. by rewrite Hs. }
    rewrite Hf, Hd, He. case_bool_decide; [lia|done].
Qed.

Section Settings.
Context `{!GoText} {DL : DockerLib} {KL : KubeLib} (app : AppVersionInfo).

(** ** Overwrites *)

(** The setting a job ends up with: its own value only where the configuration has a
    pattern and the value matches it, else the one of the configuration. *)
Definition permitted_setting (configured pattern asked result : string) : Prop :=
  (pattern ≠ "" ∧ asked ≠ "" ∧ regexp_Match pattern asked = Ok true ∧ result = asked) ∨
  ((pattern = "" ∨ asked = "") ∧ result = configured).

Lemma evaluateOverwrite_spec value regex asked r :
  evaluateOverwrite value regex asked = Ok r ↔ permitted_setting value regex asked r.
Proof.
  unfold evaluateOverwrite, overwriteRegexCheck, permitted_setting.
  repeat case_bool_decide; subst; try naive_solver.
  destruct (regexp_Match regex asked) as [[]|e]; naive_solver.
Qed.

(** The variables that ask for an annotation, and what they ask for. *)
Definition asked_annotations (variables : list JobVariable) : list string :=
  Value <$> filter (λ v, HasPrefix (Key v) PodAnnotationsOverwriteVariablePrefix = true) variables.
Definition annotation_of (text : string) : string * string :=
  match SplitN2 text "=" with [k; v] => (k, v) | _ => ("", "") end.
Definition well_formed_annotation (text : string) : Prop := ∃ k v, SplitN2 text "=" = [k; v].

Lemma overwrite_map_spec regex (variables : list JobVariable) : ∀ values r,
  overwrite_map regex PodAnnotationsOverwriteVariablePrefix variables values = Ok r ↔
  Forall (λ t, regexp_Match regex t = Ok true ∧ well_formed_annotation t) (asked_annotations variables) ∧
  r = foldl (λ m t, <[(annotation_of t).1 := (annotation_of t).2]> m) values (asked_annotations variables).
Proof.
  unfold asked_annotations. induction variables as [|v vs IH]; intros values r; cbn [overwrite_map].
  { split; [intros [= ->]; split; [constructor|done]|by intros [_ ->]]. }
  rewrite filter_cons. destruct (HasPrefix (Key v) PodAnnotationsOverwriteVariablePrefix) eqn:Ep.
  2:{ rewrite decide_False by done. apply IH. }
  rewrite decide_True, fmap_cons, Forall_cons by done. unfold overwriteRegexCheck, splitMapOverwrite, well_formed_annotation.
  cbn [foldl]. pose proof (eq_refl (annotation_of (Value v))) as Ha. unfold annotation_of at 2 in Ha.
  destruct (regexp_Match regex (Value v)) as [[]|e]; [|split; [done|intros [[[? _] _] _]; done]..].
  destruct (SplitN2 (Value v) "=") as [|k [|w [|]]] eqn:Es; [split; [done|intros [[[_ (? & ? & ?)] _] _]; done]..| |
    split; [done|intros [[[_ (? & ? & ?)] _] _]; done]].
  rewrite IH, Ha. cbn [fst snd]. split.
  - intros [HF ->]. split_and!; [done|by exists k, w|done|done].
  - by intros [[_ HF] ->].
Qed.


(** ** Limits *)

(** A limit that is no quantity is dropped without an error, and its partner with it:
    [limits] of a malformed CPU or memory setting is the empty list, so [setupResources]
    never fails and its messages about invalid limits are never seen. *)
Theorem invalid_limits_are_dropped :
  (∀ c, ∃ l, setupResources c = Ok l) ∧
  (∀ cpu memory e, cpu ≠ "" → ParseQuantity cpu = Err e → limits cpu memory = Ok []) ∧
  (∀ cpu memory e, memory ≠ "" → ParseQuantity memory = Err e → limits cpu memory = Ok []).
Proof.
  assert (∀ cpu memory, ∃ l, limits cpu memory = Ok l) as Hok.
  { intros cpu memory. unfold limits. destruct (parse_quantity cpu); [|eauto]. destruct (parse_quantity memory); eauto. }
  split_and!.
  - intros c. unfold setupResources.
    destruct (Hok (K_CPULimit c) (K_MemoryLimit c)) as [? ->], (Hok (K_ServiceCPULimit c) (K_ServiceMemoryLimit c)) as [? ->],
      (Hok (K_HelperCPULimit c) (K_HelperMemoryLimit c)) as [? ->], (Hok (K_CPURequest c) (K_MemoryRequest c)) as [? ->],
      (Hok (K_ServiceCPURequest c) (K_ServiceMemoryRequest c)) as [? ->],
      (Hok (K_HelperCPURequest c) (K_HelperMemoryRequest c)) as [? ->]. simpl. eauto.
  - intros cpu memory e Hne Hp. unfold limits, parse_quantity. rewrite bool_decide_false by done. by rewrite Hp.
  - intros cpu memory e Hne Hp. unfold limits, parse_quantity at 2. rewrite (bool_decide_false (memory = "")) by done.
    rewrite Hp. by destruct (parse_quantity cpu).
Qed.

(** ** The pod *)

Lemma buildContainer_shape s pool name image def requests limits_ command c pool' :
  buildContainer app s pool name image def requests limits_ command = (c, pool') →
  c_Name c = name ∧ c_VolumeMounts c = getVolumeMounts (ks_config s) (ks_build s).
Proof. unfold buildContainer. destruct (getCommandAndArgs def command). intros [= <- _]. done. Qed.

Lemma service_containers_shape s services : ∀ i pool,
  c_Name <$> (service_containers app s i services pool).1
    = (λ k, "svc-" +:+ Itoa (Z.of_nat k)) <$> seq i (length services) ∧
  Forall (λ c, c_VolumeMounts c = getVolumeMounts (ks_config s) (ks_build s))
    (service_containers app s i services pool).1.
Proof.
  induction services as [|service rest IH]; intros i pool; [done|]. cbn [service_containers].
  destruct (buildContainer app s pool _ _ _ _ _ _) as [c pool1] eqn:Eb. apply buildContainer_shape in Eb as [Hn Hm].
  specialize (IH (S i) pool1). destruct (service_containers app s (S i) rest pool1) as [cs pool2]. cbn [fst] in *.
  destruct IH as [IHn HF]. rewrite fmap_cons, Forall_cons, Hn, IHn. done.
Qed.

Lemma mounts_have_volumes config b :
  vm_Name <$> getVolumeMounts config b = v_Name <$> getVolumes config.
Proof. unfold getVolumeMounts, getVolumes. simpl. by rewrite !fmap_app, <- !list_fmap_compose. Qed.

Lemma svc_names_distinct i n : NoDup ((λ k, "svc-" +:+ Itoa (Z.of_nat k)) <$> seq i n).
Proof.
  apply NoDup_fmap_2_strong; [|apply NoDup_seq]. intros x y _ _ Heq.
  assert (Itoa (Z.of_nat x) = Itoa (Z.of_nat y)) as Hi by (injection Heq; auto).
  apply Itoa_inj in Hi; lia.
Qed.

Lemma pod_labels_pod s : "pod" ∉ (K_PodLabels (ks_config s)).*1 →
  pod_labels s !! "pod" = Some (projectUniqueName s).
Proof.
  unfold pod_labels. intros Hn. set (f := λ m kv, _).
  assert (∀ l (m : gmap string string), "pod" ∉ l.*1 → foldl f m l !! "pod" = m !! "pod") as Hf.
  { clear Hn. intros l. induction l as [|[k v] l IH]; intros m Hn; [done|]. simpl.
    rewrite IH by (intros Hx; apply Hn; by right). unfold f. simpl. apply lookup_insert_ne.
    intros ->. apply Hn. left. }
  rewrite Hf by done. apply lookup_singleton_eq.
Qed.

(** C30: The pod of a job is well formed: its containers are "build", "helper" and one
    "svc-i" per service, all with different names, so that [Run] names a container of the
    pod; every volume mount of every container refers to a volume the pod declares; and
    unless the configuration redefines the label "pod", the pod carries the label that the
    proxy services select. *)
Theorem pod_is_well_formed (s : KSettings) (pool : ProxyPool) (credentials : option string) :
  let pod := (build_pod app s pool credentials).1 in
  c_Name <$> pod_Containers pod
    = buildContainerName :: helperContainerName
        :: ((λ k, "svc-" +:+ Itoa (Z.of_nat k)) <$> seq 0 (length (ks_services s))) ∧
  NoDup (c_Name <$> pod_Containers pod) ∧
  (∀ c m, c ∈ pod_Containers pod → m ∈ c_VolumeMounts c → vm_Name m ∈ v_Name <$> pod_Volumes pod) ∧
  ("pod" ∉ (K_PodLabels (ks_config s)).*1 →
     ∀ entry, pod_Labels pod !! "pod" = Some (svc_Selector (proxy_service s entry))).
Proof.
  cbv zeta. unfold build_pod, preparePodConfig.
  destruct (service_containers_shape s (ks_services s) 0 pool) as [Hn Hm].
  destruct (service_containers app s 0 (ks_services s) pool) as [cs pool1]. simpl in Hn, Hm.
  destruct (buildContainer app s _ buildContainerName _ _ _ _ _) as [b pool2] eqn:Eb.
  destruct (buildContainer app s _ helperContainerName _ _ _ _ _) as [h pool3] eqn:Eh.
  apply buildContainer_shape in Eb as [Hbn Hbm], Eh as [Hhn Hhm].
  cbn [fst pod_Containers pod_Volumes pod_Labels]. rewrite !fmap_cons, Hn, Hbn, Hhn. split_and!.
  - done.
  - assert (∀ k, buildContainerName ≠ "svc-" +:+ k ∧ helperContainerName ≠ "svc-" +:+ k) as Hne by done.
    apply NoDup_cons. split.
    { intros [Hx|Hx]%elem_of_cons; [done|]. apply list_elem_of_fmap in Hx as (k & Hx & _). by apply Hne in Hx. }
    apply NoDup_cons. split; [|apply svc_names_distinct].
    intros Hx. apply list_elem_of_fmap in Hx as (k & Hx & _). by apply Hne in Hx.
  - intros c m Hc Hin. assert (c_VolumeMounts c = getVolumeMounts (ks_config s) (ks_build s)) as Hcm.
    { apply elem_of_cons in Hc as [->|Hc]; [done|]. apply elem_of_cons in Hc as [->|Hc]; [done|].
      by eapply Forall_forall in Hm. }
    rewrite Hcm in Hin. rewrite <- (mounts_have_volumes _ (ks_build s)). by apply list_elem_of_fmap_2.
  - intros Hl entry. by rewrite pod_labels_pod.
Qed.
End Settings.

(** ** A concrete cluster *)

Module DemoKube.
#[global] Instance klib : KubeLib := {
  regexp_Match p v := Ok (bool_decide (p = v)); ParseQuantity q := Ok q; ToLower_rune r := r }.

Definition config : KubernetesConfig :=
  {| K_Host := "https://kube"; K_CertFile := ""; K_KeyFile := ""; K_CAFile := ""; K_BearerToken := "";
     K_BearerTokenOverwriteAllowed := false; K_Image := "alpine"; K_Namespace := "ci";
     K_NamespaceOverwriteAllowed := ""; K_Privileged := false; K_CPULimit := ""; K_MemoryLimit := "";
     K_ServiceCPULimit := ""; K_ServiceMemoryLimit := ""; K_HelperCPULimit := ""; K_HelperMemoryLimit := "";
     K_CPURequest := ""; K_MemoryRequest := ""; K_ServiceCPURequest := ""; K_ServiceMemoryRequest := "";
     K_HelperCPURequest := ""; K_HelperMemoryRequest := ""; K_PullPolicy := ""; K_NodeSelector := [];
     K_NodeTolerations := []; K_ImagePullSecrets := []; K_HelperImage := "";
     K_TerminationGracePeriodSeconds := 0; K_PollInterval := 1; K_PollTimeout := 3; K_PodLabels := [];
     K_ServiceAccount := ""; K_ServiceAccountOverwriteAllowed := ""; K_PodAnnotations := [];
     K_PodAnnotationsOverwriteAllowed := "";
     K_PodSecurityContext := {| FSGroup := None; RunAsGroup := None; RunAsNonRoot := None; RunAsUser := None;
                                SupplementalGroups := [] |};
     K_Volumes := {| KV_HostPaths := []; KV_PVCs := []; KV_ConfigMaps := []; KV_Secrets := []; KV_EmptyDirs := [] |} |}.

Definition service (name : string) (port : Z) : Types.Image :=
  {| Image_Name := name; Image_Alias := name; Image_Command := []; Image_Entrypoint := [];
     Image_Ports := [{| Port_Number := port; Port_Protocol := "http"; Port_Name := "" |}] |}.

Definition job : JobResponse :=
  let j := DemoBuild.job [] in
  {| JR_ID := JR_ID j; JR_Token := JR_Token j; JR_AllowGitFetch := false; JR_JobInfo := JR_JobInfo j;
     JR_GitInfo := JR_GitInfo j; JR_RunnerInfo := JR_RunnerInfo j; JR_Variables := []; JR_Steps := [];
     JR_Image := JR_Image j; JR_Services := [service "db" 5432; service "web" 80; named_image ""];
     JR_Artifacts := []; JR_Cache := [];
     JR_Credentials := [{| Cred_Type := "registry"; Cred_URL := "r"; Cred_Username := "u"; Cred_Password := "p" |}];
     JR_Dependencies := []; JR_Features := JR_Features j; JR_TLSCAChain := ""; JR_TLSAuthCert := "";
     JR_TLSAuthKey := "" |}.

(** The pod is pending at first; a service is refused if it is in [refused]. Each object is
    named after the length of the history. *)
Definition cluster (refused : list string) : Cluster :=
  {| cl_new _ := None;
     cl_createPod h c := Ok (pod_GenerateName c +:+ Itoa (Z.of_nat (length h)), pod_Namespace c);
     cl_createSecret h s := ("secret" +:+ Itoa (Z.of_nat (length h)), None);
     cl_createService h s := if bool_decide (svc_GenerateName s ∈ refused) then ("", Some (ErrText "quota"))
                             else (svc_GenerateName s +:+ Itoa (Z.of_nat (length h)), None);
     cl_delete _ _ := None;
     cl_getPod h _ _ := Ok {| ps_Phase := if length h <? 6 then "Pending" else PodRunning; ps_ContainerStatuses := [] |};
     cl_exec _ _ := None; cl_ctxDone _ := None; cl_aborted _ := false |}.

Definition none : result string KubeClientConfig := Err "not in a cluster".

Definition prepared (refused : list string) : result error kexecutor :=
  (k_Prepare DemoBuild.app (cluster refused) none none DemoDocker.shells "host" "" (some_runner 0 0) config
     (mkHelper "" "" "" false ["gitlab-runner-build"]) (NewBuild job (some_runner 0 0))).1.

Definition ready (refused : list string) : kexecutor :=
  match prepared refused with
  | Ok e => e
  | Err _ => mkKExecutor [] false (Build_KSettings config (DemoBuild.build []) (mkConfiguration [] [] "" [] false "")
               (mkHelper "" "" "" false []) (mkOverwrites "" "" "" ∅) (named_image "") [] "" [] [] [] [] [] []) None None [] ∅
  end.

Definition run (refused : list string) : kexecutor :=
  k_job DemoBuild.app (cluster refused) none none [(true, "prepare"); (false, "make")] (ready refused).
End DemoKube.

Lemma kubernetes_job_deletes_its_objects_witness :
  (∃ after before, k_hist (DemoKube.run []) = after ++ before ∧ created after = [] ∧ deletions before = [] ∧
     (∀ o, o ∈ created before → ob_kind o ≠ KServiceKind → o ∈ deletions after)) ∧
  (ob_kind <$> created (k_hist (DemoKube.run []))) = [KServiceKind; KServiceKind; KPod; KSecret] ∧
  (ob_kind <$> deletions (k_hist (DemoKube.run []))) = [KServiceKind; KServiceKind; KSecret; KPod].
Proof.
  split; [|split; vm_compute; reflexivity].
  assert (fresh (DemoKube.ready [])) as Hf by (vm_compute; auto).
  destruct (kubernetes_job_deletes_its_objects DemoBuild.app (DemoKube.cluster []) DemoKube.none DemoKube.none
    [(true, "prepare"); (false, "make")] (DemoKube.ready []) Hf)
    as (after & before & Hh & Hc & Hd & _ & Ho & _).
  exists after, before. exact (conj Hh (conj Hc (conj Hd Ho))).
Defined.

(** One service of two is refused: the other one exists and nothing deletes it. *)
Lemma failed_proxy_service_leaks_the_others_witness :
  (∀ o, o ∈ deletions (k_hist (DemoKube.run ["web"])) → ob_kind o ≠ KServiceKind) ∧
  (ob_kind <$> created (k_hist (DemoKube.run ["web"]))) = [KServiceKind; KPod; KSecret].
Proof.
  split; [|vm_compute; reflexivity].
  assert (fresh (DemoKube.ready ["web"])) as Hf by (vm_compute; auto).
  assert (Exists (λ c, service_failed c = true) (k_hist (DemoKube.run ["web"]))) as He.
  { apply (bool_decide_unpack _). vm_compute. exact I. }
  unfold DemoKube.run in *.
  exact (failed_proxy_service_leaks_the_others DemoBuild.app (DemoKube.cluster ["web"]) DemoKube.none DemoKube.none
    [(true, "prepare"); (false, "make")] (DemoKube.ready ["web"]) Hf He).
Defined.
