(* ===== verification/VirtualMachines.v ===== *)
(** The executors that run jobs over SSH: executors/ssh, executors/virtualbox and
    executors/parallels, with the SSH client (helpers/ssh) and the command line wrappers of
    the two hypervisors (helpers/virtualbox/control.go, helpers/parallels/control.go).

    The commands, the network and the lease file are outside: every command is recorded
    with its output, and the answers are arbitrary functions of what happened before
    ([Host]). *)

From S2P Require Import Prelude GoMonad GoLib Path Types Variables Config Build ShellEscape AbstractShell Shells.
From S2P Require Import Regex Executor.

Open Scope go_scope.

(** ** Data *)

Record SSHConfig := { SSH_User : string; SSH_Password : string; SSH_Host : string; SSH_Port : string; SSH_IdentityFile : string }.
Record VirtualBoxConfig := { VB_BaseName : string; VB_BaseSnapshot : string; VB_DisableSnapshots : bool }.
Record ParallelsConfig := { PC_BaseName : string; PC_TemplateName : string; PC_DisableSnapshots : bool; PC_TimeServer : string }.

(** [VExit] is the client's [ExitError]; [VLooping] a loop that found no free port yet. *)
Inductive verror := VErr (e : error) | VExit (msg : string) | VPanic | VLooping.

(** A failed command: its exit with what it wrote to stderr, or an error of running it. *)
Inductive cmd_error := CExit (stderr : string) | COther (e : error).

Inductive wait_result := WaitOk | WaitExit (msg : string) | WaitErr (e : error).

Inductive vcall :=
| VCmd (args : list string) (out : string) (err : option cmd_error)
| VDial (address user : string) (err : option error)
| VSession (command stdin : string) (r : wait_result)
| VClose.
Definition vhist : Type := list vcall.            (* latest first *)

Record Host := {
  h_run : vhist → list string → string * option cmd_error;
  h_key : string → option error;                  (* reading the identity file *)
  h_dial : vhist → string → option error;
  h_newSession : vhist → option error;
  h_start : vhist → option error;
  h_wait : vhist → wait_result;
  h_listen : vhist → result error string;         (* the address of a free port *)
  h_leases : vhist → result error string;
  h_goos : string }.

Record vexecutor := mkV {
  v_hist : vhist; vmName : string; sshPort : string; provisioned : bool; machineVerified : bool;
  ipAddress : string; v_client : bool; v_shell : option ShellConfiguration; v_build : Build; v_stage : string }.

Notation V := (GoM vexecutor verror).

Definition v_record (c : vcall) (e : vexecutor) : vexecutor :=
  mkV (c :: v_hist e) (vmName e) (sshPort e) (provisioned e) (machineVerified e) (ipAddress e) (v_client e)
    (v_shell e) (v_build e) (v_stage e).
Definition set_vmName (n : string) (e : vexecutor) : vexecutor :=
  mkV (v_hist e) n (sshPort e) (provisioned e) (machineVerified e) (ipAddress e) (v_client e) (v_shell e) (v_build e) (v_stage e).
Definition set_sshPort (p : string) (e : vexecutor) : vexecutor :=
  mkV (v_hist e) (vmName e) p (provisioned e) (machineVerified e) (ipAddress e) (v_client e) (v_shell e) (v_build e) (v_stage e).
Definition set_provisioned (e : vexecutor) : vexecutor :=
  mkV (v_hist e) (vmName e) (sshPort e) true (machineVerified e) (ipAddress e) (v_client e) (v_shell e) (v_build e) (v_stage e).
Definition set_verified (e : vexecutor) : vexecutor :=
  mkV (v_hist e) (vmName e) (sshPort e) (provisioned e) true (ipAddress e) (v_client e) (v_shell e) (v_build e) (v_stage e).
Definition set_ipAddress (a : string) (e : vexecutor) : vexecutor :=
  mkV (v_hist e) (vmName e) (sshPort e) (provisioned e) (machineVerified e) a (v_client e) (v_shell e) (v_build e) (v_stage e).
Definition set_client (e : vexecutor) : vexecutor :=
  mkV (v_hist e) (vmName e) (sshPort e) (provisioned e) (machineVerified e) (ipAddress e) true (v_shell e) (v_build e) (v_stage e).
Definition set_prepared (c : option ShellConfiguration) (b : Build) (e : vexecutor) : vexecutor :=
  mkV (v_hist e) (vmName e) (sshPort e) (provisioned e) (machineVerified e) (ipAddress e) (v_client e) c b (v_stage e).
Definition set_stage (s : string) (e : vexecutor) : vexecutor :=
  mkV (v_hist e) (vmName e) (sshPort e) (provisioned e) (machineVerified e) (ipAddress e) (v_client e) (v_shell e) (v_build e) s.

Definition dquote : string := bstr 34.

Definition fail_text {A} (msg : string) : V A := failM (VErr (ErrText msg)).
Definition v_option (o : option error) : result verror unit :=
  match o with None => Ok tt | Some e => Err (VErr e) end.

(** ** The SSH client, helpers/ssh/ssh_command.go *)

Section Client.
Context (H : Host).

Definition fullCommand (command : list string) : string := Join (ShellEscape <$> command) " ".

(** What the remote shell reads: the environment, then the script. *)
Definition session_stdin (environment : list string) (script : string) : string :=
  foldr (λ kv acc, "export " +:+ ShellEscape kv +:+ newline +:+ acc) "" environment +:+ script.

Definition ssh_user (c : SSHConfig) : string := if bool_decide (SSH_User c = "") then "root" else SSH_User c.
Definition ssh_address (host port : string) : string :=
  (if bool_decide (host = "") then "localhost" else host) +:+ ":" +:+ (if bool_decide (port = "") then "22" else port).

(** The dials of [Connect]; the error of the last one. *)
Fixpoint dial_loop (retries : nat) (address user : string) (finalError : option error) : V unit :=
  match retries with
  | 0 => lift (v_option finalError)
  | S n =>
      let! err := λ e, let err := h_dial H (v_hist e) address in (Ok err, v_record (VDial address user err) e) in
      match err with
      | None => returnM tt
      | Some err => dial_loop n address user (Some err)
      end
  end.

(** [ConnectRetries] zero means 3. *)
Definition Connect (c : SSHConfig) (host port : string) (connectRetries : nat) : V unit :=
  match (if bool_decide (SSH_IdentityFile c ≠ "") then h_key H (SSH_IdentityFile c) else None) with
  | Some err => failM (VErr err)
  | None => dial_loop (match connectRetries with 0 => 3 | n => n end) (ssh_address host port) (ssh_user c) None
  end.

(** [Run] on a connected client; a cancelled context kills the session and waits too. *)
Definition ssh_Run (environment command : list string) (script : string) : V unit :=
  let! h := mget v_hist in
  match h_newSession H h with
  | Some err => failM (VErr err)
  | None =>
      match h_start H h with
      | Some err => failM (VErr err)
      | None =>
          λ e, let r := h_wait H (v_hist e) in
               (match r with
                | WaitOk => Ok tt
                | WaitExit msg => Err (VExit msg)
                | WaitErr err => Err (VErr err)
                end, v_record (VSession (fullCommand command) (session_stdin environment script) r) e)
      end
  end.

Definition client_Run (environment command : list string) (script : string) : V unit :=
  let! connected := mget v_client in
  if (connected : bool) then ssh_Run environment command script else fail_text "Not connected".

(** [Cleanup] of a client. *)
Definition client_Cleanup : V unit :=
  let! connected := mget v_client in
  if (connected : bool) then mupd (v_record VClose) else returnM tt.

(** [verifyMachine] opens a client of its own and closes it whether or not the command
    succeeds. *)
Definition verify_over_ssh (c : SSHConfig) (host port : string) : V unit :=
  Connect c host port 30 ;;!
  let! r := attempt (ssh_Run [] ["exit"] "") in
  mupd (v_record VClose) ;;!
  lift r ;;!
  mupd set_verified.

(** The script of a stage, common to the three executors. *)
Definition run_script (script : string) : V unit :=
  let! shell := mget v_shell in
  match shell with
  | None => failM VPanic
  | Some shell =>
      let! r := attempt (client_Run (Environment_ shell) (GetCommandWithArguments shell) script) in
      lift match r with
           | Err (VExit msg) => Err (VErr (BuildError (ErrText msg) NoneFailure))
           | r => r
           end
  end.

Definition vb_Run (script : string) : V unit := run_script script.
Definition prl_Run (script : string) : V unit := run_script script.

(** ** VirtualBox, helpers/virtualbox/control.go *)

Definition run_command (prefix : string) (args : list string) : V string :=
  λ e, let '(out, err) := h_run H (v_hist e) args in
       (match err with
        | None => Ok out
        | Some (CExit stderr) => Err (VErr (ErrText (prefix +:+ " error: " +:+ TrimSpace stderr)))
        | Some (COther err) => Err (VErr err)
        end, v_record (VCmd args out err) e).

Definition VBoxManage (args : list string) : V string := run_command "VBoxManageOutput" ("vboxmanage" :: args).

Definition not_newline : regex := RSet true [(10, 10)%Z].
Definition digit : regex := RSet false [(48, 57)%Z].
Definition word : regex := RSet false [(48, 57); (65, 90); (95, 95); (97, 122)]%Z.
Definition lit (s : string) : regex := RLit RChar s.

Definition vbox_Version : V string := let! out := VBoxManage ["--version"] in returnM (TrimSpace out).

(** guestssh, anything on the line, the host port. *)
Definition portRe : regex :=
  RCat (lit "guestssh") (RCat (RStar true not_newline) (RCat (lit "host port = ") (RCap 1 (RPlus digit)))).
Definition FindSSHPort (vm : string) : V string :=
  let! out := VBoxManage ["showvminfo"; vm] in
  match FindStringSubmatch portRe out with
  | Some c => returnM (group c 1)
  | None => fail_text "failed to find guestssh port"
  end.

Definition succeeds {A} (c : V A) : V bool :=
  let! r := attempt c in returnM match r with Ok _ => true | Err _ => false end.

Definition vbox_Exist (vm : string) : V bool := succeeds (VBoxManage ["showvminfo"; vm]).

Definition vbox_CreateOsVM (vm templateName templateSnapshot : string) : V unit :=
  VBoxManage (["clonevm"; vm; "--mode"; "machine"; "--name"; templateName; "--register"]
                ++ (if bool_decide (templateSnapshot ≠ "")
                    then ["--snapshot"; templateSnapshot; "--options"; "link"] else [])) ;;! returnM tt.

Definition allPortsRe : regex := RCat (lit "host port = ") (RCap 1 (RPlus digit)).
Definition getUsedVirtualBoxPorts : V (list string) :=
  let! out := VBoxManage ["list"; "vms"; "-l"] in
  returnM ((λ c, group c 1) <$> FindAllStringSubmatch allPortsRe out).

(** The port of a free address; [None] when VirtualBox has given it to a machine. *)
Definition allocatePort : V (option string) :=
  let! h := mget v_hist in
  match h_listen H h with
  | Err err => failM (VErr err)
  | Ok address =>
      let! used := getUsedVirtualBoxPorts in
      let port := List.last (Split address ":") "" in
      returnM (if bool_decide (port ∈ used) then None else Some port)
  end.

(** [fuel] bounds the ports that are tried. *)
Fixpoint ConfigureSSH (fuel : nat) (vm vmSSHPort : string) : V string :=
  match fuel with
  | 0 => failM VLooping
  | S n =>
      let! port := allocatePort in
      match port with
      | None => ConfigureSSH n vm vmSSHPort
      | Some port =>
          VBoxManage ["modifyvm"; vm; "--natpf1"; "guestssh,tcp,127.0.0.1," +:+ port +:+ ",," +:+ vmSSHPort] ;;!
          returnM port
      end
  end.

Definition vbox_CreateSnapshot (vm snapshot : string) : V unit := VBoxManage ["snapshot"; vm; "take"; snapshot] ;;! returnM tt.
Definition vbox_RevertToSnapshot (vm : string) : V unit := VBoxManage ["snapshot"; vm; "restorecurrent"] ;;! returnM tt.

(** The suffixes of a text that start a line; the end of a line. *)
Fixpoint line_starts (at_start : bool) (s : string) : list string :=
  (if at_start then [s] else [])
  ++ match s with "" => [] | String c s' => line_starts (bool_decide (c = "010"%char)) s' end.
Definition ends_line (s : string) : bool := match s with "" => true | String c _ => bool_decide (c = "010"%char) end.
(** The text after the first [c], and the text before it. *)
Fixpoint break_at (c : ascii) (s : string) : option (string * string) :=
  match s with
  | "" => None
  | String d s' => if bool_decide (d = c) then Some ("", s')
                   else match break_at c s' with Some (a, b) => Some (String d a, b) | None => None end
  end.

(** A line of the form Snapshot(Name|UUID)...="name"; the first equals sign ends the dots. *)
Definition has_snapshot_line (name line : string) : bool :=
  (HasPrefix line "SnapshotName" || HasPrefix line "SnapshotUUID") &&
  match break_at "="%char (sdrop 12 line) with
  | Some (_, rest) => let value := dquote +:+ name +:+ dquote in HasPrefix rest value && ends_line (sdrop (slen value) rest)
  | None => false
  end.
Definition HasSnapshot (vm snapshot : string) : V bool :=
  let! r := attempt (VBoxManage ["snapshot"; vm; "list"; "--machinereadable"]) in
  returnM match r with
          | Ok out => existsb (has_snapshot_line snapshot) (line_starts true out)
          | Err _ => false
          end.

Definition current_snapshot_line (line : string) : option string :=
  let start := "CurrentSnapshotName=" +:+ dquote in
  if HasPrefix line start then
    match break_at (byte_of 34) (sdrop (slen start) line) with
    | Some (name, rest) => if ends_line rest then Some name else None
    | None => None
    end
  else None.
Definition GetCurrentSnapshot (vm : string) : V string :=
  let! out := VBoxManage ["snapshot"; vm; "list"; "--machinereadable"] in
  match omap current_snapshot_line (line_starts true out) with
  | name :: _ => returnM name
  | [] => fail_text "Failed to match current snapshot name"
  end.

Definition vbox_Start (vm : string) : V unit := VBoxManage ["startvm"; vm; "--type"; "headless"] ;;! returnM tt.
Definition vbox_Kill (vm : string) : V unit := VBoxManage ["controlvm"; vm; "poweroff"] ;;! returnM tt.
Definition vbox_Delete (vm : string) : V unit := VBoxManage ["unregistervm"; vm; "--delete"] ;;! returnM tt.
Definition vbox_Unregister (vm : string) : V unit := VBoxManage ["unregistervm"; vm] ;;! returnM tt.

Definition statusRe : regex := RCat (lit ("VMState=" +:+ dquote)) (RCat (RCap 1 (RPlus word)) (lit dquote)).
(** An output without a state is a panic. *)
Definition vbox_Status (vm : string) : V string :=
  let! out := VBoxManage ["showvminfo"; vm; "--machinereadable"] in
  match FindStringSubmatch statusRe out with
  | Some c => returnM (group c 1)
  | None => failM VPanic
  end.

Definition vbox_Running : string := "running".
Definition online_or_transient : list string :=
  ["running"; "paused"; "gurumeditation"; "teleporting"; "livesnapshotting"; "starting"; "stopping"; "saving";
   "restoring"; "teleportingpausedvm"; "teleportingin"; "faulttolerantsyncing"; "deletingsnapshotlive";
   "deletingsnapshotlivepaused"; "onlinesnapshotting"; "restoringsnapshot"; "deletingsnapshot"; "settingup";
   "snapshotting"].
Definition IsStatusOnlineOrTransient (status : string) : bool := bool_decide (status ∈ online_or_transient).

(** [WaitForStatus] of either hypervisor, given its [Status]. *)
Fixpoint wait_for_status (status_of : V string) (vm wanted : string) (seconds : nat) (last : string) : V unit :=
  match seconds with
  | 0 => fail_text ("VM " +:+ vm +:+ " is in " +:+ last +:+ " where it should be in " +:+ wanted)
  | S n =>
      let! status := status_of in
      if bool_decide (status = wanted) then returnM tt else wait_for_status status_of vm wanted n status
  end.
Definition vbox_WaitForStatus (vm wanted : string) (seconds : nat) : V unit :=
  wait_for_status (vbox_Status vm) vm wanted seconds "".

(** ** The virtualbox executor *)

Section VirtualBox.
Context `{!GoText} (app : AppVersionInfo) (shells : gmap string Shells.Shell) (hostname user : string).
Context (config : RunnerConfig) (fuel : nat).

(** The registered options of the two executors of machines. *)
Definition vm_options : ExecutorOptions :=
  {| DefaultCustomBuildsDirEnabled := false; DefaultBuildsDir := "builds"; DefaultCacheDir := "";
     OptSharedBuildsDir := false; OptShell := "bash"; OptShellType := LoginShell;
     OptRunnerCommand := "gitlab-runner"; ShowHostname := true; Metadata := ∅ |}.

(** [AbstractExecutor.Prepare]. *)
Definition abstract_Prepare (options : ExecutorOptions) : V ShellConfiguration :=
  λ e, let e := set_stage ExecutorStagePrepare e in
       match PrepareBuildAndShell app shells options config (OptSharedBuildsDir options) hostname user (v_build e) with
       | (Err err, b) => (Err (VErr err), set_prepared (v_shell e) b e)
       | (Ok c, b) => (Ok c, set_prepared (Some c) b e)
       end.

Definition determineBaseSnapshot (vb : VirtualBoxConfig) (baseImage : string) : V string :=
  let! base :=
    (if bool_decide (VB_BaseSnapshot vb = "") then
       let! r := attempt (GetCurrentSnapshot baseImage) in
       returnM match r with
               | Ok s => Some s
               | Err _ => if VB_DisableSnapshots vb then None else Some "Base State"
               end
     else returnM (Some (VB_BaseSnapshot vb))) in
  match base with
  | None => returnM ""
  | Some baseSnapshot =>
      if bool_decide (baseSnapshot = "") then returnM ""
      else
        let! found := HasSnapshot baseImage baseSnapshot in
        if (found : bool) then returnM baseSnapshot
        else if VB_DisableSnapshots vb then returnM ""
        else
          let! r := attempt (vbox_CreateSnapshot baseImage baseSnapshot) in
          returnM match r with Ok _ => baseSnapshot | Err _ => "" end
  end.

Definition vb_verifyMachine (ssh : SSHConfig) : V unit :=
  let! verified := mget machineVerified in
  let! port := mget sshPort in
  if (verified : bool) then returnM tt else verify_over_ssh ssh "localhost" port.

Definition vb_createVM (ssh : SSHConfig) (vb : VirtualBoxConfig) (vm : string) : V unit :=
  let baseImage := VB_BaseName vb in
  if bool_decide (baseImage = "") then fail_text "Missing Image setting from VirtualBox configuration"
  else
    let! status := attempt (vbox_Status vm) in
    match status with
    | Err VPanic => failM VPanic
    | _ =>
        (match status with Err _ => attempt (vbox_Unregister vm) ;;! returnM tt | Ok _ => returnM tt end) ;;!
        let! exists_ := vbox_Exist vm in
        (if (exists_ : bool) then returnM tt
         else let! baseSnapshot := determineBaseSnapshot vb baseImage in
              vbox_CreateOsVM baseImage vm baseSnapshot) ;;!
        let! port := attempt (FindSSHPort vm) in
        (match port with
         | Ok port => mupd (set_sshPort port)
         | Err _ =>
             let! port := ConfigureSSH fuel vm (if bool_decide (SSH_Port ssh = "") then "22" else SSH_Port ssh) in
             mupd (set_sshPort port)
         end) ;;!
        vbox_Start vm ;;!
        vb_verifyMachine ssh
    end.

(** The three steps that get rid of a machine; their errors are ignored. *)
Definition vb_remove (vm : string) : V unit :=
  attempt (vbox_Kill vm) ;;! attempt (vbox_Delete vm) ;;! attempt (vbox_Unregister vm) ;;! returnM tt.

Definition concurrent_name (base : string) (b : Build) : string :=
  base +:+ "-runner-" +:+ ShortDescription (Credentials_ (Runner b)) +:+ "-concurrent-" +:+ Itoa (RunnerID b).

Definition vb_Prepare (ssh : option SSHConfig) (vbox : option VirtualBoxConfig) : V unit :=
  let! shell := abstract_Prepare vm_options in
  if PassFile shell then fail_text "virtualbox doesn't support shells that require script file"
  else
    match ssh, vbox with
    | None, _ => fail_text "Missing SSH config"
    | _, None => fail_text "Missing VirtualBox configuration"
    | Some ssh, Some vb =>
        if bool_decide (VB_BaseName vb = "") then fail_text "Missing BaseName setting from VirtualBox configuration"
        else
          vbox_Version ;;!
          let! b := mget v_build in
          (if VB_DisableSnapshots vb then
             let vm := VB_BaseName vb +:+ "-" +:+ ProjectUniqueName b in
             mupd (set_vmName vm) ;;!
             let! old := vbox_Exist vm in
             if (old : bool) then vb_remove vm else returnM tt
           else mupd (set_vmName (concurrent_name (VB_BaseName vb) b))) ;;!
          let! vm := mget vmName in
          let! exists_ := vbox_Exist vm in
          (if (exists_ : bool) then
             let! r := attempt (vbox_RevertToSnapshot vm) in
             match r with Ok _ => returnM tt | Err _ => vb_remove vm end
           else returnM tt) ;;!
          let! exists_ := vbox_Exist vm in
          (if (exists_ : bool) then returnM tt
           else vb_createVM ssh vb vm ;;!
                if VB_DisableSnapshots vb then returnM tt else vbox_CreateSnapshot vm "Started") ;;!
          let! status := vbox_Status vm in
          (if IsStatusOnlineOrTransient status then returnM tt else vbox_Start vm) ;;!
          (if bool_decide (status ≠ vbox_Running) then vbox_WaitForStatus vm vbox_Running 60 else returnM tt) ;;!
          let! port := attempt (FindSSHPort vm) in
          mupd (set_sshPort match port with Ok p => p | Err _ => "" end) ;;!
          lift port ;;!
          vb_verifyMachine ssh ;;!
          mupd set_provisioned ;;!
          let! port := mget sshPort in
          Connect ssh "localhost" port 0 ;;!
          mupd set_client
    end.

(** [disabled] is the setting DisableSnapshots. *)
Definition vb_Cleanup (disabled : bool) : V unit :=
  client_Cleanup ;;!
  let! vm := mget vmName in
  if bool_decide (vm = "") then returnM tt
  else
    attempt (vbox_Kill vm) ;;!
    let! p := mget provisioned in
    if disabled || negb p then attempt (vbox_Delete vm) ;;! returnM tt else returnM tt.
End VirtualBox.

(** ** Parallels, helpers/parallels/control.go *)

Definition prl_Invalid : string := "invalid".
Definition prl_Stopped : string := "stopped".
Definition prl_Suspended : string := "suspended".
Definition prl_Running : string := "running".

Definition PrlctlOutput (args : list string) : V string :=
  if bool_decide (h_goos H ≠ "darwin")
  then fail_text ("Parallels works only on " +:+ dquote +:+ "darwin" +:+ dquote +:+ " platform")
  else run_command "PrlctlOutput" ("prlctl" :: args).
Definition Prlctl (args : list string) : V unit := PrlctlOutput args ;;! returnM tt.

Definition prl_Exec (vm : string) (args : list string) : V string := PrlctlOutput (["exec"; vm] ++ args).

(** prlctl version, then three numbers; the second separator is any character. *)
Definition versionRe : regex :=
  RCat (lit "prlctl version ")
    (RCap 1 (RCat (RPlus digit) (RCat (lit ".") (RCat (RPlus digit) (RCat not_newline (RPlus digit)))))).
Definition prl_Version : V string :=
  let! out := PrlctlOutput ["--version"] in
  match FindStringSubmatch versionRe out with
  | Some c => returnM (group c 1)
  | None => fail_text ("Could not find Parallels Desktop version in output:" +:+ newline +:+ out)
  end.

Definition prl_Exist (name : string) : V bool := succeeds (Prlctl ["list"; name; "--no-header"; "--output"; "status"]).
Definition prl_CreateTemplate (vm template : string) : V unit :=
  Prlctl ["clone"; vm; "--name"; template; "--template"; "--linked"].
Definition prl_CreateOsVM (vm template : string) : V unit := Prlctl ["create"; vm; "--ostemplate"; template].
Definition prl_CreateSnapshot (vm snapshot : string) : V unit := Prlctl ["snapshot"; vm; "--name"; snapshot].

(** The first line with a name after its star. *)
Definition starred (line : string) : option string :=
  match SplitN2 line " *" with
  | [_; rest] => let snapshot := TrimSpace rest in if bool_decide (snapshot = "") then None else Some snapshot
  | _ => None
  end.
Definition GetDefaultSnapshot (vm : string) : V string :=
  let! out := PrlctlOutput ["snapshot-list"; vm] in
  match omap starred (Split out "010"%char) with
  | snapshot :: _ => returnM snapshot
  | [] => fail_text "No snapshot"
  end.

Definition prl_RevertToSnapshot (vm id : string) : V unit := Prlctl ["snapshot-switch"; vm; "--id"; id].
Definition prl_Start (vm : string) : V unit := Prlctl ["start"; vm].
Definition prl_Kill (vm : string) : V unit := Prlctl ["stop"; vm; "--kill"].
Definition prl_Delete (vm : string) : V unit := Prlctl ["delete"; vm].
Definition prl_Unregister (vm : string) : V unit := Prlctl ["unregister"; vm].

Definition prl_Status (vm : string) : V string :=
  let! out := PrlctlOutput ["list"; vm; "--no-header"; "--output"; "status"] in returnM (TrimSpace out).
Definition prl_WaitForStatus (vm wanted : string) (seconds : nat) : V unit :=
  wait_for_status (prl_Status vm) vm wanted seconds "".

Fixpoint try_exec (vm : string) (seconds : nat) (cmd : list string) (last : option verror) : V unit :=
  match seconds with
  | 0 => lift match last with None => Ok tt | Some err => Err err end
  | S n =>
      let! r := attempt (prl_Exec vm cmd) in
      match r with
      | Ok _ => returnM tt
      | Err err => try_exec vm n cmd (Some err)
      end
  end.
Definition TryExec (vm : string) (seconds : nat) (cmd : list string) : V unit := try_exec vm seconds cmd None.

Fixpoint repeat_re (n : nat) (r : regex) : regex := match n with 0 => REps | S n => RCat r (repeat_re n r) end.
Definition macRe : regex :=
  RCat (lit "net0") (RCat (RStar true not_newline) (RCat (lit " mac=")
    (RCat (RCap 1 (repeat_re 12 (RSet false [(48, 57); (65, 70)]%Z)))
       (RCat (lit " card=") (RStar true not_newline))))).
Definition Mac (vm : string) : V string :=
  let! out := PrlctlOutput ["list"; "-i"; vm] in
  match FindStringSubmatch macRe (TrimSpace out) with
  | Some c => returnM (group c 1)
  | None => fail_text ("MAC address for NIC: nic0 on Virtual Machine: " +:+ vm +:+ " not found")
  end.

(** *** Leases *)

(** [strconv.ParseUint(s, 10, bits)] with its error dropped: zero for what is no number,
    the largest number for what is too large. *)
Fixpoint parse_uint (max acc : Z) (s : string) : Z :=
  match s with
  | "" => acc
  | String c s' =>
      if ((48 <=? z_of c) && (z_of c <=? 57))%Z then
        let n := (acc * 10 + (z_of c - 48))%Z in
        if (max <? n)%Z then max else parse_uint max n s'
      else 0%Z
  end.
Definition ParseUint (s : string) (bits : Z) : Z := parse_uint (2 ^ bits - 1) 0 s.

Fixpoint lower_ascii (s : string) : string :=
  match s with
  | "" => ""
  | String c s' => String (if ((65 <=? z_of c) && (z_of c <=? 90))%Z then byte_of (z_of c + 32) else c) (lower_ascii s')
  end.

(** A line of the lease file for the address [mac], which [Mac] found to be hexadecimal. *)
Definition leaseRe (mac : string) : regex :=
  let any := RStar true not_newline in
  RCat (RCap 1 any) (RCat (lit ("=" +:+ dquote)) (RCat (RCap 2 any) (RCat (lit ",") (RCat (RCap 3 any)
    (RCat (lit ("," +:+ lower_ascii mac +:+ ",")) (RCat any (lit dquote))))))).

(** The start of a lease: [expiry - leaseTime] on 64 bits without sign. *)
Definition lease_start (c : caps) : Z := uint64_wrap (ParseUint (group c 2) 64 - ParseUint (group c 3) 32).

(** The most recent lease; of several with the same start, the last one. *)
Definition most_recent (leases : list caps) : string * Z :=
  foldl (λ '(ip, lease) c, if (lease <=? lease_start c)%Z then (group c 1, lease_start c) else (ip, lease)) ("", 0%Z) leases.

Definition dhcpLeases : string := "/Library/Preferences/Parallels/parallels_dhcp_leases".
Definition find_ip (mac leases : string) : result string string :=
  let ip := (most_recent (FindAllStringSubmatch (leaseRe mac) leases)).1 in
  if bool_decide (ip = "") then Err ("IP lease not found for MAC address " +:+ mac +:+ " in: " +:+ dhcpLeases) else Ok ip.

Definition IPAddress (mac : string) : V string :=
  if negb (slen mac =? 12) then fail_text ("Not a valid MAC address: " +:+ mac +:+ ". It should be exactly 12 digits")
  else
    let! h := mget v_hist in
    match h_leases H h with
    | Err err => failM (VErr err)
    | Ok leases => lift match find_ip mac leases with Ok ip => Ok ip | Err msg => Err (VErr (ErrText msg)) end
    end.

(** ** The parallels executor *)

Section Parallels.
Context `{!GoText} (app : AppVersionInfo) (shells : gmap string Shells.Shell) (hostname user : string).
Context (config : RunnerConfig).

Fixpoint ip_loop (mac : string) (seconds : nat) (last : option verror) : V string :=
  match seconds with
  | 0 => lift match last with None => Ok "" | Some err => Err err end
  | S n =>
      let! r := attempt (IPAddress mac) in
      match r with
      | Ok ip => mupd (set_ipAddress ip) ;;! returnM ip
      | Err err => ip_loop mac n (Some err)
      end
  end.

Definition waitForIPAddress (vm : string) (seconds : nat) : V string :=
  let! known := mget ipAddress in
  if bool_decide (known ≠ "") then returnM known
  else let! mac := Mac vm in ip_loop mac seconds None.

Definition prl_verifyMachine (ssh : SSHConfig) (vm : string) : V unit :=
  let! verified := mget machineVerified in
  if (verified : bool) then returnM tt
  else let! ip := waitForIPAddress vm 120 in verify_over_ssh ssh ip (SSH_Port ssh).

Definition prl_restoreFromSnapshot (vm : string) : V unit :=
  let! snapshot := GetDefaultSnapshot vm in prl_RevertToSnapshot vm snapshot.

(** [prl.Status] with its error dropped: the status, if there is one. *)
Definition unregister_invalid (name : string) : V unit :=
  let! status := attempt (prl_Status name) in
  match status with
  | Ok s => if bool_decide (s = prl_Invalid) then attempt (prl_Unregister name) ;;! returnM tt else returnM tt
  | Err _ => returnM tt
  end.

Definition prl_createVM (ssh : SSHConfig) (p : ParallelsConfig) (vm : string) : V unit :=
  let baseImage := PC_BaseName p in
  if bool_decide (baseImage = "") then fail_text "Missing Image setting from Parallels config"
  else
    let templateName := if bool_decide (PC_TemplateName p = "") then baseImage +:+ "-template" else PC_TemplateName p in
    unregister_invalid templateName ;;!
    let! exists_ := prl_Exist templateName in
    (if (exists_ : bool) then returnM tt else prl_CreateTemplate baseImage templateName) ;;!
    prl_CreateOsVM vm templateName ;;!
    prl_Start vm ;;!
    TryExec vm 120 ["exit"; "0"] ;;!
    prl_verifyMachine ssh vm.

Definition updateGuestTime (p : ParallelsConfig) (vm : string) : V unit :=
  let timeServer := if bool_decide (PC_TimeServer p = "") then "time.apple.com" else PC_TimeServer p in
  let! which := succeeds (prl_Exec vm ["which"; "ntpdate"]) in
  if (which : bool) then TryExec vm 20 ["sudo"; "ntpdate"; "-u"; timeServer]
  else TryExec vm 20 ["sudo"; "sntp"; "-sS"; timeServer].

Definition prl_remove (vm : string) : V unit :=
  attempt (prl_Kill vm) ;;! attempt (prl_Delete vm) ;;! attempt (prl_Unregister vm) ;;! returnM tt.

Definition prl_Prepare (ssh : option SSHConfig) (parallels : option ParallelsConfig) : V unit :=
  let! shell := abstract_Prepare app shells hostname user config vm_options in
  if PassFile shell then fail_text "Parallels doesn't support shells that require script file"
  else
    match ssh, parallels with
    | None, _ => fail_text "Missing SSH configuration"
    | _, None => fail_text "Missing Parallels configuration"
    | Some ssh, Some p =>
        if bool_decide (PC_BaseName p = "") then fail_text "Missing BaseName setting from Parallels config"
        else
          prl_Version ;;!
          let! name := mget vmName in
          unregister_invalid name ;;!
          let! b := mget v_build in
          (if PC_DisableSnapshots p then
             let vm := PC_BaseName p +:+ "-" +:+ ProjectUniqueName b in
             mupd (set_vmName vm) ;;!
             let! old := prl_Exist vm in
             if (old : bool) then prl_remove vm else returnM tt
           else mupd (set_vmName (concurrent_name (PC_BaseName p) b))) ;;!
          let! vm := mget vmName in
          let! exists_ := prl_Exist vm in
          (if (exists_ : bool) then
             let! r := attempt (prl_restoreFromSnapshot vm) in
             match r with Ok _ => returnM tt | Err _ => prl_remove vm end
           else returnM tt) ;;!
          let! exists_ := prl_Exist vm in
          (if (exists_ : bool) then returnM tt
           else prl_createVM ssh p vm ;;!
                if PC_DisableSnapshots p then returnM tt else prl_CreateSnapshot vm "Started") ;;!
          let! status := prl_Status vm in
          (if bool_decide (status = prl_Stopped) || bool_decide (status = prl_Suspended)
           then prl_Start vm else returnM tt) ;;!
          (if bool_decide (status ≠ prl_Running) then prl_WaitForStatus vm prl_Running 60 else returnM tt) ;;!
          prl_verifyMachine ssh vm ;;!
          mupd set_provisioned ;;!
          updateGuestTime p vm ;;!
          let! ip := waitForIPAddress vm 60 in
          Connect ssh ip (SSH_Port ssh) 0 ;;!
          mupd set_client
    end.

Definition prl_Cleanup (disabled : bool) : V unit :=
  client_Cleanup ;;!
  let! vm := mget vmName in
  (if bool_decide (vm = "") then returnM tt
   else
     attempt (prl_Kill vm) ;;!
     let! p := mget provisioned in
     if disabled || negb p then attempt (prl_Delete vm) ;;! returnM tt else returnM tt) ;;!
  mupd (set_stage ExecutorStageCleanup).

(** ** The ssh executor, executors/ssh/executor_ssh.go *)

Definition ssh_options : ExecutorOptions :=
  {| DefaultCustomBuildsDirEnabled := false; DefaultBuildsDir := "builds"; DefaultCacheDir := "";
     OptSharedBuildsDir := true; OptShell := "bash"; OptShellType := LoginShell;
     OptRunnerCommand := "gitlab-runner"; ShowHostname := true; Metadata := ∅ |}.

Definition sshx_Prepare (ssh : option SSHConfig) : V unit :=
  let! shell := abstract_Prepare app shells hostname user config ssh_options in
  if PassFile shell then fail_text "SSH doesn't support shells that require script file"
  else
    match ssh with
    | None => fail_text "Missing SSH configuration"
    | Some ssh => Connect ssh (SSH_Host ssh) (SSH_Port ssh) 0 ;;! mupd set_client
    end.

Definition sshx_Cleanup : V unit := client_Cleanup ;;! mupd (set_stage ExecutorStageCleanup).
End Parallels.
End Client.

(** The executor as its creator makes it. *)
Definition new_vexecutor (b : Build) : vexecutor := mkV [] "" "" false false "" false None b ExecutorStageCreated.
