(* ===== verification/VirtualMachinesProofs.v ===== *)
(** What the executors of virtual machines do to the machines of their host: a job stops,
    reverts and removes no machine but its own, and leaves it behind only to be used again. *)

From S2P Require Import Prelude GoMonad GoLib Path Types Variables Config Build BuildProofs ShellEscape AbstractShell Shells.
From S2P Require Import Regex Executor VirtualMachines.

Open Scope go_scope.

(** The machine a command stops, reverts or removes. *)
Definition destroys (c : vcall) : option string :=
  match c with
  | VCmd ["vboxmanage"; "controlvm"; vm; "poweroff"] _ _ => Some vm
  | VCmd ["vboxmanage"; "unregistervm"; vm] _ _ => Some vm
  | VCmd ["vboxmanage"; "unregistervm"; vm; "--delete"] _ _ => Some vm
  | VCmd ["vboxmanage"; "snapshot"; vm; "restorecurrent"] _ _ => Some vm
  | VCmd ["prlctl"; "stop"; vm; "--kill"] _ _ => Some vm
  | VCmd ["prlctl"; "delete"; vm] _ _ => Some vm
  | VCmd ["prlctl"; "snapshot-switch"; vm; "--id"; _] _ _ => Some vm
  | _ => None
  end.

Definition only_destroys (vm : string) (c : vcall) : Prop := ∀ x, destroys c = Some x → x = vm.

(** An operation that keeps the name of the machine and destroys none but [vm]. *)
Definition tame {A} (vm : string) (c : V A) : Prop :=
  ∀ e, vmName (c e).2 = vmName e ∧ ∃ h, v_hist (c e).2 = h ++ v_hist e ∧ Forall (only_destroys vm) h.

Create HintDb tame.

Section Tame.
Context (vm : string).

Lemma tame_same {A} (c : V A) : (∀ e, vmName (c e).2 = vmName e ∧ v_hist (c e).2 = v_hist e) → tame vm c.
Proof. intros Hc e. destruct (Hc e) as [Hn Hh]. split; [done|]. by exists []. Qed.

Lemma tame_return {A} (a : A) : tame vm (returnM a).
Proof. by apply tame_same. Qed.
Lemma tame_fail {A} err : tame vm (A := A) (failM err).
Proof. by apply tame_same. Qed.
Lemma tame_lift {A} (r : result verror A) : tame vm (lift r).
Proof. by apply tame_same. Qed.
Lemma tame_get {A} (f : vexecutor → A) : tame vm (mget f).
Proof. by apply tame_same. Qed.
Lemma tame_upd f : (∀ e, vmName (f e) = vmName e ∧ v_hist (f e) = v_hist e) → tame vm (mupd f).
Proof. intros Hf. by apply tame_same. Qed.
Lemma tame_text {A} msg : tame vm (A := A) (fail_text msg).
Proof. apply tame_fail. Qed.

Lemma tame_bind {A B} (c : V A) (k : A → V B) : tame vm c → (∀ a, tame vm (k a)) → tame vm (bindM c k).
Proof.
  intros Hc Hk e. unfold bindM. destruct (Hc e) as (Hn & h & Hh & HF). destruct (c e) as [[a|err] e1]; simpl in *.
  - destruct (Hk a e1) as (Hn' & h' & Hh' & HF'). split; [congruence|].
    exists (h' ++ h). rewrite Hh', Hh, (assoc_L (++)). split; [done|]. by apply Forall_app.
  - split; [done|]. by exists h.
Qed.

Lemma tame_attempt {A} (c : V A) : tame vm c → tame vm (attempt c).
Proof. intros Hc e. specialize (Hc e). unfold attempt. by destruct (c e). Qed.

Lemma tame_if {A} (b : bool) (c1 c2 : V A) : tame vm c1 → tame vm c2 → tame vm (if b then c1 else c2).
Proof. by destruct b. Qed.

(** An operation that looks at the state to choose what to do. *)
Lemma tame_state {A} (f : vexecutor → V A) : (∀ e, tame vm (f e)) → tame vm (λ e, f e e).
Proof. intros Hf e. apply Hf. Qed.

Lemma tame_record c : only_destroys vm c → tame vm (mupd (v_record c)).
Proof. intros Hc e. split; [done|]. exists [c]. split; [done|]. by constructor. Qed.

Lemma tame_command H prefix args :
  (∀ out err, only_destroys vm (VCmd args out err)) → tame vm (run_command H prefix args).
Proof.
  intros Hc e. unfold run_command. destruct (h_run H (v_hist e) args) as [out err]. simpl. split; [done|].
  exists [VCmd args out err]. split; [done|]. constructor; [apply Hc|done].
Qed.

Lemma tame_dial H retries address user : ∀ last, tame vm (dial_loop H retries address user last).
Proof.
  induction retries as [|n IH]; intros last; simpl; [apply tame_lift|]. apply tame_bind.
  - intros e. simpl. split; [done|]. eexists [_]. split; [done|]. constructor; [done|constructor].
  - intros [err|]; [apply IH|apply tame_return].
Qed.

Lemma tame_ssh_Run H env command script : tame vm (ssh_Run H env command script).
Proof.
  unfold ssh_Run. apply tame_bind; [apply tame_get|]. intros h. destruct (h_newSession H h); [apply tame_fail|].
  destruct (h_start H h); [apply tame_fail|]. intros e. simpl. split; [done|]. eexists [_]. split; [done|].
  constructor; [done|constructor].
Qed.

Lemma tame_Connect H c host port n : tame vm (Connect H c host port n).
Proof.
  unfold Connect. destruct (bool_decide (SSH_IdentityFile c ≠ "")); [destruct (h_key H (SSH_IdentityFile c)); [apply tame_fail|]|];
    destruct n; apply tame_dial.
Qed.
End Tame.

#[export] Hint Resolve tame_return tame_fail tame_lift tame_get tame_text tame_attempt tame_if tame_ssh_Run
  tame_Connect tame_dial : tame.
#[export] Hint Extern 1 (tame _ (bindM _ _)) => apply tame_bind; [|intros ?] : tame.
#[export] Hint Extern 1 (tame _ (mupd (v_record _))) => apply tame_record; intros ? [=]; done : tame.
#[export] Hint Extern 2 (tame _ (mupd _)) => apply tame_upd; done : tame.
#[export] Hint Extern 1 (tame _ (run_command _ _ _)) =>
  apply tame_command; intros ? ? ?; simpl; intros ?; simplify_eq; done : tame.
#[export] Hint Extern 3 (tame _ (match ?x with _ => _ end)) => destruct x : tame.

(** Commands that destroy nothing, and those that destroy [vm]. *)
Ltac tame_op := unfold VBoxManage, PrlctlOutput, Prlctl, succeeds, VirtualMachines.fail_text in *; auto 12 with tame.

Section Machines.
Context (H : Host) (vm : string).

Lemma tame_verify c host port : tame vm (verify_over_ssh H c host port).
Proof. unfold verify_over_ssh. auto 10 with tame. Qed.
Lemma tame_client_Cleanup : tame vm client_Cleanup.
Proof. unfold client_Cleanup. auto 10 with tame. Qed.
Lemma tame_run_script script : tame vm (run_script H script).
Proof. unfold run_script, client_Run. auto 10 with tame. Qed.

(** *** VirtualBox *)

Lemma tame_vbox_Version : tame vm (vbox_Version H).
Proof. unfold vbox_Version. tame_op. Qed.
Lemma tame_FindSSHPort x : tame vm (FindSSHPort H x).
Proof. unfold FindSSHPort. tame_op. Qed.
Lemma tame_vbox_Exist x : tame vm (vbox_Exist H x).
Proof. unfold vbox_Exist. tame_op. Qed.
Lemma tame_vbox_CreateOsVM x t s : tame vm (vbox_CreateOsVM H x t s).
Proof. unfold vbox_CreateOsVM. destruct (bool_decide (s ≠ "")); tame_op. Qed.
Lemma tame_allocatePort : tame vm (allocatePort H).
Proof. unfold allocatePort, getUsedVirtualBoxPorts. tame_op. Qed.
Lemma tame_ConfigureSSH fuel x p : tame vm (ConfigureSSH H fuel x p).
Proof.
  induction fuel as [|n IH]; simpl; [apply tame_fail|]. apply tame_bind; [apply tame_allocatePort|].
  intros [port|]; [tame_op|exact IH].
Qed.
Lemma tame_vbox_CreateSnapshot x s : tame vm (vbox_CreateSnapshot H x s).
Proof. unfold vbox_CreateSnapshot. tame_op. Qed.
Lemma tame_HasSnapshot x s : tame vm (HasSnapshot H x s).
Proof. unfold HasSnapshot. tame_op. Qed.
Lemma tame_GetCurrentSnapshot x : tame vm (GetCurrentSnapshot H x).
Proof. unfold GetCurrentSnapshot. tame_op. Qed.
Lemma tame_vbox_Start x : tame vm (vbox_Start H x).
Proof. unfold vbox_Start. tame_op. Qed.
Lemma tame_vbox_Status x : tame vm (vbox_Status H x).
Proof. unfold vbox_Status. tame_op. Qed.
Lemma tame_wait status_of x wanted seconds : tame vm status_of → ∀ last, tame vm (wait_for_status status_of x wanted seconds last).
Proof.
  intros Hs. induction seconds as [|n IH]; intros last; simpl; [apply tame_text|].
  apply tame_bind; [done|]. intros status. apply tame_if; [apply tame_return|apply IH].
Qed.

Lemma tame_vbox_WaitForStatus x wanted seconds : tame vm (vbox_WaitForStatus H x wanted seconds).
Proof. apply tame_wait, tame_vbox_Status. Qed.

(** The destructive ones, on the machine itself. *)
Lemma tame_vbox_Kill : tame vm (vbox_Kill H vm).
Proof. unfold vbox_Kill. tame_op. Qed.
Lemma tame_vbox_Delete : tame vm (vbox_Delete H vm).
Proof. unfold vbox_Delete. tame_op. Qed.
Lemma tame_vbox_Unregister : tame vm (vbox_Unregister H vm).
Proof. unfold vbox_Unregister. tame_op. Qed.
Lemma tame_vbox_Revert : tame vm (vbox_RevertToSnapshot H vm).
Proof. unfold vbox_RevertToSnapshot. tame_op. Qed.
End Machines.

#[export] Hint Resolve tame_verify tame_client_Cleanup tame_run_script tame_vbox_Version tame_FindSSHPort
  tame_vbox_Exist tame_vbox_CreateOsVM tame_ConfigureSSH tame_vbox_CreateSnapshot tame_HasSnapshot
  tame_GetCurrentSnapshot tame_vbox_Start tame_vbox_Status tame_vbox_WaitForStatus tame_vbox_Kill tame_vbox_Delete
  tame_vbox_Unregister tame_vbox_Revert : tame.

(** ** A job and its machine *)

(** No machine chosen and none destroyed; the machine [vm] chosen and no other destroyed. *)
Definition unnamed (e : vexecutor) : Prop := vmName e = "" ∧ Forall (λ c, destroys c = None) (v_hist e).
Definition named (vm : string) (e : vexecutor) : Prop := vmName e = vm ∧ Forall (only_destroys vm) (v_hist e).

(** A name derived from the one of the base machine. *)
Definition derived (base vm : string) : Prop := ∃ s, s ≠ "" ∧ vm = base +:+ s.
Definition confined (base : string) (e : vexecutor) : Prop :=
  unnamed e ∨ ∃ vm, derived base vm ∧ named vm e.

Lemma t_named {A} vm (c : V A) : tame vm c → triple (named vm) c (λ _, named vm) (named vm).
Proof.
  intros Hc e [Hn HF]. destruct (Hc e) as (Hn' & h & Hh & HF').
  assert (named vm (c e).2). { split; [congruence|]. rewrite Hh. by apply Forall_app. }
  by destruct (c e) as [[a|err] e'].
Qed.

Lemma t_unnamed {A} (c : V A) : (∀ vm, tame vm c) → triple unnamed c (λ _, unnamed) unnamed.
Proof.
  intros Hc e [Hn HF].
  destruct (Hc "" e) as (Hn' & h & Hh & H1), (Hc "a" e) as (_ & h' & Hh' & H2).
  rewrite Hh in Hh'. apply app_inv_tail in Hh' as ->.
  assert (unnamed (c e).2).
  { split; [congruence|]. rewrite Hh. apply Forall_app. split; [|done].
    rewrite Forall_forall in *. intros x Hx. destruct (destroys x) as [y|] eqn:E; [|done].
    specialize (H1 x Hx y E). specialize (H2 x Hx y E). congruence. }
  by destruct (c e) as [[a|err] e'].
Qed.

Lemma t_name vm (E : vexecutor → Prop) : triple unnamed (mupd (set_vmName vm) : V unit) (λ _, named vm) E.
Proof.
  intros e [_ HF]. split; [done|]. simpl. eapply Forall_impl; [exact HF|]. intros c Hc x Hx. congruence.
Qed.

Lemma derived_dash base s : derived base (base +:+ "-" +:+ s).
Proof. by exists ("-" +:+ s). Qed.

Section Job.
Context {GT : GoText} (H : Host) (app : AppVersionInfo) (shells : gmap string Shells.Shell) (hostname user : string).
Context (config : RunnerConfig) (fuel : nat).

Lemma tame_abstract_Prepare vm options : tame vm (abstract_Prepare app shells hostname user config options).
Proof.
  apply tame_same. intros e. unfold abstract_Prepare.
  destruct (PrepareBuildAndShell _ _ _ _ _ _ _ _) as [[c|err] b]; done.
Qed.

Lemma tame_vb_remove vm : tame vm (vb_remove H vm).
Proof. unfold vb_remove. auto 10 with tame. Qed.
Lemma tame_vb_verify vm ssh : tame vm (vb_verifyMachine H ssh).
Proof. unfold vb_verifyMachine. auto 10 with tame. Qed.
Lemma tame_determine vm vb base : tame vm (determineBaseSnapshot H vb base).
Proof. unfold determineBaseSnapshot. auto 15 with tame. Qed.
Hint Resolve tame_vb_remove tame_vb_verify tame_determine : tame.

Lemma tame_vb_createVM vm ssh vb : tame vm (vb_createVM H fuel ssh vb vm).
Proof.
  unfold vb_createVM. apply tame_if; [auto with tame|]. apply tame_bind; [auto with tame|]. intros status.
  assert (∀ k : V unit, tame vm k → tame vm ((match status with Err _ => attempt (vbox_Unregister H vm) ;;! returnM tt | Ok _ => returnM tt end) ;;! k)) as Hk.
  { intros k Hk. apply tame_bind; [destruct status; auto with tame|done]. }
  destruct status as [s|[]]; try apply tame_fail; apply Hk; auto 15 with tame.
Qed.
Hint Resolve tame_vb_createVM : tame.

(** The part of [Prepare] after the name of the machine is chosen. *)
Lemma vb_Prepare_confined ssh vb base :
  (∀ v, vb = Some v → VB_BaseName v = base) →
  triple unnamed (vb_Prepare H app shells hostname user config fuel ssh vb) (λ _, confined base) (confined base).
Proof.
  intros Hb. unfold vb_Prepare.
  assert (∀ A (c : V A), (∀ vm, tame vm c) → triple unnamed c (λ _, unnamed) (confined base)) as Hun.
  { intros A c Hc. eapply t_mono; [by apply t_unnamed|auto..]. intros e He. by left. }
  eapply t_seq; [apply Hun; intros; apply tame_abstract_Prepare|]. intros shell.
  assert (∀ msg, triple unnamed (fail_text msg : V unit) (λ _, confined base) (confined base)) as Hfail.
  { intros msg. apply t_fail. intros e He. by left. }
  apply t_if; [apply Hfail|]. destruct ssh as [ssh|]; [|apply Hfail]. destruct vb as [vb|]; [|apply Hfail].
  specialize (Hb vb eq_refl). apply t_if; [apply Hfail|].
  eapply t_seq; [apply Hun; auto with tame|]. intros version.
  eapply t_bind; [apply t_get|]. intros b.
  assert (∀ A vm (c : V A), derived base vm → tame vm c →
    triple (named vm) c (λ _ e, confined base e ∧ named vm e) (confined base)) as Hnm.
  { intros A vm c Hd Hc. eapply t_mono; [by apply (t_named vm)|auto|..].
    - intros a e He. split; [|done]. right. eauto.
    - intros e He. right. eauto. }
  eapply (t_seq _ _ _ (λ e, ∃ vm, derived base vm ∧ named vm e)).
  - subst base. apply t_if.
    + eapply t_mono; [|intros e [He _]; exact He|intros a e He; exact He|intros e He; exact He].
      eapply t_seq; [apply t_name|]. intros _.
      eapply t_mono; [apply (Hnm _ _ _ (derived_dash (VB_BaseName vb) (ProjectUniqueName b)));
        auto 10 with tame|auto| |auto].
      intros a e [_ He]. eexists. split; [apply derived_dash|exact He].
    + eapply t_mono; [apply (t_name (concurrent_name (VB_BaseName vb) b))|by intros e [He _]| |done].
      intros a e He. exists (concurrent_name (VB_BaseName vb) b). split; [|done].
      unfold concurrent_name. eexists (_ +:+ _). split; [|done]. done.
  - intros _. apply t_exists. intros vm e [Hd He]. revert e He.
    apply (t_get_known _ vm); [by intros e [Hn _]|].
    eapply t_mono; [apply (Hnm _ vm); [done|]|auto|by intros a e []|auto]. auto 25 with tame.
Qed.

(** [Run] of the stages, each whatever the outcome of the one before, and [Cleanup]. *)
Fixpoint run_scripts (scripts : list string) : V unit :=
  match scripts with
  | [] => returnM tt
  | script :: rest => attempt (run_script H script) ;;! run_scripts rest
  end.

Definition vb_job (ssh : option SSHConfig) (vb : option VirtualBoxConfig) (scripts : list string) : V unit :=
  let! r := attempt (vb_Prepare H app shells hostname user config fuel ssh vb) in
  (match r with Ok _ => run_scripts scripts | Err _ => returnM tt end) ;;!
  vb_Cleanup H (match vb with Some v => VB_DisableSnapshots v | None => false end).

Lemma tame_run_scripts vm scripts : tame vm (run_scripts scripts).
Proof. induction scripts; simpl; auto 10 with tame. Qed.

Lemma confined_tame {A} base (c : V A) : (∀ vm, tame vm c) → triple (confined base) c (λ _, confined base) (confined base).
Proof.
  intros Hc e [He|(vm & Hd & He)].
  - pose proof (t_unnamed c Hc e He) as Ht. destruct (c e) as [[a|err] e']; by left.
  - pose proof (t_named vm c (Hc vm) e He) as Ht. destruct (c e) as [[a|err] e']; right; eauto.
Qed.

Lemma vb_Cleanup_confined base disabled :
  triple (confined base) (vb_Cleanup H disabled) (λ _, confined base) (confined base).
Proof.
  intros e [He|(vm & Hd & He)].
  - revert e He. unfold vb_Cleanup.
    eapply t_mono; [|intros e He; exact He|intros a e He; left; exact He|intros e He; left; exact He].
    eapply t_seq; [apply t_unnamed; auto with tame|]. intros _.
    apply (t_get_known _ ""); [by intros e [Hn _]|]. rewrite bool_decide_true by done. by apply t_ret.
  - revert e He. unfold vb_Cleanup.
    eapply t_mono; [|intros e He; exact He|intros a e He; right; exists vm; split; [exact Hd|exact He]|
                     intros e He; right; exists vm; split; [exact Hd|exact He]].
    eapply t_seq; [apply t_named; auto with tame|]. intros _.
    apply (t_get_known _ vm); [by intros e [Hn _]|]. apply t_named. auto 10 with tame.
Qed.

Lemma vb_job_confined ssh vb scripts base :
  (∀ v, vb = Some v → VB_BaseName v = base) →
  triple unnamed (vb_job ssh vb scripts) (λ _, confined base) (confined base).
Proof.
  intros Hb. unfold vb_job. eapply t_attempt_bind; [by apply vb_Prepare_confined|..].
  - intros a. eapply t_seq; [apply confined_tame; intros; apply tame_run_scripts|]. intros _. apply vb_Cleanup_confined.
  - intros err. eapply t_seq; [apply confined_tame; auto with tame|]. intros _. apply vb_Cleanup_confined.
Qed.

(** The last commands of [Cleanup], latest first. *)
Definition kill_command (vm : string) : list string := ["vboxmanage"; "controlvm"; vm; "poweroff"].
Definition delete_command (vm : string) : list string := ["vboxmanage"; "unregistervm"; vm; "--delete"].

Lemma client_Cleanup_spec e : client_Cleanup e = (Ok tt, if v_client e then v_record VClose e else e).
Proof. unfold client_Cleanup, bindM, mget. by destruct (v_client e). Qed.

Lemma vb_Cleanup_spec disabled e : vmName e ≠ "" →
  let e' := (vb_Cleanup H disabled e).2 in
  vmName e' = vmName e ∧ provisioned e' = provisioned e ∧
  ∃ o1 r1 o2 r2 rest, v_hist e' =
    (if disabled || negb (provisioned e) then [VCmd (delete_command (vmName e)) o2 r2] else [])
    ++ VCmd (kill_command (vmName e)) o1 r1 :: rest.
Proof.
  intros Hn. cbv zeta. set (e1 := if v_client e then v_record VClose e else e).
  assert (vmName e1 = vmName e ∧ provisioned e1 = provisioned e) as [Hv Hp] by (unfold e1; by destruct (v_client e)).
  assert (∃ o1 r1 o2 r2, (vb_Cleanup H disabled e).2 =
    (if disabled || negb (provisioned e) then v_record (VCmd (delete_command (vmName e)) o2 r2) else λ e, e)
      (v_record (VCmd (kill_command (vmName e)) o1 r1) e1)) as (o1 & r1 & o2 & r2 & ->).
  { unfold vb_Cleanup, bindM at 1. rewrite client_Cleanup_spec. fold e1.
    unfold bindM, attempt, mget, returnM, vbox_Kill, vbox_Delete, VBoxManage, run_command, bindM.
    rewrite Hv, bool_decide_false by done.
    destruct (h_run H (v_hist e1) _) as [o1 r1]. exists o1, r1.
    destruct r1 as [[]|]; simpl; rewrite Hp; destruct (disabled || negb (provisioned e)); simpl;
      try (by exists "", None); destruct (h_run H _ _) as [o2 r2]; exists o2, r2; by destruct r2 as [[]|]. }
  destruct (disabled || negb (provisioned e)); simpl; split_and!; try done; by eexists o1, r1, o2, r2, _.
Qed.

Lemma vb_job_last ssh vb scripts e :
  ∃ e1, (vb_job ssh (Some vb) scripts e).2 = (vb_Cleanup H (VB_DisableSnapshots vb) e1).2.
Proof.
  assert (∀ e0, ∃ e1, run_scripts scripts e0 = (Ok tt, e1)) as Hs.
  { induction scripts as [|s ss IH]; intros e0; [by eexists|].
    simpl. unfold bindM, attempt. destruct (run_script H s e0) as [r1 e1]. apply IH. }
  unfold vb_job, bindM, attempt. destruct (vb_Prepare _ _ _ _ _ _ _ _ _ _) as [[a|err] e0].
  - destruct (Hs e0) as [e1 ->]. by exists e1.
  - by exists e0.
Qed.

End Job.
