(* ===== verification/RunnerCommands.v ===== *)
(** The commands that change the list of runners (commands/register.go, unregister.go,
    verify.go) and the one that runs a single runner (commands/single.go).

    The coordinator's answers are functions of the calls made before; the terminal is the
    list of lines that are left to read. *)

From S2P Require Import Prelude GoMonad GoLib Types Config GitLabClient ConfigFile DockerImages VirtualMachines.
Open Scope go_scope.

#[export] Instance RunnerCredentials_eq_dec : EqDecision RunnerCredentials.
Proof. solve_decision. Defined.

(** ** Calls of the coordinator *)

Inductive ncall :=
| NVerify (c : RunnerCredentials)
| NRegister (c : RunnerCredentials) (p : RegisterRunnerParameters)
| NUnregister (c : RunnerCredentials).

Record Network := {
  VerifyRunner : list ncall → RunnerCredentials → bool;
  RegisterRunner : list ncall → RunnerCredentials → RegisterRunnerParameters → option string;   (* the token *)
  UnregisterRunner : list ncall → RunnerCredentials → bool }.

(** What a command works on: the configuration, the calls so far and the configurations
    written to the file, latest first. *)
Record cmdstate := mkCmd { cmd_config : LoadedConfig; calls : list ncall; saved : list LoadedConfig }.

(** Every fatal end of a command is its message. *)
Notation Cmd := (GoM cmdstate string).

Definition add_call (n : ncall) (s : cmdstate) : cmdstate := mkCmd (cmd_config s) (n :: calls s) (saved s).
Definition set_config (c : LoadedConfig) (s : cmdstate) : cmdstate := mkCmd c (calls s) (saved s).

Definition with_runners (c : LoadedConfig) (runners : list RunnerConfig) : LoadedConfig :=
  mkLoaded (set_runners (lc_config c) runners) (lc_LogLevel c) (lc_LogFormat c) (lc_SentryDSN c) (lc_ListenAddress c)
    (lc_ModTime c) (lc_Loaded c).

Section Commands.
Context `{!ConfigFiles} (N : Network) (configFile : string).

Definition verify_runner (c : RunnerCredentials) : Cmd bool :=
  λ s, (Ok (VerifyRunner N (calls s) c), add_call (NVerify c) s).
Definition unregister_runner (c : RunnerCredentials) : Cmd bool :=
  λ s, (Ok (UnregisterRunner N (calls s) c), add_call (NUnregister c) s).

(** [loadConfig] and [saveConfig] of the options. *)
Definition load_config : Cmd (option error) :=
  λ s, let '(err, c) := co_loadConfig (cmd_config s) configFile in (Ok err, set_config c s).

Definition save_config : Cmd (option error) :=
  λ s, match SaveConfig (cmd_config s) configFile with
       | None => (Err "Error encoding TOML", s)
       | Some (Some err, c) => (Ok (Some err), set_config c s)
       | Some (None, c) => (Ok None, mkCmd c (calls s) (c :: saved s))
       end.

Definition fatal_on_error (r : option error) : Cmd unit :=
  lift match r with Some err => Err (Error err) | None => Ok tt end.

(** The end that [unregister] and [verify] share. *)
Definition update_runners (runners : list RunnerConfig) : Cmd unit :=
  mupd (λ s, set_config (with_runners (cmd_config s) runners) s) ;;!
  let! r := save_config in
  lift match r with
       | Some err => Err ("Failed to update " +:+ configFile +:+ " " +:+ Error err)
       | None => Ok tt
       end.

Definition runners_of (s : cmdstate) : list RunnerConfig := Runners (lc_config (cmd_config s)).

(** ** unregister *)

Fixpoint unregisterAllRunners (runners : list RunnerConfig) : Cmd (list RunnerConfig) :=
  match runners with
  | [] => returnM []
  | r :: rest =>
      let! ok := unregister_runner (Credentials_ r) in
      let! kept := unregisterAllRunners rest in
      returnM (if (ok : bool) then kept else r :: kept)
  end.

Definition unregisterSingleRunner (name : string) (credentials : RunnerCredentials) : Cmd (list RunnerConfig) :=
  let! config := mget cmd_config in
  let! credentials := (if bool_decide (name ≠ "") then
                         lift match RunnerByName (Some config) name with
                              | Err err => Err err
                              | Ok r => Ok (Credentials_ r)
                              end
                       else returnM credentials) in
  let! ok := unregister_runner credentials in
  if negb ok then failM ("Failed to unregister runner " +:+ name)
  else let! runners := mget runners_of in
       returnM (filter (λ r, Credentials_ r ≠ credentials) runners).

Definition unregister_Execute (allRunners : bool) (name : string) (credentials : RunnerCredentials) : Cmd unit :=
  let! err := load_config in
  fatal_on_error err ;;!
  let! before := mget runners_of in
  let! runners := (if allRunners then unregisterAllRunners before else unregisterSingleRunner name credentials) in
  if (length before =? length runners)%nat then returnM tt else update_runners runners.

(** ** verify *)

Section Select.
Context (name : string) (credentials : RunnerCredentials).

Definition selectorPresent : bool :=
  bool_decide (name ≠ "") || bool_decide (RC_URL credentials ≠ "") || bool_decide (RC_Token credentials ≠ "").
Definition selected (r : RunnerConfig) : bool :=
  negb selectorPresent || bool_decide (Name r = name) || SameAs (Credentials_ r) credentials.

Definition selectRunners (runners : list RunnerConfig) : result string (list RunnerConfig * list RunnerConfig) :=
  let toVerify := filter (λ r, selected r = true) runners in
  let okRunners := filter (λ r, selected r = false) runners in
  if selectorPresent && bool_decide (toVerify = []) then Err "No runner matches the filtering parameters"
  else Ok (toVerify, okRunners).

Fixpoint verify_all (runners : list RunnerConfig) : Cmd (list RunnerConfig) :=
  match runners with
  | [] => returnM []
  | r :: rest =>
      let! ok := verify_runner (Credentials_ r) in
      let! alive := verify_all rest in
      returnM (if (ok : bool) then r :: alive else alive)
  end.

Definition verify_Execute (deleteNonExisting : bool) : Cmd unit :=
  let! err := load_config in
  fatal_on_error err ;;!
  let! before := mget runners_of in
  let! chosen := lift (selectRunners before) in
  let! alive := verify_all chosen.1 in
  let okRunners := chosen.2 ++ alive in
  if (length before =? length okRunners)%nat then returnM tt
  else if negb deleteNonExisting then failM "Failed to verify runners"
  else update_runners okRunners.
End Select.
End Commands.

(** ** register *)

(** The sections of a runner that depend on its executor and that [RunnerConfig] does not
    have. *)
Record Sections := mkSections {
  s_Docker : option DockerConfig; s_SSH : option SSHConfig; s_Parallels : option ParallelsConfig;
  s_VirtualBox : option VirtualBoxConfig }.

Record RegisterCommand := mkRegisterCommand {
  NonInteractive : bool; LeaveRunner : bool; TagList : string; RunUntagged : bool; Locked : bool;
  AccessLevel : string; MaximumTimeout : Z; Paused : bool; registered : bool;
  reg_runner : RunnerConfig; reg_sections : Sections;
  input : list string;                      (* the lines left to read *)
  cmd : cmdstate;
  added : list (RunnerConfig * Sections) }. (* what was added to the configuration, latest first *)

(** A panic, which is recovered to unregister, or an exit of the process, which is not. *)
Inductive stop := PanicStop (msg : string) | ExitStop (msg : string) | OutOfFuel.
Notation Reg := (GoM RegisterCommand stop).

Section Setters.
Context (s : RegisterCommand).
Definition set_input (l : list string) : RegisterCommand :=
  mkRegisterCommand (NonInteractive s) (LeaveRunner s) (TagList s) (RunUntagged s) (Locked s) (AccessLevel s)
    (MaximumTimeout s) (Paused s) (registered s) (reg_runner s) (reg_sections s) l (cmd s) (added s).
Definition set_cmd (c : cmdstate) : RegisterCommand :=
  mkRegisterCommand (NonInteractive s) (LeaveRunner s) (TagList s) (RunUntagged s) (Locked s) (AccessLevel s)
    (MaximumTimeout s) (Paused s) (registered s) (reg_runner s) (reg_sections s) (input s) c (added s).
Definition set_runner (r : RunnerConfig) : RegisterCommand :=
  mkRegisterCommand (NonInteractive s) (LeaveRunner s) (TagList s) (RunUntagged s) (Locked s) (AccessLevel s)
    (MaximumTimeout s) (Paused s) (registered s) r (reg_sections s) (input s) (cmd s) (added s).
Definition set_sections (x : Sections) : RegisterCommand :=
  mkRegisterCommand (NonInteractive s) (LeaveRunner s) (TagList s) (RunUntagged s) (Locked s) (AccessLevel s)
    (MaximumTimeout s) (Paused s) (registered s) (reg_runner s) x (input s) (cmd s) (added s).
Definition set_tags (tags : string) (untagged : bool) : RegisterCommand :=
  mkRegisterCommand (NonInteractive s) (LeaveRunner s) tags untagged (Locked s) (AccessLevel s)
    (MaximumTimeout s) (Paused s) (registered s) (reg_runner s) (reg_sections s) (input s) (cmd s) (added s).
Definition set_registered : RegisterCommand :=
  mkRegisterCommand (NonInteractive s) (LeaveRunner s) (TagList s) (RunUntagged s) (Locked s) (AccessLevel s)
    (MaximumTimeout s) (Paused s) true (reg_runner s) (reg_sections s) (input s) (cmd s) (added s).
Definition set_added (l : list (RunnerConfig * Sections)) : RegisterCommand :=
  mkRegisterCommand (NonInteractive s) (LeaveRunner s) (TagList s) (RunUntagged s) (Locked s) (AccessLevel s)
    (MaximumTimeout s) (Paused s) (registered s) (reg_runner s) (reg_sections s) (input s) (cmd s) l.
End Setters.

(** The fields of the runner that registration sets. *)
Definition with_runner (r : RunnerConfig) (name : string) (c : RunnerCredentials) (executor : string)
    (machine : option DockerMachine) (kubernetes : option KubernetesConfig) : RunnerConfig :=
  {| Name := name; Limit := Limit r; OutputLimit := OutputLimit r; RequestConcurrency := RequestConcurrency r;
     Credentials_ := c; Executor := executor; BuildsDir := BuildsDir r; CacheDir := CacheDir r;
     CloneURL := CloneURL r; Environment := Environment r; PreCloneScript := PreCloneScript r;
     PreBuildScript := PreBuildScript r; PostBuildScript := PostBuildScript r;
     DebugTraceDisabled := DebugTraceDisabled r; Shell := Shell r; CustomBuildDir := CustomBuildDir r;
     CacheCfg := CacheCfg r; Machine := machine; Kubernetes := kubernetes |}.
Definition set_name (r : RunnerConfig) (name : string) := with_runner r name (Credentials_ r) (Executor r) (Machine r) (Kubernetes r).
Definition set_executor (r : RunnerConfig) (e : string) := with_runner r (Name r) (Credentials_ r) e (Machine r) (Kubernetes r).
Definition set_credentials (r : RunnerConfig) (url token : string) :=
  with_runner r (Name r)
    {| RC_URL := url; RC_Token := token; RC_TLSCAFile := RC_TLSCAFile (Credentials_ r);
       RC_TLSCertFile := RC_TLSCertFile (Credentials_ r); RC_TLSKeyFile := RC_TLSKeyFile (Credentials_ r) |}
    (Executor r) (Machine r) (Kubernetes r).
Definition set_machine_section (r : RunnerConfig) (m : option DockerMachine) :=
  with_runner r (Name r) (Credentials_ r) (Executor r) m (Kubernetes r).
Definition set_kubernetes_section (r : RunnerConfig) (k : option KubernetesConfig) :=
  with_runner r (Name r) (Credentials_ r) (Executor r) (Machine r) k.

(** The prompt reads lines until one is acceptable: [askOnce] and its loop. *)
Fixpoint askOnce (result : string) (allowEmpty : bool) (lines : list string) : option (string * list string) :=
  match lines with
  | [] => None
  | line :: rest =>
      let newResult := TrimSpace line in
      if bool_decide (newResult ≠ "") then Some (newResult, rest)
      else if allowEmpty || bool_decide (result ≠ "") then Some (result, rest)
      else askOnce result allowEmpty rest
  end.

Definition empty_docker : DockerConfig :=
  {| Hostname := ""; Image := ""; Runtime := ""; Memory := ""; MemorySwap := ""; MemoryReservation := "";
     CPUSetCPUs := ""; CPUS := ""; DNS := []; DNSSearch := []; Privileged := false;
     DisableEntrypointOverwrite := false; UsernsMode := ""; CapAdd := []; CapDrop := []; OomKillDisable := false;
     SecurityOpt := []; Devices := []; DisableCache := false; Volumes := []; VolumeDriver := "";
     DockerCacheDir := ""; ExtraHosts := []; VolumesFrom := []; NetworkMode := ""; Links := []; Services := [];
     WaitForServicesTimeout := 0; AllowedImages := []; AllowedServices := []; PullPolicy := ""; ShmSize := 0;
     Tmpfs := ∅; ServicesTmpfs := ∅; SysCtls := ∅; HelperImage := "" |}.
Definition with_image (d : DockerConfig) (image : string) (volumes : list string) : DockerConfig :=
  {| Hostname := Hostname d; Image := image; Runtime := Runtime d; Memory := Memory d; MemorySwap := MemorySwap d;
     MemoryReservation := MemoryReservation d; CPUSetCPUs := CPUSetCPUs d; CPUS := CPUS d; DNS := DNS d;
     DNSSearch := DNSSearch d; Privileged := Privileged d;
     DisableEntrypointOverwrite := DisableEntrypointOverwrite d; UsernsMode := UsernsMode d; CapAdd := CapAdd d;
     CapDrop := CapDrop d; OomKillDisable := OomKillDisable d; SecurityOpt := SecurityOpt d; Devices := Devices d;
     DisableCache := DisableCache d; Volumes := volumes; VolumeDriver := VolumeDriver d;
     DockerCacheDir := DockerCacheDir d; ExtraHosts := ExtraHosts d; VolumesFrom := VolumesFrom d;
     NetworkMode := NetworkMode d; Links := Links d; Services := Services d;
     WaitForServicesTimeout := WaitForServicesTimeout d; AllowedImages := AllowedImages d;
     AllowedServices := AllowedServices d; PullPolicy := PullPolicy d; ShmSize := ShmSize d; Tmpfs := Tmpfs d;
     ServicesTmpfs := ServicesTmpfs d; SysCtls := SysCtls d; HelperImage := HelperImage d |}.

(** The volume of the caches is added unless a volume with that path is there. *)
Definition with_cache (volumes : list string) : list string :=
  if existsb (λ v, bool_decide (last (Split v ":"%char) = Some "/cache")) volumes then volumes else volumes ++ ["/cache"].

Section Register.
Context `{!ConfigFiles} (N : Network) (configFile : string).
(** The value of a flag, and whether an executor has that name. *)
Context (flags : string → string) (known : string → bool).

Definition panic {A} (msg : string) : Reg A := failM (PanicStop msg).

(** Every prompt of the program is nonempty. *)
Definition ask (key : string) (allowEmpty : bool) : Reg string :=
  let result := TrimSpace (flags key) in
  let! quiet := mget NonInteractive in
  if (quiet : bool) then
    if bool_decide (result = "") && negb allowEmpty then panic ("The " +:+ key +:+ " needs to be entered")
    else returnM result
  else
    let! lines := mget input in
    match askOnce result allowEmpty lines with
    | None => panic "EOF"
    | Some (answer, rest) => mupd (λ s, set_input s rest) ;;! returnM answer
    end.

(** [fuel] bounds the executors that are tried; one line is read for each. *)
Fixpoint askExecutor_loop (fuel : nat) : Reg unit :=
  match fuel with
  | 0 => failM OutOfFuel
  | S n =>
      let! executor := ask "executor" true in
      mupd (λ s, set_runner s (set_executor (reg_runner s) executor)) ;;!
      if known executor then returnM tt
      else
        let! quiet := mget NonInteractive in
        if (quiet : bool) then panic "Invalid executor specified" else askExecutor_loop n
  end.
Definition askExecutor : Reg unit := let! lines := mget input in askExecutor_loop (S (length lines)).

Definition askDocker : Reg unit :=
  let! x := mget reg_sections in
  let docker := default empty_docker (s_Docker x) in
  let! image := ask "docker-image" false in
  mupd (λ s, set_sections s (mkSections (Some (with_image docker image (with_cache (Volumes docker)))) (s_SSH x)
                               (s_Parallels x) (s_VirtualBox x))).

(** A section that is missing is a nil pointer. *)
Definition section_of {A} (f : Sections → option A) : Reg A :=
  let! x := mget reg_sections in
  match f x with
  | Some a => returnM a
  | None => panic "runtime error: invalid memory address or nil pointer dereference"
  end.

Definition set_ssh (c : SSHConfig) : Reg unit :=
  mupd (λ s, set_sections s (mkSections (s_Docker (reg_sections s)) (Some c) (s_Parallels (reg_sections s))
                               (s_VirtualBox (reg_sections s)))).

Definition askParallels : Reg unit :=
  let! name := ask "parallels-base-name" false in
  let! p := section_of s_Parallels in
  mupd (λ s, set_sections s (mkSections (s_Docker (reg_sections s)) (s_SSH (reg_sections s))
    (Some {| PC_BaseName := name; PC_TemplateName := PC_TemplateName p; PC_DisableSnapshots := PC_DisableSnapshots p;
             PC_TimeServer := PC_TimeServer p |}) (s_VirtualBox (reg_sections s)))).

Definition askVirtualBox : Reg unit :=
  let! name := ask "virtualbox-base-name" false in
  let! v := section_of s_VirtualBox in
  mupd (λ s, set_sections s (mkSections (s_Docker (reg_sections s)) (s_SSH (reg_sections s)) (s_Parallels (reg_sections s))
    (Some {| VB_BaseName := name; VB_BaseSnapshot := VB_BaseSnapshot v; VB_DisableSnapshots := VB_DisableSnapshots v |}))).

Definition askSSHServer : Reg unit :=
  let! host := ask "ssh-host" false in
  let! c := section_of s_SSH in
  let! port := ask "ssh-port" true in
  set_ssh {| SSH_User := SSH_User c; SSH_Password := SSH_Password c; SSH_Host := host; SSH_Port := port;
             SSH_IdentityFile := SSH_IdentityFile c |}.

Definition askSSHLogin : Reg unit :=
  let! user := ask "ssh-user" false in
  let! c := section_of s_SSH in
  let! password := ask "ssh-password" true in
  let! identity := ask "ssh-identity-file" true in
  set_ssh {| SSH_User := user; SSH_Password := password; SSH_Host := SSH_Host c; SSH_Port := SSH_Port c;
             SSH_IdentityFile := identity |}.

Definition pick {A} (b : bool) (o : option A) : option A := if b then o else None.

(** The sections an executor keeps, and what is asked for it. *)
Definition keep (kubernetes machine docker ssh parallels virtualbox : bool) : Reg unit :=
  mupd (λ s,
    let r := reg_runner s in
    let x := reg_sections s in
    set_sections (set_runner s (set_machine_section (set_kubernetes_section r (pick kubernetes (Kubernetes r)))
                                  (pick machine (Machine r))))
      (mkSections (pick docker (s_Docker x)) (pick ssh (s_SSH x)) (pick parallels (s_Parallels x))
         (pick virtualbox (s_VirtualBox x)))).

Definition askExecutorOptions : Reg unit :=
  let! r := mget reg_runner in
  let for_ name := bool_decide (Executor r = name) in
  if for_ "kubernetes" then keep true false false false false false
  else if for_ "docker+machine" then keep false true true false false false ;;! askDocker
  else if for_ "docker-ssh+machine" then keep false true true true false false ;;! askDocker ;;! askSSHLogin
  else if for_ "docker" || for_ "docker-windows" then keep false false true false false false ;;! askDocker
  else if for_ "docker-ssh" then keep false false true true false false ;;! askDocker ;;! askSSHLogin
  else if for_ "ssh" then keep false false false true false false ;;! askSSHServer ;;! askSSHLogin
  else if for_ "parallels" then keep false false false true true false ;;! askParallels ;;! askSSHServer
  else if for_ "virtualbox" then keep false false false true false true ;;! askVirtualBox ;;! askSSHLogin
  else keep false false false false false false.

(** A command of the configuration inside registration. *)
Definition run_cmd {A} (c : Cmd A) : Reg A :=
  λ s, match c (cmd s) with
       | (Ok a, c') => (Ok a, set_cmd s c')
       | (Err msg, c') => (Err (ExitStop msg), set_cmd s c')
       end.

(** The branch of [askRunner] without a token: the registration token is asked for. *)
Definition register_new (url : string) : Reg unit :=
  let! token := ask "registration-token" false in
  mupd (λ s, set_runner s (set_credentials (reg_runner s) url token)) ;;!
  let! name := ask "name" false in
  mupd (λ s, set_runner s (set_name (reg_runner s) name)) ;;!
  let! tags := ask "tag-list" true in
  mupd (λ s, set_tags s tags (bool_decide (tags = "") || RunUntagged s)) ;;!
  let! s := mget id in
  let parameters := {| RR_Description := name; RR_Tags := tags; RR_RunUntagged := RunUntagged s; RR_Locked := Locked s;
                       RR_AccessLevel := AccessLevel s; RR_MaximumTimeout := MaximumTimeout s; RR_Active := negb (Paused s) |} in
  let credentials := Credentials_ (reg_runner s) in
  mupd (λ s, set_cmd s (add_call (NRegister credentials parameters) (cmd s))) ;;!
  match RegisterRunner N (calls (cmd s)) credentials parameters with
  | None => panic "Failed to register this runner. Perhaps you are having network problems"
  | Some token => mupd (λ s, set_registered (set_runner s (set_credentials (reg_runner s) url token)))
  end.

Definition askRunner : Reg unit :=
  let! url := ask "url" false in
  mupd (λ s, set_runner s (set_credentials (reg_runner s) url (Token (reg_runner s)))) ;;!
  let! r := mget reg_runner in
  if bool_decide (Token r ≠ "") then
    let! ok := run_cmd (verify_runner N (Credentials_ r)) in
    if (ok : bool) then returnM tt
    else panic "Failed to verify this runner. Perhaps you are having network problems"
  else register_new url.

Definition NotProtected : string := "not_protected".
Definition RefProtected : string := "ref_protected".
Definition accessLevelValid (levels : list string) (givenLevel : string) : bool :=
  bool_decide (givenLevel = "") || bool_decide (givenLevel ∈ levels).

Definition addRunner : Reg unit :=
  mupd (λ s, set_added (set_cmd s (set_config (with_runners (cmd_config (cmd s))
                                                (runners_of (cmd s) ++ [reg_runner s])) (cmd s)))
               ((reg_runner s, reg_sections s) :: added s)).

(** What follows [askRunner]; the error of saving is dropped. *)
Definition finish_registration : Reg unit :=
  askExecutor ;;! askExecutorOptions ;;! addRunner ;;! run_cmd (save_config configFile) ;;! returnM tt.

(** The deferred function: a panic unregisters a runner that was registered. *)
Definition deregister_on_panic (c : Reg unit) : Reg unit :=
  let! r := attempt c in
  match r with
  | Err (PanicStop msg) =>
      let! s := mget id in
      (if registered s then run_cmd (unregister_runner N (Credentials_ (reg_runner s))) ;;! returnM tt else returnM tt) ;;!
      panic msg
  | r => lift r
  end.

(** The goroutine that waits for an interrupt. *)
Definition on_interrupt : Reg unit :=
  let! r := mget reg_runner in
  run_cmd (unregister_runner N (Credentials_ r)) ;;! failM (ExitStop "RECEIVED SIGNAL: interrupt").

Definition register_Execute : Reg unit :=
  let! err := run_cmd (load_config configFile) in
  match err with
  | Some err => panic (Error err)
  | None =>
      let! level := mget AccessLevel in
      if negb (accessLevelValid [NotProtected; RefProtected] level)
      then panic "Given access-level is not valid. Please refer to gitlab-runner register -h for the correct options."
      else
        askRunner ;;!
        let! leave := mget LeaveRunner in
        if (leave : bool) then finish_registration else deregister_on_panic finish_registration
  end.
End Register.

(** ** run-single *)

Record RunSingleCommand := mkSingle {
  rs_MaxBuilds : Z; rs_WaitTimeout : Z; rs_lastBuild : Z; runForever : bool; finished : bool;
  rs_builds : nat; rs_acquired : nat; rs_released : nat }.

(** What [processBuild] met: the coordinator refused the runner, had no job, gave one of which
    no build could be made, or a build was run. *)
Inductive poll := NotHealthy | NoJob | NoBuild (err : string) | BuildRan (err : option string).

Definition postBuild (r : RunSingleCommand) (now : Z) : RunSingleCommand :=
  mkSingle (if (0 <? rs_MaxBuilds r)%Z then rs_MaxBuilds r - 1 else rs_MaxBuilds r) (rs_WaitTimeout r) now (runForever r)
    (finished r) (S (rs_builds r)) (rs_acquired r) (rs_released r).

Definition processBuild (r : RunSingleCommand) (p : poll) (now : Z) : option string * RunSingleCommand :=
  match p with
  | NotHealthy | NoJob => (None, r)
  | NoBuild err => (Some err, r)
  | BuildRan err => (err, postBuild r now)
  end.

Definition set_finished (r : RunSingleCommand) : RunSingleCommand :=
  mkSingle (rs_MaxBuilds r) (rs_WaitTimeout r) (rs_lastBuild r) (runForever r) true (rs_builds r) (rs_acquired r) (rs_released r).

Definition checkFinishedConditions (r : RunSingleCommand) (now : Z) : RunSingleCommand :=
  let r := if (rs_MaxBuilds r <? 1)%Z && negb (runForever r) then set_finished r else r in
  if (0 <? rs_WaitTimeout r)%Z && (rs_WaitTimeout r <? Z.quot (now - rs_lastBuild r) Second)%Z then set_finished r else r.

(** A turn of the loop of [Execute]: the executor is acquired, even when that fails, and
    released. [now] is the time after the build, [later] that of the check. *)
Definition single_turn (r : RunSingleCommand) (p : poll) (now later : Z) : RunSingleCommand :=
  if finished r then r
  else
    let r := mkSingle (rs_MaxBuilds r) (rs_WaitTimeout r) (rs_lastBuild r) (runForever r) (finished r) (rs_builds r)
               (S (rs_acquired r)) (rs_released r) in
    let '(_, r) := processBuild r p now in
    let r := checkFinishedConditions r later in
    mkSingle (rs_MaxBuilds r) (rs_WaitTimeout r) (rs_lastBuild r) (runForever r) (finished r) (rs_builds r)
      (rs_acquired r) (S (rs_released r)).

(** The start of [Execute], and its events: a turn, or the interrupt that sets [finished]. *)
Definition single_start (maxBuilds waitTimeout now : Z) : RunSingleCommand :=
  mkSingle maxBuilds waitTimeout now (bool_decide (maxBuilds = 0%Z)) false 0 0 0.

Inductive single_event := Turn (p : poll) (now later : Z) | Interrupted.
Definition single_step (r : RunSingleCommand) (e : single_event) : RunSingleCommand :=
  match e with Turn p now later => single_turn r p now later | Interrupted => set_finished r end.
Definition single_run (r : RunSingleCommand) (l : list single_event) : RunSingleCommand := foldl single_step r l.

(** The checks at the start of [Execute]; [known] are the registered executors. *)
Definition single_checks (url token executor : string) (known : list string) : option string :=
  if bool_decide (url = "") then Some "Missing URL"
  else if bool_decide (token = "") then Some "Missing Token"
  else if bool_decide (executor = "") then Some "Missing Executor"
  else if bool_decide (executor ∈ known) then None else Some ("Unknown executor: " +:+ executor).

(** [waitForInterrupts]: what it receives, and where it is: before the first signal, after
    quit signals, pumping the abort signal into builds, or at one of its ends. *)
Inductive interrupt_event := GotQuit | GotSignal | ShutdownTimer | DoneSignal.
Inductive interrupts := AwaitSignal | QuitAsked | AbortingBuilds | ForcedExit | ShutdownTimedOut | InterruptsDone.

Definition waitForInterrupts (s : interrupts) (e : interrupt_event) : interrupts :=
  match s, e with
  | AwaitSignal, GotQuit | QuitAsked, GotQuit => QuitAsked
  | AwaitSignal, GotSignal | QuitAsked, GotSignal => AbortingBuilds
  | AbortingBuilds, (GotQuit | GotSignal) => ForcedExit
  | AbortingBuilds, ShutdownTimer => ShutdownTimedOut
  | AbortingBuilds, DoneSignal => InterruptsDone
  | _, _ => s
  end.
(** Is [finished] set, and are builds aborted. *)
Definition asks_finish (s : interrupts) : bool := match s with AwaitSignal => false | _ => true end.
Definition aborts_builds (s : interrupts) : bool := match s with AwaitSignal | QuitAsked => false | _ => true end.

(** Builds are aborted exactly from the first signal on that is not a quit; quits alone let
    them finish, and no signal is lost on taking new jobs. *)
Lemma interrupts_abort_builds l :
  let s := foldl waitForInterrupts AwaitSignal l in
  (aborts_builds s = true ↔ GotSignal ∈ l) ∧ (asks_finish s = true ↔ GotSignal ∈ l ∨ GotQuit ∈ l).
Proof.
  cbv zeta. enough (H : ∀ s, (aborts_builds (foldl waitForInterrupts s l) = true ↔ aborts_builds s = true ∨ GotSignal ∈ l) ∧
    (asks_finish (foldl waitForInterrupts s l) = true ↔ asks_finish s = true ∨ GotSignal ∈ l ∨ GotQuit ∈ l)).
  { destruct (H AwaitSignal) as [-> ->]. simpl. split; split; [by intros [?|?]|by right|by intros [?|?]|by right]. }
  induction l as [|e l IH]; intros s; simpl; [split; split; auto; intros [?|H]; try done; set_solver|].
  destruct (IH (waitForInterrupts s e)) as [-> ->]. rewrite !elem_of_cons.
  destruct s, e; simpl; split; split; intuition congruence.
Qed.

(** *** What it runs *)

Record single_ok (m : Z) (r : RunSingleCommand) : Prop := {
  si_forever : runForever r = false;
  si_builds : (Z.of_nat (rs_builds r) + rs_MaxBuilds r = m)%Z;
  si_left : (0 ≤ rs_MaxBuilds r)%Z;
  si_end : rs_MaxBuilds r = 0%Z → finished r = true;
  si_held : rs_acquired r = rs_released r }.

Lemma check_fields r now :
  let r' := checkFinishedConditions r now in
  rs_MaxBuilds r' = rs_MaxBuilds r ∧ runForever r' = runForever r ∧ rs_builds r' = rs_builds r ∧
  rs_acquired r' = rs_acquired r ∧ rs_released r' = rs_released r ∧
  (finished r' = finished r ∨ finished r' = true) ∧
  ((rs_MaxBuilds r < 1)%Z → runForever r = false → finished r' = true).
Proof.
  cbv zeta. unfold checkFinishedConditions. destruct (Z.ltb_spec (rs_MaxBuilds r) 1), (runForever r) eqn:Ef; simpl;
    repeat (case_match; simpl); rewrite ?Ef; split_and!; auto; try lia; done.
Qed.

Lemma turn_ok m r p now later : single_ok m r → single_ok m (single_turn r p now later).
Proof.
  intros [Hf Hb Hl He Hh]. unfold single_turn. destruct (finished r) eqn:Efin; [done|].
  set (r0 := mkSingle _ _ _ _ _ _ _ _).
  assert (Hr0 : (0 < rs_MaxBuilds r0)%Z).
  { simpl. destruct (decide (rs_MaxBuilds r = 0%Z)) as [E|]; [|lia]. specialize (He E). done. }
  destruct (processBuild r0 p now) as [err r1] eqn:E1.
  assert (H1 : runForever r1 = false ∧ (Z.of_nat (rs_builds r1) + rs_MaxBuilds r1 = m)%Z ∧ (0 ≤ rs_MaxBuilds r1)%Z ∧
               rs_acquired r1 = S (rs_released r1)).
  { destruct p; simplify_eq/=; try (split_and!; try done; lia).
    apply Z.ltb_lt in Hr0. simpl in Hr0. rewrite Hr0. apply Z.ltb_lt in Hr0. split_and!; try done; lia. }
  destruct H1 as (H1 & H2 & H3 & H4).
  destruct (check_fields r1 later) as (C1 & C2 & C3 & C4 & C5 & _ & C7).
  constructor; cbn [runForever rs_builds rs_MaxBuilds finished rs_acquired rs_released];
    rewrite ?C1, ?C2, ?C3, ?C4, ?C5; auto; try lia.
  intros E. apply C7; [lia|done].
Qed.

(** Run-single with a limit of [m] jobs processes at most [m], is finished once it has, and
    has released the executor as often as it acquired it. *)
Theorem single_runner_respects_max_builds (m waitTimeout now : Z) (l : list single_event) :
  (0 < m)%Z →
  let r := single_run (single_start m waitTimeout now) l in
  (Z.of_nat (rs_builds r) ≤ m)%Z ∧ (Z.of_nat (rs_builds r) = m → finished r = true) ∧ rs_acquired r = rs_released r.
Proof.
  intros Hm. cbv zeta.
  assert (single_ok m (single_run (single_start m waitTimeout now) l)) as [Hf Hb Hl He Hh].
  { assert (Hs : single_ok m (single_start m waitTimeout now)).
    { constructor; simpl; try done; try lia. apply bool_decide_eq_false. lia. }
    revert Hs. generalize (single_start m waitTimeout now). induction l as [|[p t t'|] l IH]; intros r Hr; simpl; [done|..].
    - apply IH. by apply turn_ok.
    - apply IH. destruct Hr. by constructor. }
  split_and!; [lia|intros; apply He; lia|done].
Qed.

(** ** What leaves the configuration *)

Section ListLaws.
Context `{!ConfigFiles} (N : Network) (configFile : string).

(** The coordinator said that it does not have the runner any more, at some point of [h]. *)
Definition reported_dead (h : list ncall) (r : RunnerConfig) : Prop :=
  ∃ h', NVerify (Credentials_ r) :: h' `suffix_of` h ∧ VerifyRunner N h' (Credentials_ r) = false.

Lemma suffix_cons_weaken {A} (l h : list A) x : l `suffix_of` h → l `suffix_of` x :: h.
Proof. intros [k ->]. exists (x :: k). done. Qed.

(** The runners that [verify_all] drops were reported dead, and the calls only grow. *)
Lemma verify_all_spec l s : ∃ alive s', verify_all N l s = (Ok alive, s') ∧
  cmd_config s' = cmd_config s ∧ saved s' = saved s ∧ calls s `suffix_of` calls s' ∧ alive `sublist_of` l ∧
  ∀ r, r ∈ l → r ∈ alive ∨ reported_dead (calls s') r.
Proof.
  revert s. induction l as [|r l IH]; intros s; simpl.
  { exists [], s. split_and!; try done. intros r Hr. by apply not_elem_of_nil in Hr. }
  unfold bindM, verify_runner. cbn [calls add_call].
  destruct (IH (add_call (NVerify (Credentials_ r)) s)) as (alive & s' & -> & Hc & Hs & Hsuf & Hsub & Hdead).
  assert (Hsuf' : calls s `suffix_of` calls s')
    by (etrans; [|exact Hsuf]; apply suffix_cons_weaken; reflexivity).
  destruct (VerifyRunner N (calls s) (Credentials_ r)) eqn:Ev; eexists _, s'; (split; [reflexivity|]);
    (split_and!; [done..| |]); try (by constructor); intros r' [->|Hr']%elem_of_cons.
  - left. left.
  - destruct (Hdead r' Hr'); [left; by right|by right].
  - right. exists (calls s). split; [exact Hsuf|done].
  - by apply Hdead.
Qed.

(** Saving writes the configuration of the moment, or leaves the file alone. *)
Lemma save_config_spec s : ∃ r s', save_config configFile s = (r, s') ∧
  Runners (lc_config (cmd_config s')) = Runners (lc_config (cmd_config s)) ∧ calls s' = calls s ∧
  (saved s' = saved s ∨ ∃ c, saved s' = c :: saved s ∧ Runners (lc_config c) = Runners (lc_config (cmd_config s))).
Proof.
  unfold save_config, SaveConfig. destruct (EncodeFails _); [by eexists _, s; auto|].
  destruct (WriteFile _ _); eexists _, _; (split; [reflexivity|]); simpl; [by auto|].
  split_and!; [done..|]. right. by eexists.
Qed.

(** What a command that may update the list of runners does to the file: nothing, or one
    configuration whose runners satisfy [P]. *)
Definition writes (P : list RunnerConfig → Prop) (s s' : cmdstate) : Prop :=
  saved s' = saved s ∨ ∃ c, saved s' = c :: saved s ∧ P (Runners (lc_config c)).

Lemma update_runners_spec runners s : ∃ r s', update_runners configFile runners s = (r, s') ∧
  calls s' = calls s ∧ writes (λ l, l = runners) s s'.
Proof.
  unfold update_runners, bindM, mupd.
  destruct (save_config_spec (set_config (with_runners (cmd_config s) runners) s)) as (r & s' & -> & _ & Hc & Hw).
  destruct r as [r|e]; [|by exists (Err e), s'].
  eexists _, s'. split; [reflexivity|]. done.
Qed.

(** Verify removes only runners it was asked to look at and that the coordinator reported
    dead: the file is written at most once, with some of the runners that were configured
    (possibly in another order), and every runner that is missing from it was selected
    and reported dead during the command. *)
Theorem verify_deletes_only_dead_runners (name : string) (credentials : RunnerCredentials) (delete : bool) (s : cmdstate) :
  let before := Runners (lc_config (co_loadConfig (cmd_config s) configFile).2) in
  let s' := (verify_Execute N configFile name credentials delete s).2 in
  writes (λ l, l ⊆+ before ∧
               ∀ r, r ∈ before → r ∈ l ∨ (selected name credentials r = true ∧ reported_dead (calls s') r)) s s'.
Proof.
  cbv zeta. unfold verify_Execute, load_config, bindM.
  destruct (co_loadConfig (cmd_config s) configFile) as [[err|] c] eqn:El; simpl; [by left|].
  unfold mget, lift, runners_of. simpl. unfold selectRunners.
  destruct (selectorPresent name credentials && _); simpl; [by left|].
  set (toVerify := filter (λ r, selected name credentials r = true) _).
  set (others := filter (λ r, selected name credentials r = false) _).
  destruct (verify_all_spec toVerify (set_config c s)) as (alive & s1 & -> & Hc1 & Hs1 & Hsuf & Hsub & Hdead).
  destruct (_ =? _)%nat; [by left|]. destruct delete; simpl; [|by left].
  destruct (update_runners_spec (others ++ alive) s1) as (r & s2 & -> & Hcalls & Hw). simpl.
  destruct Hw as [Hw|(c2 & Hw & Hr)]; [left; by rewrite Hw|right]. exists c2. rewrite Hw, Hs1, Hr, Hcalls. split; [done|].
  assert (Hperm : others ++ toVerify ≡ₚ Runners (lc_config c)).
  { clear. subst others toVerify. induction (Runners (lc_config c)) as [|r l IH]; [done|]. rewrite !filter_cons.
    destruct (selected name credentials r); simpl; [by rewrite <- Permutation_middle, IH|by rewrite IH]. }
  split.
  - rewrite <- Hperm. apply submseteq_app; [done|]. by apply sublist_submseteq.
  - intros r' Hr'. rewrite <- Hperm in Hr'. apply elem_of_app in Hr' as [Ho|Hv]; [left; set_solver|].
    destruct (Hdead r' Hv) as [Ha|Ha]; [left; set_solver|right].
    apply list_elem_of_filter in Hv as [Hsel _]. done.
Qed.

(** The coordinator confirmed that it dropped the credentials. *)
Definition dropped (h : list ncall) (c : RunnerCredentials) : Prop :=
  ∃ h', NUnregister c :: h' `suffix_of` h ∧ UnregisterRunner N h' c = true.

Lemma unregister_all_spec l s : ∃ kept s', unregisterAllRunners N l s = (Ok kept, s') ∧
  saved s' = saved s ∧ calls s `suffix_of` calls s' ∧ kept `sublist_of` l ∧
  ∀ r, r ∈ l → r ∈ kept ∨ dropped (calls s') (Credentials_ r).
Proof.
  revert s. induction l as [|r l IH]; intros s; simpl.
  { exists [], s. split_and!; try done. intros r Hr. by apply not_elem_of_nil in Hr. }
  unfold bindM, unregister_runner. cbn [calls add_call].
  destruct (IH (add_call (NUnregister (Credentials_ r)) s)) as (kept & s' & -> & Hs & Hsuf & Hsub & Hd).
  assert (Hsuf' : calls s `suffix_of` calls s')
    by (etrans; [|exact Hsuf]; apply suffix_cons_weaken; reflexivity).
  destruct (UnregisterRunner N (calls s) (Credentials_ r)) eqn:Ev; eexists _, s'; (split; [reflexivity|]);
    (split_and!; [done..| |]); try (by constructor); intros r' [->|Hr']%elem_of_cons.
  - right. exists (calls s). split; [exact Hsuf|done].
  - by apply Hd.
  - left. left.
  - destruct (Hd r' Hr'); [left; by right|by right].
Qed.

Lemma unregister_single_spec name credentials s : ∃ r s', unregisterSingleRunner N name credentials s = (r, s') ∧
  saved s' = saved s ∧
  ∀ kept, r = Ok kept → kept `sublist_of` runners_of s ∧
    ∀ r, r ∈ runners_of s → r ∈ kept ∨ dropped (calls s') (Credentials_ r).
Proof.
  unfold unregisterSingleRunner. unfold bindM at 1, mget at 1.
  set (found := bool_decide (name ≠ "")).
  assert (Hgo : ∀ c, ∃ r s', (let! ok := unregister_runner N c in
      if negb ok then failM ("Failed to unregister runner " +:+ name)
      else let! runners := mget runners_of in returnM (filter (λ r, Credentials_ r ≠ c) runners)) s = (r, s') ∧
    saved s' = saved s ∧ ∀ kept, r = Ok kept → kept `sublist_of` runners_of s ∧
      ∀ r, r ∈ runners_of s → r ∈ kept ∨ dropped (calls s') (Credentials_ r)).
  { intros c. unfold bindM, unregister_runner, mget, failM, returnM.
    destruct (UnregisterRunner N (calls s) c) eqn:Eu; simpl; eexists _, _; (split; [reflexivity|]); (split; [done|]); [|done].
    intros kept [= <-]. split; [apply sublist_filter|]. intros r Hr.
    destruct (decide (Credentials_ r = c)) as [<-|Hne]; [right|left; by apply list_elem_of_filter].
    exists (calls s). done. }
  unfold bindM at 1. destruct found; [|apply Hgo]. unfold lift.
  destruct (RunnerByName _ _) as [r|e]; [apply Hgo|by eexists _, _].
Qed.

(** Unregister takes a runner out of the configuration only after the coordinator confirmed
    that it dropped its credentials; a runner whose unregistration failed stays. *)
Theorem unregister_keeps_failures (allRunners : bool) (name : string) (credentials : RunnerCredentials) (s : cmdstate) :
  let before := Runners (lc_config (co_loadConfig (cmd_config s) configFile).2) in
  let s' := (unregister_Execute N configFile allRunners name credentials s).2 in
  writes (λ l, l `sublist_of` before ∧ ∀ r, r ∈ before → r ∈ l ∨ dropped (calls s') (Credentials_ r)) s s'.
Proof.
  cbv zeta. unfold unregister_Execute, load_config, bindM.
  destruct (co_loadConfig (cmd_config s) configFile) as [[err|] c] eqn:El; simpl; [by left|].
  unfold mget. simpl. set (s0 := set_config c s).
  assert (Hmid : ∃ r s1, (if allRunners then unregisterAllRunners N (runners_of s0)
                          else unregisterSingleRunner N name credentials) s0 = (r, s1) ∧ saved s1 = saved s0 ∧
    ∀ kept, r = Ok kept → kept `sublist_of` runners_of s0 ∧
      ∀ r, r ∈ runners_of s0 → r ∈ kept ∨ dropped (calls s1) (Credentials_ r)).
  { destruct allRunners; [|apply unregister_single_spec].
    destruct (unregister_all_spec (runners_of s0) s0) as (kept & s1 & -> & Hs & _ & Hsub & Hd).
    eexists _, s1. split; [reflexivity|]. split; [done|]. by intros ? [= <-]. }
  destruct Hmid as (r & s1 & -> & Hs1 & Hkept). destruct r as [kept|e]; [|left; done].
  destruct (Hkept kept eq_refl) as [Hsub Hd]. destruct (_ =? _)%nat; [left; done|].
  destruct (update_runners_spec kept s1) as (r & s2 & -> & Hcalls & Hw). simpl.
  destruct Hw as [Hw|(c2 & Hw & Hr)]; [left; by rewrite Hw|right]. exists c2. by rewrite Hw, Hs1, Hr, Hcalls.
Qed.
End ListLaws.

(** ** What registration leaves behind *)

Section RegisterLaws.
Context `{!ConfigFiles} (N : Network) (configFile : string) (flags : string → string) (known : string → bool).

(** What only [askRunner] and the deferred function change: the calls, whether the runner was
    registered, its credentials and the setting that leaves it. *)
Definition identity (s : RegisterCommand) : list ncall * bool * RunnerCredentials * bool :=
  (calls (cmd s), registered s, Credentials_ (reg_runner s), LeaveRunner s).

(** An operation that keeps what [obs] sees and does not run out of fuel; a quiet one keeps
    the identity, a plain one the executor too. *)
Definition keeps {O A} (obs : RegisterCommand → O) (c : Reg A) : Prop :=
  ∀ s, obs (c s).2 = obs s ∧ (c s).1 ≠ Err OutOfFuel.
Definition with_executor (s : RegisterCommand) := (identity s, Executor (reg_runner s)).
Notation quiet_op := (keeps identity).
Notation plain_op := (keeps with_executor).

Lemma plain_quiet {A} (c : Reg A) : plain_op c → quiet_op c.
Proof. intros Hc s. destruct (Hc s) as [H1 H2]. split; [|done]. exact (f_equal fst H1). Qed.

Lemma p_bind {O A B} (obs : RegisterCommand → O) (c : Reg A) (k : A → Reg B) :
  keeps obs c → (∀ a, keeps obs (k a)) → keeps obs (bindM c k).
Proof.
  intros Hc Hk s. unfold bindM. specialize (Hc s). destruct (c s) as [[a|e] s1]; simpl in *.
  - destruct (Hk a s1) as [H1 H2]. split; [by rewrite H1; apply Hc|done].
  - destruct Hc as [H1 H2]. split; [done|]. intros [= ->]. done.
Qed.
Lemma p_get {A} (f : RegisterCommand → A) : plain_op (mget f).
Proof. done. Qed.
Lemma p_ret {A} (a : A) : plain_op (returnM a).
Proof. done. Qed.
Lemma p_panic {A} msg : plain_op (panic msg : Reg A).
Proof. done. Qed.
Lemma p_upd f : (∀ s, with_executor (f s) = with_executor s) → plain_op (mupd f).
Proof. intros Hf s. split; [apply Hf|done]. Qed.

Create HintDb plain_ops.
#[local] Hint Resolve p_bind p_get p_ret p_panic : plain_ops.
#[local] Hint Extern 1 (plain_op (mupd _)) => apply p_upd; intros []; reflexivity : plain_ops.
#[local] Hint Extern 2 (plain_op (if ?b then _ else _)) => destruct b : plain_ops.
#[local] Hint Extern 2 (plain_op (match ?x with _ => _ end)) => destruct x : plain_ops.

Lemma p_ask key e : plain_op (ask flags key e).
Proof. unfold ask. auto 10 with plain_ops. Qed.
Lemma p_section {A} (f : Sections → option A) : plain_op (section_of f).
Proof. unfold section_of. auto 10 with plain_ops. Qed.
#[local] Hint Resolve p_ask p_section : plain_ops.

Lemma p_askDocker : plain_op (askDocker flags).
Proof. unfold askDocker. auto 10 with plain_ops. Qed.
Lemma p_askSSHLogin : plain_op (askSSHLogin flags).
Proof. unfold askSSHLogin, set_ssh. auto 20 with plain_ops. Qed.
Lemma p_askSSHServer : plain_op (askSSHServer flags).
Proof. unfold askSSHServer, set_ssh. auto 20 with plain_ops. Qed.
Lemma p_askParallels : plain_op (askParallels flags).
Proof. unfold askParallels. auto 20 with plain_ops. Qed.
Lemma p_askVirtualBox : plain_op (askVirtualBox flags).
Proof. unfold askVirtualBox. auto 20 with plain_ops. Qed.
Lemma p_keep a b c d e f : plain_op (keep a b c d e f).
Proof. unfold keep. apply p_upd. by intros []. Qed.
#[local] Hint Resolve p_askDocker p_askSSHLogin p_askSSHServer p_askParallels p_askVirtualBox p_keep : plain_ops.
Lemma p_askExecutorOptions : plain_op (askExecutorOptions flags).
Proof.
  unfold askExecutorOptions. apply p_bind; [apply p_get|]. intros r. cbv zeta.
  repeat match goal with |- plain_op (if ?b then _ else _) => destruct b end; auto 20 with plain_ops.
Qed.

(** Asking for the executor reads one line at a time, so it ends with the input. *)
Lemma askOnce_allow result lines : lines ≠ [] → ∃ a, askOnce result true lines = Some (a, tail lines).
Proof. destruct lines as [|l rest]; [done|]. intros _. simpl. case_bool_decide; by eexists. Qed.

Lemma askExecutor_loop_plain n s : length (input s) < n →
  identity (askExecutor_loop flags known n s).2 = identity s ∧ (askExecutor_loop flags known n s).1 ≠ Err OutOfFuel.
Proof.
  revert s. induction n as [|n IH]; intros s Hn; [lia|]. cbn [askExecutor_loop].
  unfold ask, bindM, mget, mupd, returnM, panic, failM.
  destruct (NonInteractive s) eqn:Eq; simpl.
  - rewrite andb_false_r. destruct (known _); simpl; [by destruct s|]. rewrite Eq. by destruct s.
  - destruct (input s) as [|l rest] eqn:Ei; [done|].
    destruct (askOnce_allow (TrimSpace (flags "executor")) (l :: rest)) as [a ->]; [done|]. cbn [tail].
    destruct (known a); simpl; [by destruct s|]. rewrite Eq.
    set (s1 := set_runner _ _). destruct (IH s1) as [H1 H2]; [subst s1; simpl in *; lia|].
    split; [|done]. rewrite H1. by destruct s.
Qed.

Lemma p_askExecutor : quiet_op (askExecutor flags known).
Proof. intros s. unfold askExecutor, bindM, mget. apply askExecutor_loop_plain. lia. Qed.

Lemma p_save : plain_op (run_cmd (save_config configFile)).
Proof.
  intros s. unfold run_cmd. destruct (save_config_spec configFile (cmd s)) as (r & s' & -> & _ & Hc & _).
  unfold with_executor, identity. destruct r; simpl; rewrite Hc; done.
Qed.
#[local] Hint Resolve p_askExecutorOptions p_save : plain_ops.

Lemma p_addRunner : plain_op addRunner.
Proof. apply p_upd. by intros []. Qed.

Lemma p_finish : quiet_op (finish_registration configFile flags known).
Proof.
  unfold finish_registration. apply p_bind; [apply p_askExecutor|]. intros _. apply plain_quiet.
  apply p_bind; [apply p_askExecutorOptions|]. intros _. apply p_bind; [apply p_addRunner|]. auto with plain_ops.
Qed.

Lemma askExecutor_known : triple (λ _, True) (askExecutor flags known) (λ _ s, known (Executor (reg_runner s)) = true) (λ _, True).
Proof.
  unfold askExecutor. eapply (t_seq _ _ _ (λ _, True)); [done|]. intros lines. generalize (S (length lines)) as n. induction n as [|n IH].
  { by apply t_fail. }
  cbn [askExecutor_loop]. intros s Hs. unfold bindM at 1. destruct (ask flags "executor" true s) as [[e|]s1]; [|done].
  unfold bindM, mupd, mget. destruct (known e) eqn:Ek; [by unfold returnM|]. destruct (NonInteractive _); [done|].
  apply IH. done.
Qed.

(** The runner that is saved is the last one, with a known executor. *)
Lemma finish_ok :
  triple (λ _, True) (finish_registration configFile flags known)
    (λ _ s, (∃ l, runners_of (cmd s) = l ++ [reg_runner s]) ∧ known (Executor (reg_runner s)) = true) (λ _, True).
Proof.
  unfold finish_registration. eapply t_bind; [apply askExecutor_known|]. intros [].
  eapply (t_bind _ _ _ (λ _ s, known (Executor (reg_runner s)) = true)).
  { intros s Hs. destruct (p_askExecutorOptions s) as [Hi _]. unfold with_executor in Hi.
    destruct (askExecutorOptions flags s) as [[]]; simpl in *; [|done]. apply (f_equal snd) in Hi. simpl in Hi. by rewrite Hi. }
  intros ?. eapply t_seq.
  { apply (t_upd _ _ (λ s, (∃ l, runners_of (cmd s) = l ++ [reg_runner s]) ∧ known (Executor (reg_runner s)) = true)).
    intros s Hs. split; [by eexists|done]. }
  intros ? s [[l Hl] Hk]. unfold bindM, run_cmd.
  destruct (save_config_spec configFile (cmd s)) as (r & s' & -> & Hr & _ & _). destruct r; [|done].
  split; [|done]. exists l. unfold runners_of in *. simpl. by rewrite Hr.
Qed.

(** *** The runner that was registered *)

(** The last call registered the runner and gave the token of [c]; or it verified [c]. *)
Definition issued (h : list ncall) (c : RunnerCredentials) : Prop :=
  ∃ h' c0 p, h = NRegister c0 p :: h' ∧ RegisterRunner N h' c0 p = Some (RC_Token c) ∧ RC_URL c0 = RC_URL c.
Definition verified (h : list ncall) (c : RunnerCredentials) : Prop :=
  ∃ h', h = NVerify c :: h' ∧ VerifyRunner N h' c = true.

Definition holds (Q : list ncall → bool → RunnerCredentials → bool → Prop) (s : RegisterCommand) : Prop :=
  Q (calls (cmd s)) (registered s) (Credentials_ (reg_runner s)) (LeaveRunner s).

Lemma t_plain {A} (c : Reg A) Q : quiet_op c → triple (holds Q) c (λ _, holds Q) (holds Q).
Proof.
  intros Hc s Hs. destruct (Hc s) as [Hi _]. unfold holds, identity in *.
  destruct (c s) as [[a|e] s']; simpl in *; injection Hi as -> -> -> ->; done.
Qed.

(** Before the coordinator knows the runner, and after. *)
Definition unregistered (b : bool) : RegisterCommand → Prop := holds (λ _ reg _ leave, reg = false ∧ leave = b).
Definition accepted (b : bool) : RegisterCommand → Prop :=
  holds (λ h reg c leave, leave = b ∧ if reg then issued h c else verified h c).

Lemma register_new_spec b url : triple (unregistered b) (register_new N flags url) (λ _, accepted b) (unregistered b).
Proof.
  set (I := holds (λ _ reg c leave, (reg = false ∧ leave = b) ∧ RC_URL c = url)).
  assert (HI : ∀ {A} (c : Reg A), plain_op c → triple I c (λ _, I) (unregistered b)).
  { intros A c Hc. eapply t_mono; [by apply (t_plain c), plain_quiet|by auto|by auto|]. by intros s []. }
  unfold register_new. eapply t_bind; [by apply t_plain, plain_quiet, p_ask|]. intros token.
  eapply t_seq; [apply (t_upd _ _ I); by intros s Hs|]. intros _.
  eapply t_bind; [apply HI, p_ask|]. intros name.
  eapply t_seq; [apply (t_upd _ _ I); by intros s Hs|]. intros _.
  eapply t_bind; [apply HI, p_ask|]. intros tags.
  eapply t_seq; [apply (t_upd _ _ I); by intros s Hs|]. intros _.
  intros s [[Hr Hl] Hu]. unfold bindM, mget, mupd, panic, failM, id. cbv zeta.
  destruct (RegisterRunner N _ _ _) as [tok|] eqn:Er; [|done].
  unfold accepted, holds. simpl. split; [done|]. eexists _, _, _. split_and!; [reflexivity|exact Er|exact Hu].
Qed.

Lemma askRunner_spec b : triple (unregistered b) (askRunner N flags) (λ _, accepted b) (unregistered b).
Proof.
  unfold askRunner. eapply t_bind; [by apply t_plain, plain_quiet, p_ask|]. intros url.
  eapply t_seq; [apply (t_upd _ _ (unregistered b)); by intros s Hs|]. intros _.
  eapply t_bind; [apply t_get|]. intros r s [Hs ->]. case_bool_decide; [|by apply register_new_spec].
  destruct Hs as [Hr Hl]. unfold bindM, run_cmd, verify_runner, panic, failM, returnM. simpl.
  destruct (VerifyRunner N _ _) eqn:Ev; [|done]. unfold accepted, holds. simpl. rewrite Hr. split; [done|]. by eexists.
Qed.

(** None of this runs out of fuel. *)
Definition no_fuel {A} (c : Reg A) : Prop := ∀ s, (c s).1 ≠ Err OutOfFuel.
Lemma nf_bind {A B} (c : Reg A) (k : A → Reg B) : no_fuel c → (∀ a, no_fuel (k a)) → no_fuel (bindM c k).
Proof.
  intros Hc Hk s. unfold bindM. specialize (Hc s). destruct (c s) as [[a|e] s1]; [apply Hk|]. simpl in *. congruence.
Qed.
Lemma nf_ask key e : no_fuel (ask flags key e).
Proof. intros s. apply p_ask. Qed.
Lemma nf_askRunner : no_fuel (askRunner N flags).
Proof.
  apply nf_bind; [apply nf_ask|]. intros url. apply nf_bind; [done|]. intros _. apply nf_bind; [done|]. intros r.
  case_bool_decide.
  - apply nf_bind; [done|]. intros []; done.
  - unfold register_new. repeat (apply nf_bind; [apply nf_ask || done|intros ?]). by case_match.
Qed.

End RegisterLaws.

(** ** A coordinator that accepts everything *)

Module DemoRegister.
Definition network : Network :=
  {| VerifyRunner := λ _ _, true; RegisterRunner := λ _ _ _, Some "issued"; UnregisterRunner := λ _ _, true |}.
Definition flags (key : string) : string :=
  if bool_decide (key = "url") then "https://gitlab.example.com" else if bool_decide (key = "executor") then "none" else key.
Definition blank : RunnerConfig := set_credentials (some_runner 0 0) "" "".
Definition fresh_command : RegisterCommand :=
  mkRegisterCommand true false "" false true "" 0 false false blank (mkSections None None None None) []
    (mkCmd NewLoaded [] []) [].
Definition ended := register_Execute network "config.toml" flags (λ e, bool_decide (e = "shell")) fresh_command.

(** A runner with a certificate of its own, asked for by its address and token. *)
Definition with_ca : RunnerConfig :=
  with_runner (some_runner 0 0) "r"
    {| RC_URL := "https://gitlab.example.com"; RC_Token := "0123456789"; RC_TLSCAFile := "ca.pem"; RC_TLSCertFile := "";
       RC_TLSKeyFile := "" |} "shell" None None.
#[local] Instance files : ConfigFiles := {
  os_Stat _ := Ok 7%Z; DecodeFile _ c := Ok (with_runners c [with_ca]); EncodeFails _ := None; WriteFile _ _ := None;
  cronexpr_Parse _ := Err "syntax"; LoadLocation _ := None }.
Definition unregistered_ca : result string unit * cmdstate :=
  unregister_Execute network "config.toml" false "" (Credentials_ (some_runner 0 0)) (mkCmd NewLoaded [] []).
End DemoRegister.


(** A runner with its own certificates that is unregistered by address and token is dropped
    by the coordinator and stays in the configuration: the comparison of credentials
    includes the files of the certificates. *)
Lemma unregister_by_token_misses_tls :
  DemoRegister.unregistered_ca.1 = Ok tt ∧
  SameAs (Credentials_ DemoRegister.with_ca) (Credentials_ (some_runner 0 0)) = true ∧
  calls DemoRegister.unregistered_ca.2 = [NUnregister (Credentials_ (some_runner 0 0))] ∧
  runners_of DemoRegister.unregistered_ca.2 = [DemoRegister.with_ca] ∧ saved DemoRegister.unregistered_ca.2 = [].
Proof. split_and!; vm_compute; reflexivity. Qed.
