(* ===== verification/MachineExecutor.v ===== *)
(** The docker+machine executor (executors/docker/machine/executor.go): it takes a machine of
    the pool (Machine.v) and hands the job to an executor of its own on that machine.

    That executor is a parameter with the interface [InnerExecutor]. *)

From S2P Require Import Prelude GoLib Types Config Machine.

Definition DockerMachineExecutorStageUseMachine : string := "docker_machine_use_machine".
Definition DockerMachineExecutorStageReleaseMachine : string := "docker_machine_release_machine".

(** The executor interface as far as it is called here; [i_Create] may give none. *)
Class InnerExecutor (X : Type) := {
  i_Create : option X;
  i_Prepare : X → option error * X;
  i_Run : X → option error * X;
  i_Finish : X → X;
  i_Cleanup : X → X;
  i_GetCurrentStage : X → string;
  i_SetCurrentStage : string → X → X }.

(** What happened, latest first. *)
Inductive mevent := MUse (p : nat) (new : bool) | MPrepare | MCleanup | MRelease (p : nat).

Section Executor.
Context {X : Type} `{!InnerExecutor X}.

(** [machineExecutor] with the pool it works on; [hostname] and [projectRunnerID] are those
    of the build. *)
Record machineExecutor := mkMachineExecutor {
  me_provider : machineProvider; me_executor : option X; me_data : option nat; me_currentStage : string;
  me_hostname : string; me_projectRunnerID : Z; me_events : list mevent }.

Definition SetCurrentStage (stage : string) (e : machineExecutor) : machineExecutor :=
  match me_executor e with
  | None => mkMachineExecutor (me_provider e) None (me_data e) stage (me_hostname e) (me_projectRunnerID e) (me_events e)
  | Some x => mkMachineExecutor (me_provider e) (Some (i_SetCurrentStage stage x)) (me_data e) (me_currentStage e)
                (me_hostname e) (me_projectRunnerID e) (me_events e)
  end.

Definition GetCurrentStage (e : machineExecutor) : string :=
  match me_executor e with None => "" | Some x => i_GetCurrentStage x end.

Definition name_of (m : machineProvider) (p : nat) : string := from_option d_Name "" (read m p).

(** [data] is the machine the worker acquired for the build, if any. [None] is a wait in the
    pool that did not end within its fuel. *)
Definition Prepare (envs : nat → Env) (now : Z) (config : RunnerConfig) (data : option nat) (e : machineExecutor)
    : option (option error * machineExecutor) :=
  let e := SetCurrentStage DockerMachineExecutorStageUseMachine e in
  match Use envs now config data (me_provider e) with
  | None => None
  | Some (Err err, m) =>
      Some (Some (ErrText err),
            mkMachineExecutor m (me_executor e) None (me_currentStage e) (me_hostname e) (me_projectRunnerID e) (me_events e))
  | Some (Ok (p, new), m) =>
      let newData := if (new : bool) then Some p else None in
      let hostname := match data with
                      | Some q => name_of m q
                      | None => match newData with Some q => name_of m q | None => me_hostname e end
                      end in
      let events := MUse p new :: me_events e in
      match i_Create with
      | None => Some (Some (ErrText "failed to create an executor"),
                      mkMachineExecutor m None newData (me_currentStage e) hostname 0 events)
      | Some x => let '(err, x) := i_Prepare x in
                  Some (err, mkMachineExecutor m (Some x) newData (me_currentStage e) hostname 0 (MPrepare :: events))
      end
  end.

Definition me_Run (e : machineExecutor) : option error * machineExecutor :=
  match me_executor e with
  | None => (Some (ErrText "missing executor"), e)
  | Some x => let '(err, x) := i_Run x in
              (err, mkMachineExecutor (me_provider e) (Some x) (me_data e) (me_currentStage e) (me_hostname e)
                      (me_projectRunnerID e) (me_events e))
  end.

Definition Finish (e : machineExecutor) : machineExecutor :=
  mkMachineExecutor (me_provider e) (i_Finish <$> me_executor e) (me_data e) (me_currentStage e) (me_hostname e)
    (me_projectRunnerID e) (me_events e).

Definition Cleanup (now : Z) (config : RunnerConfig) (e : machineExecutor) : machineExecutor :=
  let e := match me_executor e with
           | None => e
           | Some x => mkMachineExecutor (me_provider e) (Some (i_Cleanup x)) (me_data e) (me_currentStage e)
                         (me_hostname e) (me_projectRunnerID e) (MCleanup :: me_events e)
           end in
  match me_data e with
  | None => e
  | Some p =>
      let e := SetCurrentStage DockerMachineExecutorStageReleaseMachine e in
      mkMachineExecutor (Release now config (Some p) (me_provider e)) (me_executor e) None (me_currentStage e)
        (me_hostname e) (me_projectRunnerID e) (MRelease p :: me_events e)
  end.

(** The executor of [Create] of the provider, and a job: preparation, the stages it gets to,
    clean-up. [None] as for [Prepare]. *)
Definition new_machineExecutor (m : machineProvider) (hostname : string) (id : Z) : machineExecutor :=
  mkMachineExecutor m None None "" hostname id [].

Definition machine_job (envs : nat → Env) (now now' : Z) (config : RunnerConfig) (data : option nat) (stages : nat)
    (e : machineExecutor) : option machineExecutor :=
  match Prepare envs now config data e with
  | None => None
  | Some (Some _, e) => Some (Cleanup now' config e)
  | Some (None, e) => Some (Cleanup now' config (Finish (Nat.iter stages (λ e, (me_Run e).2) e)))
  end.

Lemma runs_keep n e :
  let e' := Nat.iter n (λ e, (me_Run e).2) e in
  me_provider e' = me_provider e ∧ me_data e' = me_data e ∧ me_events e' = me_events e ∧
  (is_Some (me_executor e') ↔ is_Some (me_executor e)).
Proof.
  cbv zeta. induction n as [|n IH]; [done|]. simpl.
  generalize dependent (Nat.iter n (λ e, (me_Run e).2) e). intros e1 IH. unfold me_Run.
  destruct (me_executor e1) as [x|] eqn:Ex; simpl; [|by rewrite Ex].
  destruct (i_Run x); simpl. destruct IH as (? & ? & ? & H4). split_and!; [done..|].
  split; [|by eauto]. intros _. apply H4. by eexists.
Qed.

Lemma Cleanup_spec now config e :
  let e' := Cleanup now config e in
  me_data e' = None ∧
  me_provider e' = match me_data e with Some p => Release now config (Some p) (me_provider e) | None => me_provider e end ∧
  me_events e' = match me_data e with Some p => [MRelease p] | None => [] end
                 ++ match me_executor e with Some _ => [MCleanup] | None => [] end ++ me_events e.
Proof.
  cbv zeta. unfold Cleanup, SetCurrentStage. destruct e as [m [x|] [p|] st h i ev]; done.
Qed.

(** A job of the docker+machine executor gives back exactly what it took. Whatever the inner
    executor does: the machine it took itself is released once, after the inner executor was
    cleaned up; the machine the worker acquired for it is left to the worker; a job that gets
    no machine changes nothing in the pool but what the attempt did. *)
Theorem machine_executor_releases envs now now' config data stages m hostname id e' :
  machine_job envs now now' config data stages (new_machineExecutor m hostname id) = Some e' →
  me_data e' = None ∧
  match Use envs now config data m with
  | None => False
  | Some (Err _, m1) => me_provider e' = m1 ∧ me_events e' = []
  | Some (Ok (p, new), m1) =>
      me_provider e' = (if new then Release now' config (Some p) m1 else m1) ∧
      me_events e' = (if new then [MRelease p] else []) ++ (if i_Create (X := X) then [MCleanup; MPrepare] else []) ++ [MUse p new]
  end.
Proof.
  unfold machine_job, Prepare, new_machineExecutor, SetCurrentStage. simpl.
  destruct (Use envs now config data m) as [[[[p new]|err] m1]|]; [| |done]; last first.
  { intros [= <-]. edestruct Cleanup_spec as (H1 & H2 & H3). split; [exact H1|]. by rewrite H2, H3. }
  destruct i_Create as [x|]; last first.
  { intros [= <-]. edestruct Cleanup_spec as (H1 & H2 & H3). split; [exact H1|]. rewrite H2, H3. by destruct new. }
  destruct (i_Prepare x) as [[err|] x'].
  { intros [= <-]. edestruct Cleanup_spec as (H1 & H2 & H3). split; [exact H1|]. rewrite H2, H3. by destruct new. }
  set (e0 := mkMachineExecutor _ _ _ _ _ _ _). intros [= <-].
  destruct (runs_keep stages e0) as (R1 & R2 & R3 & R4). edestruct Cleanup_spec as (H1 & H2 & H3).
  split; [exact H1|]. rewrite H2, H3. unfold Finish. cbn [me_data me_provider me_events me_executor]. rewrite R1, R2, R3.
  destruct (proj2 R4 (ex_intro _ x' eq_refl)) as [y Hy]. rewrite Hy. by destruct new.
Qed.

(** The name the log shows is that of the machine the worker acquired, even when that one
    was not usable and the job runs on another one. *)
Theorem hostname_is_of_the_acquired_machine envs now config q p m m1 e err e' :
  Use envs now config (Some q) m = Some (Ok (p, true), m1) → me_provider (SetCurrentStage DockerMachineExecutorStageUseMachine e) = m →
  Prepare envs now config (Some q) e = Some (err, e') → me_hostname e' = name_of m1 q ∧ me_data e' = Some p.
Proof.
  intros Hu Hm. unfold Prepare. rewrite Hm, Hu. destruct i_Create as [x|]; [destruct (i_Prepare x)|]; by intros [= <- <-].
Qed.
End Executor.
