(* ===== verification/ShellExecutor.v ===== *)
(** The shell executor (executors/shell/executor_shell.go): each stage is a process of the
    host. The operating system's answers in one call of [Run] are the record [Process]. *)

From S2P Require Import Prelude GoLib Path Types Variables Config Build ShellEscape AbstractShell Shells Executor.

(** ** Preparation *)

Section Prepare.
Context `{!GoText} (app : AppVersionInfo) (shells : gmap string Shells.Shell) (hostname : string).

(** The registered options: the default shell and the path of the runner's own program. *)
Definition shell_options (defaultShell runnerCommand : string) : ExecutorOptions :=
  {| DefaultCustomBuildsDirEnabled := false; DefaultBuildsDir := "$PWD/builds"; DefaultCacheDir := "$PWD/cache";
     OptSharedBuildsDir := true; OptShell := defaultShell; OptShellType := LoginShell;
     OptRunnerCommand := runnerCommand; ShowHostname := false; Metadata := ∅ |}.

(** The variables of the default directories: only the working directory is known. *)
Definition pwd_mapping (wd key : string) : string := if bool_decide (key = "PWD") then wd else "".

Definition expand_dirs (wd : string) (o : ExecutorOptions) : ExecutorOptions :=
  {| DefaultCustomBuildsDirEnabled := DefaultCustomBuildsDirEnabled o;
     DefaultBuildsDir := Expand (DefaultBuildsDir o) (pwd_mapping wd);
     DefaultCacheDir := Expand (DefaultCacheDir o) (pwd_mapping wd);
     OptSharedBuildsDir := OptSharedBuildsDir o; OptShell := OptShell o; OptShellType := OptShellType o;
     OptRunnerCommand := OptRunnerCommand o; ShowHostname := ShowHostname o; Metadata := Metadata o |}.

(** [user] is the one of the options of the preparation, empty without one. *)
Definition shell_Prepare (getwd : result string string) (config : RunnerConfig) (user : string) (o : ExecutorOptions) (b : Build)
    : result error ShellConfiguration * Build :=
  match getwd with
  | Err err => (Err (ErrText ("Getwd: " +:+ err)), b)
  | Ok wd => let o := expand_dirs wd o in
             PrepareBuildAndShell app shells o config (OptSharedBuildsDir o) hostname user b
  end.
End Prepare.

(** ** Running a stage *)

(** What [Wait] of the process gives: success, an exit status, another error. *)
Inductive wait_outcome := WaitedOk | WaitedExit (msg : string) | WaitedErr (err : error).

(** [p_cancelled]: the context ended before the process did, which then took that many more
    kills, a second apart, to end. *)
Record Process := {
  p_TempDir : result error string; p_WriteFile : option error; p_Start : option error;
  p_cancelled : option nat; p_wait : wait_outcome }.

Inductive pevent :=
| PMakeDir (dir : string)
| PWrite (file script : string)
| PStart (args : list string) (stdin : string)
| PKill
| PRemoveAll (dir : string).

(** [killAndWait] kills until the process has ended; the kill after which it ends is the
    last one. *)
Definition killAndWait (n : nat) : list pevent := replicate (S n) PKill.

Definition wait_error (w : wait_outcome) : option error :=
  match w with
  | WaitedOk => None
  | WaitedExit msg => Some (BuildError (ErrText msg) NoneFailure)
  | WaitedErr err => Some err
  end.

(** Starting the process and waiting for it. *)
Definition start_and_wait (p : Process) (args : list string) (stdin : string) : option error * list pevent :=
  match p_Start p with
  | Some err => (Some (ErrText ("Failed to start process: " +:+ Error err)), [])
  | None =>
      (wait_error (p_wait p),
       PStart args stdin :: match p_cancelled p with None => [] | Some n => killAndWait n end)
  end.

(** [Run], with its deferred calls: the events in their order. *)
Definition shell_Run (p : Process) (shell : ShellConfiguration) (script : string) : option error * list pevent :=
  let args := GetCommandWithArguments shell in
  let '(err, events) :=
    if PassFile shell then
      match p_TempDir p with
      | Err err => (Some err, [])
      | Ok scriptDir =>
          let scriptFile := pathJoin [scriptDir; "script." +:+ Extension shell] in
          let '(err, events) :=
            match p_WriteFile p with
            | Some err => (Some err, [])
            | None => let '(err, events) := start_and_wait p (args ++ [scriptFile]) "" in
                      (err, PWrite scriptFile script :: events)
            end in
          (err, PMakeDir scriptDir :: events ++ [PRemoveAll scriptDir])
      end
    else start_and_wait p args script in
  (err, events ++ [PKill]).

(** ** What a stage leaves behind *)

Definition started (l : list pevent) : bool := existsb (λ e, match e with PStart _ _ => true | _ => false end) l.

Lemma start_and_wait_events p args stdin dir :
  PMakeDir dir ∉ (start_and_wait p args stdin).2 ∧
  (started (start_and_wait p args stdin).2 = true → (start_and_wait p args stdin).1 = wait_error (p_wait p)).
Proof.
  unfold start_and_wait. destruct (p_Start p); simpl; [split; [apply not_elem_of_nil|done]|].
  split; [|done]. apply not_elem_of_cons. split; [done|]. destruct (p_cancelled p); [|apply not_elem_of_nil].
  unfold killAndWait. intros Hin. apply elem_of_replicate in Hin as [Hin _]. done.
Qed.

(** A stage of the shell executor leaves no process and no script behind: whatever fails and
    whether or not the job is cancelled, the last thing [Run] does is to kill the process
    group; a directory it made for the script is removed just before; and once the process
    was started, the result is its own, an exit status being a failure of the build. *)
Theorem shell_stage_leaves_nothing (p : Process) (shell : ShellConfiguration) (script : string) :
  let '(err, events) := shell_Run p shell script in
  last events = Some PKill ∧
  (∀ dir, PMakeDir dir ∈ events → ∃ before, events = before ++ [PRemoveAll dir; PKill]) ∧
  (started events = true → err = wait_error (p_wait p)).
Proof.
  unfold shell_Run.
  destruct (PassFile shell); [destruct (p_TempDir p) as [d|e]; [destruct (p_WriteFile p) as [we|]|]|].
  - simpl. split_and!; [done| |done]. intros dir [[= ->]|Hin]%elem_of_cons; [by exists [PMakeDir d]|]. set_solver.
  - set (file := pathJoin _). pose proof (λ dir, start_and_wait_events p (GetCommandWithArguments shell ++ [file]) "" dir) as Hs.
    destruct (start_and_wait p _ "") as [err ev]. simpl in *.
    rewrite <- app_assoc. simpl. split_and!.
    + by rewrite !app_comm_cons, (app_assoc _ [PRemoveAll d] [PKill]), last_snoc.
    + intros dir Hin. assert (dir = d) as ->.
      { destruct (Hs dir) as [Hn _]. rewrite !elem_of_cons, elem_of_app, !elem_of_cons in Hin.
        destruct Hin as [[= ->]|[?|[?|[?|[?|Hin%not_elem_of_nil]]]]]; done. }
      exists (PMakeDir d :: PWrite file script :: ev). done.
    + intros Hst. apply (Hs ""). unfold started in *. simpl in Hst. rewrite existsb_app in Hst. simpl in Hst.
      by rewrite orb_false_r in Hst.
  - simpl. split_and!; [done| |done]. intros dir. set_solver.
  - pose proof (λ dir, start_and_wait_events p (GetCommandWithArguments shell) script dir) as Hs.
    destruct (start_and_wait p _ script) as [err ev]. simpl in *. rewrite last_snoc. split_and!; [done| |].
    + intros dir Hin. destruct (Hs dir) as [Hn _]. apply elem_of_app in Hin as [?|Hin]; [done|]. set_solver.
    + intros Hst. apply (Hs ""). unfold started in *. rewrite existsb_app in Hst. simpl in Hst. by rewrite orb_false_r in Hst.
Qed.
