(* ===== verification/MachineCommand.v ===== *)
(** The docker-machine command (helpers/docker/machine_command.go) with its cache of machines
    that answer, and the names of machines (executors/docker/machine/name.go).

    The program docker-machine is a parameter that answers a call after those made before;
    every call is recorded with its time, newest first. Each operation is given the time at
    which it looks at the clock. *)

From S2P Require Import Prelude GoLib GoMonad Path Types Config Machine KubernetesExecutor KubernetesClaims.
#[local] Open Scope go_scope.

(** ** The output of commands in the log *)

(** One read of a line: more may follow, the end, or an error. *)
Inductive read_end := More | EOF | ReadError (msg : string).

Definition newline : ascii := "010"%char.
Definition log_write (line : string) : list string :=
  let line := TrimRight line newline in if bool_decide (line = "") then [] else [line].

(** The lines logged, and whether the reading problem itself is. *)
Fixpoint log_watch (reads : list (string * read_end)) : list string * bool :=
  match reads with
  | [] => ([], false)
  | (line, More) :: rest => let '(ls, problem) := log_watch rest in (log_write line ++ ls, problem)
  | (line, EOF) :: _ => (log_write line, false)
  | (_, ReadError msg) :: _ => ([], negb (Contains msg "bad file descriptor"))
  end.

(** ** The command *)

Record machineInfo := mkInfo { expires : Z; canConnect_ : bool }.

(** A call: when its answer was there, what was asked, and whether it succeeded. *)
Record call := mkCall { c_time : Z; c_args : list string; c_ok : bool }.
Record machineCommand := mkCommand { mc_cache : gmap string machineInfo; mc_calls : list call }.

Definition NewMachineCommand : machineCommand := mkCommand ∅ [].
Definition five_minutes : Z := 5 * 60 * Second.

Section Command.
Context (docker_machine : list call → list string → result string string).
Abbreviation M := (GoM machineCommand string).

Definition run (now : Z) (args : list string) : M string := λ m,
  let r := docker_machine (mc_calls m) args in
  (r, mkCommand (mc_cache m) (mkCall now args match r with Ok _ => true | Err _ => false end :: mc_calls m)).

Definition mc_Create (now : Z) (driver name : string) (opts : list string) : M unit :=
  let! _ := run now (["create"; "--driver"; driver] ++ ((λ o, "--" +:+ o) <$> opts) ++ [name]) in returnM tt.
Definition mc_Provision (now : Z) (name : string) : M unit := let! _ := run now ["provision"; name] in returnM tt.

(** [timeout] ends the command with an error; that it was is the answer's to say. *)
Definition mc_Stop (now : Z) (name : string) : M unit := let! _ := run now ["stop"; name] in returnM tt.

Definition uncache (name : string) (m : machineCommand) : machineCommand := mkCommand (delete name (mc_cache m)) (mc_calls m).
Definition mc_Remove (now : Z) (name : string) : M unit :=
  let! _ := run now ["rm"; "-y"; name] in mupd (uncache name).

(** The machines' directory: a missing one has no machines. *)
Inductive dir_read := NotExist | DirError (msg : string) | Entries (es : list (string * bool)).
Definition mc_List (dir : dir_read) : result string (list string) :=
  match dir with
  | NotExist => Ok []
  | DirError msg => Err msg
  | Entries es => Ok (fst <$> filter (λ e, snd e && negb (HasPrefix (fst e) ".") = true) es)
  end.

(** [get]: the trimmed output, which must not be empty. *)
Definition mc_get (now : Z) (print_args : list string → string) (args : list string) : M string :=
  let! data := run now args in
  let out := TrimSpace data in
  if bool_decide (out = "") then failM ("failed to get " +:+ print_args args) else returnM out.

Context (print_args : list string → string).
Definition IP (now : Z) (name : string) : M string := mc_get now print_args ["ip"; name].
Definition URL (now : Z) (name : string) : M string := mc_get now print_args ["url"; name].
Definition CertPath (now : Z) (name : string) : M string :=
  mc_get now print_args ["inspect"; name; "-f"; "{{.HostOptions.AuthOptions.StorePath}}"].
Definition mc_Status (now : Z) (name : string) : M string := mc_get now print_args ["status"; name].

(** [config_exists] is the outcome of [os.Stat] of the machine's config.json. *)
Definition mc_Exist (config_exists : string → bool) (now : Z) (name : string) : M bool :=
  if negb (config_exists name) then returnM false
  else let! r := attempt (run now ["inspect"; name]) in returnM match r with Ok _ => true | Err _ => false end.

Definition canConnect (now : Z) (name : string) : M bool :=
  let! r := attempt (run now ["config"; name]) in returnM match r with Ok _ => true | Err _ => false end.

(** The two critical sections of [CanConnect]. *)
Definition cached (now : Z) (name : string) (skipCache : bool) (m : machineCommand) : option bool :=
  match mc_cache m !! name with
  | Some i => if negb skipCache && (now <? expires i)%Z then Some (canConnect_ i) else None
  | None => None
  end.
Definition store_info (now : Z) (name : string) (m : machineCommand) : machineCommand :=
  mkCommand (<[name := mkInfo (now + five_minutes) true]> (mc_cache m)) (mc_calls m).

(** [now] is the time before the command, [later] the time after it. *)
Definition mc_CanConnect (now later : Z) (name : string) (skipCache : bool) : M bool :=
  let! hit := mget (cached now name skipCache) in
  match hit with
  | Some b => returnM b
  | None =>
      let! ok := canConnect later name in
      if ok then mupd (store_info later name) ;;! returnM true else returnM false
  end.

Record DockerCredentials := mkDockerCredentials { dc_Host : string; dc_CertPath : string; dc_TLSVerify : bool }.

(** The error and the credentials that are returned with it. *)
Definition mc_Credentials (now later : Z) (name : string) : M DockerCredentials :=
  let! ok := mc_CanConnect now later name true in
  if negb ok then failM "Can't connect"
  else
    let! host := URL later name in
    let! cert := CertPath later name in
    returnM (mkDockerCredentials host cert true).

(** *** Sequences of operations *)

Inductive op :=
| OpCreate (driver name : string) (opts : list string) | OpProvision (name : string) | OpStop (name : string)
| OpRemove (name : string) | OpExist (config_exists : string → bool) (name : string) | OpStatus (name : string)
| OpCanConnect (name : string) (skipCache : bool) | OpCredentials (name : string).

(** An operation between two times. *)
Definition perform (now later : Z) (o : op) (m : machineCommand) : machineCommand :=
  match o with
  | OpCreate driver name opts => snd (mc_Create later driver name opts m)
  | OpProvision name => snd (mc_Provision later name m)
  | OpStop name => snd (mc_Stop later name m)
  | OpRemove name => snd (mc_Remove later name m)
  | OpExist e name => snd (mc_Exist e later name m)
  | OpStatus name => snd (mc_Status later name m)
  | OpCanConnect name skip => snd (mc_CanConnect now later name skip m)
  | OpCredentials name => snd (mc_Credentials now later name m)
  end.

Inductive reachable : machineCommand → Prop :=
| reach_new : reachable NewMachineCommand
| reach_op m now later o : reachable m → (now ≤ later)%Z → reachable (perform now later o m).
End Command.

(** ** Names of machines, name.go *)

Section Names.
Context (ToLower_rune : Z → Z).
(** [fmt.Sscanf] into one text and [fmt.Sprintf] of one, for formats and texts beyond those
    written out below. *)
Context (Sscanf_other : string → string → bool) (Sprintf_other : string → string → string).

Definition machineFormat (runner template : string) : string :=
  if bool_decide (runner ≠ "") then "runner-" +:+ ToLower ToLower_rune runner +:+ "-" +:+ template else template.
Definition machineFilter (config : RunnerConfig) (machine : DockerMachine) : string :=
  machineFormat (MakeRFC1123Compatible ToLower_rune (ShortDescription (Credentials_ config))) (MachineName machine).

(** Visible ASCII, other than the percent sign. *)
Definition literal_char (c : ascii) : bool := ((33 <=? z_of c) && (z_of c <=? 126) && negb (z_of c =? 37))%Z.
Definition visible (c : ascii) : bool := ((33 <=? z_of c) && (z_of c <=? 126))%Z.

(** A format of visible literals with one verb for a text: what is before and after the verb. *)
Fixpoint template_parts (f : string) : option (string * string) :=
  match f with
  | "" => None
  | String c f' =>
      if literal_char c then match template_parts f' with Some (a, b) => Some (String c a, b) | None => None end
      else match f' with
           | String "s" rest => if bool_decide (c = "%"%char) && forallb literal_char (String.list_ascii_of_string rest)
                                then Some ("", rest) else None
           | _ => None
           end
  end.

(** [Sscanf] compares the literals, then reads a text up to white space: it is read as soon
    as one character is there, and what follows the verb no longer matters. *)
Definition matchesMachineFilter (name flt : string) : bool :=
  match template_parts flt with
  | None => Sscanf_other name flt
  | Some (before, _) =>
      if HasPrefix name before then
        match sdrop (slen before) name with
        | "" => false
        | String c _ => if visible c then true else Sscanf_other name flt
        end
      else false
  end.
Definition filterMachineList (machines : list string) (flt : string) : list string :=
  filter (λ m, matchesMachineFilter m flt = true) machines.

Definition Sprintf_one (f arg : string) : string :=
  match template_parts f with Some (a, b) => a +:+ arg +:+ b | None => Sprintf_other f arg end.

(** The hexadecimal digits of the random bytes. *)
Fixpoint hex_bytes (r : string) : string :=
  match r with "" => "" | String c r' => hexdigits 2 (z_of c) +:+ hex_bytes r' end.
Definition newMachineName (config : RunnerConfig) (machine : DockerMachine) (t : Z) (r : string) : string :=
  Sprintf_one (machineFilter config machine) (Itoa t +:+ "-" +:+ hex_bytes r).

(** The names and the filter as the machine pool uses them; [draw] gives the time and the
    random bytes of each new name. *)
Definition machine_env (config : RunnerConfig) (machine : DockerMachine) (draw : nat → Z * string)
    (list_ : result string (list string)) (connects credentials creates : string → bool) (provisions : string → nat → bool)
    : Env :=
  {| List_ := list_; Machine.matchesMachineFilter := λ n, matchesMachineFilter n (machineFilter config machine);
     CanConnect := connects; CredentialsOK := credentials;
     Machine.newMachineName := λ k, newMachineName config machine (fst (draw k)) (snd (draw k));
     create_ok := creates; provision_ok := provisions |}.
End Names.

(** ** The cache tells of a recent check *)

(** The machine answered at [t], and it was not removed since. *)
Definition removal (name : string) (c : call) : Prop := c_args c = ["rm"; "-y"; name] ∧ c_ok c = true.
Definition checked (calls : list call) (name : string) (t : Z) : Prop :=
  ∃ l1 l2, calls = l1 ++ mkCall t ["config"; name] true :: l2 ∧ Forall (λ c, ¬ removal name c) l1.
Definition cache_ok (m : machineCommand) : Prop :=
  ∀ name i, mc_cache m !! name = Some i →
    canConnect_ i = true ∧ ∃ t, expires i = (t + five_minutes)%Z ∧ checked (mc_calls m) name t.

Section CacheProofs.
Context (dm : list call → list string → result string string) (print_args : list string → string).

Lemma checked_cons c calls name t : ¬ removal name c → checked calls name t → checked (c :: calls) name t.
Proof. intros Hc (l1 & l2 & -> & Hl). exists (c :: l1), l2. split; [done|by constructor]. Qed.

(** A call that is no removal keeps what the cache says. *)
Lemma run_cache_ok now args m : (∀ name, args ≠ ["rm"; "-y"; name]) → cache_ok m → cache_ok (snd (run dm now args m)).
Proof.
  intros Ha Hm name i Hi. destruct (Hm name i Hi) as (Hc & t & He & Ht). split; [done|]. exists t. split; [done|].
  apply checked_cons; [|done]. intros [Hr _]. exact (Ha name Hr).
Qed.

Lemma simple_run_cache_ok {A} now args (k : string → GoM machineCommand string A) m :
  (∀ name, args ≠ ["rm"; "-y"; name]) → (∀ s m, snd (k s m) = m) → cache_ok m → cache_ok (snd (bindM (run dm now args) k m)).
Proof.
  intros Ha Hk Hm. pose proof (run_cache_ok now args m Ha Hm) as H. unfold bindM.
  destruct (run dm now args m) as [[s|e] m']; simpl in *; [by rewrite Hk|done].
Qed.

Lemma attempt_run_cache_ok {A} now args (k : result string string → GoM machineCommand string A) m :
  (∀ name, args ≠ ["rm"; "-y"; name]) → (∀ r m, snd (k r m) = m) → cache_ok m → cache_ok (snd (bindM (attempt (run dm now args)) k m)).
Proof.
  intros Ha Hk Hm. pose proof (run_cache_ok now args m Ha Hm) as H. unfold bindM, attempt.
  destruct (run dm now args m) as [r m']; simpl in *; by rewrite Hk.
Qed.

Lemma mc_get_cache_ok now args m : (∀ name, args ≠ ["rm"; "-y"; name]) → cache_ok m → cache_ok (snd (mc_get dm now print_args args m)).
Proof. intros Ha. apply simple_run_cache_ok; [done|]. intros s m'. cbv zeta. by destruct (bool_decide _). Qed.

Lemma remove_cache_ok now name m : cache_ok m → cache_ok (snd (mc_Remove dm now name m)).
Proof.
  intros Hm. unfold mc_Remove, bindM, run, mupd. destruct (dm (mc_calls m) ["rm"; "-y"; name]) as [s|e]; simpl.
  - intros n i. unfold uncache. cbn [mc_cache mc_calls]. intros [Hne Hi]%lookup_delete_Some.
    destruct (Hm n i Hi) as (Hc & t & He & Ht). split; [done|]. exists t. split; [done|].
    apply checked_cons; [|done]. intros [[= ?] _]. done.
  - intros n i Hi. destruct (Hm n i Hi) as (Hc & t & He & Ht). split; [done|]. exists t. split; [done|].
    by apply checked_cons; [intros [_ [=]]|].
Qed.

(** What [CanConnect] answers and leaves. *)
Lemma can_connect_spec now later name skip m :
  cache_ok m → (now ≤ later)%Z →
  let '(r, m') := mc_CanConnect dm now later name skip m in
  cache_ok m' ∧ (∃ b, r = Ok b) ∧
  (r = Ok true → ∃ t, checked (mc_calls m') name t ∧ (now < t + five_minutes)%Z ∧ (skip = true → t = later)).
Proof.
  intros Hm Ht. unfold mc_CanConnect, canConnect, bindM, mget, attempt, mupd, returnM.
  destruct (cached now name skip m) as [b|] eqn:E.
  - split; [done|]. split; [eauto|]. intros [= ->]. unfold cached in E.
    destruct (mc_cache m !! name) as [i|] eqn:Ei; [|done]. destruct skip; [done|]. simpl in E.
    destruct (Z.ltb_spec now (expires i)); [|done]. destruct (Hm _ _ Ei) as (_ & t & He & Hc). exists t. split; [done|].
    split; [lia|done].
  - unfold run. destruct (dm (mc_calls m) ["config"; name]) as [s|e]; simpl.
    + assert (Hc : checked (mkCall later ["config"; name] true :: mc_calls m) name later) by (exists [], (mc_calls m); done).
      split; [|split; [eauto|intros _; exists later; unfold five_minutes, Second; split; [done|split; [lia|done]]]].
      intros n i. unfold store_info. simpl. destruct (decide (name = n)) as [<-|Hne].
      * rewrite lookup_insert_eq. intros [= <-]. split; [done|]. by exists later.
      * rewrite lookup_insert_ne by done. intros Hi. destruct (Hm n i Hi) as (Hb & t & He & Hk). split; [done|].
        exists t. split; [done|]. apply checked_cons; [by intros [[=] _]|done].
    + split; [|split; [eauto|done]]. intros n i Hi. destruct (Hm n i Hi) as (Hb & t & He & Hk). split; [done|].
      exists t. split; [done|]. apply checked_cons; [by intros [[=] _]|done].
Qed.

Lemma perform_cache_ok now later o m : (now ≤ later)%Z → cache_ok m → cache_ok (perform dm print_args now later o m).
Proof.
  intros Ht Hm. destruct o; simpl.
  - apply simple_run_cache_ok; [by intros name0 [=]|done..].
  - apply simple_run_cache_ok; [by intros name0 [=]|done..].
  - apply simple_run_cache_ok; [by intros name0 [=]|done..].
  - by apply remove_cache_ok.
  - unfold mc_Exist. destruct (negb _); [done|]. apply attempt_run_cache_ok; [by intros name0 [=]|by intros []|done].
  - apply mc_get_cache_ok; [by intros name0 [=]|done].
  - pose proof (can_connect_spec now later name skipCache m Hm Ht) as H. by destruct (mc_CanConnect _ _ _ _ _ m) as [r m'], H.
  - pose proof (can_connect_spec now later name true m Hm Ht) as H. unfold mc_Credentials, bindM at 1.
    destruct (mc_CanConnect _ _ _ _ _ m) as [r m'] eqn:E, H as (H & (b & ->) & _). destruct b; [|done]. cbn [negb].
    assert (H1 : cache_ok (snd (URL dm print_args later name m'))) by (by apply mc_get_cache_ok; [intros name0 [=]|]).
    unfold bindM. destruct (URL _ _ _ _ m') as [[host|] m1]; [|done]. simpl in H1.
    assert (H2 : cache_ok (snd (CertPath dm print_args later name m1))) by (by apply mc_get_cache_ok; [intros name0 [=]|]).
    by destruct (CertPath _ _ _ _ m1) as [[cert|] m2].
Qed.

Lemma reachable_cache_ok m : reachable dm print_args m → cache_ok m.
Proof. induction 1; [by intros name i|by apply perform_cache_ok]. Qed.

(** C28: However creation, removal and checks of machines follow each other, [CanConnect] always
    answers, and when it says that a machine can be connected to, docker-machine has said so
    less than five minutes before, and the machine was not removed since; without the cache
    the check is that very call. *)
Theorem connected_machines_were_checked m now later name skip :
  reachable dm print_args m → (now ≤ later)%Z →
  let '(r, m') := mc_CanConnect dm now later name skip m in
  (∃ b, r = Ok b) ∧
  (r = Ok true → ∃ t, checked (mc_calls m') name t ∧ (now < t + five_minutes)%Z ∧ (skip = true → t = later)).
Proof.
  intros Hr%reachable_cache_ok Ht. pose proof (can_connect_spec now later name skip m Hr Ht) as H.
  destruct (mc_CanConnect _ _ _ _ _ m) as [r m']. apply H.
Qed.
End CacheProofs.

Definition demo_machines (calls : list call) (args : list string) : result string string :=
  if bool_decide (head args = Some "config") then Ok "--tlsverify" else Ok "tcp://10.0.0.1:2376".

Lemma connected_machines_were_checked_witness :
  let m := perform demo_machines (λ _, "") 0 10 (OpCanConnect "auto-1" false) NewMachineCommand in
  let '(r, m') := mc_CanConnect demo_machines (100 * Second) (100 * Second) "auto-1" false m in
  r = Ok true ∧ length (mc_calls m') = 1 ∧ ∃ t, checked (mc_calls m') "auto-1" t ∧ (100 * Second < t + five_minutes)%Z.
Proof.
  intros m. assert (Hr : reachable demo_machines (λ _, "") m) by (apply reach_op; [apply reach_new|done]).
  pose proof (connected_machines_were_checked demo_machines (λ _, "") m (100 * Second) (100 * Second) "auto-1" false Hr) as H.
  assert (E : mc_CanConnect demo_machines (100 * Second) (100 * Second) "auto-1" false m = (Ok true, m)) by (by vm_compute).
  rewrite E in *. destruct H as [_ H]; [done|]. destruct (H eq_refl) as (t & Hc & Ht & _).
  split; [done|]. split; [by vm_compute|]. by exists t.
Defined.

(** The check and the write of the cache are two critical sections: a machine that is removed
    in between stays in the cache, and is reported without asking. *)
Lemma removed_machine_stays_cached :
  let m1 := snd (canConnect demo_machines 10 "auto-1" NewMachineCommand) in
  let m2 := snd (mc_Remove demo_machines 20 "auto-1" m1) in
  let m3 := store_info 30 "auto-1" m2 in
  fst (mc_CanConnect demo_machines 40 40 "auto-1" false m3) = Ok true ∧ ¬ ∃ t, checked (mc_calls m3) "auto-1" t.
Proof.
  split; [by vm_compute|]. intros (t & l1 & l2 & Hc & Hf). vm_compute in Hc.
  destruct l1 as [|c l1]; [done|]. injection Hc as <- _. apply Forall_cons in Hf as [[] _]. done.
Qed.

(** ** Names belong to their runner *)

Section NameProofs.
Context (lower : Z → Z) (scan : string → string → bool) (print : string → string → string).

Definition all_literal (s : string) : bool := forallb literal_char (String.list_ascii_of_string s).

Lemma template_parts_app a f : all_literal a = true →
  template_parts (a +:+ f) = match template_parts f with Some (p, q) => Some (a +:+ p, q) | None => None end.
Proof.
  induction a as [|c a IH]; intros Ha; [rewrite string_app_nil_l; by destruct (template_parts f) as [[p q]|]|].
  unfold all_literal in Ha. simpl in Ha. apply andb_true_iff in Ha as [Hc Ha]. rewrite string_app_cons. simpl. rewrite Hc, IH by done.
  by destruct (template_parts f) as [[p q]|].
Qed.

Lemma rfc_text_literal s : rfc_text s = true → all_literal s = true.
Proof.
  unfold all_literal. induction s as [|c s IH]; [done|]. simpl. intros [Hc Hs]%andb_true_iff. rewrite IH by done.
  apply rfc_char_range in Hc as [Hc _]. unfold literal_char.
  rewrite (proj2 (Z.leb_le 33 _)), (proj2 (Z.leb_le _ 126)), (proj2 (Z.eqb_neq _ 37)) by lia. done.
Qed.

Lemma rfc_text_lower s : rfc_text s = true → ToLower lower s = s.
Proof.
  intros Ht. pose proof (rfc_text_runes s Ht) as Hr. unfold ToLower.
  assert (lower_rune lower <$> runes s = runes s) as ->.
  { clear -Hr. induction Hr as [|r rs Hr _ IH]; [done|]. rewrite fmap_cons, IH. f_equal.
    pose proof (rfc_char_range r Hr). unfold lower_rune. rewrite (proj2 (Z.ltb_lt r 128)) by lia.
    destruct (Z.leb_spec 65 r), (Z.leb_spec r 90); simpl; lia. }
  apply (utf8_text_encode s (ascii_text_utf8 s (rfc_text_ascii s Ht))).
Qed.

(** The runner's part of a name. *)
Definition runner_part (config : RunnerConfig) : string :=
  match MakeRFC1123Compatible lower (ShortDescription (Credentials_ config)) with "" => "" | n => "runner-" +:+ n +:+ "-" end.

Lemma runner_name_text config : rfc_text (MakeRFC1123Compatible lower (ShortDescription (Credentials_ config))) = true.
Proof.
  destruct (rfc1123_names_are_clean lower (ShortDescription (Credentials_ config))) as [H _]. unfold rfc_name in H.
  by apply andb_true_iff in H as [[? _]%andb_true_iff _].
Qed.

Lemma machineFilter_eq config machine : machineFilter lower config machine = runner_part config +:+ MachineName machine.
Proof.
  unfold machineFilter, machineFormat, runner_part. pose proof (runner_name_text config) as Ht.
  rewrite rfc_text_lower by done. destruct (MakeRFC1123Compatible _ _); [done|].
  rewrite bool_decide_eq_true_2 by done. by rewrite <- !string_app_assoc.
Qed.

Lemma all_literal_app a b : all_literal (a +:+ b) = all_literal a && all_literal b.
Proof.
  unfold all_literal. induction a as [|c a IH]; [done|]. rewrite string_app_cons. simpl. rewrite IH. by rewrite andb_assoc.
Qed.

Lemma runner_part_literal config : all_literal (runner_part config) = true.
Proof.
  unfold runner_part. pose proof (runner_name_text config) as Ht. destruct (MakeRFC1123Compatible _ _) as [|c n]; [done|].
  rewrite !all_literal_app. by rewrite (rfc_text_literal (String c n)) by done.
Qed.

Lemma filter_parts config machine p q :
  template_parts (MachineName machine) = Some (p, q) →
  template_parts (machineFilter lower config machine) = Some (runner_part config +:+ p, q).
Proof. intros Hm. rewrite machineFilter_eq, template_parts_app, Hm by apply runner_part_literal. done. Qed.

Lemma new_name_eq config machine p q t r :
  template_parts (MachineName machine) = Some (p, q) →
  newMachineName lower print config machine t r = (runner_part config +:+ p) +:+ (Itoa t +:+ "-" +:+ hex_bytes r) +:+ q.
Proof. intros Hm. unfold newMachineName, Sprintf_one. by rewrite (filter_parts _ _ p q Hm). Qed.

Lemma Itoa_first t : (0 ≤ t)%Z → ∃ c s, Itoa t = String c s ∧ visible c = true.
Proof.
  intros Ht. destruct (Itoa_digits t Ht) as (d & Hd & -> & _). destruct d; [done|..]; simpl; eauto.
Qed.

Lemma new_name_matches config machine p q t r :
  template_parts (MachineName machine) = Some (p, q) → (0 ≤ t)%Z →
  matchesMachineFilter scan (newMachineName lower print config machine t r) (machineFilter lower config machine) = true.
Proof.
  intros Hm Ht. unfold matchesMachineFilter. rewrite (filter_parts _ _ p q Hm), (new_name_eq _ _ p q _ _ Hm).
  rewrite HasPrefix_app, sdrop_app_len. destruct (Itoa_first t Ht) as (c & s & -> & Hv). rewrite !string_app_cons. by rewrite Hv.
Qed.

(** *** Distinct draws *)

Lemma hexdigit_inj a b : (0 ≤ a < 16)%Z → (0 ≤ b < 16)%Z → hexdigit a = hexdigit b → a = b.
Proof.
  unfold hexdigit, bstr. intros Ha Hb [= E]. apply (f_equal z_of) in E. rewrite !z_of_byte_of in E.
  all: destruct (Z.ltb_spec a 10), (Z.ltb_spec b 10); lia.
Qed.

Lemma hexdigits_inj c d : hexdigits 2 (z_of c) = hexdigits 2 (z_of d) → c = d.
Proof.
  pose proof (z_of_range c). pose proof (z_of_range d). cbn [hexdigits]. intros E.
  apply string_app_inj_len in E as [H1 H2]; [|done].
  rewrite !string_app_nil_l in H1. apply hexdigit_inj in H1, H2; try (apply Z.mod_pos_bound; lia).
  rewrite <- (byte_of_z_of c), <- (byte_of_z_of d). f_equal.
  rewrite (Z.div_mod (z_of c) 16), (Z.div_mod (z_of d) 16), H2 by lia. f_equal. f_equal.
  rewrite !Z.mod_small in H1; [done|..]; (split; [apply Z.div_pos|apply Z.div_lt_upper_bound]; lia).
Qed.

Lemma hex_bytes_inj r r' : slen r = slen r' → hex_bytes r = hex_bytes r' → r = r'.
Proof.
  revert r'. induction r as [|c r IH]; intros [|c' r'] Hl; try done. simpl in Hl. cbn [hex_bytes]. intros H.
  apply string_app_inj_len in H as [H1 H2]; [|done]. apply hexdigits_inj in H1 as ->. f_equal. apply IH; [lia|done].
Qed.

Lemma new_name_inj config machine p q t r t' r' :
  template_parts (MachineName machine) = Some (p, q) → (0 ≤ t)%Z → (0 ≤ t')%Z → slen r = slen r' →
  newMachineName lower print config machine t r = newMachineName lower print config machine t' r' → t = t' ∧ r = r'.
Proof.
  intros Hm Ht Ht' Hr. rewrite !(new_name_eq _ _ p q _ _ Hm). intros H.
  apply string_app_inj_len in H as [_ H]; [|done].
  assert (Hlen := f_equal slen H). rewrite !(slen_app _ q) in Hlen. apply string_app_inj_len in H as [H _]; [|lia].
  assert (Hs := f_equal (λ s, Split s "-"%char) H).
  change ("-" +:+ hex_bytes r) with (String "-" (hex_bytes r)) in Hs. change ("-" +:+ hex_bytes r') with (String "-" (hex_bytes r')) in Hs.
  cbn beta in Hs. rewrite !Split_app in Hs by (by apply Itoa_no_char). injection Hs as Hi _.
  split; [by apply Itoa_inj|]. rewrite Hi in H. apply string_app_inj_len in H as [_ H]; [|done].
  apply hex_bytes_inj; [done|]. by apply (string_app_inj_len "-" "-") in H as [_ H].
Qed.

(** *** Other runners *)

Definition runner_name (config : RunnerConfig) : string := MakeRFC1123Compatible lower (ShortDescription (Credentials_ config)).

Lemma other_runner_no_match config config' machine machine' p q p' q' t r :
  template_parts (MachineName machine) = Some (p, q) → template_parts (MachineName machine') = Some (p', q') →
  slen (runner_name config) = slen (runner_name config') → runner_name config ≠ runner_name config' →
  matchesMachineFilter scan (newMachineName lower print config machine t r) (machineFilter lower config' machine') = false.
Proof.
  intros Hm Hm' Hl Hne. unfold matchesMachineFilter. rewrite (filter_parts _ _ p' q' Hm'), (new_name_eq _ _ p q _ _ Hm).
  destruct (HasPrefix _ _) eqn:E; [|done]. exfalso. apply HasPrefix_spec in E as [x E].
  unfold runner_part in E. fold (runner_name config) in E. fold (runner_name config') in E.
  destruct (runner_name config) as [|c n] eqn:En, (runner_name config') as [|c' n'] eqn:En'; [done..|].
  rewrite <- !string_app_assoc in E. apply string_app_inj_len in E as [_ E]; [|done].
  apply string_app_inj_len in E as [E _]; done.
Qed.

(** A new machine's name matches the filter of its runner, so it is found again; two
    draws of time and random bytes give two names; and it does not match the filter of a
    runner with another short name of the same length, whatever the templates of the two. *)
Theorem machine_names_belong_to_their_runner config machine p q t r :
  template_parts (MachineName machine) = Some (p, q) → (0 ≤ t)%Z →
  matchesMachineFilter scan (newMachineName lower print config machine t r) (machineFilter lower config machine) = true ∧
  (∀ t' r', (0 ≤ t')%Z → slen r = slen r' →
     newMachineName lower print config machine t r = newMachineName lower print config machine t' r' → t = t' ∧ r = r') ∧
  (∀ config' machine' p' q', template_parts (MachineName machine') = Some (p', q') →
     slen (runner_name config) = slen (runner_name config') → runner_name config ≠ runner_name config' →
     matchesMachineFilter scan (newMachineName lower print config machine t r) (machineFilter lower config' machine') = false).
Proof.
  intros Hm Ht. split; [by apply (new_name_matches _ _ p q)|]. split.
  - intros t' r' Ht' Hr. by apply (new_name_inj _ _ p q).
  - intros config' machine' p' q' Hm' Hl Hne. by apply (other_runner_no_match _ _ _ _ p q p' q').
Qed.
End NameProofs.

Lemma machine_names_belong_to_their_runner_witness :
  let name := newMachineName (λ r, r) (λ _ s, s) DemoMachine.config DemoMachine.machine 1500000000 "abcd" in
  name = "runner-01234567-auto-1500000000-61626364" ∧
  matchesMachineFilter (λ _ _, false) name (machineFilter (λ r, r) DemoMachine.config DemoMachine.machine) = true.
Proof.
  split; [by vm_compute|].
  apply (machine_names_belong_to_their_runner (λ r, r) (λ _ _, false) (λ _ s, s) DemoMachine.config DemoMachine.machine "auto-" "").
  - by vm_compute.
  - done.
Defined.

(** ** The pool of machines with these names *)

Section Pool.
Context (lower : Z → Z) (scan : string → string → bool) (print : string → string → string).
Context (config : RunnerConfig) (machine : DockerMachine) (p q : string) (draw : nat → Z * string).
Context (Htemplate : template_parts (MachineName machine) = Some (p, q)).
Context (Hdraw : ∀ i, (0 ≤ fst (draw i))%Z ∧ slen (snd (draw i)) = 4) (Hinj : ∀ i j, draw i = draw j → i = j).
Context (list_ : result string (list string)) (connects credentials creates : string → bool) (provisions : string → nat → bool).
Abbreviation env := (machine_env lower scan print config machine draw list_ connects credentials creates provisions).

(** What the pre-creation of machines asks of the names ([names_free]) holds as long as no
    two draws are the same and none of the names is in use. *)
Lemma drawn_names_are_free k m :
  (∀ i, k ≤ i → details m !! Machine.newMachineName env i = None) → names_free env k m.
Proof.
  intros Hfree. split; [done|]. intros i j Hij. apply Hinj. simpl in Hij.
  destruct (Hdraw i) as [Hi Hli], (Hdraw j) as [Hj Hlj].
  destruct (new_name_inj lower print config machine p q (fst (draw i)) (snd (draw i)) (fst (draw j)) (snd (draw j)))
    as [H1 H2]; [done..|congruence|done|]. destruct (draw i), (draw j). simpl in *. congruence.
Qed.

(** A machine that was created is found when the machines are listed. *)
Lemma created_machines_are_listed l i :
  list_ = Ok l → Machine.newMachineName env i ∈ l → ∃ l', loadMachines env = Ok l' ∧ Machine.newMachineName env i ∈ l'.
Proof.
  intros Hl Hin. unfold loadMachines. simpl. rewrite Hl. eexists. split; [done|]. apply list_elem_of_filter. split; [|done].
  apply (new_name_matches lower scan print config machine p q); [done|apply Hdraw].
Qed.
End Pool.

(** Short names are lower case: the tokens of two runners that differ in case only have one
    filter, and each runner takes the other's machines for its own. *)
Lemma runners_can_share_machines :
  machineFormat (λ r, r) (MakeRFC1123Compatible (λ r, r) (ShortenToken "AbcdEfgh-1")) "auto-%s" =
  machineFormat (λ r, r) (MakeRFC1123Compatible (λ r, r) (ShortenToken "aBCDeFGH-2")) "auto-%s".
Proof. by vm_compute. Qed.

(** ** The log *)

(** The reads of a text, one line at a time. *)
Fixpoint reads_of (lines : list string) : list (string * read_end) :=
  match lines with
  | [] => [("", EOF)]
  | [l] => [(l, EOF)]
  | l :: rest => (l +:+ String newline "", More) :: reads_of rest
  end.

Lemma TrimRight_sep l : newline ∉ String.list_ascii_of_string l →
  TrimRight l newline = l ∧ TrimRight (l +:+ String newline "") newline = l.
Proof.
  induction l as [|c l IH]; [done|]. rewrite string_app_cons. cbn [TrimRight String.list_ascii_of_string].
  intros [Hc Hl]%not_elem_of_cons. destruct (IH Hl) as [H1 H2]. rewrite H1, H2. rewrite (bool_decide_eq_false_2 (c = newline)) by congruence.
  by rewrite andb_false_r.
Qed.

(** Every line of the output that is not empty is logged, in order. *)
Lemma watch_logs_the_lines text :
  log_watch (reads_of (Split text newline)) = (filter (λ l, l ≠ "") (Split text newline), false).
Proof.
  pose proof (Split_no_sep text newline) as Hs. revert Hs. generalize (Split text newline). intros ls Hs.
  assert (Hw : ∀ l, newline ∉ String.list_ascii_of_string l →
    log_write l = (if decide (l ≠ "") then [l] else []) ∧ log_write (l +:+ String newline "") = log_write l).
  { intros l Hl. destruct (TrimRight_sep l Hl) as [H1 H2]. unfold log_write. rewrite H1, H2. split; [|done].
    case_bool_decide; case_decide; naive_solver. }
  induction Hs as [|l ls Hl Hs IH]; [done|]. destruct (Hw l Hl) as [H1 H2]. rewrite filter_cons.
  destruct ls as [|l' ls]; [simpl; rewrite H1; by case_decide|].
  change (log_watch (reads_of (l :: l' :: ls))) with
    (let '(xs, problem) := log_watch (reads_of (l' :: ls)) in (log_write (l +:+ String newline "") ++ xs, problem)).
  rewrite IH, H2, H1. by case_decide.
Qed.
