(* ===== verification/DockerClient.v ===== *)
(** The Docker client of the runner (helpers/docker/official_docker_client.go, sockets.go,
    credentials.go): how it finds and configures the connection to an engine, and what it makes
    of the engine's answers. [official_client] turns an engine into the [Daemon] that the
    executor of Docker.v is run against. *)

From S2P Require Import Prelude GoMonad GoLib Path Types Variables Config Build DockerImages Docker DockerClaims MachineCommand.
#[local] Open Scope go_scope.

(** ** The connection *)

Definition DefaultAPIVersion : string := "1.25".

(** [os.Getenv] is [env]; a value that is no boolean is false. *)
Definition credentialsFromEnv (env : string → string) : DockerCredentials :=
  mkDockerCredentials (env "DOCKER_HOST") (env "DOCKER_CERT_PATH") (default false (ParseBool (env "DOCKER_TLS_VERIFY"))).

Record tls_options := mkTLSOptions { to_CAFile : string; to_CertFile : string; to_KeyFile : string }.

(** What is set of a transport: its timeouts in seconds, the sockets with keep-alive, and TLS. *)
Record docker_transport := mkTransport {
  dt_proto : string; dt_addr : string; dt_TLSHandshakeTimeout : Z; dt_ResponseHeaderTimeout : Z;
  dt_ExpectContinueTimeout : Z; dt_IdleConnTimeout : Z; dt_KeepAlive : option (Z * Z); dt_TLS : option tls_options }.

Section Connection.
(** The vendored client: the protocol and address of a host, its default host, the errors of
    configuring a transport, of a dialer from the environment and of reading certificates, and
    of the client itself. *)
Context (ParseHostURL : string → result string (string * string)) (DefaultDockerHost : string)
        (ConfigureTransport : string → string → option string) (DialerFromEnvironment : option string)
        (tlsconfig_Client : tls_options → option string) (NewClient : string → string → option string).

Definition configureTransport (proto addr : string) : result string docker_transport :=
  match ConfigureTransport proto addr with
  | Some err => Err err
  | None =>
      let tr keepAlive := mkTransport proto addr 60 120 120 10 keepAlive None in
      if bool_decide (proto = "tcp") || bool_decide (proto = "http") || bool_decide (proto = "https") then
        match DialerFromEnvironment with Some err => Err err | None => Ok (tr (Some (300%Z, 10%Z))) end
      else Ok (tr None)
  end.

(** The files of a directory of certificates, if there is one. *)
Definition tls_files (c : DockerCredentials) : tls_options :=
  if bool_decide (dc_CertPath c = "") then mkTLSOptions "" "" ""
  else mkTLSOptions (pathJoin [dc_CertPath c; "ca.pem"]) (pathJoin [dc_CertPath c; "cert.pem"]) (pathJoin [dc_CertPath c; "key.pem"]).

Definition newHTTPTransport (c : DockerCredentials) : result string docker_transport :=
  let? url := ParseHostURL (dc_Host c) in
  let? tr := configureTransport (fst url) (snd url) in
  if dc_TLSVerify c then
    let options := tls_files c in
    match tlsconfig_Client options with
    | Some err => Err err
    | None => Ok (mkTransport (dt_proto tr) (dt_addr tr) (dt_TLSHandshakeTimeout tr) (dt_ResponseHeaderTimeout tr)
                    (dt_ExpectContinueTimeout tr) (dt_IdleConnTimeout tr) (dt_KeepAlive tr) (Some options))
    end
  else Ok tr.

(** The transport and the version of a client. *)
Definition newOfficialDockerClient (c : DockerCredentials) (apiVersion : string) : result string (docker_transport * string) :=
  let? transport := newHTTPTransport c in
  match NewClient (dc_Host c) apiVersion with Some err => Err err | None => Ok (transport, apiVersion) end.

Definition docker_New (env : string → string) (c : DockerCredentials) (apiVersion : string) : result string (docker_transport * string) :=
  let c := if bool_decide (dc_Host c = "") then credentialsFromEnv env else c in
  let c := if bool_decide (dc_Host c = "") then mkDockerCredentials DefaultDockerHost (dc_CertPath c) (dc_TLSVerify c) else c in
  newOfficialDockerClient c (if bool_decide (apiVersion = "") then DefaultAPIVersion else apiVersion).

Lemma configureTransport_spec proto addr tr :
  configureTransport proto addr = Ok tr → dt_proto tr = proto ∧ dt_addr tr = addr ∧ dt_TLS tr = None.
Proof.
  unfold configureTransport. destruct (ConfigureTransport proto addr); [done|].
  destruct (_ || _); [destruct DialerFromEnvironment; [done|]|]; by intros [= <-].
Qed.

Lemma newHTTPTransport_spec c tr : newHTTPTransport c = Ok tr →
  ParseHostURL (dc_Host c) = Ok (dt_proto tr, dt_addr tr) ∧
  dt_TLS tr = (if dc_TLSVerify c then Some (tls_files c) else None).
Proof.
  unfold newHTTPTransport. destruct (ParseHostURL (dc_Host c)) as [[proto addr]|]; [|done]. simpl.
  destruct (configureTransport proto addr) as [tr0|] eqn:E; [|done]. apply configureTransport_spec in E as (<- & <- & Ht).
  simpl. destruct (dc_TLSVerify c); [destruct (tlsconfig_Client _); [done|]|]; by intros [= <-].
Qed.

(** A configured host decides the whole connection: the environment plays no part, and TLS is
    used exactly when the configuration asks for it, with the files of its own directory. *)
Lemma configured_host_decides env env' c v tr v' :
  dc_Host c ≠ "" → docker_New env c v = Ok (tr, v') →
  docker_New env' c v = Ok (tr, v') ∧ ParseHostURL (dc_Host c) = Ok (dt_proto tr, dt_addr tr) ∧
  dt_TLS tr = (if dc_TLSVerify c then Some (tls_files c) else None) ∧ v' ≠ "".
Proof.
  intros Hh. unfold docker_New. rewrite (bool_decide_eq_false_2 _ Hh). cbv zeta. rewrite (bool_decide_eq_false_2 _ Hh).
  intros H. split; [done|]. unfold newOfficialDockerClient in H. destruct (newHTTPTransport c) as [tr0|] eqn:Et; [|done].
  simpl in H. destruct (NewClient _ _); [done|]. injection H as <- <-. apply newHTTPTransport_spec in Et as [? ?].
  split_and!; try done. by case_bool_decide.
Qed.
End Connection.

(** ** The answers *)

(** The stream in which an engine reports on a pull or an import. *)
Inductive stream_message := SProgress (text : string) | SError (text : string).

(** An engine: it answers as a [Daemon] does, but for pulls and imports it opens a stream or
    fails, and the stream may break off. *)
Record Engine := mkEngine {
  en_daemon : Daemon;
  en_pull : dhist → string → result derror (list stream_message * option derror);
  en_import : dhist → string → result derror (list stream_message * option derror) }.

(** Where the method of the client was called from, if that is known, and how many seconds the
    call took. *)
Record call_site := mkSite { cs_caller : option (string * Z); cs_seconds : Z }.

Section Client.
Context `{!GoText} (E : Engine) (site : dhist → call_site) (new_error : option derror).

Definition wrapError (method : string) (h : dhist) (err : derror) : derror :=
  let seconds := Itoa (cs_seconds (site h)) in
  EGo (ErrText (derror_text err +:+
    match cs_caller (site h) with
    | Some (file, line) => " (" +:+ Path.Base file +:+ ":" +:+ Itoa line +:+ ":" +:+ seconds +:+ "s)"
    | None => " (" +:+ method +:+ ":" +:+ seconds +:+ "s)"
    end)).

(** [client.IsErrNotFound]: a test of the error's type. *)
Definition IsErrNotFound (err : derror) : bool := match err with ENotFound _ => true | _ => false end.

Definition wrap_result {A} (method : string) (h : dhist) (r : result derror A) : result derror A :=
  match r with Ok a => Ok a | Err err => Err (wrapError method h err) end.

(** The stream is read to its end and thrown away. *)
Definition blocking (method copy : string) (h : dhist) (r : result derror (list stream_message * option derror)) : option derror :=
  match r with
  | Err err => Some (wrapError method h err)
  | Ok (_, Some err) => Some (wrapError copy h err)
  | Ok (_, None) => None
  end.

Definition ImagePullBlocking (h : dhist) (ref : string) : option derror :=
  blocking "ImagePull" "io.Copy: Failed to pull image" h (en_pull E h ref).
Definition ImageImportBlocking (h : dhist) (path : string) : option derror :=
  blocking "ImageImport" "io.Copy: Failed to import image" h (en_import E h path).

(** The methods under the names they report; [ContainerStart] and [ContainerKill] report
    another's. What is no call of the client stays as it is. *)
Definition official_client : Daemon :=
  let D := en_daemon E in
  {| d_new := new_error;
     d_info h := wrap_result "Info" h (d_info D h);
     d_inspect h id := wrap_result "ContainerInspect" h (d_inspect D h id);
     d_create h name := match d_create D h name with
                        | Ok id => Ok id | Err (err, id) => Err (wrapError "ContainerCreate" h err, id) end;
     d_start h id := wrapError "ContainerCreate" h <$> d_start D h id;
     d_attach h id := wrapError "ContainerAttach" h <$> d_attach D h id;
     d_remove h id := wrapError "ContainerRemove" h <$> d_remove D h id;
     d_networks h := wrap_result "NetworkList" h (d_networks D h);
     d_disconnect h network id := wrapError "NetworkDisconnect" h <$> d_disconnect D h network id;
     d_image h name := wrap_result "ImageInspectWithRaw" h (d_image D h name);
     d_pull := ImagePullBlocking;
     d_open := d_open D;
     d_import := ImageImportBlocking;
     d_logs h id := wrap_result "ContainerLogs" h (d_logs D h id);
     d_ssh := d_ssh D; d_polls := d_polls D; d_ctxErr := d_ctxErr D; d_kills := d_kills D; d_watch := d_watch D;
     d_timeout := d_timeout D |}.

(** *** What gets through *)

Lemma Contains_mono s t sub : Contains s sub = true → Contains (s +:+ t) sub = true.
Proof.
  unfold Contains at 1. destruct (cut s sub) as [[a b]|] eqn:Ec; [|done]. apply cut_sound in Ec as ->. intros _.
  rewrite <- !string_app_assoc. apply Contains_app.
Qed.

(** The text of an error starts with the engine's; its type is lost. *)
Lemma wrapError_text method h err : HasPrefix (derror_text (wrapError method h err)) (derror_text err) = true.
Proof. unfold wrapError. simpl. apply HasPrefix_app. Qed.

Lemma wrapError_not_found method h err : IsErrNotFound (wrapError method h err) = false.
Proof. done. Qed.

(** So the pull of an image that does not exist is still told from a failing engine. *)
Lemma missing_images_are_recognised method h err :
  image_missing (derror_text err) = true → image_missing (derror_text (wrapError method h err)) = true.
Proof.
  unfold image_missing, wrapError. simpl. rewrite !orb_true_iff. intros [Hm|Hm]; [left|right]; by apply Contains_mono.
Qed.

Lemma wrap_result_ok {A} method h (r : result derror A) a : wrap_result method h r = Ok a ↔ r = Ok a.
Proof. by destruct r. Qed.

(** The client succeeds exactly where the engine does and with the engine's values; pulls and
    imports succeed exactly when their stream was opened and read to its end. *)
Theorem client_is_transparent h :
  let D := en_daemon E in
  (∀ id c, d_inspect official_client h id = Ok c ↔ d_inspect D h id = Ok c) ∧
  (∀ name id, d_create official_client h name = Ok id ↔ d_create D h name = Ok id) ∧
  (∀ id, d_start official_client h id = None ↔ d_start D h id = None) ∧
  (∀ id, d_attach official_client h id = None ↔ d_attach D h id = None) ∧
  (∀ id, d_remove official_client h id = None ↔ d_remove D h id = None) ∧
  (∀ l, d_networks official_client h = Ok l ↔ d_networks D h = Ok l) ∧
  (∀ network id, d_disconnect official_client h network id = None ↔ d_disconnect D h network id = None) ∧
  (∀ name image, d_image official_client h name = Ok image ↔ d_image D h name = Ok image) ∧
  (∀ ref, d_pull official_client h ref = None ↔ ∃ messages, en_pull E h ref = Ok (messages, None)) ∧
  (∀ path, d_import official_client h path = None ↔ ∃ messages, en_import E h path = Ok (messages, None)).
Proof.
  assert (Hb : ∀ m c r, blocking m c h r = None ↔ ∃ messages, r = Ok (messages, None)).
  { intros m c [[l [err|]]|err]; simpl; split; try done; try (by intros [? ?]). eauto. }
  cbv zeta. unfold official_client. cbn. setoid_rewrite fmap_None. setoid_rewrite wrap_result_ok.
  unfold ImagePullBlocking, ImageImportBlocking. setoid_rewrite Hb. split_and!; try done.
  intros name id. by destruct (d_create (en_daemon E) h name) as [|[err i]].
Qed.

(** *** What does not *)


(** The engine reports a pull that fails after it began in the stream, which is thrown away:
    the pull counts as done, and an image of that name that is there from before is used. *)
Theorem failed_pull_uses_old_image {DL : DockerLib} imageName ac e h messages old :
  let ref := if Contains imageName ":" || Contains imageName "@" then imageName else imageName +:+ ":latest" in
  hist e = h → en_pull E h ref = Ok (messages, None) →
  (∀ h', d_image (en_daemon E) h' imageName = Ok old) →
  ∃ e', pullDockerImage official_client imageName ac e = (Ok old, e').
Proof.
  intros ref Hh Hp Ho. unfold pullDockerImage, SetCurrentStage, mupd, bindM, attempt, ImagePull. cbn. fold ref.
  rewrite Hh. unfold ImagePullBlocking. rewrite Hp. cbn. unfold ImageInspect. cbn. rewrite Ho. cbn. eauto.
Qed.
End Client.

(** ** A concrete engine *)

Module DemoClient.
Definition engine : Engine :=
  mkEngine DemoDocker.daemon (λ _ _, Ok ([SProgress "Pulling"; SError "unexpected EOF"], None)) (λ _ _, Ok ([], None)).
Definition site (_ : dhist) : call_site := mkSite (Some ("executors/docker/executor_docker.go", 768%Z)) 0.
End DemoClient.

