(* ===== verification/ClientTLS.v ===== *)
(** The TLS side of the API client (network/client.go): when the transport is made anew, and
    from what. GitLabClient.v has the requests and the rest of the client. Certificates are
    texts; the pool of the system, the parsing of PEM and the loading of a key pair are
    parameters, and so are the files at each time. *)

From S2P Require Import Prelude GoLib Types.

(** A file: when it was modified, and what it holds. *)
Record file_state := mkFileState { f_mtime : Z; f_content : string }.

(** What [ReadFile] and [Stat] find. *)
Definition files : Type := string → option file_state.

(** The configuration of a transport. *)
Record tls_config := mkTLS { InsecureSkipVerify : bool; RootCAs : option (list string); Certificates : list string }.

Record tls_client := mkTLSClient {
  tc_caFile : string; tc_certFile : string; tc_keyFile : string; tc_caData : string; skipVerify : bool; updateTime : Z;
  Transport : option tls_config }.

Section TLS.
(** The certificates of the system (none when they cannot be loaded), whether a text holds a
    certificate, and a pair of certificate and key by their contents. *)
Context (SystemCertPool : option (list string)) (AppendCertsFromPEM : string → bool)
        (LoadX509KeyPair : string → string → option string).

Definition set_transport (n : tls_client) (caData : string) (t : Z) (tr : option tls_config) : tls_client :=
  mkTLSClient (tc_caFile n) (tc_certFile n) (tc_keyFile n) caData (skipVerify n) t tr.

(** Every failure is only logged. *)
Definition addTLSCA (fs : files) (n : tls_client) (c : tls_config) : tls_config * string :=
  if negb (bool_decide (tc_caFile n = "")) && negb (skipVerify n) then
    match fs (tc_caFile n) with
    | Some f =>
        let pool := default [] SystemCertPool in
        if AppendCertsFromPEM (f_content f)
        then (mkTLS (InsecureSkipVerify c) (Some (pool ++ [f_content f])) (Certificates c), f_content f)
        else (c, tc_caData n)
    | None => (c, tc_caData n)
    end
  else (c, tc_caData n).

Definition addTLSAuth (fs : files) (n : tls_client) (c : tls_config) : tls_config :=
  if negb (bool_decide (tc_certFile n = "")) && negb (bool_decide (tc_keyFile n = "")) then
    match fs (tc_certFile n), fs (tc_keyFile n) with
    | Some cert, Some key =>
        match LoadX509KeyPair (f_content cert) (f_content key) with
        | Some certificate => mkTLS (InsecureSkipVerify c) (RootCAs c) [certificate]
        | None => c
        end
    | _, _ => c
    end
  else c.

Definition createTransport (fs : files) (n : tls_client) : tls_client :=
  let '(c, caData) := addTLSCA fs n (mkTLS (skipVerify n) None []) in
  set_transport n caData (updateTime n) (Some (addTLSAuth fs n c)).

(** A file that is there and was modified after the transport was made. *)
Definition modified (fs : files) (n : tls_client) (name : string) : bool :=
  match fs name with Some f => (updateTime n <? f_mtime f)%Z | None => false end.

Definition ensureTLSConfig (now : Z) (fs : files) (n : tls_client) : tls_client :=
  let stale := modified fs n (tc_caFile n) || modified fs n (tc_certFile n) || modified fs n (tc_keyFile n) in
  match (if stale then None else Transport n) with
  | None => createTransport fs (set_transport n (tc_caData n) now None)
  | Some _ => n
  end.

(** ** The transport follows the files *)

(** The files over time, and what modification times are for: a file whose modification is
    not after [t0] was there at [t0] as it is now. *)
Context (at_ : Z → files).
Context (Hmtime : ∀ t0 t name f, (t0 ≤ t)%Z → at_ t name = Some f → (f_mtime f ≤ t0)%Z → at_ t0 name = Some f).

(** The transport that the files give. *)
Definition transport_from (fs : files) (n : tls_client) : tls_config :=
  addTLSAuth fs n (fst (addTLSCA fs n (mkTLS (skipVerify n) None []))).

Definition same_names (n n' : tls_client) : Prop :=
  tc_caFile n' = tc_caFile n ∧ tc_certFile n' = tc_certFile n ∧ tc_keyFile n' = tc_keyFile n ∧ skipVerify n' = skipVerify n.

(** The transport was made from the files as they were at [updateTime]. *)
Definition tls_ok (t : Z) (n : tls_client) : Prop :=
  match Transport n with None => True | Some tr => (updateTime n ≤ t)%Z ∧ tr = transport_from (at_ (updateTime n)) n end.

Lemma create_spec t n :
  let n' := createTransport (at_ t) (set_transport n (tc_caData n) t None) in
  same_names n n' ∧ updateTime n' = t ∧ Transport n' = Some (transport_from (at_ t) n').
Proof.
  unfold createTransport. destruct (addTLSCA (at_ t) _ _) as [c d] eqn:E. simpl.
  split; [done|]. split; [done|]. f_equal. unfold transport_from. simpl.
  assert (Hc : addTLSCA (at_ t) (set_transport (set_transport n (tc_caData n) t None) d t (Some (addTLSAuth (at_ t) (set_transport n (tc_caData n) t None) c)))
                 (mkTLS (skipVerify n) None []) = (c, d)).
  { revert E. unfold addTLSCA. simpl. destruct (_ && _); [|by intros [= <- <-]].
    destruct (at_ t (tc_caFile n)) as [f|]; [|by intros [= <- <-]]. by destruct (AppendCertsFromPEM _); intros [= <- <-]. }
  change (skipVerify (set_transport n (tc_caData n) t None)) with (skipVerify n). unfold set_transport in *. simpl in *. by rewrite Hc.
Qed.

(** Before every request [ensureTLSConfig] leaves a transport, and every one of the three
    files that is there is the one the transport was made from, however the files changed
    since the transport was made. *)
Theorem transport_follows_files t0 t n :
  tls_ok t0 n → (t0 ≤ t)%Z →
  let n' := ensureTLSConfig t (at_ t) n in
  tls_ok t n' ∧ same_names n n' ∧ is_Some (Transport n') ∧
  ∀ name f, name ∈ [tc_caFile n; tc_certFile n; tc_keyFile n] → at_ t name = Some f → at_ (updateTime n') name = Some f.
Proof.
  intros Hok Ht n'. unfold n', ensureTLSConfig.
  destruct (modified (at_ t) n (tc_caFile n) || modified (at_ t) n (tc_certFile n) || modified (at_ t) n (tc_keyFile n)) eqn:Es;
    [|destruct (Transport n) as [tr|] eqn:Et].
  2: { unfold tls_ok in *. rewrite Et in *. destruct Hok as [Hu ->].
    split; [split; [lia|done]|]. split; [done|]. split; [eauto|]. intros name f Hin Hf. apply (Hmtime _ t); [lia|done|].
    apply orb_false_elim in Es as [[E1 E2]%orb_false_elim E3].
    assert (Hm : modified (at_ t) n name = false)
      by (repeat (apply elem_of_cons in Hin as [->|Hin]; [done|]); by apply elem_of_nil in Hin).
    unfold modified in Hm. rewrite Hf in Hm. by apply Z.ltb_ge in Hm. }
  all: destruct (create_spec t n) as (Hs & Hu & Htr); split; [unfold tls_ok; rewrite Htr, Hu; split; [lia|done]|];
    (split; [exact Hs|]); (split; [rewrite Htr; eauto|]); intros name f _ Hf; by rewrite Hu.
Qed.
End TLS.

(** The chain of certificates that jobs are given ([tc_caData]) is not reset with the transport:
    when the file is replaced by one without a certificate the two disagree. *)
Lemma ca_chain_can_be_stale :
  let fs content mtime : files := λ name, if bool_decide (name = "ca.crt") then Some (mkFileState mtime content) else None in
  let ensure := ensureTLSConfig None (λ s, bool_decide (s ≠ "garbage")) (λ _ _, None) in
  let n1 := ensure 10%Z (fs "cert" 5%Z) (mkTLSClient "ca.crt" "" "" "" false 0 None) in
  let n2 := ensure 30%Z (fs "garbage" 20%Z) n1 in
  tc_caData n2 = "cert" ∧ RootCAs <$> Transport n2 = Some None.
Proof. by vm_compute. Qed.
