(* ===== verification/ServiceCommands.v ===== *)
(** Commands around the service: its installation and control (commands/service.go,
    helpers/service), the warning about the user's mode (commands/user_mode_warning.go), the
    listing of runners (commands/list.go), the health check of a service container
    (commands/helpers/health_check.go), and what the running service shows: the session of a
    build (commands/multi.go), the list of jobs and the numbers of the collectors
    (commands/builds_helper.go). *)

From S2P Require Import Prelude GoLib Types Config BuildsHelper Session Regex.
#[local] Open Scope go_scope.

(** ** commands/service.go *)

Definition defaultServiceName : string := "gitlab-runner".
Definition defaultDescription : string := "GitLab Runner".

Inductive os := Linux | Darwin | Windows | OtherOS.
#[export] Instance os_eq_dec : EqDecision os.
Proof. solve_decision. Defined.

(** The flags of a command; a flag that is not given is its default. *)
Record flags := mkFlags {
  fl_service : string; fl_working_directory : string; fl_config : string; fl_user : string; fl_password : string;
  fl_syslog : option bool }.

(** The options of a service manager. *)
Inductive option_value := OBool (b : bool) | OText (s : string).
Record svcConfig := mkSvcConfig {
  sc_Name : string; sc_DisplayName : string; sc_Description : string; sc_Arguments : list string;
  sc_Option : list (string * option_value); sc_UserName : string }.

Definition getServiceArguments (c : flags) : list string :=
  (if bool_decide (fl_working_directory c ≠ "") then ["--working-directory"; fl_working_directory c] else []) ++
  (if bool_decide (fl_config c ≠ "") then ["--config"; fl_config c] else []) ++
  (if bool_decide (fl_service c ≠ "") then ["--service"; fl_service c] else []) ++
  (if default true (fl_syslog c) then ["--syslog"] else []).

(** [Err] is a fatal message. *)
Definition createServiceConfig (goos : os) (uid : Z) (c : flags) : result string svcConfig :=
  let arguments := ["run"] ++ getServiceArguments c in
  let make args opts user := Ok (mkSvcConfig (fl_service c) (fl_service c) defaultDescription args opts user) in
  let user_args := if bool_decide (fl_user c ≠ "") then ["--user"; fl_user c] else [] in
  match goos with
  | Linux =>
      if negb (uid =? 0)%Z then Err "Please run the commands as root" else make (arguments ++ user_args) [] ""
  | Darwin =>
      let opts := [("KeepAlive", OBool true); ("RunAtLoad", OBool true); ("UserService", OBool (negb (uid =? 0)%Z))] in
      if bool_decide (fl_user c ≠ "") && negb (uid =? 0)%Z then Err "The --user is not supported for non-root users"
      else make (arguments ++ user_args) opts ""
  | Windows => make arguments [("Password", OText (fl_password c))] (fl_user c)
  | OtherOS => make arguments [] ""
  end.

(** ** helpers/service *)

(** A service: the errors of its methods, and its name. *)
Record ServiceMethods := mkServiceMethods {
  sv_String : string; sv_Start : option string; sv_Stop : option string; sv_Restart : option string;
  sv_Install : option string; sv_Uninstall : option string; sv_Status : option string }.

Definition ErrNotSupported : string := "Not supported".
Definition ErrNoServiceSystemDetected : string := "No service system detected.".

(** Without a service manager nothing but running is supported. *)
Definition SimpleService : ServiceMethods :=
  let e := Some ErrNotSupported in mkServiceMethods "SimpleService" (Some ErrNoServiceSystemDetected) e e e e e.

(** What the library's [New] gives; a missing service manager is replaced with a warning. *)
Inductive new_result := NewOk (s : ServiceMethods) | NoServiceSystemDetected | NewError (msg : string).
Definition service_New (r : new_result) : result string ServiceMethods * bool :=
  match r with
  | NewOk s => (Ok s, false)
  | NoServiceSystemDetected => (Ok SimpleService, true)
  | NewError msg => (Err msg, false)
  end.

(** [Control] of the service library. *)
Definition Control (s : ServiceMethods) (action : string) : option string :=
  let err := if bool_decide (action = "start") then sv_Start s
             else if bool_decide (action = "stop") then sv_Stop s
             else if bool_decide (action = "restart") then sv_Restart s
             else if bool_decide (action = "install") then sv_Install s
             else if bool_decide (action = "uninstall") then sv_Uninstall s
             else if bool_decide (action = "status") then sv_Status s
             else Some ("Unknown action " +:+ action) in
  (λ e, "Failed to " +:+ action +:+ " " +:+ sv_String s +:+ ": " +:+ e) <$> err.

(** [SimpleService.Run]: start, a signal, stop. [start] and [stop] are the errors of the
    program's methods; the events are recorded. *)
Inductive run_event := EvStart | EvWaitSignal | EvStop.
Definition simple_Run (start stop : option string) : option string * list run_event :=
  match start with
  | Some err => (Some err, [EvStart])
  | None => (stop, [EvStart; EvWaitSignal; EvStop])
  end.

(** ** Control of the service (commands/service.go) *)

(** How a command ends, and what it did to the configuration file and to the service manager. *)
Inductive command_end := Success_ | FatalExit (msg : string) | ExitOne (stderr : string).
Inductive service_effect := SavedConfig (file : string) | Controlled (action : string).

Section ServiceControl.
(** The configuration file: whether it could be read and was there, and the error of saving it. *)
Context (LoadConfig : string → result string bool) (SaveConfig : string → option string).

Definition runServiceInstall (s : ServiceMethods) (uid : Z) (c : flags) : option string * list service_effect :=
  let install := Control s "install" in
  if bool_decide (fl_user c = "") && (uid =? 0)%Z then (Some "Please specify user that will run gitlab-runner service", [])
  else if bool_decide (fl_config c = "") then (install, [Controlled "install"])
  else match LoadConfig (fl_config c) with
       | Err err => (Some err, [])
       | Ok true => (install, [Controlled "install"])
       | Ok false =>
           match SaveConfig (fl_config c) with
           | Some err => (Some err, [])
           | None => (install, [SavedConfig (fl_config c); Controlled "install"])
           end
       end.

(** [Ok] is what is printed; on an error the command ends there. *)
Definition runServiceStatus (displayName : string) (s : ServiceMethods) : result string string :=
  match sv_Status s with
  | None => Ok (displayName +:+ ": Service is running!")
  | Some err => Err (displayName +:+ ": " +:+ err)
  end.

Definition fatal_if (err : option string) : command_end := match err with Some e => FatalExit e | None => Success_ end.

Definition RunServiceControl (goos : os) (uid : Z) (new : new_result) (name : string) (c : flags)
    : command_end * list service_effect :=
  match createServiceConfig goos uid c with
  | Err msg => (FatalExit msg, [])
  | Ok sc =>
      match fst (service_New new) with
      | Err err => (FatalExit err, [])
      | Ok s =>
          if bool_decide (name = "install") then let '(err, effects) := runServiceInstall s uid c in (fatal_if err, effects)
          else if bool_decide (name = "status") then
            (match runServiceStatus (sc_DisplayName sc) s with Ok _ => Success_ | Err e => ExitOne e end, [])
          else (fatal_if (Control s name), [Controlled name])
      end
  end.
End ServiceControl.

(** ** commands/user_mode_warning.go *)

Inductive logged := LInfo (msg : string) | LWarn (msg : string).

Definition userModeWarning (goos : os) (uid : Z) (withRun : bool) : list logged :=
  if bool_decide (goos = Windows) then []
  else
    let systemMode := (uid =? 0)%Z in
    let noServices := negb (bool_decide (goos = Linux)) && negb (bool_decide (goos = Darwin)) in
    let noUserService := negb systemMode && bool_decide (goos = Linux) in
    [if systemMode then LInfo "Running in system-mode." else LWarn "Running in user-mode."] ++
    (if withRun then
       if noServices then [LWarn "You need to manually start builds processing:"; LWarn "$ gitlab-runner run"]
       else if noUserService
       then [LWarn "The user-mode requires you to manually start builds processing:"; LWarn "$ gitlab-runner run"] else []
     else []) ++
    (if negb systemMode then [LWarn "Use sudo for system-mode:"; LWarn "$ sudo gitlab-runner..."] else []) ++ [LInfo ""].

(** ** commands/list.go *)

Definition list_Execute (load : result string (list RunnerConfig)) : list (string * string * string * string) :=
  match load with
  | Err _ => []
  | Ok runners => (λ r, (Name r, Executor r, RC_Token (Credentials_ r), RC_URL (Credentials_ r))) <$> runners
  end.

(** ** commands/helpers/health_check.go *)

(** The address and the port of the last variables that name them; a variable whose value
    holds an equal sign is passed over. *)
Fixpoint find_address (environ : list string) (addr port : string) : string * string :=
  match environ with
  | [] => (addr, port)
  | e :: rest =>
      match Split e "="%char with
      | [k; v] =>
          if HasSuffix k "_TCP_ADDR" then find_address rest v port
          else if HasSuffix k "_TCP_PORT" then find_address rest addr v
          else find_address rest addr port
      | _ => find_address rest addr port
      end
  end.

(** The loop, given the outcomes of the attempts to connect: the number of seconds slept
    before the first success. *)
Fixpoint dial_until (attempts : list bool) : option nat :=
  match attempts with
  | [] => None
  | true :: _ => Some 0
  | false :: rest => S <$> dial_until rest
  end.

Inductive health_end := NoHost | Connected (addr port : string) (slept : nat) | Waiting.
Definition health_Execute (environ : list string) (dial : string → string → list bool) : health_end :=
  let '(addr, port) := find_address environ "" "" in
  if bool_decide (addr = "") || bool_decide (port = "") then NoHost
  else match dial_until (dial addr port) with Some n => Connected addr port n | None => Waiting end.

(** ** commands/multi.go *)

(** [Start]: the working directory, then the configuration, then the service in a goroutine of
    its own, which [true] says was started. *)
Definition run_Start (chdir : string → option string) (loadConfig : option string) (workingDirectory : string) : option string * bool :=
  match (if bool_decide (workingDirectory = "") then None else chdir workingDirectory) with
  | Some err => (Some err, false)
  | None => match loadConfig with Some err => (Some err, false) | None => (None, true) end
  end.

(** [Execute]; [Run] is the service's own, [simple_Run] where there is no service manager. *)
Definition run_Execute (new : new_result) (Run : ServiceMethods → option string) : command_end :=
  match fst (service_New new) with
  | Err err => FatalExit err
  | Ok svc => fatal_if (Run svc)
  end.

(** The routes of the metrics server, in the order they are added. *)
Definition metrics_routes : list string :=
  ["/metrics"; "/debug/jobs/list"; "/debug/pprof/"; "/debug/pprof/cmdline"; "/debug/pprof/profile"; "/debug/pprof/symbol";
   "/debug/pprof/trace"].

(** [Err] is fatal; an address that cannot be read, or none, gives no server. *)
Definition setupMetricsAndDebugServer (listenAddress : result string string) (listen : string → option string)
    : result string (list string) :=
  match listenAddress with
  | Err _ => Ok []
  | Ok address =>
      if bool_decide (address = "") then Ok []
      else match listen address with Some err => Err err | None => Ok metrics_routes end
  end.

(** [createSession]: only with a session server, given by its address and certificate, and
    an executor that can; [uuid] and [token] are the random texts of the session. *)
Definition createSession (server : option (string * string)) (hasSession : bool) (uuid token : result string string)
    : result string (option (Session * SessionInfo)) :=
  match server with
  | Some (advertiseAddress, certificate) =>
      if negb hasSession then Ok None
      else let? sess := NewSession uuid token in
           Ok (Some (sess, {| SI_URL := advertiseAddress +:+ Endpoint sess; SI_Certificate := certificate;
                              SI_Authorization := Session.Token sess |}))
  | None => Ok None
  end.

(** The numbers of the service: the number of jobs that may run, and the limit of each runner. *)
Definition run_Collect (c : Config) : Z * list (string * Z) :=
  (Concurrent c, (λ r, (ShortDescription (Credentials_ r), Limit r)) <$> Runners c).

(** ** commands/builds_helper.go *)

(** The counters under the short tokens, in the order in which the map is walked. *)
Definition runnersCounters (order : list (string * runnerCounter)) : gmap string runnerCounter :=
  foldl (λ m '(token, counter), <[ShortenToken token := counter]> m) ∅ order.

Definition buildsHelper_Collect (order : list (string * runnerCounter)) (b : buildsHelper)
    : gmap statePermutation Z * gmap string (Z * Z) :=
  (statesAndStages b, (λ c, (c_requests c, requestConcurrencyExceeded c)) <$> runnersCounters order).

Section ListJobs.
(** What a build prints besides what the helper keeps of it: its number, its address without
    credentials and its duration; [quote] is the verb [%q]. *)
Context (ID : BuildRef → Z) (RepoCleanURL Duration : BuildRef → string) (quote : string → string).

Definition listJobsHandlerV1 (b : buildsHelper) : list string :=
  (λ job, "id=" +:+ Itoa (ID job) +:+ " url=" +:+ RepoCleanURL job +:+ " state=" +:+ b_state job +:+
          " stage=" +:+ b_stage job +:+ " executor_stage=" +:+ b_executorStage job) <$> builds b.

Definition listJobsHandlerV2 (b : buildsHelper) : list string :=
  (λ job, "url=" +:+ CreateJobURL (RepoCleanURL job) (ID job) +:+ " state=" +:+ b_state job +:+
          " stage=" +:+ b_stage job +:+ " executor_stage=" +:+ b_executorStage job +:+ " duration=" +:+ Duration job) <$> builds b.

(** A request for the list of jobs by the version it asks for: the status, the headers and the
    lines. *)
Definition ListJobsHandler (b : buildsHelper) (v : string) : Z * list (string * string) * list string :=
  let version := if bool_decide (v = "") then "1" else v in
  let headers := [("X-List-Version", version); ("Content-Type", "text/plain")] in
  if bool_decide (version = "1") then (200%Z, headers, listJobsHandlerV1 b)
  else if bool_decide (version = "2") then (200%Z, headers, listJobsHandlerV2 b)
  else (404%Z, [], ["Request version " +:+ quote version +:+ " not supported"]).
End ListJobs.

(** ** What the commands do *)

Lemma simple_Control_fails action : is_Some (Control SimpleService action).
Proof. unfold Control. apply fmap_is_Some. cbv zeta. repeat (destruct (bool_decide _); [eexists; reflexivity|]). eauto. Qed.

(** When nothing can install, start or question a service, no command of it reports a success. *)
Lemma without_a_service_system load save goos uid name c :
  fst (RunServiceControl load save goos uid NoServiceSystemDetected name c) ≠ Success_.
Proof.
  unfold RunServiceControl. destruct (createServiceConfig goos uid c); [|done]. cbn [fst service_New].
  destruct (bool_decide_reflect (name = "install")).
  - unfold runServiceInstall. destruct (simple_Control_fails "install") as [err ->].
    destruct (_ && _); [done|]. destruct (bool_decide _); [done|].
    destruct (load _) as [[]|]; [done| |done]. by destruct (save _).
  - destruct (bool_decide_reflect (name = "status")); [done|]. by destruct (simple_Control_fails name) as [err ->].
Qed.

(** An installation that is reported as done found or saved the configuration file first, named
    a user when it ran as root, and came with the rights its system asks for. *)
Theorem installed_with_configuration load save goos uid new c effects :
  RunServiceControl load save goos uid new "install" c = (Success_, effects) →
  (uid = 0%Z → fl_user c ≠ "") ∧ (goos = Linux → uid = 0%Z) ∧ (goos = Darwin → fl_user c ≠ "" → uid = 0%Z) ∧
  (∃ s, new = NewOk s ∧ sv_Install s = None) ∧
  ((fl_config c = "" ∨ load (fl_config c) = Ok true) ∧ effects = [Controlled "install"] ∨
   load (fl_config c) = Ok false ∧ save (fl_config c) = None ∧ effects = [SavedConfig (fl_config c); Controlled "install"]).
Proof.
  intros H. pose proof (without_a_service_system load save goos uid "install" c) as Hno.
  assert (Hc : (goos = Linux → uid = 0%Z) ∧ (goos = Darwin → fl_user c ≠ "" → uid = 0%Z)).
  { clear Hno. split.
    - intros ->. unfold RunServiceControl, createServiceConfig in H. destruct (Z.eqb_spec uid 0); [done|]. simplify_eq/=.
    - intros -> Hu. unfold RunServiceControl, createServiceConfig in H. rewrite (bool_decide_eq_true_2 _ Hu) in H.
      destruct (Z.eqb_spec uid 0); [done|]. simplify_eq/=. }
  assert (Hn : ∃ s, new = NewOk s) by (destruct new as [s| |msg]; [eauto| |]; [by rewrite H in Hno|];
    unfold RunServiceControl in H; by destruct (createServiceConfig goos uid c)).
  destruct Hn as [s ->]. split; [|split; [apply Hc|split; [apply Hc|]]].
  all: unfold RunServiceControl in H; destruct (createServiceConfig goos uid c); [|done]; simpl in H; unfold runServiceInstall in H.
  - intros -> Hu. rewrite bool_decide_eq_true_2 in H by done. done.
  - destruct (bool_decide (fl_user c = "") && (uid =? 0)%Z); [done|]. unfold Control in H.
    destruct (bool_decide_reflect (fl_config c = "")); simpl in H.
    { destruct (sv_Install s) eqn:E; simplify_eq/=. split; [eauto|auto]. }
    destruct (load (fl_config c)) as [[]|]; [|destruct (save (fl_config c)); [done|]|done];
      destruct (sv_Install s) eqn:E; simplify_eq/=; split; eauto.
Qed.

(** The service manager is asked for nothing before the command's own checks passed. *)
Lemma refused_commands_do_nothing load save goos uid new name c msg :
  createServiceConfig goos uid c = Err msg → RunServiceControl load save goos uid new name c = (FatalExit msg, []).
Proof. intros H. unfold RunServiceControl. by rewrite H. Qed.

(** A service in the foreground is stopped exactly when it was started. *)
Lemma simple_Run_stops_what_started start stop :
  EvStop ∈ snd (simple_Run start stop) ↔ start = None.
Proof.
  destruct start; simpl; split; try done.
  - intros [?|?%elem_of_nil]%elem_of_cons; done.
  - intros _. do 2 right. left.
Qed.

(** ** The health check *)

(** The loop ends exactly at the first attempt that succeeds. *)
Lemma dial_until_spec attempts n :
  dial_until attempts = Some n ↔ attempts !! n = Some true ∧ ∀ i, i < n → attempts !! i = Some false.
Proof.
  revert n. induction attempts as [|[] l IH]; intros n; simpl; [split; [done|by intros [? _]]|..].
  - split; [intros [= <-]; split; [done|lia]|]. intros [_ Hn]. destruct n; [done|]. specialize (Hn 0 ltac:(lia)). done.
  - rewrite fmap_Some. split.
    + intros (m & Hm & ->). apply IH in Hm as [H1 H2]. split; [done|]. intros [|i] Hi; [done|]. apply H2. lia.
    + intros [H1 H2]. destruct n as [|n]; [done|]. exists n. split; [|done]. apply IH. split; [done|].
      intros i Hi. apply (H2 (S i)). lia.
Qed.

Lemma dial_until_None attempts : dial_until attempts = None ↔ true ∉ attempts.
Proof.
  induction attempts as [|[] l IH]; simpl; [split; [intros _; apply not_elem_of_nil|done]|..].
  - split; [done|]. intros H. destruct H. left.
  - rewrite fmap_None, IH, not_elem_of_cons. split; [by split|by intros [_ ?]].
Qed.

(** The variable of [environ] that decides: the last one with the suffix. *)
Definition last_value (suffix : string) (environ : list string) : option string :=
  last (omap (λ e, match Split e "="%char with [k; v] => if HasSuffix k suffix then Some v else None | _ => None end) environ).

Lemma suffixes_differ k : HasSuffix k "_TCP_ADDR" = true → HasSuffix k "_TCP_PORT" = false.
Proof.
  intros [t ->]%HasSuffix_spec. apply not_true_is_false. intros [u Hu]%HasSuffix_spec.
  change "_TCP_ADDR" with ("_TCP_ADD" +:+ "R") in Hu. change "_TCP_PORT" with ("_TCP_POR" +:+ "T") in Hu.
  rewrite !string_app_assoc in Hu. apply (f_equal String.list_ascii_of_string) in Hu. rewrite !list_ascii_app in Hu.
  by apply app_inj_tail in Hu as [_ ?].
Qed.

Lemma default_last_cons {A} (d x : A) l : default d (last (x :: l)) = default x (last l).
Proof. rewrite last_cons. by destruct (last l). Qed.

Lemma find_address_spec environ addr port :
  find_address environ addr port =
  (default addr (last_value "_TCP_ADDR" environ), default port (last_value "_TCP_PORT" environ)).
Proof.
  revert addr port. induction environ as [|e l IH]; intros addr port; [done|]. unfold last_value in *. simpl.
  destruct (Split e "="%char) as [|k [|v []]]; try apply IH.
  destruct (HasSuffix k "_TCP_ADDR") eqn:E; [rewrite (suffixes_differ k E), default_last_cons; apply IH|].
  destruct (HasSuffix k "_TCP_PORT"); [|apply IH]. rewrite default_last_cons. apply IH.
Qed.

(** The health check of a service's container ends well exactly when both variables are there,
    and at the first attempt that reaches the address they name; it sleeps once per failure. *)
Theorem health_check_waits_for_service environ dial addr port n :
  health_Execute environ dial = Connected addr port n ↔
  default "" (last_value "_TCP_ADDR" environ) = addr ∧ default "" (last_value "_TCP_PORT" environ) = port ∧
  addr ≠ "" ∧ port ≠ "" ∧ dial addr port !! n = Some true ∧ ∀ i, i < n → dial addr port !! i = Some false.
Proof.
  unfold health_Execute. rewrite find_address_spec.
  generalize (default "" (last_value "_TCP_ADDR" environ)), (default "" (last_value "_TCP_PORT" environ)). intros a p.
  destruct (bool_decide_reflect (a = "")) as [->|Ha]; [split; [done|by intros (<- & _ & ? & _)]|].
  destruct (bool_decide_reflect (p = "")) as [->|Hp]; [split; [done|by intros (_ & <- & _ & ? & _)]|]. simpl. split.
  - destruct (dial_until (dial a p)) eqn:E; [|done]. intros [= <- <- <-]. apply dial_until_spec in E as [? ?]. by split_and!.
  - intros (-> & -> & _ & _ & H1 & H2). by rewrite (proj2 (dial_until_spec _ _) (conj H1 H2)).
Qed.

(** ** Requests find their session *)

Lemma endpoint_prefix_inj u v rest :
  "/"%char ∉ String.list_ascii_of_string u → "/"%char ∉ String.list_ascii_of_string v →
  HasPrefix (("/session/" +:+ u) +:+ "/" +:+ rest) (("/session/" +:+ v) +:+ "/") = true → u = v.
Proof.
  intros Hu Hv [t Ht]%HasPrefix_spec. rewrite <- !string_app_assoc in Ht.
  assert (H : u +:+ String "/" rest = v +:+ String "/" t) by (vm_compute (String.append "/session/" _) in Ht; by injection Ht).
  apply (f_equal (λ s, Split s "/"%char)) in H. rewrite !Split_app in H by done. by injection H.
Qed.

(** The endpoint of a session that [NewSession] made from a text without a slash. *)
Definition session_endpoint (x : BuildRef) : Prop :=
  ∃ uuid token sess, NewSession (Ok uuid) (Ok token) = Ok sess ∧ "/"%char ∉ String.list_ascii_of_string uuid ∧
                     b_endpoint x = Some (Endpoint sess).

Lemma session_endpoint_form x : session_endpoint x →
  ∃ u, "/"%char ∉ String.list_ascii_of_string u ∧ b_endpoint x = Some ("/session/" +:+ u).
Proof. intros (u & token & sess & [= <-] & Hu & Hx). by exists u. Qed.

(** While every build has a session of its own, a request below the address that GitLab was
    given for a build reaches that build, wherever it is in the list and whatever else runs;
    no other request does. *)
Theorem session_requests_find_their_build b x e rest :
  Forall session_endpoint (builds b) → NoDup (b_endpoint <$> builds b) → x ∈ builds b → b_endpoint x = Some e →
  findSessionByURL b (e +:+ "/" +:+ rest) = Some (Some x).
Proof.
  unfold findSessionByURL. generalize (builds b). intros l Hl Hnd Hx He.
  induction Hl as [|y l Hy Hl IH]; [by apply elem_of_nil in Hx|]. apply NoDup_cons in Hnd as [Hnot Hnd]. simpl.
  destruct (session_endpoint_form y Hy) as (u & Hu & Ey). rewrite Ey.
  destruct (HasPrefix _ _) eqn:Hp.
  - assert (Hxs : session_endpoint x) by (apply elem_of_cons in Hx as [->|Hx]; [done|by rewrite Forall_forall in Hl; apply Hl]).
    destruct (session_endpoint_form x Hxs) as (v & Hv & Ex). assert (e = "/session/" +:+ v) as -> by congruence.
    apply endpoint_prefix_inj in Hp as ->; [|done..]. apply elem_of_cons in Hx as [->|Hx]; [done|].
    destruct Hnot. rewrite Ey, <- Ex. by apply (list_elem_of_fmap_2 b_endpoint l x).
  - apply elem_of_cons in Hx as [->|Hx]; [|by apply IH].
    assert (e = "/session/" +:+ u) as -> by congruence.
    rewrite string_app_assoc, HasPrefix_app in Hp. done.
Qed.

(** The address of the session is below the server's, and its token is asked for. *)
Lemma created_session server hasSession uuid token sess info :
  createSession server hasSession (Ok uuid) (Ok token) = Ok (Some (sess, info)) →
  ∃ address certificate, server = Some (address, certificate) ∧ hasSession = true ∧
    SI_URL info = address +:+ "/session/" +:+ uuid ∧ SI_Authorization info = token ∧ Session.Token sess = token.
Proof.
  destruct server as [[address certificate]|]; [|done]. destruct hasSession; [|done]. simpl. intros [= <- <-]. eauto 10.
Qed.

(** A build whose executor has no sessions makes every search that reaches it panic. *)
Lemma builds_without_session_panic b x l l' url :
  builds b = l ++ x :: l' → b_endpoint x = None →
  (∀ y e, y ∈ l → b_endpoint y = Some e → HasPrefix url (e +:+ "/") = false) →
  findSessionByURL b url = None.
Proof.
  unfold findSessionByURL. intros -> Hx. induction l as [|y l IH]; intros Hl; simpl; [by rewrite Hx|].
  destruct (b_endpoint y) as [e|] eqn:Ey; [|done]. rewrite (Hl y e) by (done || left).
  apply IH. intros z e' Hz. apply Hl. by right.
Qed.

(** ** The numbers of the runners *)

(** Runners whose tokens differ in their first eight characters keep their numbers. *)
Lemma runnersCounters_lookup order short counter :
  NoDup (ShortenToken ∘ fst <$> order) →
  runnersCounters order !! short = Some counter ↔ ∃ token, ShortenToken token = short ∧ (token, counter) ∈ order.
Proof.
  unfold runnersCounters. intros Hnd.
  enough (H : ∀ m : gmap string runnerCounter,
    (∀ p, p ∈ order → m !! ShortenToken (fst p) = None) →
    foldl (λ m '(token, counter), <[ShortenToken token := counter]> m) m order !! short = Some counter ↔
    m !! short = Some counter ∨ ∃ token, ShortenToken token = short ∧ (token, counter) ∈ order).
  { rewrite H by (intros; apply lookup_empty). rewrite lookup_empty. split; [by intros [?|?]|by right]. }
  induction order as [|[t c] l IH]; intros m Hm; simpl.
  { split; [by left|]. by intros [?|(t & _ & ?%elem_of_nil)]. }
  rewrite fmap_cons in Hnd. apply NoDup_cons in Hnd as [Hnot Hnd]. rewrite IH; [|done|].
  - pose proof (Hm (t, c) ltac:(left)) as Ht. simpl in Ht. destruct (decide (ShortenToken t = short)) as [<-|Hne].
    + rewrite lookup_insert_eq, Ht. split.
      * intros [[= <-]|(t' & E & Hin)]; right; [exists t; split; [done|left]|exists t'; split; [done|by right]].
      * intros [?|(t' & E & [[= -> ->]|Hin]%elem_of_cons)]; [done|by left|]. right. eauto.
    + rewrite lookup_insert_ne by done. split.
      * intros [?|(t' & E & Hin)]; [by left|]. right. exists t'. split; [done|by right].
      * intros [?|(t' & E & [[= -> ->]|Hin]%elem_of_cons)]; [by left|done|]. right. eauto.
  - intros p Hp. rewrite lookup_insert_ne; [apply Hm; by right|]. intros E. destruct Hnot. simpl. rewrite E.
    by apply (list_elem_of_fmap_2 (ShortenToken ∘ fst) l p).
Qed.

(** Otherwise only one of them is shown: the one the map is walked to last. *)
Lemma short_tokens_hide_runners :
  let c n := mkCounter 0 n 0 in
  runnersCounters [("abcdefgh1", c 1%Z); ("abcdefgh2", c 2%Z)] = {["abcdefgh" := c 2%Z]}.
Proof. by vm_compute. Qed.

(** The list of jobs has one line per build that runs, for the two versions there are. *)
Lemma list_of_jobs_is_complete id url dur quote b v :
  let '(status, _, lines) := ListJobsHandler id url dur quote b v in
  (v ∈ [""; "1"; "2"] → status = 200%Z ∧ length lines = length (builds b)) ∧ (v ∉ [""; "1"; "2"] → status = 404%Z).
Proof.
  unfold ListJobsHandler. cbv zeta. destruct (decide (v ∈ [""; "1"; "2"])) as [Hv|Hv].
  - repeat (apply elem_of_cons in Hv as [->|Hv];
      [vm_compute (bool_decide _); unfold listJobsHandlerV1, listJobsHandlerV2; split; [by rewrite length_fmap|set_solver]|]).
    by apply elem_of_nil in Hv.
  - rewrite !not_elem_of_cons in Hv. destruct Hv as (H0 & H1 & H2 & _).
    rewrite (bool_decide_eq_false_2 (v = "")), (bool_decide_eq_false_2 (v = "1")), (bool_decide_eq_false_2 (v = "2")) by done.
    split; [|done]. intros H. by rewrite !elem_of_cons in H; destruct H as [?|[?|[?|?%elem_of_nil]]].
Qed.
