(* ===== verification/Terminals.v ===== *)
(** Interactive terminals: the goroutines around a terminal connection and the build that
    waits for it (session/terminal/terminal.go, [waitForTerminal] of
    common/build.go, the proxies of the vendored terminal library). TerminalConns.v has how the
    executors make such connections. *)

From S2P Require Import Prelude GoLib.
#[local] Open Scope go_scope.

(** ** A connection *)

(** [StopCh] of a proxy with one stopper holds three messages. *)
Definition NewProxy_capacity (stoppers : nat) : nat := stoppers + 2.
Definition stop_capacity : nat := NewProxy_capacity 1.

(** The goroutine that serves the request: in [Start] before [ProxyTerminal]; in [proxyFunc]
    before [Serve], in [Serve] at its receive, and after it; out of [Start]; past
    [closeTerminalConn]. *)
Inductive conn_phase := Opening | Upgrading | Serving | Served | Returned | ConnClosed.
#[export] Instance conn_phase_eq_dec : EqDecision conn_phase.
Proof. solve_decision. Defined.

(** The exit handler of [ProxyTerminal]: not started, at its select, about to stop the proxy,
    about to forward the disconnection, ended. *)
Inductive exit_handler := HNone | HSelect | HStop | HForward | HDone.
#[export] Instance exit_handler_eq_dec : EqDecision exit_handler.
Proof. solve_decision. Defined.

(** With the messages in [disconnected] and [StopCh], and how many messages the goroutines of
    the proxy and the one that waits for the container may still send to [StopCh]. *)
Record conn := mkConn {
  phase : conn_phase; exit : exit_handler; disconnected : bool; stopCh : nat; writers : nat }.

(** ** The build *)

Inductive terminal_outcome := NoTerminal | Cancelled | TimedOut | Disconnected | Interrupted.
(** [waitForTerminal]: not called yet, at its select, sending on [TimeoutCh], returned. *)
Inductive waiting := NotYet | AtSelect | SendingTimeout | WaitDone (o : terminal_outcome).

Record tworld := mkTWorld { conns : list conn; terminal_conn : option nat; build : waiting }.
Definition start_tworld : tworld := mkTWorld [] None NotYet.

Inductive tevent :=
| Open                                  (* newTerminalConn *)
| StartFails (i : nat)                  (* Start returns before ProxyTerminal *)
| StartProxy (i : nat) (waiter : bool)  (* ProxyTerminal; does a goroutine wait for the container *)
| Serve (i : nat)                       (* the client is upgraded; the two copies start *)
| OtherWrites (i : nat)
| ServeReads (i : nat)
| ProxyReturns (i : nat)
| CloseConn (i : nat)                   (* closeTerminalConn *)
| ExitDisconnected (i : nat)
| ExitStops (i : nat)
| ExitForwards (i : nat)
| BuildWaits
| TimerFires
| TakeTimeout (i : nat)                 (* the exit handler receives from TimeoutCh *)
| BuildCancelled
| BuildInterrupted.

Definition set_build (w : tworld) (b : waiting) : tworld := mkTWorld (conns w) (terminal_conn w) b.
Definition kill_session (w : tworld) (b : waiting) : tworld := mkTWorld (conns w) None b.

(** A step of connection [i] where [f] allows it. *)
Definition on_conn (w : tworld) (i : nat) (f : conn → option conn) : option tworld :=
  c ← conns w !! i; c' ← f c; Some (mkTWorld (<[i := c']> (conns w)) (terminal_conn w) (build w)).

Definition conn_step (e : tevent) (c : conn) : option conn :=
  match e with
  | StartFails _ =>
      if bool_decide (phase c = Opening) then Some (mkConn Returned (exit c) (disconnected c) (stopCh c) (writers c)) else None
  | StartProxy _ waiter =>
      if bool_decide (phase c = Opening) then Some (mkConn Upgrading HSelect false 0 (if waiter then 1 else 0)) else None
  | Serve _ =>
      if bool_decide (phase c = Upgrading) then Some (mkConn Serving (exit c) (disconnected c) (stopCh c) (writers c + 2)) else None
  | OtherWrites _ =>
      match writers c with
      | S n => if stopCh c <? stop_capacity then Some (mkConn (phase c) (exit c) (disconnected c) (stopCh c + 1) n) else None
      | 0 => None
      end
  | ServeReads _ =>
      match phase c, stopCh c with
      | Serving, S n => Some (mkConn Served (exit c) (disconnected c) n (writers c))
      | _, _ => None
      end
  | ProxyReturns _ =>
      match phase c with
      | Upgrading | Served => Some (mkConn Returned (exit c) true (stopCh c) (writers c))
      | _ => None
      end
  | ExitDisconnected _ =>
      match exit c, disconnected c with
      | HSelect, true => Some (mkConn (phase c) HForward false (stopCh c) (writers c))
      | _, _ => None
      end
  | ExitStops _ =>
      match exit c with
      | HStop => if stopCh c <? stop_capacity then Some (mkConn (phase c) HDone (disconnected c) (stopCh c + 1) (writers c)) else None
      | _ => None
      end
  | ExitForwards _ => match exit c with HForward => Some (mkConn (phase c) HDone (disconnected c) (stopCh c) (writers c)) | _ => None end
  | TakeTimeout _ => match exit c with HSelect => Some (mkConn (phase c) HStop (disconnected c) (stopCh c) (writers c)) | _ => None end
  | CloseConn _ =>
      match phase c with Returned => Some (mkConn ConnClosed (exit c) (disconnected c) (stopCh c) (writers c)) | _ => None end
  | _ => None
  end.

(** [None] when the event cannot happen. *)
Definition tstep (w : tworld) (e : tevent) : option tworld :=
  match e with
  | Open =>
      match terminal_conn w with
      | None => Some (mkTWorld (conns w ++ [mkConn Opening HNone false 0 0]) (Some (length (conns w))) (build w))
      | Some _ => None
      end
  | CloseConn i =>
      w' ← on_conn w i (conn_step e);
      Some (mkTWorld (conns w') (if bool_decide (terminal_conn w' = Some i) then None else terminal_conn w') (build w'))
  | ExitForwards i =>
      w' ← on_conn w i (conn_step e);
      Some (match build w' with AtSelect => set_build w' (WaitDone Disconnected) | _ => w' end)
  | TakeTimeout i =>
      match build w with
      | SendingTimeout => w' ← on_conn w i (conn_step e); Some (set_build w' (WaitDone TimedOut))
      | _ => None
      end
  | StartFails i | StartProxy i _ | Serve i | OtherWrites i | ServeReads i | ProxyReturns i
  | ExitDisconnected i | ExitStops i => on_conn w i (conn_step e)
  | BuildWaits =>
      match build w with
      | NotYet => Some (set_build w (match terminal_conn w with Some _ => AtSelect | None => WaitDone NoTerminal end))
      | _ => None
      end
  | TimerFires => match build w with AtSelect => Some (set_build w SendingTimeout) | _ => None end
  | BuildCancelled => match build w with AtSelect => Some (kill_session w (WaitDone Cancelled)) | _ => None end
  | BuildInterrupted => match build w with AtSelect => Some (kill_session w (WaitDone Interrupted)) | _ => None end
  end.

Definition trun (w : tworld) (l : list tevent) : tworld := foldl (λ w e, default w (tstep w e)) w l.

Lemma trun_cons w e l : trun w (e :: l) = trun (default w (tstep w e)) l.
Proof. done. Qed.
Lemma trun_app w l l' : trun w (l ++ l') = trun (trun w l) l'.
Proof. apply foldl_app. Qed.

(** ** The goroutines of a connection end *)

(** Messages that may still come to [StopCh] before [Serve] has started its copies. *)
Definition pending (c : conn) : nat :=
  stopCh c + writers c + (match exit c with HSelect | HStop => 1 | _ => 0 end) + (match phase c with Upgrading => 2 | _ => 0 end).

Record conn_ok (c : conn) : Prop := {
  ok_budget : pending c ≤ stop_capacity + match phase c with Upgrading | Serving => 1 | _ => 0 end;
  ok_returned : (phase c = Returned ∨ phase c = ConnClosed) → exit c = HSelect → disconnected c = true;
  ok_opening : phase c = Opening → exit c = HNone }.

Lemma conn_step_ok e c c' : conn_ok c → conn_step e c = Some c' → conn_ok c'.
Proof.
  intros [Hb Hr Ho] He. unfold pending, stop_capacity, NewProxy_capacity in *. destruct c as [p x d s n]; simpl in *.
  destruct p, x; try (specialize (Ho eq_refl); discriminate); destruct e; simpl in He; simplify_eq/=.
  all: repeat match type of He with context [match ?b with _ => _ end] => destruct b eqn:?; simplify_eq/= end.
  all: constructor; unfold pending, stop_capacity, NewProxy_capacity; simpl in *; try lia; try done.
  all: try (intros [?|?]; done); try (intros _ _; apply Hr; auto). destruct waiter; lia.
Qed.

Definition tworld_ok (w : tworld) : Prop := Forall conn_ok (conns w).

Lemma on_conn_Some w i f w' : on_conn w i f = Some w' →
  ∃ c c', conns w !! i = Some c ∧ f c = Some c' ∧ w' = mkTWorld (<[i := c']> (conns w)) (terminal_conn w) (build w).
Proof.
  unfold on_conn. destruct (conns w !! i) as [c|]; [|done]. simpl. destruct (f c) as [c'|] eqn:E; [|done]. intros [= <-]. eauto.
Qed.

Lemma on_conn_ok w i e w' : tworld_ok w → on_conn w i (conn_step e) = Some w' → tworld_ok w'.
Proof.
  intros Hw (c & c' & Hc & He & ->)%on_conn_Some. unfold tworld_ok. simpl. apply Forall_insert; [done|].
  eapply conn_step_ok; [|done]. by eapply Forall_lookup_1.
Qed.

Lemma tstep_ok w e w' : tworld_ok w → tstep w e = Some w' → tworld_ok w'.
Proof.
  intros Hw He. destruct e; cbn [tstep] in He; try (by eapply on_conn_ok).
  all: try (destruct (build w); simplify_eq/=; done).
  - destruct (terminal_conn w); [done|]. simplify_eq/=. unfold tworld_ok. simpl. apply Forall_app. split; [done|].
    apply Forall_singleton. constructor; unfold pending, stop_capacity, NewProxy_capacity; simpl; [lia|by intros [?|?]|done].
  - destruct (on_conn w i _) as [w1|] eqn:E; simplify_eq/=. by apply on_conn_ok in E.
  - destruct (on_conn w i _) as [w1|] eqn:E; simplify_eq/=. apply on_conn_ok in E; [|done]. by destruct (build w1).
  - destruct (build w); try done. destruct (on_conn w i _) as [w1|] eqn:E; simplify_eq/=. by apply on_conn_ok in E.
Qed.

Lemma trun_ok w l : tworld_ok w → tworld_ok (trun w l).
Proof.
  revert w. induction l as [|e l IH]; intros w Hw; [done|]. simpl. apply IH.
  destruct (tstep w e) eqn:E; [by eapply tstep_ok|done].
Qed.

Lemma reachable_conn l i c : conns (trun start_tworld l) !! i = Some c → conn_ok c.
Proof. intros H. apply (Forall_lookup_1 conn_ok _ i c (trun_ok start_tworld l (Forall_nil_2 _))). done. Qed.

(** No goroutine hangs on [StopCh]: while one wants to send there is room, or [Serve] is at its
    receive. *)
Lemma stop_channel_never_blocks l i c :
  conns (trun start_tworld l) !! i = Some c → exit c = HStop ∨ 0 < writers c →
  stopCh c < stop_capacity ∨ phase c = Serving ∧ 0 < stopCh c.
Proof.
  intros [Hb _ _]%reachable_conn Hw. unfold pending, stop_capacity, NewProxy_capacity in *.
  destruct c as [p x d s n]; simpl in *. destruct (decide (s < 3)) as [|Hs]; [by left|right].
  assert (Hx : 1 ≤ n + match x with HSelect | HStop => 1 | _ => 0 end) by (destruct Hw as [->|?]; lia).
  destruct p; lia || (split; [done|lia]).
Qed.

(** The events of connection [i] alone; what they do to it does not depend on the rest. *)
Definition local_event (i : nat) (e : tevent) : Prop :=
  e ∈ [Serve i; OtherWrites i; ServeReads i; ProxyReturns i; CloseConn i; ExitDisconnected i; ExitStops i; ExitForwards i].
Definition crun (c : conn) (l : list tevent) : conn := foldl (λ c e, default c (conn_step e c)) c l.

Lemma tstep_local w i e c : local_event i e → conns w !! i = Some c →
  conns (default w (tstep w e)) !! i = Some (default c (conn_step e c)).
Proof.
  intros He Hc. assert (Hin : i < length (conns w)) by (by eapply lookup_lt_Some). unfold local_event in He.
  repeat (apply elem_of_cons in He as [->|He]; [cbn [tstep]; unfold on_conn; rewrite Hc; cbn [mbind option_bind];
    destruct (conn_step _ c); cbn [mbind option_bind default]; [|done]; simpl;
    try destruct (build w); simpl; by apply list_lookup_insert_eq|]). by apply elem_of_nil in He.
Qed.

Lemma trun_local w i l c : Forall (local_event i) l → conns w !! i = Some c → conns (trun w l) !! i = Some (crun c l).
Proof.
  intros Hl. revert w c. induction Hl as [|e l He Hl IH]; intros w c Hc; [done|]. simpl. apply IH. by apply tstep_local.
Qed.

(** The exit handler of a terminal whose client is gone ends without help from anyone. *)
Lemma exit_handlers_end l i c :
  let w := trun start_tworld l in
  conns w !! i = Some c → phase c = Returned ∨ phase c = ConnClosed → exit c ≠ HNone →
  exit <$> conns (trun w [ExitDisconnected i; ExitStops i; ExitForwards i]) !! i = Some HDone.
Proof.
  intros w Hc Hp Hx. rewrite (trun_local w i _ c); [|repeat constructor; unfold local_event; set_solver|done].
  pose proof (reachable_conn l i c Hc) as [Hb Hr _]. specialize (Hr Hp). unfold pending, stop_capacity, NewProxy_capacity in Hb.
  destruct c as [p x d s n]. simpl in *. f_equal. destruct x; try done; simpl.
  - by rewrite (Hr eq_refl).
  - destruct (s <? stop_capacity) eqn:E; [done|]. apply Nat.ltb_ge in E. unfold stop_capacity, NewProxy_capacity in E.
    destruct Hp; subst; lia.
Qed.

(** A terminal that is being used when its time is over is stopped and closed. *)
Lemma timed_out_terminal_ends l i c :
  let w := trun start_tworld l in
  conns w !! i = Some c → exit c = HStop → phase c = Serving →
  phase <$> conns (trun w [ServeReads i; ExitStops i; ServeReads i; ProxyReturns i; CloseConn i]) !! i = Some ConnClosed.
Proof.
  intros w Hc Hx Hp. rewrite (trun_local w i _ c); [|repeat constructor; unfold local_event; set_solver|done].
  pose proof (reachable_conn l i c Hc) as [Hb _ _]. unfold pending, stop_capacity, NewProxy_capacity in Hb.
  destruct c as [p x d s n]. simpl in *. subst. f_equal. destruct s as [|s]; simpl; [done|].
  destruct (s <? stop_capacity); done.
Qed.

(** ** The build that waits *)

(** Some exit handler is at its select. *)
Definition listening (w : tworld) : Prop := ∃ i c, conns w !! i = Some c ∧ exit c = HSelect.

Lemma conn_step_listening e c c' : conn_step e c = Some c' → (∀ i b, e ≠ StartProxy i b) → exit c' = HSelect → exit c = HSelect.
Proof.
  destruct c as [p x d s n]. intros He Hns Hx. destruct e; simpl in He; try (by destruct (Hns i waiter)); simplify_eq/=.
  all: repeat match type of He with context [match ?b with _ => _ end] => destruct b eqn:?; simplify_eq/= end; done.
Qed.

Lemma on_conn_listening w i e w' :
  on_conn w i (conn_step e) = Some w' → (∀ j b, e ≠ StartProxy j b) → listening w' → listening w.
Proof.
  intros (c & c' & Hc & He & ->)%on_conn_Some Hns (j & d & Hj & Hd). simpl in Hj.
  destruct (decide (j = i)) as [->|Hne].
  - rewrite list_lookup_insert_eq in Hj by (by eapply lookup_lt_Some). simplify_eq. exists i, c. split; [done|].
    by eapply conn_step_listening.
  - rewrite list_lookup_insert_ne in Hj by done. by exists j, d.
Qed.

(** While no handler listens, a build that sends its timeout stays where it is. *)
Lemma tstep_stuck w e w' :
  tstep w e = Some w' → (∀ j b, e ≠ StartProxy j b) → ¬ listening w → build w = SendingTimeout →
  ¬ listening w' ∧ build w' = SendingTimeout.
Proof.
  intros He Hns Hl Hb. destruct e; cbn [tstep] in He; rewrite ?Hb in He; try done; try (by destruct (Hns i waiter)).
  all: try (destruct (terminal_conn w); [done|]; simplify_eq/=; split; [|done]; intros (j & c & Hj & Hc); simpl in Hj;
    apply lookup_app_Some in Hj as [Hj|[_ Hj]]; [by destruct Hl; exists j, c|]; by apply list_lookup_singleton_Some in Hj as [_ <-]).
  all: match type of He with context [on_conn ?w ?i ?f] => destruct (on_conn w i f) as [w1|] eqn:E; [|done] end.
  all: pose proof E as (c & c' & Hc & Hs & Hw1)%on_conn_Some.
  all: assert (Hl1 : ¬ listening w1) by (intros H; apply Hl; by eapply on_conn_listening in E).
  all: assert (Hb1 : build w1 = SendingTimeout) by (by rewrite Hw1).
  all: cbn [mbind option_bind] in He; rewrite ?Hb1 in He; try (injection He as <-; done).
  destruct Hl. exists i, c. split; [done|]. simpl in Hs. by destruct (exit c).
Qed.

Lemma lost_timeout_hangs w l :
  ¬ listening w → build w = SendingTimeout → (∀ i b, StartProxy i b ∉ l) → build (trun w l) = SendingTimeout.
Proof.
  revert w. induction l as [|e l IH]; intros w Hl Hb Hns; [done|]. simpl.
  assert (Hl' : ∀ i b, StartProxy i b ∉ l) by (intros i b Hin; apply (Hns i b); by right).
  destruct (tstep w e) as [w'|] eqn:E; [|by apply IH].
  apply tstep_stuck in E as [H1 H2]; [by apply IH| |done|done]. intros i b ->. apply (Hns i b). left.
Qed.

(** A terminal in use listens until the build's timeout is taken. *)
Definition in_use (c : conn) : Prop := phase c ∈ [Upgrading; Serving; Served].
Definition use_ok (c : conn) : Prop := in_use c → exit c = HSelect ∧ disconnected c = false.

Lemma conn_step_use e c c' : use_ok c → conn_step e c = Some c' → (∀ i, e ≠ TakeTimeout i) → use_ok c'.
Proof.
  unfold use_ok, in_use. intros Hc He Hns. destruct c as [p x d s n]. simpl in *.
  assert (Hp : p ∈ [Upgrading; Serving; Served] → x = HSelect ∧ d = false) by done. clear Hc.
  destruct e; simpl in He; try (by destruct (Hns i)); simplify_eq/=.
  all: destruct p; simplify_eq/=; try (destruct Hp as [-> ->]; [set_solver|]).
  all: repeat match type of He with context [match ?b with _ => _ end] => destruct b eqn:?; simplify_eq/= end.
  all: simpl; try done; intros H; repeat (apply elem_of_cons in H as [H|H]; [done|]); by apply elem_of_nil in H.
Qed.

Definition tworld_used (w : tworld) : Prop := build w = WaitDone TimedOut ∨ Forall use_ok (conns w).

Lemma on_conn_used w i e w' :
  tworld_used w → (∀ j, e ≠ TakeTimeout j) → on_conn w i (conn_step e) = Some w' → tworld_used w'.
Proof.
  intros Hw Hns (c & c' & Hc & He & ->)%on_conn_Some. destruct Hw as [Hw|Hw]; [by left|right]. simpl.
  apply Forall_insert; [done|]. eapply conn_step_use; [|done|done]. by eapply Forall_lookup_1.
Qed.

Lemma tstep_used w e w' : tworld_used w → tstep w e = Some w' → tworld_used w'.
Proof.
  intros Hw He. destruct e; cbn [tstep] in He; try (eapply on_conn_used; [exact Hw| |exact He]; done).
  all: try (unfold tworld_used in *; destruct (build w) eqn:E; simplify_eq/=; destruct Hw; [done|by right]).
  - destruct (terminal_conn w); [done|]. simplify_eq/=. destruct Hw as [?|?]; [by left|right]. simpl. apply Forall_app.
    split; [done|]. apply Forall_singleton. unfold use_ok, in_use. simpl. set_solver.
  - destruct (on_conn w i _) as [w1|] eqn:E; simplify_eq/=. by apply on_conn_used in E.
  - destruct (on_conn w i _) as [w1|] eqn:E; [|done]. apply on_conn_used in E; [|done..]. cbn in He.
    injection He as <-. unfold tworld_used in *. destruct (build w1) eqn:Eb; rewrite ?Eb; try done. destruct E; [done|by right].
  - destruct (build w); try done. destruct (on_conn w i _) as [w1|] eqn:E; simplify_eq/=. by left.
Qed.

Lemma trun_used w l : tworld_used w → tworld_used (trun w l).
Proof.
  revert w. induction l as [|e l IH]; intros w Hw; [done|]. simpl. apply IH.
  destruct (tstep w e) eqn:E; [by eapply tstep_used|done].
Qed.

(** What a connection that took the timeout comes to. *)
Lemma stopped_conn_returns i c :
  conn_ok c → in_use c → exit c = HStop →
  let c' := crun c [ServeReads i; ExitStops i; ServeReads i; ProxyReturns i] in phase c' = Returned ∧ exit c' = HDone.
Proof.
  intros [Hb _ _] Hu Hx. unfold pending, stop_capacity, NewProxy_capacity in Hb. destruct c as [p x d s n]. unfold in_use in Hu.
  simpl in *. subst x. repeat (apply elem_of_cons in Hu as [->|Hu]); [..|by apply elem_of_nil in Hu]; simpl in Hb.
  all: repeat (destruct s as [|s]; [done|]); lia.
Qed.

Lemma tstep_done w e w' o : build w = WaitDone o → tstep w e = Some w' → build w' = WaitDone o.
Proof.
  intros Hb He. destruct e; cbn [tstep] in He; rewrite ?Hb in He; try done.
  all: try (destruct (terminal_conn w); simplify_eq/=; done).
  all: match type of He with context [on_conn ?w ?i ?f] => destruct (on_conn w i f) as [w1|] eqn:E; [|done] end.
  all: apply on_conn_Some in E as (c & c' & _ & _ & ->); cbn in He; rewrite ?Hb in He; by injection He as <-.
Qed.

Lemma trun_done w l o : build w = WaitDone o → build (trun w l) = WaitDone o.
Proof.
  revert w. induction l as [|e l IH]; intros w Hw; [done|]. simpl. apply IH.
  destruct (tstep w e) eqn:E; [by eapply tstep_done|done].
Qed.

Lemma close_conn w i c : conns w !! i = Some c → phase c = Returned →
  let w' := trun w [CloseConn i] in
  terminal_conn w' ≠ Some i ∧ conns w' !! i = Some (mkConn ConnClosed (exit c) (disconnected c) (stopCh c) (writers c)).
Proof.
  intros Hc Hp. simpl. unfold on_conn. rewrite Hc. simpl. rewrite Hp. simpl. split; [by case_bool_decide|].
  apply list_lookup_insert_eq. by eapply lookup_lt_Some.
Qed.



(** The build can wait forever: when the client leaves as the time runs out, when the exit
    handler forwards the disconnection before the build waits and the connection is closed
    after, and when [Start] fails before [ProxyTerminal], the timeout is sent and nobody is
    left to receive it; only another terminal can free the build. *)
Lemma terminal_wait_can_hang :
  Forall (λ l, ∀ l', (∀ i b, StartProxy i b ∉ l') → build (trun (trun start_tworld l) l') = SendingTimeout)
    [ [Open; StartProxy 0 true; Serve 0; BuildWaits; OtherWrites 0; ServeReads 0; ProxyReturns 0; ExitDisconnected 0; TimerFires; ExitForwards 0; CloseConn 0];
      [Open; StartProxy 0 true; Serve 0; OtherWrites 0; ServeReads 0; ProxyReturns 0; ExitDisconnected 0; ExitForwards 0; BuildWaits; CloseConn 0; TimerFires];
      [Open; BuildWaits; StartFails 0; CloseConn 0; TimerFires] ].
Proof.
  apply Forall_cons_2; [|apply Forall_cons_2; [|apply Forall_cons_2; [|by apply Forall_nil]]]; intros l' Hl'; (apply lost_timeout_hangs; [intros (i & c & Hc & Hx)|reflexivity|done]);
    vm_compute in Hc; (destruct i as [|i]; [by injection Hc as <-|done]).
Qed.
