(* ===== verification/TerminalConns.v ===== *)
(** How the executors connect a terminal (executors/docker/terminal.go,
    executors/kubernetes/terminal.go, executors/shell/executor_shell_terminal.go), how requests
    for services are forwarded into a cluster (executors/kubernetes/service_proxy.go), and the
    start of the session server (session/server.go). *)

From S2P Require Import Prelude GoLib Types Config Shells Session KubernetesExecutor.
#[local] Open Scope go_scope.

(** ** Docker *)

Definition Second_ns : Z := 1000000000.
Definition waitForContainerTimeout : Z := 15 * Second_ns.
Definition buildContainerTerminalTimeout : string := "timeout for waiting for build container".

(** What one turn of the loop sees: the time, the build container if it was made, and the
    answer of the inspection. *)
Record poll := mkPoll { poll_time : Z; poll_container : option string; poll_running : result string bool }.

(** [None] when the turns that were seen did not end the loop. *)
Fixpoint watchForRunningBuildContainer (deadline : Z) (polls : list poll) : option (result string string) :=
  match polls with
  | [] => None
  | p :: rest =>
      if (deadline <=? poll_time p)%Z then Some (Err buildContainerTerminalTimeout)
      else match poll_container p with
           | None => watchForRunningBuildContainer deadline rest
           | Some containerID =>
               match poll_running p with
               | Err err => Some (Err err)
               | Ok true => Some (Ok containerID)
               | Ok false => watchForRunningBuildContainer deadline rest
               end
           end
  end.

Record docker_terminal := mkDockerTerminal { dt_containerID : string; dt_shell : list string }.

Definition docker_Connect (now : Z) (polls : list poll) (shell : ShellConfiguration) : option (result string docker_terminal) :=
  (λ r, let? containerID := r in Ok (mkDockerTerminal containerID (DockerCommand shell)))
    <$> watchForRunningBuildContainer (now + waitForContainerTimeout) polls.

(** [Start] up to [ProxyTerminal]: the command that is executed in the container, and the answer
    or the terminal it is attached to. *)
Inductive start_result := StartError (status : Z) (msg : string) | StartProxying (exec : string).

Definition docker_Start (t : docker_terminal) (create : string → list string → result string string)
    (attach : string → option string) : start_result :=
  match create (dt_containerID t) (dt_shell t) with
  | Err _ => StartError StatusInternalServerError "failed to create exec for build container"
  | Ok exec =>
      match attach exec with
      | Some _ => StartError StatusInternalServerError "failed to attach tty to build container"
      | None => StartProxying exec
      end
  end.

(** The loop gives a container that ran at some turn before the deadline. *)
Lemma watched_container_runs deadline polls id :
  watchForRunningBuildContainer deadline polls = Some (Ok id) →
  ∃ p, p ∈ polls ∧ (poll_time p < deadline)%Z ∧ poll_container p = Some id ∧ poll_running p = Ok true.
Proof.
  induction polls as [|p l IH]; simpl; [done|]. destruct (Z.leb_spec deadline (poll_time p)); [done|].
  assert (Hl : watchForRunningBuildContainer deadline l = Some (Ok id) →
    ∃ p0, p0 ∈ p :: l ∧ (poll_time p0 < deadline)%Z ∧ poll_container p0 = Some id ∧ poll_running p0 = Ok true)
    by (intros (q & Hq & Hrest)%IH; exists q; split; [by right|done]).
  destruct (poll_container p) as [c|] eqn:Ec; [|done]. destruct (poll_running p) as [[]|] eqn:Er; [|done|done].
  intros [= <-]. exists p. split; [left|done].
Qed.

(** It ends with the turn at which the deadline is over, if not before. *)
Lemma watch_is_bounded deadline polls :
  (∃ p, p ∈ polls ∧ (deadline ≤ poll_time p)%Z) → is_Some (watchForRunningBuildContainer deadline polls).
Proof.
  intros (p & Hp & Ht). induction polls as [|q l IH]; [by apply elem_of_nil in Hp|]. simpl.
  destruct (Z.leb_spec deadline (poll_time q)); [eauto|]. apply elem_of_cons in Hp as [->|Hp]; [lia|]. specialize (IH Hp).
  destruct (poll_container q); [|done]. destruct (poll_running q) as [[]|]; eauto.
Qed.

(** ** Shell *)

(** [pty.Start] of the shell's command line. *)
Definition shell_Connect (shell : ShellConfiguration) (pty_Start : list string → result string nat) : result string nat :=
  pty_Start (GetCommandWithArguments shell).

(** ** Kubernetes *)

(** A request to the cluster's API: the verb, the segments of the path and the parameters. *)
Record api_request := mkAPIRequest {
  ar_verb : string; ar_namespace : string; ar_resource : string; ar_name : string; ar_subresource : string;
  ar_suffix : string; ar_params : list (string * string) }.

Record TerminalSettings := mkTerminalSettings {
  Subprotocols : list string; TS_Url : string; TS_Header : list (string * string); CAPem : string; MaxSessionTime : Z }.

(** What a container is asked to run for a terminal. *)
Definition terminal_command : list string := ["sh"; "-c"; "bash || sh"].

Section KubernetesTerminal.
(** The URL that the REST client makes of a request: its scheme and the rest. *)
Context (URL : api_request → string * string) (ReadFile : string → result string string).

Definition websocket_url (u : string * string) : string := WebsocketProtocolFor (fst u) +:+ "://" +:+ snd u.

Definition getTerminalWebSocketURL (namespace pod : string) : string :=
  websocket_url (URL (mkAPIRequest "POST" namespace "pods" pod "exec" ""
    ([("stdin", "true"); ("stdout", "true"); ("stderr", "true"); ("tty", "true"); ("container", "build")] ++
     ((λ c, ("command", c)) <$> terminal_command)))).

Definition getTerminalSettings (config : result string KubeClientConfig) (namespace pod : string) : result string TerminalSettings :=
  let? c := config in
  let wsURL := getTerminalWebSocketURL namespace pod in
  let? caCert := if bool_decide (kc_CAFile c = "") then Ok "" else ReadFile (kc_CAFile c) in
  Ok (mkTerminalSettings ["channel.k8s.io"] wsURL [("Authorization", "Bearer " +:+ kc_BearerToken c)] caCert 0).

(** ** Requests for services *)

Definition JoinSchemeNamePort (scheme name port : string) : string :=
  if bool_decide (scheme ≠ "") then scheme +:+ ":" +:+ name +:+ ":" +:+ port
  else if bool_decide (port ≠ "") then name +:+ ":" +:+ port else name.

Definition serviceEndpointRequest (verb namespace serviceName requestedURI : string) (port : Port) : result string api_request :=
  let? scheme := Scheme port in
  Ok (mkAPIRequest verb namespace "services" (JoinSchemeNamePort scheme serviceName (Itoa (Port_Number port))) "proxy" requestedURI []).

(** How a request ends: an answer of the runner, a stream of the service, or web sockets that
    are connected. *)
Inductive proxy_end := PAnswer (status : Z) (body : string) | PStream (body : string) | PWebSocket (t : TerminalSettings).

Definition proxyWSRequest (config : result string KubeClientConfig) (namespace pod verb requestedURI : string) (port : Port)
    (settings : ProxySettings) : proxy_end :=
  match getTerminalSettings config namespace pod with
  | Err _ => PAnswer StatusServiceUnavailable "Service Unavailable"
  | Ok t =>
      match serviceEndpointRequest verb namespace (ServiceName settings) requestedURI port with
      | Err _ => PAnswer StatusServiceUnavailable "Service Unavailable"
      | Ok req => PWebSocket (mkTerminalSettings (Subprotocols t) (websocket_url (URL req)) (TS_Header t) (CAPem t) (MaxSessionTime t))
      end
  end.

(** [Stream] is the cluster's answer: a body, or an error with its status if it has one. *)
Definition proxyHTTPRequest (Stream : api_request → option (Z * option (list string)) + string) (namespace verb requestedURI : string)
    (port : Port) (settings : ProxySettings) : proxy_end :=
  match serviceEndpointRequest verb namespace (ServiceName settings) requestedURI port with
  | Err _ => PAnswer StatusServiceUnavailable "Service Unavailable"
  | Ok req =>
      match Stream req with
      | inl status => let '(message, code) := handleProxyHTTPErr status in PAnswer code message
      | inr body => PStream body
      end
  end.

Definition executor_ProxyRequest (config : result string KubeClientConfig) (Stream : api_request → option (Z * option (list string)) + string)
    (namespace pod verb requestedURI port : string) (upgrade : bool) (settings : ProxySettings) (answer : result error PodStatus)
    : proxy_end :=
  match ProxyRequest settings port answer with
  | inl status => PAnswer status (if (status =? 404)%Z then "Not Found" else "Service Unavailable")
  | inr portSettings =>
      if upgrade then proxyWSRequest config namespace pod verb requestedURI portSettings settings
      else proxyHTTPRequest Stream namespace verb requestedURI portSettings settings
  end.

(** The request that a port of a service stands for. *)
Definition service_request (verb namespace uri : string) (settings : ProxySettings) (p : Port) : api_request :=
  mkAPIRequest verb namespace "services" (Port_Protocol p +:+ ":" +:+ ServiceName settings +:+ ":" +:+ Itoa (Port_Number p)) "proxy" uri [].

Definition port_named (port : string) (p : Port) : Prop := Port_Number p = (Atoi port).1 ∨ Port_Name p = port.

Lemma PortByNameOrNumber_Ok ports port p : PortByNameOrNumber ports port = Ok p → p ∈ ports ∧ port_named port p.
Proof.
  induction ports as [|q l IH]; simpl; [done|]. destruct (_ || _) eqn:E.
  - intros [= ->]. split; [left|]. apply orb_true_iff in E as [E%Z.eqb_eq|E%bool_decide_eq_true]; [by left|by right].
  - intros [? ?]%IH. split; [by right|done].
Qed.

Lemma serviceEndpointRequest_spec verb namespace name uri p :
  serviceEndpointRequest verb namespace name uri p =
  if bool_decide (Port_Protocol p = "http" ∨ Port_Protocol p = "https")
  then Ok (service_request verb namespace uri (mkProxy name []) p) else Err "invalid port scheme".
Proof.
  unfold serviceEndpointRequest, Scheme. destruct (decide (Port_Protocol p = "http" ∨ Port_Protocol p = "https")) as [H|H].
  - rewrite (bool_decide_eq_true_2 _ H). destruct H as [H|H]; rewrite H; simpl; unfold service_request, JoinSchemeNamePort; simpl; by rewrite H.
  - rewrite (bool_decide_eq_false_2 _ H). rewrite !bool_decide_eq_false_2 by (intros ?; apply H; auto). done.
Qed.

(** A request that is forwarded into the cluster goes to a port that the job declared for that
    service, by http or https, while every container of the pod is ready; every other request
    is answered here, and the messages of a cluster that is unavailable stay here. *)
Theorem proxied_requests_reach_declared_ports config stream namespace pod verb uri port upgrade settings answer :
  let forwarded p := p ∈ Ports settings ∧ port_named port p ∧ (Port_Protocol p = "http" ∨ Port_Protocol p = "https") ∧
                     servicesRunning answer = true in
  match executor_ProxyRequest config stream namespace pod verb uri port upgrade settings answer with
  | PStream body => upgrade = false ∧ ∃ p, forwarded p ∧ stream (service_request verb namespace uri settings p) = inr body
  | PWebSocket t => upgrade = true ∧ ∃ p, forwarded p ∧ TS_Url t = websocket_url (URL (service_request verb namespace uri settings p))
  | PAnswer status body => status = 503%Z → body = "" ∨ body = "Service Unavailable"
  end.
Proof.
  intros forwarded. unfold executor_ProxyRequest, ProxyRequest.
  destruct (PortByNameOrNumber _ _) as [p|] eqn:Ep; [|done]. apply PortByNameOrNumber_Ok in Ep as [Hin Hport].
  destruct (servicesRunning answer) eqn:Es; [|by right].
  assert (Hf : bool_decide (Port_Protocol p = "http" ∨ Port_Protocol p = "https") = true → forwarded p)
    by (intros H%bool_decide_eq_true; by split_and!).
  destruct upgrade; unfold proxyWSRequest, proxyHTTPRequest; rewrite serviceEndpointRequest_spec.
  - destruct (getTerminalSettings _ _ _) as [t|]; [|by right].
    destruct (bool_decide _) eqn:Ed; [|by right]. split; [done|]. exists p. split; [by apply Hf|done].
  - destruct (bool_decide _) eqn:Ed; [|by right]. destruct (stream _) as [st|body] eqn:Eb.
    + unfold handleProxyHTTPErr. destruct st as [[code details]|]; [|done].
      destruct (Z.eqb_spec code 503); [by left|]. by destruct details as [[]|].
    + split; [done|]. exists p. split; [by apply Hf|done].
Qed.

(** The client certificate of the configuration plays no part in a terminal: a cluster that
    asks for one gets none. *)
Lemma terminal_ignores_client_certificate c cert key namespace pod :
  getTerminalSettings (Ok (mkClientConfig (kc_Host c) (kc_BearerToken c) (kc_CAFile c) cert key (kc_UserAgent c))) namespace pod =
  getTerminalSettings (Ok c) namespace pod.
Proof. done. Qed.
End KubernetesTerminal.

(** ** The session server *)

Record session_server := mkServer { ss_host : string; ss_AdvertiseAddress : string; ss_CertificatePublicKey : string }.

Section Server.
Context (splitHost : string → string) (parse : string → option string) (Generate : string → result string string)
        (Listen : string → option string).

(** With whether a listener was made. *)
Definition NewServer (advertiseAddress listenAddress : string) : result string session_server * bool :=
  match getPublicHost splitHost advertiseAddress listenAddress with
  | Err err => (Err err, false)
  | Ok host =>
      match Generate host with
      | Err err => (Err err, false)
      | Ok publicKey =>
          match Listen listenAddress with
          | Some err => (Err err, false)
          | None =>
              (match setAdvertiseAddress parse advertiseAddress listenAddress with
               | Err err => Err err
               | Ok address => Ok (mkServer host address publicKey)
               end, true)
          end
      end
  end.

(** [setupSessionServer]: nothing without an address; a server that cannot be made ends the
    process. *)
Definition setupSessionServer (advertiseAddress listenAddress : string) : result string (option session_server) :=
  if bool_decide (listenAddress = "") then Ok None
  else let? s := fst (NewServer advertiseAddress listenAddress) in Ok (Some s).

(** [Start]: a server that was closed did not fail. *)
Definition server_Start (hasServer : bool) (served : string) : option string :=
  if negb hasServer then Some "http server not set"
  else if bool_decide (served = "http: Server closed") then None else Some served.

(** The certificate is made for the host that clients are sent to: the one of the advertised
    address when that has one, else the one of the address the server listens on. The address
    that is given to GitLab has the scheme exactly once. *)
Theorem session_server_certificate advertise listen s :
  NewServer advertise listen = (Ok s, true) →
  let address := if bool_decide (advertise = "") then listen else advertise in
  Generate (ss_host s) = Ok (ss_CertificatePublicKey s) ∧ Listen listen = None ∧
  ss_host s = splitHost (if bool_decide (advertise ≠ "" ∧ splitHost advertise ≠ "") then advertise else listen) ∧ ss_host s ≠ "" ∧
  ss_AdvertiseAddress s = "https://" +:+ address ∧ HasPrefix address "https://" = false ∧ HasPrefix address "http://" = false.
Proof.
  intros H address. unfold NewServer, getPublicHost in H.
  destruct (list_find _ _) as [[i a]|] eqn:Ea; [|done]. destruct (Generate (splitHost a)) as [key|] eqn:Eg; [|done].
  destruct (Listen listen) eqn:El; [done|]. unfold setAdvertiseAddress in H. fold address in H.
  destruct (HasPrefix address "https://") eqn:E1; [done|]. destruct (HasPrefix address "http://") eqn:E2; [done|].
  cbn [orb] in H. destruct (parse _); [done|]. injection H as <-. cbn [ss_host ss_AdvertiseAddress ss_CertificatePublicKey].
  apply list_find_Some in Ea as (Hi & [Hne Hsplit] & Hbefore). split_and!; try done.
  destruct (bool_decide_reflect (advertise ≠ "" ∧ splitHost advertise ≠ "")) as [Hd|Hd].
  - destruct i as [|i]; [by injection Hi as <-|]. by destruct (Hbefore 0 advertise eq_refl ltac:(lia)).
  - destruct i as [|[|i]]; simpl in Hi; [injection Hi as <-; by destruct Hd|by injection Hi as <-|done].
Qed.
End Server.
