(* ===== verification/Startup.v ===== *)
(** The start of the program: what the packages register when they are initialised (the [init]
    functions of executors, shells, cache, commands and commands/helpers), in whatever order the
    imports of main.go allow. *)

From stdpp Require Import sorting.
From S2P Require Import Prelude GoLib Types Variables Config Build BuildProofs AbstractShell Shells Executor CacheKeys Docker Kubernetes VirtualMachines ShellExecutor.
#[local] Open Scope go_scope.

(** The packages with an [init] function that registers something, and those that only import
    such packages. *)
Inductive package :=
| PShells | PExecutors | PDocker | PMachine | PKubernetes | PParallels | PShell | PSSH | PVirtualBox
| PGCS | PS3 | PCommands | PHelpers | PMain.
#[export] Instance package_eq_dec : EqDecision package.
Proof. solve_decision. Defined.

Definition all_packages : list package :=
  [PShells; PExecutors; PDocker; PMachine; PKubernetes; PParallels; PShell; PSSH; PVirtualBox; PGCS; PS3; PCommands; PHelpers; PMain].

(** executors/executor_init.go: shells are loaded before executors. *)
Definition executors_imports : list package := [PShells].

(** The imports of each package among these, in the order of the source. *)
Definition imports (p : package) : list package :=
  match p with
  | PMain => [PGCS; PS3; PCommands; PHelpers; PDocker; PMachine; PKubernetes; PParallels; PShell; PSSH; PVirtualBox; PShells]
  | PCommands => [PDocker; PParallels; PShell; PSSH; PVirtualBox]
  | PMachine => [PDocker]
  | PDocker | PKubernetes | PParallels | PShell | PSSH | PVirtualBox => [PExecutors]
  | PExecutors => executors_imports
  | PShells | PGCS | PS3 | PHelpers => []
  end.

(** What a provider creates: an executor with the options it was registered with, or the
    executor of machines over another. *)
Inductive creation := CreatesExecutor (o : ExecutorOptions) | CreatesMachine (base : creation).
Abbreviation provider := (DefaultExecutorProvider creation).

(** A command of the program, with its subcommands. *)
Record command := mkCommand { cmd_name : string; cmd_subcommands : list string }.

Record program := mkProgram {
  pr_shells : gmap string Shells.Shell; pr_executors : gmap string provider; pr_factories : gmap string Factory;
  pr_commands : list command }.
Definition empty_program : program := mkProgram ∅ ∅ ∅ [].

Definition RegisterCommand (pr : program) (c : command) : program :=
  mkProgram (pr_shells pr) (pr_executors pr) (pr_factories pr) (pr_commands pr ++ [c]).

(** ** The features of the executors *)

Definition docker_features (f : FeaturesInfo) : FeaturesInfo :=
  Build_FeaturesInfo true true true (F_Artifacts f) (F_Cache f) (F_Shared f) (F_UploadMultipleArtifacts f)
    (F_UploadRawArtifacts f) true true (F_Refspecs f) (F_Masking f) (F_Proxy f).
Definition docker_windows_features (f : FeaturesInfo) : FeaturesInfo :=
  Build_FeaturesInfo true true true (F_Artifacts f) (F_Cache f) (F_Shared f) (F_UploadMultipleArtifacts f)
    (F_UploadRawArtifacts f) false false (F_Refspecs f) (F_Masking f) (F_Proxy f).
Definition docker_ssh_features (f : FeaturesInfo) : FeaturesInfo :=
  Build_FeaturesInfo true true true (F_Artifacts f) (F_Cache f) (F_Shared f) (F_UploadMultipleArtifacts f)
    (F_UploadRawArtifacts f) (F_Session f) (F_Terminal f) (F_Refspecs f) (F_Masking f) (F_Proxy f).
Definition kubernetes_features (f : FeaturesInfo) : FeaturesInfo :=
  Build_FeaturesInfo true true true true true (F_Shared f) (F_UploadMultipleArtifacts f)
    (F_UploadRawArtifacts f) true true (F_Refspecs f) (F_Masking f) true.
Definition vm_features (f : FeaturesInfo) : FeaturesInfo :=
  Build_FeaturesInfo true (F_Image f) (F_Services f) (F_Artifacts f) (F_Cache f) (F_Shared f) (F_UploadMultipleArtifacts f)
    (F_UploadRawArtifacts f) (F_Session f) (F_Terminal f) (F_Refspecs f) (F_Masking f) (F_Proxy f).
Definition ssh_features (f : FeaturesInfo) : FeaturesInfo :=
  Build_FeaturesInfo true (F_Image f) (F_Services f) (F_Artifacts f) (F_Cache f) true (F_UploadMultipleArtifacts f)
    (F_UploadRawArtifacts f) (F_Session f) (F_Terminal f) (F_Refspecs f) (F_Masking f) (F_Proxy f).
Definition shell_features (windows : bool) (f : FeaturesInfo) : FeaturesInfo :=
  Build_FeaturesInfo true (F_Image f) (F_Services f) (F_Artifacts f) (F_Cache f) true (F_UploadMultipleArtifacts f)
    (F_UploadRawArtifacts f) (negb windows || F_Session f) (negb windows || F_Terminal f) (F_Refspecs f) (F_Masking f) (F_Proxy f).

Definition new_provider (o : ExecutorOptions) (features : FeaturesInfo → FeaturesInfo) : provider :=
  mkProvider (Some (CreatesExecutor o)) (Some features) (OptShell o).

(** [newMachineProvider] over a provider: it hands features, the default shell and whether it
    can create on to it. *)
Definition machine_provider (base : provider) : provider :=
  mkProvider (CreatesMachine <$> Creator base) (FeaturesUpdater base) (DefaultShellName base).

(** ** The init functions *)

Section Init.
Context {GT : GoText} {PF : Platform} {SE : ShellEnv} (app : AppVersionInfo) (runnerCommand : string)
        (gcs_factory s3_factory : Factory).

Definition windows : bool := bool_decide (GOOS = "windows").

Definition with_executors (pr : program) (l : list (string * provider)) : option program :=
  (λ ex, mkProgram (pr_shells pr) ex (pr_factories pr) (pr_commands pr)) <$> register_all (pr_executors pr) l.

Definition docker_init : list (string * provider) :=
  [("docker", new_provider docker_options docker_features)] ++
  (if windows then [("docker-windows", new_provider docker_windows_options docker_windows_features)] else []) ++
  [("docker-ssh", new_provider docker_ssh_options docker_ssh_features)].

Definition shell_provider (defaultShell : string) : provider :=
  new_provider (shell_options defaultShell runnerCommand) (shell_features windows).

Definition machine_init (pr : program) : option program :=
  docker ← GetExecutor (pr_executors pr) "docker";
  pr' ← with_executors pr [("docker+machine", machine_provider docker)];
  ssh ← GetExecutor (pr_executors pr') "docker-ssh";
  with_executors pr' [("docker-ssh+machine", machine_provider ssh)].

Definition shell_init (pr : program) : option program :=
  defaultShell ← Shells.GetDefaultShell (pr_shells pr);
  with_executors pr [("shell", shell_provider defaultShell)].

Definition shells_init (pr : program) : option program :=
  (λ m, mkProgram m (pr_executors pr) (pr_factories pr) (pr_commands pr)) <$>
    foldl (λ m s, m ≫= λ m, RegisterShell m s) (Some (pr_shells pr)) (all_shells app).

Definition cache_init (name : string) (f : Factory) (pr : program) : option program :=
  match Register (pr_factories pr) name f with
  | Ok m => Some (mkProgram (pr_shells pr) (pr_executors pr) m (pr_commands pr))
  | Err _ => None
  end.

(** The [exec] command has a subcommand for each executor that is registered by then. *)
Definition exec_init (pr : program) : program := RegisterCommand pr (mkCommand "exec" (GetExecutors (pr_executors pr))).

(** The files of the package in their order: list, multi, register, service, single,
    unregister, verify, after exec. *)
Definition other_commands : list string :=
  ["list"; "run"; "register"; "install"; "uninstall"; "start"; "stop"; "restart"; "status"; "run-single"; "unregister"; "verify"].
Definition helper_commands : list string :=
  ["artifacts-downloader"; "artifacts-uploader"; "cache-archiver"; "cache-extractor"; "cache-init"; "health-check"].
Definition register_commands (pr : program) (l : list string) : program := foldl (λ pr name, RegisterCommand pr (mkCommand name [])) pr l.

(** [None] is a panic. *)
Definition init (p : package) (pr : program) : option program :=
  match p with
  | PShells => shells_init pr
  | PDocker => with_executors pr docker_init
  | PMachine => machine_init pr
  | PKubernetes => with_executors pr [("kubernetes", new_provider kubernetes_options kubernetes_features)]
  | PParallels => with_executors pr [("parallels", new_provider vm_options vm_features)]
  | PShell => shell_init pr
  | PSSH => with_executors pr [("ssh", new_provider ssh_options ssh_features)]
  | PVirtualBox => with_executors pr [("virtualbox", new_provider vm_options vm_features)]
  | PGCS => cache_init "gcs" gcs_factory pr
  | PS3 => cache_init "s3" s3_factory pr
  | PCommands => Some (register_commands (exec_init pr) other_commands)
  | PHelpers => Some (register_commands pr helper_commands)
  | PExecutors | PMain => Some pr
  end.

Definition init_all (order : list package) : option program := foldl (λ pr p, pr ≫= init p) (Some empty_program) order.

(** An order in which Go may initialise the packages: each once, after those it imports. *)
Definition init_order (order : list package) : Prop :=
  order ≡ₚ all_packages ∧ ∀ l p l', order = l ++ p :: l' → ∀ q, q ∈ imports p → q ∈ l.

(** ** What is there afterwards *)

Definition default_shell_name : string := if windows then "cmd" else "bash".

(** What each package registers, whenever it is initialised. *)
Definition executors_of (p : package) : list (string * provider) :=
  match p with
  | PDocker => docker_init
  | PMachine => [("docker+machine", machine_provider (new_provider docker_options docker_features));
                 ("docker-ssh+machine", machine_provider (new_provider docker_ssh_options docker_ssh_features))]
  | PKubernetes => [("kubernetes", new_provider kubernetes_options kubernetes_features)]
  | PParallels => [("parallels", new_provider vm_options vm_features)]
  | PShell => [("shell", shell_provider default_shell_name)]
  | PSSH => [("ssh", new_provider ssh_options ssh_features)]
  | PVirtualBox => [("virtualbox", new_provider vm_options vm_features)]
  | _ => []
  end.
Definition factories_of (p : package) : list (string * Factory) :=
  match p with PGCS => [("gcs", gcs_factory)] | PS3 => [("s3", s3_factory)] | _ => [] end.
Definition commands_of (p : package) : list string :=
  match p with PCommands => "exec" :: other_commands | PHelpers => helper_commands | _ => [] end.

(** The package that an executor's name belongs to. *)
Definition owner (name : string) : package :=
  if bool_decide (name ∈ ["docker"; "docker-windows"; "docker-ssh"]) then PDocker
  else if bool_decide (name ∈ ["docker+machine"; "docker-ssh+machine"]) then PMachine
  else if bool_decide (name = "kubernetes") then PKubernetes else if bool_decide (name = "parallels") then PParallels
  else if bool_decide (name = "shell") then PShell else if bool_decide (name = "ssh") then PSSH else PVirtualBox.

Lemma executors_of_owner p n v : (n, v) ∈ executors_of p → owner n = p.
Proof.
  destruct p; simpl; unfold docker_init; try destruct windows; simpl; intros H;
    repeat (apply elem_of_cons in H as [H|H]; [injection H as -> _; reflexivity|]); by apply elem_of_nil in H.
Qed.

Lemma executors_of_usable p : Forall (λ x, usable x.2) (executors_of p) ∧ NoDup (executors_of p).*1.
Proof.
  assert (Hn : ∀ o f, OptShell o ≠ "" → usable (new_provider o f)) by (intros o f Ho; split; [done|split; eauto]).
  assert (Hm : ∀ p', usable p' → usable (machine_provider p'))
    by (intros p' (H1 & [c Hc] & H3); split; [done|split; [simpl; rewrite Hc; eauto|done]]).
  assert (Hd : default_shell_name ≠ "") by (unfold default_shell_name; by destruct windows).
  destruct p; simpl; unfold docker_init; try destruct windows; simpl;
    (split; [repeat apply Forall_cons_2; try apply Forall_nil_2; simpl; eauto; try (by apply Hm, Hn); by apply Hn|]).
  all: apply (bool_decide_unpack _); vm_compute; exact I.
Qed.

Record reached (l : list package) (pr : program) : Prop := {
  re_shells : if bool_decide (PShells ∈ l) then registered app = Some (pr_shells pr) else pr_shells pr = ∅;
  re_executors n v : pr_executors pr !! n = Some v ↔ ∃ q, q ∈ l ∧ (n, v) ∈ executors_of q;
  re_factories n v : pr_factories pr !! n = Some v ↔ ∃ q, q ∈ l ∧ (n, v) ∈ factories_of q;
  re_commands : cmd_name <$> pr_commands pr = l ≫= commands_of;
  re_exec c : c ∈ pr_commands pr → cmd_name c = "exec" →
    ∀ n q, q ∈ imports PCommands → n ∈ (executors_of q).*1 → n ∈ cmd_subcommands c;
  re_closed p q : p ∈ l → q ∈ imports p → q ∈ l }.

Definition loaded (l : list package) (p : package) : Prop := ∀ q, q ∈ imports p → q ∈ l.

Lemma closed_snoc l pr p : reached l pr → loaded l p → ∀ r q, r ∈ l ++ [p] → q ∈ imports r → q ∈ l ++ [p].
Proof.
  intros Hr Hp r q [Hin|Hin]%elem_of_app Hq; apply elem_of_app; left; [by eapply re_closed|].
  apply list_elem_of_singleton in Hin as ->. by apply Hp.
Qed.

Lemma elem_of_snoc {A} (l : list A) p q : q ∈ l ++ [p] ↔ q ∈ l ∨ q = p.
Proof. by rewrite elem_of_app, list_elem_of_singleton. Qed.

(** The executors of a package can be registered when it was not initialised before. *)
Lemma register_package l pr p :
  reached l pr → p ∉ l →
  ∃ ex, register_all (pr_executors pr) (executors_of p) = Some ex ∧
        ∀ n v, ex !! n = Some v ↔ ∃ q, q ∈ l ++ [p] ∧ (n, v) ∈ executors_of q.
Proof.
  intros Hr Hp. destruct (executors_of_usable p) as [Hu Hn].
  exists (list_to_map (executors_of p) ∪ pr_executors pr).
  assert (Hfresh : ∀ n, n ∈ (executors_of p).*1 → pr_executors pr !! n = None).
  { intros n ([n' v] & -> & Hv)%list_elem_of_fmap. apply eq_None_not_Some. intros [w (q & Hq & Hw)%(re_executors _ _ Hr)].
    apply executors_of_owner in Hv, Hw. simpl in *. by subst. }
  split; [by apply register_all_spec|]. intros n v. rewrite lookup_union_Some_raw, <- elem_of_list_to_map by done.
  rewrite (re_executors _ _ Hr). setoid_rewrite elem_of_snoc. split.
  - intros [H|[_ (q & Hq & H)]]; [exists p; auto|exists q; auto].
  - intros (q & [Hq| ->] & H); [right|by left]. split; [|by exists q]. apply not_elem_of_list_to_map_1. intros Hin.
    apply Hfresh in Hin. enough (is_Some (pr_executors pr !! n)) as [? E] by congruence. exists v. apply (re_executors _ _ Hr). eauto.
Qed.

(** Initialising a package that registers nothing but executors. *)
Lemma reached_executors l pr p ex :
  reached l pr → loaded l p → p ≠ PShells → factories_of p = [] → commands_of p = [] →
  (∀ n v, ex !! n = Some v ↔ ∃ q, q ∈ l ++ [p] ∧ (n, v) ∈ executors_of q) →
  reached (l ++ [p]) (mkProgram (pr_shells pr) ex (pr_factories pr) (pr_commands pr)).
Proof.
  intros Hr Hlo Hp Hnf Hnc Hex. pose proof (closed_snoc l pr p Hr Hlo) as Hcl. destruct Hr as [Hs He Hf Hc Hx _].
  constructor; simpl; auto.
  - rewrite (bool_decide_ext (PShells ∈ l ++ [p]) (PShells ∈ l)); [done|]. rewrite elem_of_snoc. split; [by intros [?|?]|by left].
  - intros n v. rewrite Hf. setoid_rewrite elem_of_snoc. split; [intros (q & ? & ?); eauto|].
    intros (q & [?| ->] & Hin); [eauto|]. rewrite Hnf in Hin. by apply elem_of_nil in Hin.
  - rewrite Hc, bind_app. simpl. by rewrite Hnc, !app_nil_r.
Qed.

Lemma with_executors_reached l pr p :
  reached l pr → p ∉ l → loaded l p → p ≠ PShells → factories_of p = [] → commands_of p = [] →
  ∃ pr', with_executors pr (executors_of p) = Some pr' ∧ reached (l ++ [p]) pr'.
Proof.
  intros Hr Hp Hlo Hs Hf Hc. destruct (register_package l pr p Hr Hp) as (ex & He & Hl).
  unfold with_executors. rewrite He. simpl. eexists. split; [done|]. by apply reached_executors.
Qed.

Lemma machine_init_eq pr :
  pr_executors pr !! "docker" = Some (new_provider docker_options docker_features) →
  pr_executors pr !! "docker-ssh" = Some (new_provider docker_ssh_options docker_ssh_features) →
  machine_init pr = with_executors pr (executors_of PMachine).
Proof.
  intros Hd Hs. unfold machine_init, GetExecutor, with_executors. rewrite Hd. cbn [mbind option_bind executors_of register_all].
  destruct (RegisterExecutor _ "docker+machine" _) as [ex|] eqn:E; [|done]. cbn.
  assert (Hx : ex !! "docker-ssh" = Some (new_provider docker_ssh_options docker_ssh_features)); [|by rewrite Hx].
  unfold RegisterExecutor in E. repeat (case_match; try done). injection E as <-. by rewrite lookup_insert_ne.
Qed.

Lemma register_commands_eq pr l :
  register_commands pr l =
  mkProgram (pr_shells pr) (pr_executors pr) (pr_factories pr) (pr_commands pr ++ ((λ name, mkCommand name []) <$> l)).
Proof.
  revert pr. induction l as [|name l IH]; intros pr; simpl; [rewrite app_nil_r; by destruct pr|].
  rewrite IH. unfold RegisterCommand. simpl. by rewrite <- app_assoc.
Qed.

(** Packages that register no executor. *)
Lemma reached_rest l pr p shells factories commands :
  reached l pr → loaded l p → executors_of p = [] →
  (if bool_decide (PShells ∈ l ++ [p]) then registered app = Some shells else shells = ∅) →
  (∀ n v, factories !! n = Some v ↔ pr_factories pr !! n = Some v ∨ (n, v) ∈ factories_of p) →
  cmd_name <$> commands = commands_of p →
  (∀ c, c ∈ commands → cmd_name c = "exec" → ∀ n q, q ∈ imports PCommands → n ∈ (executors_of q).*1 → n ∈ cmd_subcommands c) →
  reached (l ++ [p]) (mkProgram shells (pr_executors pr) factories (pr_commands pr ++ commands)).
Proof.
  intros Hr Hlo Hne Hsh Hfa Hcm Hxc. pose proof (closed_snoc l pr p Hr Hlo) as Hcl. destruct Hr as [Hs He Hf Hc Hx _].
  constructor; simpl; auto.
  - intros n v. rewrite He. setoid_rewrite elem_of_snoc. split; [intros (q & ? & ?); eauto|].
    intros (q & [?| ->] & Hin); [eauto|]. rewrite Hne in Hin. by apply elem_of_nil in Hin.
  - intros n v. rewrite Hfa, Hf. setoid_rewrite elem_of_snoc. split; [intros [(q & ? & ?)|?]; eauto|].
    intros (q & [?| ->] & Hin); [left; eauto|by right].
  - rewrite fmap_app, Hc, Hcm, bind_app. simpl. by rewrite app_nil_r.
  - intros c [Hin|Hin]%elem_of_app; [by apply Hx|by apply Hxc].
Qed.

Lemma keep_shells l pr p : reached l pr → p ≠ PShells →
  if bool_decide (PShells ∈ l ++ [p]) then registered app = Some (pr_shells pr) else pr_shells pr = ∅.
Proof.
  intros Hr Hp. rewrite (bool_decide_ext (PShells ∈ l ++ [p]) (PShells ∈ l)); [apply (re_shells _ _ Hr)|].
  rewrite elem_of_snoc. split; [by intros [?|?]|by left].
Qed.

Lemma cache_init_reached l pr p name f :
  reached l pr → p ∉ l → loaded l p → p ≠ PShells → executors_of p = [] → commands_of p = [] → factories_of p = [(name, f)] →
  (∀ q v, (name, v) ∈ factories_of q → q = p) →
  ∃ pr', cache_init name f pr = Some pr' ∧ reached (l ++ [p]) pr'.
Proof.
  intros Hr Hp Hlo Hs Hne Hnc Hf Hown.
  assert (Hfresh : pr_factories pr !! name = None).
  { apply eq_None_not_Some. intros [v (q & Hq & Hv)%(re_factories _ _ Hr)]. apply Hown in Hv as ->. done. }
  unfold cache_init, Register. rewrite Hfresh. eexists. split; [done|].
  pose proof (reached_rest l pr p (pr_shells pr) (<[name := f]> (pr_factories pr)) [] Hr Hlo Hne) as H.
  rewrite app_nil_r in H. apply H; [by apply keep_shells| |by rewrite Hnc|].
  - intros n v. rewrite Hf, list_elem_of_singleton. destruct (decide (n = name)) as [->|Hn].
    + rewrite lookup_insert_eq, Hfresh. split; [intros [= ->]; by right|intros [?|[= ->]]; done].
    + rewrite lookup_insert_ne by done. split; [by left|]. intros [?|[= ? ?]]; congruence.
  - intros c Hin. by apply elem_of_nil in Hin.
Qed.

Lemma register_commands_reached l pr p extra :
  reached l pr → loaded l p → p ≠ PShells → executors_of p = [] → factories_of p = [] →
  cmd_name <$> extra = commands_of p →
  (∀ c, c ∈ extra → cmd_name c = "exec" → ∀ n q, q ∈ imports PCommands → n ∈ (executors_of q).*1 → n ∈ cmd_subcommands c) →
  reached (l ++ [p]) (mkProgram (pr_shells pr) (pr_executors pr) (pr_factories pr) (pr_commands pr ++ extra)).
Proof.
  intros Hr Hlo Hs Hne Hnf Hc Hx. apply reached_rest; try done; [by apply keep_shells|].
  intros n v. rewrite Hnf, elem_of_nil. tauto.
Qed.

Lemma shells_init_reached l pr : reached l pr → PShells ∉ l → ∃ pr', shells_init pr = Some pr' ∧ reached (l ++ [PShells]) pr'.
Proof.
  intros Hr Hp. pose proof (re_shells _ _ Hr) as Hs. rewrite (bool_decide_eq_false_2 _ Hp) in Hs.
  destruct (registered_shells app) as (m & Hm & _). unfold shells_init. rewrite Hs. fold (registered app). rewrite Hm.
  simpl. eexists. split; [done|].
  pose proof (reached_rest l pr PShells m (pr_factories pr) [] Hr) as H. rewrite app_nil_r in H.
  apply H; [intros q Hq; by apply elem_of_nil in Hq|done| |intros n v; simpl; rewrite elem_of_nil; tauto|done|intros c Hc; by apply elem_of_nil in Hc].
  rewrite bool_decide_eq_true_2; [done|]. apply elem_of_snoc. by right.
Qed.

Lemma shell_init_reached l pr : reached l pr → PShell ∉ l → loaded l PShell →
  ∃ pr', shell_init pr = Some pr' ∧ reached (l ++ [PShell]) pr'.
Proof.
  intros Hr Hp Hlo. assert (Hsh : PShells ∈ l) by (apply (re_closed _ _ Hr PExecutors); [apply Hlo; left|left]).
  pose proof (re_shells _ _ Hr) as Hs. rewrite (bool_decide_eq_true_2 _ Hsh) in Hs.
  destruct (default_shell app) as (m & Hm & Hd). rewrite Hs in Hm. injection Hm as <-.
  unfold shell_init. rewrite Hd. cbn [mbind option_bind]. by apply (with_executors_reached l pr PShell).
Qed.

Lemma commands_init_reached l pr : reached l pr → loaded l PCommands →
  reached (l ++ [PCommands]) (register_commands (exec_init pr) other_commands).
Proof.
  intros Hr Hlo. rewrite register_commands_eq. unfold exec_init, RegisterCommand. simpl pr_shells. simpl pr_executors.
  simpl pr_factories. cbn [pr_commands]. rewrite <- app_assoc. apply register_commands_reached; try done.
  intros c [Hc|Hc]%elem_of_cons Hexec n q Hq Hn.
  - subst c. simpl. unfold GetExecutors. apply list_elem_of_fmap in Hn as ([n' v] & -> & Hv).
    apply list_elem_of_fmap. exists (n', v). split; [done|]. apply elem_of_map_to_list, (re_executors _ _ Hr). exists q. auto.
  - exfalso. apply list_elem_of_fmap in Hc as (name & -> & Hname). simpl in Hexec. subst name.
    revert Hname. apply (bool_decide_unpack ("exec" ∉ other_commands)). vm_compute. exact I.
Qed.

Lemma init_step l p pr : reached l pr → p ∉ l → loaded l p → ∃ pr', init p pr = Some pr' ∧ reached (l ++ [p]) pr'.
Proof.
  intros Hr Hp Hlo. pose proof (with_executors_reached l pr p Hr Hp Hlo) as Hwe.
  assert (Hnothing : executors_of p = [] → factories_of p = [] → commands_of p = [] → p ≠ PShells → reached (l ++ [p]) pr).
  { intros H1 H2 H3 H4. destruct (Hwe H4 H2 H3) as (pr' & E & H'). rewrite H1 in E.
    unfold with_executors in E. cbn in E. injection E as <-. by destruct pr. }
  destruct p; cbn [init]; try (by apply Hwe); try (eexists; split; [reflexivity|]; by apply Hnothing).
  - by apply shells_init_reached.
  - rewrite machine_init_eq; [by apply Hwe|..]; apply (re_executors _ _ Hr); exists PDocker;
      (split; [apply Hlo; left|]); simpl; unfold docker_init; destruct windows; set_solver.
  - by apply shell_init_reached.
  - apply (cache_init_reached l pr PGCS); try done. intros [] v Hv; simpl in Hv; set_solver.
  - apply (cache_init_reached l pr PS3); try done. intros [] v Hv; simpl in Hv; set_solver.
  - eexists. split; [done|]. by apply commands_init_reached.
  - rewrite register_commands_eq. eexists. split; [done|]. apply register_commands_reached; try done.
    intros c Hc Hexec. exfalso. apply list_elem_of_fmap in Hc as (name & -> & Hname). simpl in Hexec. subst name.
    revert Hname. apply (bool_decide_unpack ("exec" ∉ helper_commands)). vm_compute. exact I.
Qed.

Lemma init_prefix l :
  NoDup l → (∀ k p k', l = k ++ p :: k' → loaded k p) → ∃ pr, init_all l = Some pr ∧ reached l pr.
Proof.
  induction l as [|p l IH] using rev_ind; intros Hnd Hord.
  - exists empty_program. split; [done|]. constructor; simpl; try done; intros; rewrite ?lookup_empty.
    + split; [done|]. by intros (q & ?%elem_of_nil & _).
    + split; [done|]. by intros (q & ?%elem_of_nil & _).
    + by apply elem_of_nil in H.
    + by apply elem_of_nil in H.
  - apply NoDup_app in Hnd as (Hnd & Hdis & _).
    destruct IH as (pr & E & Hr); [done|intros k q k' ->; apply (Hord k q (k' ++ [p])); by rewrite <- app_assoc|].
    destruct (init_step l p pr Hr) as (pr' & E' & Hr').
    + intros Hin. apply (Hdis p Hin). by apply list_elem_of_singleton.
    + by apply (Hord l p []).
    + exists pr'. split; [|done]. unfold init_all in *. rewrite foldl_app, E. exact E'.
Qed.

Definition all_commands : list string := "exec" :: other_commands ++ helper_commands.

Lemma commands_of_order order : order ≡ₚ all_packages → order ≫= commands_of ≡ₚ all_commands.
Proof. intros ->. reflexivity. Qed.

(** The shells that executors ask for by default. *)
Lemma default_shells_known p n v : (n, v) ∈ executors_of p → DefaultShellName v ∈ ["bash"; "cmd"; "powershell"].
Proof.
  intros H. unfold executors_of, docker_init, shell_provider, default_shell_name in H.
  destruct p; try (by apply elem_of_nil in H); destruct windows; simpl in H;
    repeat (apply elem_of_cons in H as [H|H]; [injection H as _ ->; simpl; set_solver|]); by apply elem_of_nil in H.
Qed.

Lemma registered_names m n : registered app = Some m → n ∈ ["bash"; "cmd"; "powershell"] → is_Some (GetShell m n).
Proof.
  intros Hm Hn. destruct (registered_shells app) as (m' & Hm' & Hl). rewrite Hm in Hm'. injection Hm' as <-.
  assert (Hsh : ∃ sh, sh ∈ all_shells app ∧ GetName sh = n); [|destruct Hsh as [sh Hsh]; exists sh; by apply Hl].
  apply elem_of_cons in Hn as [->|Hn]; [exists (BashShell app "bash"); split; [right; left|done]|].
  apply elem_of_cons in Hn as [->|Hn]; [exists (CmdShell app); split; [right; right; left|done]|].
  apply list_elem_of_singleton in Hn as ->. exists (PowerShell app). split; [right; right; right; left|done].
Qed.

Lemma startup_reached order : init_order order →
  ∃ pr, init_all order = Some pr ∧ reached order pr ∧ (∀ p, p ∈ order) ∧
    ∀ n v, pr_executors pr !! n = Some v ↔ ∃ p, (n, v) ∈ executors_of p.
Proof.
  intros [Hperm Hord].
  assert (Hall : ∀ p, p ∈ order) by (intros p; rewrite Hperm; destruct p; unfold all_packages; set_solver).
  destruct (init_prefix order) as (pr & E & Hr).
  { rewrite Hperm. apply (bool_decide_unpack _). vm_compute. exact I. }
  { intros k p k' Hk q Hq. by eapply Hord. }
  exists pr. split_and!; try done. intros n v. rewrite (re_executors _ _ Hr). split; [intros (q & _ & H); eauto|intros [q H]; eauto].
Qed.

(** C38: The program starts. In whatever order Go initialises the packages, as long as each comes
    after those it imports, no registration panics: afterwards the registry has exactly the
    executors of the packages, each with a default shell that is registered, the shells and
    both kinds of cache, no command is there twice, and [exec] knows every executor that
    package commands imports. *)
Theorem startup_succeeds order :
  init_order order →
  ∃ pr, init_all order = Some pr ∧
    (∀ n v, pr_executors pr !! n = Some v ↔ ∃ p, (n, v) ∈ executors_of p) ∧
    (∀ n v, pr_executors pr !! n = Some v → is_Some (GetShell (pr_shells pr) (DefaultShellName v))) ∧
    registered app = Some (pr_shells pr) ∧
    (∀ n, is_Some (pr_factories pr !! n) ↔ n ∈ ["gcs"; "s3"]) ∧
    cmd_name <$> pr_commands pr ≡ₚ all_commands ∧ NoDup (cmd_name <$> pr_commands pr) ∧
    (∀ c n q, c ∈ pr_commands pr → cmd_name c = "exec" → q ∈ imports PCommands → n ∈ (executors_of q).*1 → n ∈ cmd_subcommands c).
Proof.
  intros Hord. destruct (startup_reached order Hord) as (pr & E & Hr & Hall & Hex). destruct Hord as [Hperm _].
  pose proof (re_shells _ _ Hr) as Hs. rewrite (bool_decide_eq_true_2 _ (Hall PShells)) in Hs.
  assert (Hcmd : cmd_name <$> pr_commands pr ≡ₚ all_commands) by (rewrite (re_commands _ _ Hr); by apply commands_of_order).
  exists pr. split_and!; try done.
  - intros n v [p Hp]%Hex. apply default_shells_known in Hp.
    by apply registered_names.
  - intros n. split.
    + intros [v (q & _ & Hq)%(re_factories _ _ Hr)]. destruct q; simpl in Hq; set_solver.
    + intros Hn. apply elem_of_cons in Hn as [->|Hn]; [exists gcs_factory; apply (re_factories _ _ Hr); exists PGCS; split; [done|left]|].
      apply list_elem_of_singleton in Hn as ->. exists s3_factory. apply (re_factories _ _ Hr). exists PS3. split; [done|left].
  - rewrite Hcmd. apply (bool_decide_unpack _). vm_compute. exact I.
  - intros c n q Hc Hn Hq. by apply (re_exec _ _ Hr c Hc Hn n q).
Qed.

(** Sessions are offered by docker, by docker in machines, by kubernetes and, but for Windows,
    by shell. *)
Lemma executors_with_sessions p n v features :
  (n, v) ∈ executors_of p → p_GetFeatures v no_features = Ok features →
  F_Session features = true ↔ n ∈ ["docker"; "docker+machine"; "kubernetes"] ∨ n = "shell" ∧ GOOS ≠ "windows".
Proof.
  intros H. unfold executors_of, docker_init, shell_provider, shell_features in H.
  assert (Hw : windows = true ↔ GOOS = "windows") by apply bool_decide_eq_true.
  destruct p; try (by apply elem_of_nil in H); destruct windows; simpl in H;
    repeat (apply elem_of_cons in H as [H|H]; [injection H as -> ->; intros [= <-]; simpl; set_solver|]); by apply elem_of_nil in H.
Qed.
End Init.

(** ** The order of Go's older versions: imports first, in the order of the source *)

Fixpoint depth_first (fuel : nat) (done : list package) (p : package) : list package :=
  match fuel with
  | 0 => done
  | S fuel' => if bool_decide (p ∈ done) then done else foldl (depth_first fuel') done (imports p) ++ [p]
  end.
Definition main_order : list package := depth_first 5 [] PMain.

(** A decision procedure for [init_order]. *)
Fixpoint loads (before rest : list package) : bool :=
  match rest with
  | [] => true
  | p :: rest' => bool_decide (Forall (λ q, q ∈ before) (imports p)) && loads (before ++ [p]) rest'
  end.

Lemma loads_spec rest before :
  loads before rest = true → ∀ l p l', rest = l ++ p :: l' → ∀ q, q ∈ imports p → q ∈ before ++ l.
Proof.
  revert before. induction rest as [|x rest IH]; intros before Hl l p l' E q Hq; [by destruct l|].
  simpl in Hl. apply andb_true_iff in Hl as [Hx Hl]. destruct l as [|y l]; simplify_eq/=.
  - apply bool_decide_eq_true in Hx. rewrite Forall_forall in Hx. rewrite app_nil_r. by apply Hx.
  - replace (before ++ y :: l) with ((before ++ [y]) ++ l) by (by rewrite <- app_assoc). by eapply (IH _ Hl l p l').
Qed.

Lemma main_order_ok : init_order main_order.
Proof.
  split.
  - apply NoDup_Permutation; [apply (bool_decide_unpack _); vm_compute; exact I..|].
    intros p. assert (H : ∀ l : list package, bool_decide (p ∈ l) = true → p ∈ l) by (intros l; apply bool_decide_eq_true).
    destruct p; (split; intros _; apply H; vm_compute; reflexivity).
  - intros l p l' E. by apply (loads_spec main_order [] eq_refl l p l').
Qed.

(** ** The program on Linux *)

Module DemoStartup.
Import BuildProofs.DemoBuild Shells.DemoShell.

Definition no_factory : Factory := λ _ _ _, Err "not configured".

(** The theorem at the order of the older versions. *)
Lemma startup_succeeds_witness :
  init_order main_order ∧ ∃ pr, init_all app "gitlab-runner" no_factory no_factory main_order = Some pr ∧
    cmd_name <$> pr_commands pr ≡ₚ all_commands.
Proof.
  split; [apply main_order_ok|].
  destruct (startup_succeeds app "gitlab-runner" no_factory no_factory main_order main_order_ok) as (pr & E & _ & _ & _ & _ & Hc & _).
  exists pr. by split.
Defined.

(** In that order, [exec] has no subcommand for kubernetes and the machines: package commands
    does not import them. *)
Lemma exec_can_miss_kubernetes :
  ∃ pr c, init_all app "gitlab-runner" no_factory no_factory main_order = Some pr ∧ c ∈ pr_commands pr ∧ cmd_name c = "exec" ∧
    "kubernetes" ∉ cmd_subcommands c ∧ "docker+machine" ∉ cmd_subcommands c ∧
    is_Some (pr_executors pr !! "kubernetes") ∧ is_Some (pr_executors pr !! "docker+machine").
Proof.
  set (missing := λ pr : program, match pr_commands pr with
    | c :: _ => bool_decide (cmd_name c = "exec" ∧ "kubernetes" ∉ cmd_subcommands c ∧ "docker+machine" ∉ cmd_subcommands c ∧
        is_Some (pr_executors pr !! "kubernetes") ∧ is_Some (pr_executors pr !! "docker+machine"))
    | [] => false end).
  assert (H : from_option missing false (init_all app "gitlab-runner" no_factory no_factory main_order) = true)
    by (vm_compute; reflexivity).
  destruct (init_all _ _ _ _ main_order) as [pr|]; [|done]. simpl in H. unfold missing in H.
  destruct (pr_commands pr) as [|c cs] eqn:E; [done|]. apply bool_decide_eq_true in H as (Hn & Hk & Hm & Hk' & Hm').
  exists pr, c. rewrite E. split_and!; try done. left.
Qed.
End DemoStartup.
