(* ===== verification/CommandLine.v ===== *)
(** The programs around their commands: the hooks that main.go and
    apps/gitlab-runner-helper/main.go put before and after every command (helpers/cli,
    log/configuration.go), the end of a run and its exit status, and the texts of the version
    (common/version.go). *)

From S2P Require Import Prelude GoLib Path Types Variables ConfigFile KubernetesExecutor ScrubSecrets Logging.
#[local] Open Scope go_scope.

(** ** The texts of the version, common/version.go *)

Definition ShortLine (v : AppVersionInfo) : string := App_Version v +:+ " (" +:+ App_Revision v +:+ ")".

(** [BuiltAt] is not part of the record of Variables.v: nothing else reads it. *)
Definition Extended (v : AppVersionInfo) (built : string) : string :=
  "Version:      " +:+ App_Version v +:+ lf +:+ "Git revision: " +:+ App_Revision v +:+ lf +:+
  "Git branch:   " +:+ App_Branch v +:+ lf +:+ "GO version:   " +:+ App_GOVersion v +:+ lf +:+
  "Built:        " +:+ built +:+ lf +:+ "OS/Arch:      " +:+ App_OS v +:+ "/" +:+ App_Architecture v +:+ lf.

(** ** The process *)

(** How a call ends: it returns, with an error or without, the process exits, or it panics, with
    an entry of the log or with something else. *)
Inductive panic_value := LogEntry (e : Entry) | OtherPanic.
Inductive outcome := Returns | Fails (err : string) | Exits (code : Z) | Panics (v : panic_value).

(** The environment, the logging configuration, whether the log goes to the standard error, the
    file a profile is written to, the hook that cleans the log, and what was logged. *)
Record process := mkProcess {
  ps_env : gmap string string; ps_logging : LogConfig; ps_stderr : bool; ps_profile : option string;
  ps_cleanup : bool; ps_logged : list Entry }.
Definition Getenv (ps : process) (key : string) : string := default "" (ps_env ps !! key).

Definition set_env (env : gmap string string) (ps : process) : process :=
  mkProcess env (ps_logging ps) (ps_stderr ps) (ps_profile ps) (ps_cleanup ps) (ps_logged ps).
Definition set_logging (l : LogConfig) (ps : process) : process :=
  mkProcess (ps_env ps) l true (ps_profile ps) (ps_cleanup ps) (ps_logged ps).
Definition set_profile (p : option string) (ps : process) : process :=
  mkProcess (ps_env ps) (ps_logging ps) (ps_stderr ps) p (ps_cleanup ps) (ps_logged ps).
(** The level a logger was told by its name; it starts with [InfoLevel], and the level below
    debug enables the same. *)
Definition level_of (name : string) : level :=
  if bool_decide (name = "panic") then PanicLevel else if bool_decide (name = "fatal") then FatalLevel
  else if bool_decide (name = "error") then ErrorLevel else if bool_decide (name = "warning") then WarnLevel
  else if bool_decide (name ∈ ["debug"; "trace"]) then DebugLevel else InfoLevel.
Definition IsLevelEnabled (l : LogConfig) (lv : level) : bool :=
  bool_decide (severity lv ≤ severity (level_of (snd (l_logger l)))).
(** An entry is logged as the hook leaves it, if its level is enabled. *)
Definition logs (e : Entry) (ps : process) : process :=
  if IsLevelEnabled (ps_logging ps) (en_Level e) then
    mkProcess (ps_env ps) (ps_logging ps) (ps_stderr ps) (ps_profile ps) (ps_cleanup ps)
      (ps_logged ps ++ [if ps_cleanup ps then SecretsCleanup_Fire e else e])
  else ps.
Definition AddSecretsCleanupLogHook (ps : process) : process :=
  mkProcess (ps_env ps) (ps_logging ps) (ps_stderr ps) (ps_profile ps) true (ps_logged ps).

(** logrus's [Fatal] logs and ends the process. *)
Definition Fatal (message : string) (ps : process) : outcome * process :=
  (Exits 1, logs (mkEntry FatalLevel message []) ps).

(** ** The hooks *)

(** The options in front of the command: [None] where one is not given. *)
Record context := mkContext { cx_cpuprofile : string; cx_level : option string; cx_debug : bool; cx_format : option string }.
Definition hook : Type := context → process → outcome * process.
Record App := mkApp { app_Flags : list string; app_Before : option hook; app_After : option hook }.
Definition NewApp : App := mkApp [] None None.

(** The hook that was there before, if any. *)
Definition earlier (h : option hook) : hook := λ cx ps, match h with Some h => h cx ps | None => (Returns, ps) end.

Section Programs.
(** The operating system and the libraries: the error of creating a file, the variable of the
    home directory and its value for the current user, the parser of levels, the fields that
    describe the platform, and the lower case of the runes above ASCII. *)
Context (os_Create : string → option string) (homedir_Key : string) (current_home : string)
        (ParseLevel : string → result string string) (platform : list (string * string)) (ToLower_rune : Z → Z).

(** [homedir.Get]: the variable, or the home directory of the current user. *)
Definition homedir_Get (ps : process) : string :=
  if bool_decide (Getenv ps homedir_Key = "") then current_home else Getenv ps homedir_Key.

Definition SetupCPUProfile (app : App) : App :=
  mkApp (app_Flags app ++ ["cpuprofile"])
    (Some (λ cx ps,
      if bool_decide (cx_cpuprofile cx = "") then earlier (app_Before app) cx ps
      else match os_Create (cx_cpuprofile cx) with
           | Some err => (Fails err, ps)
           | None => earlier (app_Before app) cx (set_profile (Some (cx_cpuprofile cx)) ps)
           end))
    (Some (λ cx ps, earlier (app_After app) cx (set_profile None ps))).

Definition FixHOME (app : App) : App :=
  mkApp (app_Flags app)
    (Some (λ cx ps,
      if bool_decide (Getenv ps homedir_Key = "") then
        let value := homedir_Get ps in
        if bool_decide (value = "") then (Fails ("the " +:+ QuoteWith (λ _, true) homedir_Key +:+ " is not set"), ps)
        else earlier (app_Before app) cx (set_env (<[homedir_Key := value]> (ps_env ps)) ps)
      else earlier (app_Before app) cx ps))
    (app_After app).

Definition platform_entry : Entry := mkEntry InfoLevel "Runtime platform" platform.
Definition LogRuntimePlatform (app : App) : App :=
  mkApp (app_Flags app) (Some (λ cx ps, earlier (app_Before app) cx (logs platform_entry ps))) (app_After app).

(** A configuration that fails has not reached the logger; the process ends with it. *)
Definition log_error : string := "Error while setting up logging configuration".
Definition ConfigureLogging (app : App) : App :=
  mkApp (app_Flags app ++ ["debug"; "log-format"; "log-level, l"])
    (Some (λ cx ps,
      match handleCliCtx ParseLevel (ps_logging ps) (cx_level cx) (cx_debug cx) (cx_format cx) with
      | Err err => (Exits 1, logs (mkEntry FatalLevel log_error [("error", err)]) (set_logging (ps_logging ps) ps))
      | Ok l => earlier (app_Before app) cx (set_logging l ps)
      end))
    (app_After app).

(** The two lines of a warning: the flag that is meant and its value. *)
Fixpoint warn_from (before : option string) (args : list string) : list string :=
  match args with
  | [] => []
  | a :: rest =>
      let arg := ToLower ToLower_rune a in
      if bool_decide (arg = "true") || bool_decide (arg = "false") then
        ["boolean parameters must be passed in the command line with " +:+ default "--key" before +:+ "=" +:+ arg;
         "parameters after this may be ignored"]
      else warn_from (Some a) rest
  end.
(** [None] is the panic of a slice from the first of no arguments. *)
Definition WarnOnBool (args : list string) : option (list string) :=
  match args with [] => None | _ :: rest => Some (warn_from None rest) end.

(** ** The programs *)

(** [App.Run] once the flags are read: [After] is deferred before [Before] is called, and the
    process exits without deferred calls. *)
Definition app_Run (app : App) (action : process → outcome * process) (cx : context) (ps : process) : outcome * process :=
  let '(r, ps) := earlier (app_Before app) cx ps in
  let '(r, ps) := match r with Returns => action ps | _ => (r, ps) end in
  match r with
  | Exits _ => (r, ps)
  | _ => let '(after, ps) := earlier (app_After app) cx ps in
         (match r, after with
          | Returns, _ => after
          | Fails err, Fails afterErr => Fails (err +:+ lf +:+ afterErr)
          | Panics _, (Exits _ | Panics _) => after
          | _, _ => r
          end, ps)
  end.

(** The action of a name: its command, or the handler of names that are none. *)
Definition find_action (commands : list (string * (process → outcome * process))) (message : string → string) (name : string)
    : process → outcome * process :=
  match list_find (λ c, fst c = name) commands with
  | Some (_, (_, action)) => action
  | None => λ ps, Fatal (message name) ps
  end.

Definition runner_app : App := ConfigureLogging (FixHOME (SetupCPUProfile (LogRuntimePlatform NewApp))).
Definition helper_app : App := ConfigureLogging NewApp.

(** The end of [main]: the status of the process, [None] when a panic ends it. *)
Definition exit_status (r : outcome) : option Z :=
  match r with
  | Returns => Some 0%Z
  | Fails _ => Some 1%Z
  | Exits code => Some code
  | Panics (LogEntry _) => Some 1%Z
  | Panics OtherPanic => None
  end.

(** [args] is [os.Args]; [name] and [cx] are what the library reads from it. *)
Definition warned (warnings : list string) (ps : process) : process :=
  foldl (λ ps w, logs (mkEntry WarnLevel w []) ps) ps warnings.
Definition run_main (commands : list (string * (process → outcome * process))) (name : string) (cx : context) (ps : process)
    : option Z * process :=
  let '(r, ps) := app_Run runner_app (find_action commands (λ n, message ["Command"; n; "not found."]) name) cx ps in
  (exit_status r, match r with Fails err => snd (Fatal err ps) | _ => ps end).
Definition main (commands : list (string * (process → outcome * process))) (args : list string) (name : string) (cx : context)
    (ps : process) : option Z * process :=
  match WarnOnBool args with
  | None => (None, ps)
  | Some warnings => run_main commands name cx (warned warnings ps)
  end.
Definition helper_main (commands : list (string * (process → outcome * process))) (name : string) (cx : context) (ps : process)
    : option Z * process :=
  let '(r, ps) := app_Run helper_app (find_action commands (λ n, message ["Command"; n; "not found"]) name) cx (AddSecretsCleanupLogHook ps) in
  (exit_status r, match r with Fails err => snd (Fatal err ps) | _ => ps end).

(** ** Before the command *)

(** The set-up that a command of the runner starts in. *)
Record ready (cx : context) (ps ps2 : process) : Prop := {
  rd_logging : handleCliCtx ParseLevel (ps_logging ps) (cx_level cx) (cx_debug cx) (cx_format cx) = Ok (ps_logging ps2);
  rd_stderr : ps_stderr ps2 = true;
  rd_home : Getenv ps2 homedir_Key ≠ "" ∧ (Getenv ps homedir_Key ≠ "" → Getenv ps2 homedir_Key = Getenv ps homedir_Key);
  rd_env key : key ≠ homedir_Key → Getenv ps2 key = Getenv ps key;
  rd_profile : ps_profile ps2 = (if bool_decide (cx_cpuprofile cx = "") then ps_profile ps else Some (cx_cpuprofile cx));
  rd_logged : en_Message <$> ps_logged ps2 =
    (en_Message <$> ps_logged ps) ++
    (if IsLevelEnabled (ps_logging ps2) InfoLevel
     then [if ps_cleanup ps then ScrubSecrets "Runtime platform" else "Runtime platform"] else []) }.

(** What has to be there for it. *)
Definition can_start (cx : context) (ps : process) : Prop :=
  (∃ l, handleCliCtx ParseLevel (ps_logging ps) (cx_level cx) (cx_debug cx) (cx_format cx) = Ok l) ∧
  homedir_Get ps ≠ "" ∧ (cx_cpuprofile cx = "" ∨ os_Create (cx_cpuprofile cx) = None).

(** The end of a command. *)
Definition stopped (x : outcome * process) : outcome * process :=
  match fst x with Exits _ => x | _ => (fst x, set_profile None (snd x)) end.

Lemma app_Run_runner action cx ps :
  app_Run runner_app action cx ps =
  let '(r, ps) := earlier (app_Before runner_app) cx ps in
  stopped (match r with Returns => action ps | _ => (r, ps) end).
Proof.
  unfold app_Run. destruct (earlier (app_Before runner_app) cx ps) as [r ps1].
  destruct (match r with Returns => action ps1 | _ => (r, ps1) end) as [r' ps']. by destruct r'.
Qed.

Lemma Getenv_set ps key v k : Getenv (set_env (<[key := v]> (ps_env ps)) ps) k = if bool_decide (k = key) then v else Getenv ps k.
Proof. unfold Getenv. simpl. case_bool_decide as Hk; [subst; by rewrite lookup_insert_eq|by rewrite lookup_insert_ne by done]. Qed.

(** The environment once the home directory is fixed. *)
Definition fixed (ps : process) : process :=
  if bool_decide (Getenv ps homedir_Key = "") then set_env (<[homedir_Key := homedir_Get ps]> (ps_env ps)) ps else ps.

Lemma fixed_logging ps l : fixed (set_logging l ps) = set_logging l (fixed ps).
Proof. unfold fixed, Getenv, homedir_Get. simpl. by case_bool_decide. Qed.

Lemma fixed_home ps : homedir_Get ps ≠ "" →
  Getenv (fixed ps) homedir_Key ≠ "" ∧ (Getenv ps homedir_Key ≠ "" → Getenv (fixed ps) homedir_Key = Getenv ps homedir_Key) ∧
  (∀ key, key ≠ homedir_Key → Getenv (fixed ps) key = Getenv ps key).
Proof.
  intros Hh. unfold fixed. case_bool_decide as Hk; [|done]. split_and!; [rewrite Getenv_set; by rewrite bool_decide_eq_true_2|done|].
  intros key Hne. by rewrite Getenv_set, bool_decide_eq_false_2.
Qed.

Definition profiled (cx : context) (ps : process) : process :=
  if bool_decide (cx_cpuprofile cx = "") then ps else set_profile (Some (cx_cpuprofile cx)) ps.

(** The hooks run in the reverse of the order in which they were put in place: logging first,
    the home directory, the profile, and the description of the platform last. *)
Lemma hooks_succeed cx ps l :
  handleCliCtx ParseLevel (ps_logging ps) (cx_level cx) (cx_debug cx) (cx_format cx) = Ok l →
  homedir_Get ps ≠ "" → cx_cpuprofile cx = "" ∨ os_Create (cx_cpuprofile cx) = None →
  earlier (app_Before runner_app) cx ps = (Returns, logs platform_entry (profiled cx (fixed (set_logging l ps)))).
Proof.
  intros Hl Hh Hp. cbn. rewrite Hl. unfold fixed, profiled.
  assert (Hg : homedir_Get (set_logging l ps) = homedir_Get ps) by done.
  case_bool_decide as Hk; [rewrite Hg, (bool_decide_eq_false_2 _ Hh)|]; case_bool_decide as Hc; try done;
    destruct Hp as [?|Hp]; try done; by rewrite Hp.
Qed.

Lemma hooks_fail cx ps :
  ¬ can_start cx ps → ∃ r ps', earlier (app_Before runner_app) cx ps = (r, ps') ∧ r ≠ Returns ∧ exit_status r = Some 1%Z.
Proof.
  intros Hn. cbn. destruct (handleCliCtx _ _ _ _ _) as [l|err] eqn:Hl; [|by eexists _, _].
  assert (Hg : homedir_Get (set_logging l ps) = homedir_Get ps) by done.
  assert (Hc : homedir_Get ps ≠ "" → cx_cpuprofile cx ≠ "" ∧ ∃ err, os_Create (cx_cpuprofile cx) = Some err).
  { intros Hh. destruct (decide (cx_cpuprofile cx = "")) as [E|E]; [destruct Hn; unfold can_start; eauto|]. split; [done|].
    destruct (os_Create (cx_cpuprofile cx)) as [err|] eqn:Eo; [eauto|]. destruct Hn. unfold can_start. eauto. }
  case_bool_decide as Hk.
  - rewrite Hg. case_bool_decide as Hh; [by eexists _, _|]. destruct (Hc Hh) as [Hp [err He]].
    rewrite (bool_decide_eq_false_2 _ Hp), He. by eexists _, _.
  - destruct Hc as [Hp [err He]]; [unfold homedir_Get; by rewrite (bool_decide_eq_false_2 (Getenv ps homedir_Key = "") Hk)|].
    rewrite (bool_decide_eq_false_2 _ Hp), He. by eexists _, _.
Qed.

Lemma ready_spec cx ps l :
  handleCliCtx ParseLevel (ps_logging ps) (cx_level cx) (cx_debug cx) (cx_format cx) = Ok l → homedir_Get ps ≠ "" →
  ready cx ps (logs platform_entry (profiled cx (fixed (set_logging l ps)))).
Proof.
  intros Hl Hh. rewrite fixed_logging. destruct (fixed_home ps Hh) as (H1 & H2 & H3).
  assert (Hf : ps_profile (fixed ps) = ps_profile ps ∧ ps_cleanup (fixed ps) = ps_cleanup ps ∧ ps_logged (fixed ps) = ps_logged ps)
    by (unfold fixed; by case_bool_decide). destruct Hf as (Hfp & Hfc & Hfl).
  unfold profiled, logs, Getenv in *.
  case_bool_decide as Hc; cbn -[IsLevelEnabled fixed]; destruct (IsLevelEnabled l InfoLevel) eqn:El;
    constructor; cbn -[IsLevelEnabled fixed ScrubSecrets];
    rewrite ?El, ?Hfp, ?Hfc, ?Hfl, ?app_nil_r, ?(bool_decide_eq_true_2 _ Hc), ?(bool_decide_eq_false_2 _ Hc); try done.
  all: rewrite fmap_app; by destruct (ps_cleanup ps).
Qed.

Lemma starts cx ps :
  can_start cx ps → ∃ ps2, ready cx ps ps2 ∧ ∀ action, app_Run runner_app action cx ps = stopped (action ps2).
Proof.
  intros ([l Hl] & Hh & Hp). eexists. split; [by apply (ready_spec cx ps l)|]. intros action.
  rewrite app_Run_runner. by rewrite (hooks_succeed cx ps l).
Qed.

Lemma does_not_start cx ps :
  ¬ can_start cx ps → ∃ r ps2, exit_status r = Some 1%Z ∧ ∀ action, app_Run runner_app action cx ps = (r, ps2).
Proof.
  intros Hn. destruct (hooks_fail cx ps Hn) as (r & ps1 & Hb & Hr & He).
  exists r, (snd (stopped (r, ps1))). split; [done|]. intros action. rewrite app_Run_runner, Hb. by destruct r.
Qed.

#[export] Instance can_start_dec cx ps : Decision (can_start cx ps).
Proof.
  unfold can_start. destruct (handleCliCtx _ _ _ _ _) as [l|err]; [|right; by intros ([l [=]] & _)].
  destruct (decide (homedir_Get ps = "")) as [|H1]; [right; tauto|].
  destruct (decide (cx_cpuprofile cx = "" ∨ os_Create (cx_cpuprofile cx) = None)) as [H2|H2]; [left; eauto|right; tauto].
Defined.

(** ** After the command *)

(** The profile is closed whenever the run of the application returns or panics... *)
Lemma profile_is_closed action cx ps r ps' :
  app_Run runner_app action cx ps = (r, ps') → (∀ code, r ≠ Exits code) → ps_profile ps' = None.
Proof.
  rewrite app_Run_runner. destruct (earlier _ cx ps) as [r1 ps1]. intros E Hr. unfold stopped in E.
  destruct (match r1 with Returns => action ps1 | _ => (r1, ps1) end) as [r2 ps2]. simpl in E.
  destruct r2; injection E as <- <-; try done. by destruct (Hr code).
Qed.

(** ... but not when a command ends with [Fatal], as the commands do on their errors. *)
Lemma fatal_leaves_profile_open cx ps message :
  can_start cx ps → cx_cpuprofile cx ≠ "" →
  ps_profile (snd (app_Run runner_app (Fatal message) cx ps)) = Some (cx_cpuprofile cx).
Proof.
  intros Hs Hc. destruct (starts cx ps Hs) as (ps2 & Hr & Ha). rewrite Ha. unfold Fatal, stopped.
  simpl. unfold logs. case_match; simpl; by rewrite (rd_profile _ _ _ Hr), bool_decide_eq_false_2.
Qed.

Lemma run_main_spec commands name cx ps :
  if bool_decide (can_start cx ps) then
    ∃ ps2, ready cx ps ps2 ∧
      match list_find (λ c, fst c = name) commands with
      | Some (_, (_, action)) => fst (run_main commands name cx ps) = exit_status (fst (action ps2))
      | None => run_main commands name cx ps = (Some 1%Z, logs (mkEntry FatalLevel ("Command " +:+ name +:+ " not found.") []) ps2)
      end
  else ∃ ps2, ∀ commands', run_main commands' name cx ps = (Some 1%Z, ps2).
Proof.
  unfold run_main, find_action. case_bool_decide as Hs.
  - destruct (starts cx ps Hs) as (ps2 & Hr & Ha). exists ps2. split; [done|]. rewrite Ha.
    destruct (list_find _ commands) as [[i [n action]]|]; [|done]. unfold stopped.
    destruct (action ps2) as [r ps']. by destruct r.
  - destruct (does_not_start cx ps Hs) as (r & ps2 & He & Ha). eexists. intros commands'. rewrite Ha, He. done.
Qed.

(** ** Warnings about boolean options *)

Definition is_bool_word (a : string) : bool :=
  bool_decide (ToLower ToLower_rune a = "true") || bool_decide (ToLower ToLower_rune a = "false").

(** The warning is about the first argument that is the word true or false, and names the
    argument in front of it as the flag. *)
Lemma WarnOnBool_spec prog args :
  match list_find (λ a, is_bool_word a = true) args with
  | None => WarnOnBool (prog :: args) = Some []
  | Some (i, a) => ∃ rest, WarnOnBool (prog :: args) =
      Some (("boolean parameters must be passed in the command line with " +:+
             (match i with 0 => "--key" | S j => default "" (args !! j) end) +:+ "=" +:+ ToLower ToLower_rune a) :: rest)
  end.
Proof.
  assert (H : ∀ args before, match list_find (λ a, is_bool_word a = true) args with
    | None => warn_from before args = []
    | Some (i, a) => ∃ rest, warn_from before args =
        ("boolean parameters must be passed in the command line with " +:+
         (match i with 0 => default "--key" before | S j => default "" (args !! j) end) +:+ "=" +:+ ToLower ToLower_rune a) :: rest
    end).
  { clear args. induction args as [|a args IH]; intros before; [done|]. simpl.
    destruct (decide (is_bool_word a = true)) as [Ha|Ha].
    - unfold is_bool_word in Ha. rewrite Ha. eauto.
    - apply not_true_is_false in Ha as Hf. specialize (IH (Some a)). unfold is_bool_word in Hf. rewrite Hf.
      destruct (list_find _ args) as [[i b]|]; simpl; [|done]. by destruct i. }
  specialize (H args None). simpl. destruct (list_find _ args) as [[[|j] a]|]; [destruct H as [rest ->]; eauto..|by rewrite H].
Qed.
(** A command of the runner runs in a process that is set up, or not at all. The set-up
    succeeds exactly when the logging options are good, a home directory is known and the
    profile can be created; then the log goes to the standard error with the level and format
    asked for, the variable of the home directory has a value, which was only changed if it had
    none, and the platform was logged if that level allows it; the exit status is what the
    command makes it, 1 if there is no such command, with the message logged. Otherwise no
    command runs and the program exits with status 1. *)
Theorem command_runs_set_up commands prog args name cx ps0 :
  let ps := warned (default [] (WarnOnBool (prog :: args))) ps0 in
  let main commands := main commands (prog :: args) name cx ps0 in
  if bool_decide (can_start cx ps) then
    ∃ ps2, ready cx ps ps2 ∧
      match list_find (λ c, fst c = name) commands with
      | Some (_, (_, action)) => fst (main commands) = exit_status (fst (action ps2))
      | None => main commands = (Some 1%Z, logs (mkEntry FatalLevel ("Command " +:+ name +:+ " not found.") []) ps2)
      end
  else ∃ ps2, ∀ commands', main commands' = (Some 1%Z, ps2).
Proof. exact (run_main_spec commands name cx (warned (warn_from None args) ps0)). Qed.
End Programs.

(** ** A command of the helper: cache-init, commands/helpers/cache_init.go *)

(** [Chmod] is the error of giving all permissions to a path; every path is tried. *)
Definition cacheInit_Execute (Chmod : string → option string) (args : list string) (ps : process) : outcome * process :=
  if bool_decide (args = []) then Fatal "No arguments passed, at least 1 path is required." ps
  else (Returns, foldl (λ ps path, match Chmod path with
                                   | Some err => logs (mkEntry ErrorLevel "failed to chmod path" [("error", err)]) ps
                                   | None => ps
                                   end) ps args).

Lemma chmod_errors_logged (Chmod : string → option string) args ps :
  IsLevelEnabled (ps_logging ps) ErrorLevel = true →
  let ps' := foldl (λ ps path, match Chmod path with
                               | Some err => logs (mkEntry ErrorLevel "failed to chmod path" [("error", err)]) ps
                               | None => ps
                               end) ps args in
  en_Data <$> ps_logged ps' = (en_Data <$> ps_logged ps) ++ ((λ err, [("error", err)]) <$> omap Chmod args).
Proof.
  revert ps. induction args as [|path args IH]; intros ps Hl; simpl; [by rewrite app_nil_r|].
  destruct (Chmod path) as [err|]; [|by apply IH]. rewrite IH; unfold logs; simpl; rewrite Hl; simpl; [|done].
  rewrite fmap_app, <- app_assoc. simpl. by destruct (ps_cleanup ps).
Qed.

(** The helper that initialises caches tries every path and logs each failure, but its exit
    status says nothing of them. *)
Theorem cache_init_tries_every_path ParseLevel (Chmod : string → option string) args commands cx ps l :
  handleCliCtx ParseLevel (ps_logging ps) (cx_level cx) (cx_debug cx) (cx_format cx) = Ok l →
  args ≠ [] → IsLevelEnabled l ErrorLevel = true →
  let result := helper_main ParseLevel (("cache-init", cacheInit_Execute Chmod args) :: commands) "cache-init" cx ps in
  fst result = Some 0%Z ∧
  en_Data <$> ps_logged (snd result) = (en_Data <$> ps_logged ps) ++ ((λ err, [("error", err)]) <$> omap Chmod args).
Proof.
  intros Hl Ha He. unfold helper_main, app_Run. cbn -[handleCliCtx find_action]. rewrite Hl. cbn.
  unfold cacheInit_Execute. rewrite (bool_decide_eq_false_2 _ Ha). cbn. split; [done|].
  exact (chmod_errors_logged Chmod args (set_logging l (AddSecretsCleanupLogHook ps)) He).
Qed.
