(* ===== verification/DevTools.v ===== *)
(** The scripts of the release process: the one that writes the table of feature flags into the
    documentation (scripts/update-feature-flags-docs) and the one that prepares the checklist of
    a release (scripts/prepare-release-checklist-issue). *)

From S2P Require Import Prelude GoLib Variables Regex Shells Logging.
#[local] Open Scope go_scope.

(** ** scripts/update-feature-flags-docs *)

Module FeatureFlagsDocs.

(** A flag of helpers/featureflags with what the table says of it. *)
Record FeatureFlag := mkFlag { ff_Name : string; ff_DefaultValue : string; ff_Deprecated : bool; ff_ToBeRemovedWith : string; ff_Description : string }.
Definition GetAll : list FeatureFlag :=
  [mkFlag CmdDisableDelayedErrorLevelExpansion "false" false ""
     "Disables [EnableDelayedExpansion](https://ss64.com/nt/delayedexpansion.html) for error checking for when using [Window Batch](https://docs.gitlab.com/runner/shells/#windows-batch) shell";
   mkFlag UseLegacyBuildsDirForDocker "false" true "12.3"
     "Disables the new strategy for Docker executor to cache the content of `/builds` directory instead of `/builds/group-org`";
   mkFlag UseLegacyVolumesMountingOrder "false" true "12.6"
     "Disables the new ordering of volumes mounting when `docker*` executors are being used."].

Definition startPlaceholder : string := "<!-- feature_flags_list_start -->".
Definition endPlaceholder : string := "<!-- feature_flags_list_end -->".

(** The template, with its functions [raw] and [tick]. *)
Definition raw (input : string) : string := "`" +:+ input +:+ "`".
Definition tick (input : bool) : string := if input then "✓" else "✗".
Definition row (f : FeatureFlag) : string :=
  "| " +:+ raw (ff_Name f) +:+ " | " +:+ raw (ff_DefaultValue f) +:+ " | " +:+ tick (ff_Deprecated f) +:+ " | " +:+
  ff_ToBeRemovedWith f +:+ " | " +:+ ff_Description f +:+ " |".
Definition table_head : list string :=
  [startPlaceholder; ""; "| Feature flag | Default value | Deprecated | To be removed with | Description |";
   "|--------------|---------------|------------|--------------------|-------------|"].
Definition table_lines (flags : list FeatureFlag) : list string := table_head ++ (row <$> flags) ++ [""; endPlaceholder].
Definition prepareTable (flags : list FeatureFlag) : string := concat_all ((λ l, l +:+ lf) <$> table_lines flags).

(** *** The replacer *)

Record blockLineReplacer := mkReplacer { startFound : bool; endFound : bool; output : string }.

Section Replacer.
Context (startLine endLine replaceContent : string).

Definition handleStart (r : blockLineReplacer) (line : string) : blockLineReplacer :=
  if startFound r || negb (Contains line startLine) then r else mkReplacer true (endFound r) (output r).
Definition handleRewrite (r : blockLineReplacer) (line : string) : blockLineReplacer :=
  if startFound r && negb (endFound r) then r else mkReplacer (startFound r) (endFound r) (output r +:+ line).
Definition handleEnd (r : blockLineReplacer) (line : string) : blockLineReplacer :=
  if negb (Contains line endLine) then r else mkReplacer (startFound r) true (output r +:+ replaceContent).
Definition handleLine (r : blockLineReplacer) (line : string) : blockLineReplacer :=
  handleEnd (handleRewrite (handleStart r line) line) line.

(** [ReadString] until it meets the end: the lines with their newlines; what follows the last
    newline comes with the end of the input and is not handled. *)
Definition read_lines (s : string) : list string := (λ l, l +:+ lf) <$> removelast (Split s (byte_of 10)).

Definition Replace (input : string) : string := output (foldl handleLine (mkReplacer false false "") (read_lines input)).

(** *** Its behaviour *)

Definition is_line (l : string) : Prop := ∃ b, l = b +:+ lf ∧ byte_of 10 ∉ String.list_ascii_of_string b.

Lemma read_lines_concat ls rest : Forall is_line ls → byte_of 10 ∉ String.list_ascii_of_string rest →
  read_lines (concat_all ls +:+ rest) = ls.
Proof.
  intros Hls Hr. unfold read_lines. induction Hls as [|l ls (b & -> & Hb) Hls IH]; simpl.
  - rewrite string_app_nil_l, Split_absent by done. done.
  - replace (((b +:+ lf) +:+ concat_all ls) +:+ rest) with (b +:+ String (byte_of 10) (concat_all ls +:+ rest))
      by (unfold lf, bstr; rewrite <- !string_app_assoc; simpl; by rewrite ?string_app_cons, ?string_app_nil_l).
    rewrite Split_app by done. destruct (Split (concat_all ls +:+ rest) (byte_of 10)) as [|x xs] eqn:E; [by apply Split_nonempty in E|].
    cbn [removelast fmap list_fmap]. f_equal. exact IH.
Qed.

(** A block: from a line with the start to the only line with the end. *)
Definition is_block (ls : list string) : Prop :=
  ∃ a mid z, ls = a :: mid ++ [z] ∧ Contains a startLine = true ∧ Contains z endLine = true ∧
    Forall (λ l, Contains l endLine = false) (a :: mid).

Definition unmarked (ls : list string) : Prop := Forall (λ l, Contains l startLine = false ∧ Contains l endLine = false) ls.

Lemma before_block ls out : unmarked ls →
  foldl handleLine (mkReplacer false false out) ls = mkReplacer false false (out +:+ concat_all ls).
Proof.
  intros H. revert out. induction H as [|l ls [Hs He] _ IH]; intros out; simpl; [by rewrite string_app_nil_r|].
  unfold handleLine at 2, handleStart, handleRewrite, handleEnd. simpl. rewrite Hs. simpl. rewrite He. simpl.
  by rewrite IH, string_app_assoc.
Qed.

Lemma inside_block ls out : Forall (λ l, Contains l endLine = false) ls →
  foldl handleLine (mkReplacer true false out) ls = mkReplacer true false out.
Proof.
  intros H. induction H as [|l ls He _ IH]; simpl; [done|].
  unfold handleLine at 2, handleStart, handleRewrite, handleEnd. simpl. by rewrite He.
Qed.

Lemma after_block ls out : Forall (λ l, Contains l endLine = false) ls →
  foldl handleLine (mkReplacer true true out) ls = mkReplacer true true (out +:+ concat_all ls).
Proof.
  intros H. revert out. induction H as [|l ls He _ IH]; intros out; simpl; [by rewrite string_app_nil_r|].
  unfold handleLine at 2, handleStart, handleRewrite, handleEnd. simpl. rewrite He. simpl. by rewrite IH, string_app_assoc.
Qed.

Lemma block_replaced ls out : is_block ls →
  foldl handleLine (mkReplacer false false out) ls = mkReplacer true true (out +:+ replaceContent).
Proof.
  intros (a & mid & z & -> & Ha & Hz & He). apply Forall_cons_1 in He as [Hea Hem]. simpl.
  unfold handleLine at 2, handleStart, handleRewrite, handleEnd. simpl. rewrite Ha. simpl. rewrite Hea. simpl.
  rewrite foldl_app, inside_block by done. simpl. unfold handleLine, handleStart, handleRewrite, handleEnd. simpl. by rewrite Hz.
Qed.

(** Of a file with one block, the block is replaced and everything else is kept, but for what
    follows the last newline. *)
Lemma Replace_spec pre block post rest :
  Forall is_line (pre ++ block ++ post) → byte_of 10 ∉ String.list_ascii_of_string rest →
  unmarked pre → is_block block → Forall (λ l, Contains l endLine = false) post →
  Replace (concat_all (pre ++ block ++ post) +:+ rest) = concat_all pre +:+ replaceContent +:+ concat_all post.
Proof.
  intros Hl Hr Hp Hb Hq. unfold Replace. rewrite read_lines_concat by done.
  rewrite !foldl_app, before_block, block_replaced, after_block by done. simpl.
  by rewrite string_app_nil_l, <- string_app_assoc.
Qed.
End Replacer.

(** *** The table *)

(** [main] between reading and writing the file. *)
Definition replace (fileContent tableContent : string) : string := Replace startPlaceholder endPlaceholder tableContent fileContent.
Definition update (fileContent : string) : string := replace fileContent (prepareTable GetAll).

Definition table : list string := (λ l, l +:+ lf) <$> table_lines GetAll.

Lemma table_is_block : is_block startPlaceholder endPlaceholder table ∧ Forall is_line table.
Proof.
  split.
  - exists (startPlaceholder +:+ lf), (removelast (tail table)), (endPlaceholder +:+ lf).
    split; [reflexivity|]. split; [reflexivity|]. split; [reflexivity|]. apply (bool_decide_unpack _). vm_compute. exact I.
  - unfold table. apply Forall_fmap, (Forall_impl (λ b, byte_of 10 ∉ String.list_ascii_of_string b)); [|intros b Hb; by exists b].
    apply (bool_decide_unpack _). vm_compute. exact I.
Qed.

Lemma concat_all_assoc3 a b c : concat_all a +:+ concat_all b +:+ concat_all c = concat_all (a ++ b ++ c) +:+ "".
Proof. by rewrite string_app_nil_r, !concat_all_app. Qed.

(** Updating a page with one list of flags leaves the page around the list as it is, and an
    update of what was updated changes nothing. *)
Theorem update_is_idempotent pre block post rest :
  Forall is_line (pre ++ block ++ post) → byte_of 10 ∉ String.list_ascii_of_string rest →
  unmarked startPlaceholder endPlaceholder pre → is_block startPlaceholder endPlaceholder block →
  Forall (λ l, Contains l endPlaceholder = false) post →
  let page := concat_all (pre ++ block ++ post) +:+ rest in
  update page = concat_all pre +:+ prepareTable GetAll +:+ concat_all post ∧ update (update page) = update page.
Proof.
  intros Hl Hr Hp Hb Hq page.
  assert (Hu : update page = concat_all pre +:+ prepareTable GetAll +:+ concat_all post) by (by apply Replace_spec).
  split; [done|]. rewrite Hu. change (prepareTable GetAll) with (concat_all table) at 1. rewrite concat_all_assoc3.
  destruct table_is_block as [Htb Htl]. rewrite !Forall_app in Hl. destruct Hl as (Hl1 & _ & Hl3).
  unfold update, replace. rewrite (Replace_spec _ _ _ pre table post ""); try done; [by rewrite !Forall_app|by apply not_elem_of_nil].
Qed.

(** What follows the last newline of a page is lost, and a line with the end marker puts a table
    in, whether or not there was a start. *)
Example last_line_is_lost : update ("# Flags" +:+ lf +:+ "no newline") = "# Flags" +:+ lf.
Proof. vm_compute. reflexivity. Qed.
Example end_without_start : update (endPlaceholder +:+ lf) = endPlaceholder +:+ lf +:+ prepareTable GetAll.
Proof. vm_compute. reflexivity. Qed.
End FeatureFlagsDocs.

(** ** scripts/prepare-release-checklist-issue *)

Module ReleaseChecklist.

(** *** Days, as package time counts them *)

Record date := mkDate { year : Z; month : Z; day : Z }.

Definition is_leap (y : Z) : bool := ((y mod 4 =? 0) && (negb (y mod 100 =? 0) || (y mod 400 =? 0)))%Z.
Definition daysIn (m y : Z) : Z :=
  if (m =? 2)%Z then (if is_leap y then 29 else 28)
  else if ((m =? 4) || (m =? 6) || (m =? 9) || (m =? 11))%Z then 30 else 31.
Definition valid_date (t : date) : bool :=
  ((1 <=? month t) && (month t <=? 12) && (1 <=? day t) && (day t <=? daysIn (month t) (year t)))%Z.

(** The number of a day, from 0000-03-01 on; years are counted from March here, so that a leap
    day is the last of its year. That first day was a Wednesday; Sunday is 0. *)
Definition number_of (t : date) : Z :=
  let y := if (month t <=? 2)%Z then (year t - 1)%Z else year t in
  let mp := if (month t <=? 2)%Z then (month t + 9)%Z else (month t - 3)%Z in
  (365 * y + y / 4 - y / 100 + y / 400 + (153 * mp + 2) / 5 + day t - 1)%Z.
Definition Weekday (t : date) : Z := ((number_of t + 3) mod 7)%Z.

(** The day before. *)
Definition prev_day (t : date) : date :=
  if (1 <? day t)%Z then mkDate (year t) (month t) (day t - 1)
  else if (1 <? month t)%Z then mkDate (year t) (month t - 1) (daysIn (month t - 1) (year t))
  else mkDate (year t - 1) 12 31.

Lemma valid_date_spec t :
  valid_date t = true ↔ (1 ≤ month t ≤ 12 ∧ 1 ≤ day t ≤ daysIn (month t) (year t))%Z.
Proof. unfold valid_date. rewrite !andb_true_iff, !Z.leb_le. tauto. Qed.

Lemma daysIn_bounds m y : (28 ≤ daysIn m y ≤ 31)%Z.
Proof. unfold daysIn. repeat case_match; lia. Qed.

Lemma prev_day_valid t : valid_date t = true → valid_date (prev_day t) = true.
Proof.
  rewrite !valid_date_spec. intros [Hm Hd]. unfold prev_day.
  destruct (1 <? day t)%Z eqn:E1; [simpl; lia|]. destruct (1 <? month t)%Z eqn:E2; simpl; [|unfold daysIn; simpl; lia].
  pose proof (daysIn_bounds (month t - 1) (year t)). lia.
Qed.

Lemma february y :
  (365 * (y - 1) + (y - 1) / 4 - (y - 1) / 100 + (y - 1) / 400 + 337 + daysIn 2 y = 365 * y + y / 4 - y / 100 + y / 400)%Z.
Proof.
  unfold daysIn, is_leap. simpl.
  destruct (y mod 4 =? 0)%Z eqn:A, (y mod 100 =? 0)%Z eqn:B, (y mod 400 =? 0)%Z eqn:C; simpl; Z.to_euclidean_division_equations; lia.
Qed.

Lemma prev_day_number t : valid_date t = true → number_of (prev_day t) = (number_of t - 1)%Z.
Proof.
  rewrite valid_date_spec. destruct t as [y m d]. simpl. intros [Hm Hd]. unfold prev_day. simpl.
  destruct (1 <? d)%Z eqn:E1; [unfold number_of; simpl; lia|]. assert (d = 1%Z) as -> by lia.
  assert (m = 1 ∨ m = 2 ∨ m = 3 ∨ m = 4 ∨ m = 5 ∨ m = 6 ∨ m = 7 ∨ m = 8 ∨ m = 9 ∨ m = 10 ∨ m = 11 ∨ m = 12)%Z as Hc by lia.
  unfold number_of. repeat (destruct Hc as [->|Hc]); try subst m; simpl; try lia.
  all: repeat match goal with |- context [Z.div ?a 5] => let b := eval vm_compute in (Z.div a 5) in change (Z.div a 5) with b end.
  3: { change (3 - 1)%Z with 2%Z. pose proof (february y). lia. }
  all: try match goal with |- context [daysIn ?a ?y] => let b := eval vm_compute in (daysIn a y) in change (daysIn a y) with b end; lia.
Qed.

(** *** The layout 2006-01-02 *)

Definition digit (d : Z) : string := bstr (48 + d).
Definition format_day (t : date) : string :=
  digit (year t / 1000) +:+ digit (year t / 100 mod 10) +:+ digit (year t / 10 mod 10) +:+ digit (year t mod 10) +:+ "-" +:+
  digit (month t / 10) +:+ digit (month t mod 10) +:+ "-" +:+ digit (day t / 10) +:+ digit (day t mod 10).

Definition digit_value (c : ascii) : option Z :=
  if ((48 <=? z_of c) && (z_of c <=? 57))%Z then Some (z_of c - 48)%Z else None.
(** [time.Parse]: four, two and two digits, and a day that there is. *)
Definition Parse (s : string) : option date :=
  match String.list_ascii_of_string s with
  | [a; b; c; d; s1; e; f; s2; g; h] =>
      y1 ← digit_value a; y2 ← digit_value b; y3 ← digit_value c; y4 ← digit_value d;
      m1 ← digit_value e; m2 ← digit_value f; d1 ← digit_value g; d2 ← digit_value h;
      let t := mkDate (1000 * y1 + 100 * y2 + 10 * y3 + y4) (10 * m1 + m2) (10 * d1 + d2) in
      if (bool_decide (s1 = "-"%char) && bool_decide (s2 = "-"%char) && valid_date t) then Some t else None
  | _ => None
  end.

Lemma digit_value_digit d : (0 ≤ d ≤ 9)%Z → digit_value (byte_of (48 + d)) = Some d.
Proof.
  intros Hd. unfold digit_value. rewrite z_of_byte_of by lia.
  destruct ((48 <=? 48 + d) && (48 + d <=? 57))%Z eqn:E; [f_equal; lia|]. apply andb_false_iff in E. lia.
Qed.

Lemma Parse_format_day t : valid_date t = true → (0 ≤ year t ≤ 9999)%Z → Parse (format_day t) = Some t.
Proof.
  intros Hv Hy. pose proof Hv as [Hm Hd]%valid_date_spec. pose proof (daysIn_bounds (month t) (year t)) as Hb.
  unfold Parse, format_day, digit, bstr. rewrite ?string_app_cons, ?string_app_nil_l. cbn [String.list_ascii_of_string].
  rewrite !digit_value_digit by (Z.to_euclidean_division_equations; lia). cbn [mbind option_bind].
  rewrite !bool_decide_eq_true_2 by done. cbn [andb].
  assert (Ht : mkDate (1000 * (year t / 1000) + 100 * (year t / 100 mod 10) + 10 * (year t / 10 mod 10) + year t mod 10)
    (10 * (month t / 10) + month t mod 10) (10 * (day t / 10) + day t mod 10) = t).
  { destruct t as [y m d]. simpl in *. f_equal; Z.to_euclidean_division_equations; lia. }
  by rewrite Ht, Hv.
Qed.

Lemma Parse_valid s t : Parse s = Some t → valid_date t = true ∧ (0 ≤ year t ≤ 9999)%Z.
Proof.
  assert (Hdig : ∀ c v, digit_value c = Some v → (0 ≤ v ≤ 9)%Z).
  { intros c v. unfold digit_value. destruct ((48 <=? z_of c) && (z_of c <=? 57))%Z eqn:E; [|done].
    apply andb_true_iff in E as [? ?]. intros [= <-]. lia. }
  unfold Parse. destruct (String.list_ascii_of_string s) as [|a [|b [|c [|d [|s1 [|e [|f [|s2 [|g [|h [|]]]]]]]]]]]; try done. intros H10.
  repeat match type of H10 with
  | (digit_value ?c ≫= _) = Some _ => let E := fresh "E" in destruct (digit_value c) eqn:E; [apply Hdig in E; cbn [mbind option_bind] in H10|done]
  end.
  destruct (_ && valid_date _) eqn:Hok in H10; [|done]. apply andb_true_iff in Hok as [_ Hok]. injection H10 as <-. split; [done|]. simpl. lia.
Qed.

(** *** What is detected *)

(** The contents of the version file, if it can be read. *)
Definition detectVersion (content : option string) : list string :=
  match content with Some c => Split c "."%char | None => [""; ""] end.

Definition digits : regex := RPlus (RSet false [(48, 57)]%Z).
Definition dot : regex := RSet true [(10, 10)]%Z.
(** The pattern of a chart's version, with its dots escaped. *)
Definition versionRx : regex :=
  RCat (RCap 1 digits) (RCat (RChar ".") (RCat (RCap 2 digits) (RCat (RChar ".") (RCap 3 digits)))).
(** The version of the chart as the fetched file has it; [None] when the file is not understood. *)
Definition detectHelmChartVersion (version : option string) : list string :=
  match version with
  | None => [""; ""; ""]
  | Some v => match FindAllStringSubmatch versionRx v with
              | [c] => [group c 1; group c 2; group c 3]
              | _ => [""; ""; ""]
              end
  end.

(** The pattern of the link to a release post; the dots of its text match any character. *)
Definition pattern_text (s : string) : regex := RLit (λ c, if bool_decide (c = "."%char) then dot else RChar c) s.
Definition postRx : regex :=
  RCat (pattern_text "gitlab.com/gitlab-com/www-gitlab-com/blob/release-") (RCat digits (RCat (RChar "-") (RCat digits
  (RCat (pattern_text "/data/release_posts/") (RCat (RCap 1 digits) (RCat (RChar "_") (RCat (RCap 2 digits) (RCat (RChar "_")
  (RCat (RCap 3 digits) (RCat (pattern_text "_gitlab_") (RCat digits (RCat (RChar "_") (RCat digits (pattern_text "_released.yml")))))))))))))).

Record listMergeRequestsResponseEntry := mkEntry { mr_ID : Z; mr_WebURL : string; mr_Title : string; mr_Description : string }.

(** The first merge request whose description links to the post: its number and the date. *)
Fixpoint choose (l : list listMergeRequestsResponseEntry) : string * string :=
  match l with
  | [] => ("", "")
  | chosen :: rest =>
      match FindStringSubmatch postRx (mr_Description chosen) with
      | Some c => (Itoa (mr_ID chosen), group c 1 +:+ "-" +:+ group c 2 +:+ "-" +:+ group c 3)
      | None => choose rest
      end
  end.
(** [None] when the list could not be fetched. *)
Definition detectBlogPostMergeRequest (mergeRequests : option (list listMergeRequestsResponseEntry)) : string * string :=
  match mergeRequests with Some l => choose l | None => ("", "") end.

Definition offset (weekday : Z) : nat :=
  if bool_decide (weekday ∈ [1; 2]%Z) then 11 else if bool_decide (weekday = 0%Z) then 10 else 9.
Definition detectReleaseMergeRequestDeadline (date : string) : string :=
  if bool_decide (date = "") then ""
  else match Parse date with
       | None => ""
       | Some releaseDate => format_day (Nat.iter (offset (Weekday releaseDate)) prev_day releaseDate)
       end.

Lemma iter_prev_day n t : valid_date t = true →
  valid_date (Nat.iter n prev_day t) = true ∧ number_of (Nat.iter n prev_day t) = (number_of t - Z.of_nat n)%Z.
Proof.
  intros Hv. induction n as [|n [IHv IHn]]; [split; [done|simpl; lia]|]. rewrite Nat.iter_succ.
  split; [by apply prev_day_valid|]. rewrite prev_day_number, IHn by done. lia.
Qed.

Lemma prev_day_year t : (year t - 1 ≤ year (prev_day t) ≤ year t)%Z.
Proof. unfold prev_day. repeat case_match; simpl; lia. Qed.

(** The deadline that is worked out for a release is a working day nine to eleven days before
    it. (The year has to leave room for as many days.) *)
Theorem deadline_is_working_day text t :
  Parse text = Some t → (11 ≤ year t)%Z →
  ∃ d, Parse (detectReleaseMergeRequestDeadline text) = Some d ∧ (number_of t - 11 ≤ number_of d ≤ number_of t - 9)%Z ∧
       (1 ≤ Weekday d ≤ 5)%Z.
Proof.
  intros Hp Hy. destruct (Parse_valid text t Hp) as [Hv Hr]. unfold detectReleaseMergeRequestDeadline.
  rewrite bool_decide_eq_false_2 by (intros ->; done). rewrite Hp.
  destruct (iter_prev_day (offset (Weekday t)) t Hv) as [Hv' Hn]. set (d := Nat.iter _ prev_day t) in *.
  assert (Hyd : ∀ n, (year t - Z.of_nat n ≤ year (Nat.iter n prev_day t) ≤ year t)%Z).
  { induction n as [|n IH]; [simpl; lia|]. rewrite Nat.iter_succ. pose proof (prev_day_year (Nat.iter n prev_day t)). lia. }
  specialize (Hyd (offset (Weekday t))). fold d in Hyd.
  assert (Ho : 9 ≤ offset (Weekday t) ≤ 11) by (unfold offset; repeat case_bool_decide; lia).
  exists d. split; [apply Parse_format_day; [done|lia]|]. split; [lia|].
  unfold Weekday in *. rewrite Hn. clear -Ho. remember (number_of t + 3)%Z as x eqn:Ex.
  replace (number_of t - Z.of_nat (offset (x mod 7)) + 3)%Z with (x - Z.of_nat (offset (x mod 7)))%Z by lia. clear Ex.
  assert (x mod 7 = 0 ∨ x mod 7 = 1 ∨ x mod 7 = 2 ∨ x mod 7 = 3 ∨ x mod 7 = 4 ∨ x mod 7 = 5 ∨ x mod 7 = 6)%Z as H
    by (pose proof (Z.mod_pos_bound x 7); lia).
  repeat (destruct H as [H|H]); rewrite H; unfold offset; simpl; Z.to_euclidean_division_equations; lia.
Qed.

Example known_weekdays : Weekday (mkDate 2019 6 20) = 4%Z ∧ Weekday (mkDate 2000 2 29) = 2%Z ∧ Weekday (mkDate 1970 1 1) = 4%Z.
Proof. by vm_compute. Qed.
Example deadline_of_12_0 : detectReleaseMergeRequestDeadline "2019-06-22" = "2019-06-13".
Proof. vm_compute. reflexivity. Qed.
Example post_found :
  choose [mkEntry 7 "" "other" "no link";
          mkEntry 8 "" "12.0" "see gitlab.com/gitlab-com/www-gitlab-com/blob/release-12-0/data/release_posts/2019_06_22_gitlab_12_0_released.yml"] =
  ("8", "2019-06-22").
Proof. vm_compute. reflexivity. Qed.

(** *** What is asked *)

Record ReleaseMetadata := mkMetadata {
  Major : Z; Minor : Z; ReleaseManagerHandle : string; ReleaseBlogPostMR : Z; ReleaseBlogPostDeadline : string;
  HelmChartMajor : Z; HelmChartMinor : Z }.

(** The values of the flags, which are the detected ones unless given. *)
Record flag_values := mkFlags {
  fl_major : string; fl_minor : string; fl_handle : string; fl_mr : string; fl_deadline : string;
  fl_chart_major : string; fl_chart_minor : string }.
(** [flag.String] with the detected defaults; [None] is the panic of an index out of range. *)
Definition default_flags (version : option string) (chart : option string) (mergeRequests : option (list listMergeRequestsResponseEntry))
    (handle : string) : option flag_values :=
  maj ← detectVersion version !! 0%nat; min ← detectVersion version !! 1%nat;
  cmaj ← detectHelmChartVersion chart !! 0%nat; cmin ← detectHelmChartVersion chart !! 1%nat;
  let '(mr, date) := detectBlogPostMergeRequest mergeRequests in
  Some (mkFlags maj min handle mr (detectReleaseMergeRequestDeadline date) cmaj cmin).

(** [askOnce]: [lines] are those left on the standard input; [None] is a panic. *)
Definition checklist_askOnce (noInteractive : bool) (result : string) (lines : list string) : option (string * list string) :=
  if noInteractive then Some (result, lines)
  else match lines with
       | [] => None
       | data :: rest =>
           let newResult := TrimSpace data in
           let result := if bool_decide (newResult = "") then result else newResult in
           if bool_decide (result = "") then None else Some (result, rest)
       end.
Definition askNumber (noInteractive : bool) (result : string) (lines : list string) : option (Z * list string) :=
  '(r, lines) ← checklist_askOnce noInteractive result lines; (if snd (Atoi r) then None else Some (fst (Atoi r), lines)).

Definition prepareMetadata (noInteractive : bool) (f : flag_values) (lines : list string) : option (ReleaseMetadata * list string) :=
  '(major, lines) ← askNumber noInteractive (fl_major f) lines;
  '(minor, lines) ← askNumber noInteractive (fl_minor f) lines;
  '(cmajor, lines) ← askNumber noInteractive (fl_chart_major f) lines;
  '(cminor, lines) ← askNumber noInteractive (fl_chart_minor f) lines;
  '(handle, lines) ← checklist_askOnce noInteractive (fl_handle f) lines;
  '(mr, lines) ← askNumber noInteractive (fl_mr f) lines;
  '(deadline, lines) ← checklist_askOnce noInteractive (fl_deadline f) lines;
  Some (mkMetadata major minor handle mr deadline cmajor cminor, lines).

Definition prepareIssueTitle (m : ReleaseMetadata) : string :=
  "GitLab Runner " +:+ Itoa (Major m) +:+ "." +:+ Itoa (Minor m) +:+ " release checklist".

(** The end of [main]: the issue is printed or posted. The template of its text is filled in by
    the library; [None] is a panic. *)
Inductive issue := Printed (title content : string) | Posted (url title content : string).
Definition escaped_project : string := "gitlab-org%2Fgitlab-runner".
Definition newIssueURL : string := "https://gitlab.com/api/v4/projects/" +:+ escaped_project +:+ "/issues".
Definition main (template : ReleaseMetadata → option string) (dryRun noInteractive : bool) (f : flag_values) (lines : list string)
    : option issue :=
  '(m, _) ← prepareMetadata noInteractive f lines;
  content ← template m;
  Some (if dryRun then Printed (prepareIssueTitle m) content else Posted newIssueURL (prepareIssueTitle m) content).

(** An answer in interactive mode is never empty, and is the line that was typed unless that is
    blank. *)
Lemma checklist_askOnce_interactive result lines r rest :
  checklist_askOnce false result lines = Some (r, rest) →
  ∃ l, lines = l :: rest ∧ r ≠ "" ∧ r = (if bool_decide (TrimSpace l = "") then result else TrimSpace l).
Proof.
  unfold checklist_askOnce. destruct lines as [|l lines]; [done|]. cbv zeta. remember (if bool_decide (TrimSpace l = "") then _ else _) as x.
  destruct (decide (x = "")) as [Hx|Hx]; [by rewrite bool_decide_eq_true_2|].
  rewrite bool_decide_eq_false_2 by done. intros [= <- <-]. by exists l.
Qed.

(** Without questions, the issue is about exactly the versions of the flags, and the script
    stops before anything is posted when one of them is no number. *)
Lemma no_interactive_uses_flags template f lines :
  let number s := snd (Atoi s) = false in
  match prepareMetadata true f lines with
  | Some (m, rest) => rest = lines ∧ number (fl_major f) ∧ number (fl_minor f) ∧ number (fl_mr f) ∧
      m = mkMetadata (fst (Atoi (fl_major f))) (fst (Atoi (fl_minor f))) (fl_handle f) (fst (Atoi (fl_mr f))) (fl_deadline f)
            (fst (Atoi (fl_chart_major f))) (fst (Atoi (fl_chart_minor f)))
  | None => (¬ number (fl_major f) ∨ ¬ number (fl_minor f) ∨ ¬ number (fl_mr f) ∨ ¬ number (fl_chart_major f) ∨
             ¬ number (fl_chart_minor f)) ∧ main template false true f lines = None
  end.
Proof.
  cbv zeta. unfold main, prepareMetadata, askNumber, checklist_askOnce. cbn.
  destruct (Atoi (fl_major f)) as [a []], (Atoi (fl_minor f)) as [b []], (Atoi (fl_chart_major f)) as [c []],
    (Atoi (fl_chart_minor f)) as [d []], (Atoi (fl_mr f)) as [e []]; cbn; split_and?; try done; try (split; [|done]); naive_solver.
Qed.
End ReleaseChecklist.
