(* ===== verification/Certificates.v ===== *)
(** The certificate of the session server (helpers/certificate/x509.go), and the server of
    TerminalConns.v with the certificates that it makes. *)

From S2P Require Import Prelude GoLib Session TerminalConns DevTools.
Import ReleaseChecklist.
#[local] Open Scope go_scope.

(** [AddDate] by years alone: the 29th of February becomes the 1st of March in a year that does
    not have it. *)
Definition AddYears (t : date) (n : Z) : date :=
  let t' := mkDate (year t + n) (month t) (day t) in
  if valid_date t' then t' else mkDate (year t + n) 3 1.

(** What the certificate says, to the day. *)
Record x509_template := mkTemplate {
  SerialNumber : Z; NotBefore : date; NotAfter : date; Organization : list string; KeyUsage : list string;
  ExtKeyUsage : list string; BasicConstraintsValid : bool; IPAddresses : list string; DNSNames : list string }.

Definition x509CertificatePrivateKeyBits : Z := 2048.
Definition x509CertificateExpiryInYears : Z := 2.
Definition x509CertificateSerialNumber : Z := 1.
Definition x509CertificateOrganization : string := "GitLab Runner".

Section Generator.
(** The packages rsa, x509, pem and tls. [now] and [now'] are the two readings of the clock. *)
Context {key certificate : Type} (rsa_GenerateKey : Z → result string key) (ParseIP : string → option string)
        (CreateCertificate : x509_template → key → result string string) (EncodeToMemory : string → string → string)
        (MarshalPKCS1PrivateKey : key → string) (X509KeyPair : string → string → result string certificate)
        (now now' : date).

Definition template (host : string) : x509_template :=
  let t ips names := mkTemplate x509CertificateSerialNumber now (AddYears now' x509CertificateExpiryInYears)
    [x509CertificateOrganization] ["KeyEncipherment"; "DigitalSignature"; "DataEncipherment"] ["ServerAuth"] true ips names in
  match ParseIP host with Some ip => t [ip] [] | None => t [] [host] end.

Definition Generate (host : string) : result string (certificate * string) :=
  let? priv := rsa_GenerateKey x509CertificatePrivateKeyBits in
  match CreateCertificate (template host) priv with
  | Err _ => Err "failed to create certificate"
  | Ok publicKeyBytes =>
      let publicKeyPEM := EncodeToMemory "CERTIFICATE" publicKeyBytes in
      let privateKeyPEM := EncodeToMemory "RSA PRIVATE KEY" (MarshalPKCS1PrivateKey priv) in
      let? parsedCertificate := X509KeyPair publicKeyPEM privateKeyPEM in
      Ok (parsedCertificate, publicKeyPEM)
  end.

(** Two years are 730 or 731 days. *)
Lemma two_years t : valid_date t = true → (730 ≤ number_of (AddYears t 2) - number_of t ≤ 731)%Z.
Proof.
  rewrite valid_date_spec. destruct t as [y m d]. simpl. intros [Hm Hd]. unfold AddYears. cbn [year month day]. cbv zeta.
  destruct (valid_date _) eqn:E.
  - unfold number_of. cbn [year month day]. destruct (m <=? 2)%Z; Z.to_euclidean_division_equations; lia.
  - apply not_true_iff_false in E. rewrite valid_date_spec in E. simpl in E.
    assert (Hm2 : m = 2%Z) by (unfold daysIn in *; destruct (m =? 2)%Z eqn:E2; [by apply Z.eqb_eq|exfalso; apply E; lia]).
    subst m. pose proof (daysIn_bounds 2 (y + 2)) as Hb. assert (Hl : is_leap y = true ∧ d = 29%Z).
    { unfold daysIn in Hd, Hb, E. simpl in Hd, Hb, E. destruct (is_leap y); [split; [done|lia]|exfalso; apply E; lia]. }
    destruct Hl as [Hl ->]. unfold is_leap in Hl. apply andb_true_iff in Hl as [A B]. apply orb_true_iff in B.
    unfold number_of. cbn [year month day]. change (2 <=? 2)%Z with true. change (3 <=? 2)%Z with false. cbv iota.
    rewrite negb_true_iff in B. Z.to_euclidean_division_equations. lia.
Qed.

(** A certificate that is generated names the host and nothing else, as an address if it is
    one, may serve only as a server's, and is good for two years. *)
Lemma generated_certificate host c pem :
  Generate host = Ok (c, pem) → valid_date now' = true →
  ∃ priv der, CreateCertificate (template host) priv = Ok der ∧ pem = EncodeToMemory "CERTIFICATE" der ∧
    IPAddresses (template host) ++ DNSNames (template host) = [default host (ParseIP host)] ∧
    ExtKeyUsage (template host) = ["ServerAuth"] ∧ NotBefore (template host) = now ∧
    (730 ≤ number_of (NotAfter (template host)) - number_of now' ≤ 731)%Z.
Proof.
  intros H Hv. unfold Generate in H. destruct (rsa_GenerateKey _) as [priv|]; [|done]. simpl in H.
  destruct (CreateCertificate (template host) priv) as [der|] eqn:Ec; [|done]. simpl in H.
  destruct (X509KeyPair _ _); [|done]. injection H as _ <-. exists priv, der.
  pose proof (two_years now' Hv) as [Ha Hb]. unfold template in *. destruct (ParseIP host); by split_and!.
Qed.

(** The session server presents a certificate for the host that its clients are sent to. *)
Theorem session_server_names_its_host splitHost parse Listen advertise listen s :
  let generate host := let? r := Generate host in Ok (snd r) in
  NewServer splitHost parse generate Listen advertise listen = (Ok s, true) →
  ∃ priv der, CreateCertificate (template (ss_host s)) priv = Ok der ∧
    ss_CertificatePublicKey s = EncodeToMemory "CERTIFICATE" der ∧
    IPAddresses (template (ss_host s)) ++ DNSNames (template (ss_host s)) = [default (ss_host s) (ParseIP (ss_host s))].
Proof.
  intros generate H. apply session_server_certificate in H as (Hg & _). unfold generate, Generate in Hg.
  destruct (rsa_GenerateKey _) as [priv|]; [|done]. simpl in Hg.
  destruct (CreateCertificate (template (ss_host s)) priv) as [der|] eqn:Ec; [|done]. simpl in Hg.
  destruct (X509KeyPair _ _); [|done]. injection Hg as <-. exists priv, der. split_and!; try done.
  unfold template. by destruct (ParseIP (ss_host s)).
Qed.
End Generator.
