(* ===== verification/Metrics.v ===== *)
(** The metrics of the service: what its collectors describe and the registry that the metrics
    server is started with (serveMetrics of commands/multi.go), and the page that the server
    shows (the Collect functions of commands, network, helpers/prometheus and
    executors/docker/machine). *)

From stdpp Require Import sorting.
From Stdlib Require Import DecimalString DecimalZ.
From S2P Require Import Prelude GoLib Types Variables Config Build AbstractShell Shells CacheKeys BuildsHelper GitLabClient Machine HelperCommands Logging ServiceCommands Executor Startup.
#[local] Open Scope go_scope.

(** ** Descriptors *)

(** The constant labels are kept in the order of their names. *)
Record Desc := NewDesc { fqName : string; help : string; variableLabels : list string; constLabels : list (string * string) }.

Definition numBuildsDesc := NewDesc "gitlab_runner_jobs" "The current number of running builds." ["runner"; "state"; "stage"; "executor_stage"] [].
Definition requestConcurrencyDesc :=
  NewDesc "gitlab_runner_request_concurrency" "The current number of concurrent requests for a new job" ["runner"] [].
Definition requestConcurrencyExceededDesc :=
  NewDesc "gitlab_runner_request_concurrency_exceeded_total" "Counter tracking exceeding of request concurrency" ["runner"] [].
Definition jobsTotalDesc := NewDesc "gitlab_runner_jobs_total" "Total number of handled jobs" ["runner"] [].
Definition jobDurationHistogram := NewDesc "gitlab_runner_job_duration_seconds" "Histogram of job durations" ["runner"] [].
Definition buildsHelper_Describe : list Desc :=
  [numBuildsDesc; requestConcurrencyDesc; requestConcurrencyExceededDesc; jobsTotalDesc; jobDurationHistogram].

Definition concurrentDesc := NewDesc "gitlab_runner_concurrent" "The current value of concurrent setting" [] [].
Definition limitDesc := NewDesc "gitlab_runner_limit" "The current value of concurrent setting" ["runner"] [].
Definition run_Describe : list Desc := [concurrentDesc; limitDesc].

Definition apiRequestStatuses :=
  NewDesc "gitlab_runner_api_request_statuses_total" "The total number of api requests, partitioned by runner, endpoint and status."
    ["runner"; "endpoint"; "status"] [].
Definition numJobFailuresDesc := NewDesc "gitlab_runner_failed_jobs_total" "Total number of failed jobs" ["runner"; "failure_reason"] [].
Definition numErrorsDesc := NewDesc "gitlab_runner_errors_total" "The  number of catched errors." ["level"] [].

(** [NewMetricsCollector]: its labels, in one order of the map. *)
Definition version_info : Desc :=
  NewDesc "gitlab_runner_version_info" "A metric with a constant '1' value labeled by different build stats fields."
    ["name"; "version"; "revision"; "branch"; "go_version"; "built_at"; "os"; "architecture"] [].

(** The provider of machines under a name. *)
Definition totalActions (name : string) :=
  NewDesc "gitlab_runner_autoscaling_actions_total" "The total number of actions executed by the provider." ["action"] [("executor", name)].
Definition creationHistogram (name : string) :=
  NewDesc "gitlab_runner_autoscaling_machine_creation_duration_seconds" "Histogram of machine creation time." [] [("executor", name)].
Definition currentStatesDesc (name : string) :=
  NewDesc "gitlab_runner_autoscaling_machine_states" "The current number of machines per state in this provider." ["state"] [("executor", name)].
Definition provider_Describe (name : string) : list Desc := [totalActions name; creationHistogram name; currentStatesDesc name].

(** ** The registry *)

(** A name of a metric or, without the colon, of a label. *)
Definition name_char (colon : bool) (c : ascii) : bool :=
  let z := z_of c in
  ((97 <=? z) && (z <=? 122) || (65 <=? z) && (z <=? 90) || (48 <=? z) && (z <=? 57) || (z =? 95) || colon && (z =? 58))%Z.
Definition valid_name (colon : bool) (s : string) : bool :=
  match String.list_ascii_of_string s with
  | [] => false
  | c :: _ => negb ((48 <=? z_of c) && (z_of c <=? 57))%Z && forallb (name_char colon) (String.list_ascii_of_string s)
  end.
Definition checkLabelName (l : string) : bool := valid_name false l && negb (HasPrefix l "__").

Definition label_names (d : Desc) : list string := (constLabels d).*1 ++ variableLabels d.
Definition utf8_ok (s : string) : bool := bool_decide (encode_all (runes s) = s).
(** No error was recorded when the descriptor was made. *)
Definition valid_desc (d : Desc) : bool :=
  valid_name true (fqName d) && forallb checkLabelName (label_names d) && bool_decide (NoDup (label_names d)) &&
  forallb utf8_ok ((constLabels d).*2).

(** What the two hashes of a descriptor stand for: the name with the values of the constant
    labels, and the help with the sorted names of the labels. Hashes
    are taken not to collide. *)
Definition desc_id (d : Desc) : string * list string := (fqName d, (constLabels d).*2).
Definition dim (d : Desc) : string * list string :=
  (help d, merge_sort string_le ((constLabels d).*1 ++ ((λ l, "$" +:+ l) <$> variableLabels d))).

Record Registry := mkRegistry { descIDs : list (string * list string); dimsByName : gmap string (string * list string) }.
Definition NewRegistry : Registry := mkRegistry [] ∅.

(** [Register] of a collector that describes [ds]. An error of one descriptor ends the walk; a
    descriptor that is there already is an error in the end, whether or not the whole collector
    is the same. *)
Fixpoint check_descs (r : Registry) (dims : gmap string (string * list string)) (ds : list Desc)
    : option (gmap string (string * list string)) :=
  match ds with
  | [] => Some dims
  | d :: ds' =>
      if negb (valid_desc d) then None
      else match dimsByName r !! fqName d, dims !! fqName d with
           | Some x, _ => if bool_decide (x = dim d) then check_descs r dims ds' else None
           | None, Some x => if bool_decide (x = dim d) then check_descs r dims ds' else None
           | None, None => check_descs r (<[fqName d := dim d]> dims) ds'
           end
  end.
Definition registry_Register (r : Registry) (ds : list Desc) : option Registry :=
  dims ← check_descs r ∅ ds;
  (if bool_decide (Forall (λ d, desc_id d ∉ descIDs r) ds)
   then Some (mkRegistry (descIDs r ++ (desc_id <$> ds)) (dims ∪ dimsByName r)) else None).
(** [MustRegister] of collectors in turn; [None] is its panic. *)
Fixpoint MustRegister (r : Registry) (collectors : list (list Desc)) : option Registry :=
  match collectors with [] => Some r | ds :: rest => r ← registry_Register r ds; MustRegister r rest end.

(** [serveMetrics]: [providers] are the names and providers in the order in which the map is
    walked; of them only those of machines are collectors. [library] are the descriptors of
    the collectors of the Go runtime and of the process. *)
Definition is_collector (p : Startup.provider) : bool := match Creator p with Some (CreatesMachine _) => true | _ => false end.
Definition serveMetrics (library : list (list Desc)) (providers : list (string * Startup.provider)) : option Registry :=
  MustRegister NewRegistry
    ([buildsHelper_Describe; run_Describe; [apiRequestStatuses]; [numJobFailuresDesc]; [numErrorsDesc]; [version_info]] ++ library ++
     (provider_Describe ∘ fst <$> filter (λ x, is_collector x.2) providers)).

(** *** Registration succeeds *)

Definition agrees (F : string → string * list string) (m : gmap string (string * list string)) : Prop :=
  ∀ n x, m !! n = Some x → x = F n.

Lemma check_descs_ok F r dims ds :
  agrees F (dimsByName r) → agrees F dims → Forall (λ d, valid_desc d = true ∧ dim d = F (fqName d)) ds →
  ∃ dims', check_descs r dims ds = Some dims' ∧ agrees F dims'.
Proof.
  intros Hr Hd Hds. revert dims Hd. induction Hds as [|d ds [Hv Hf] _ IH]; intros dims Hd; simpl; [eauto|].
  rewrite Hv. simpl. destruct (dimsByName r !! fqName d) as [x|] eqn:E1.
  { apply Hr in E1. rewrite bool_decide_eq_true_2 by congruence. by apply IH. }
  destruct (dims !! fqName d) as [x|] eqn:E2.
  { apply Hd in E2. rewrite bool_decide_eq_true_2 by congruence. by apply IH. }
  apply IH. intros n x. destruct (decide (n = fqName d)) as [->|Hn].
  - rewrite lookup_insert_eq. intros [= <-]. done.
  - rewrite lookup_insert_ne by done. apply Hd.
Qed.

(** Collectors whose descriptors are valid, differ from each other and agree on what belongs to
    a name can all be registered. *)
Lemma MustRegister_ok F r collectors :
  agrees F (dimsByName r) → Forall (λ d, valid_desc d = true ∧ dim d = F (fqName d)) (concat collectors) →
  NoDup (descIDs r ++ (desc_id <$> concat collectors)) → is_Some (MustRegister r collectors).
Proof.
  revert r. induction collectors as [|ds rest IH]; intros r Hr Hf Hn; simpl; [eauto|].
  simpl in Hf, Hn. apply Forall_app in Hf as [Hf1 Hf2]. rewrite fmap_app, app_assoc in Hn.
  destruct (check_descs_ok F r ∅ ds Hr) as (dims & Hc & Hd); [by intros n x; rewrite lookup_empty|done|].
  unfold registry_Register. rewrite Hc. simpl. rewrite bool_decide_eq_true_2.
  - simpl. apply IH; simpl; [|done|done]. intros n x [Hx|[_ Hx]]%lookup_union_Some_raw; [by apply Hd|by apply Hr].
  - apply NoDup_app in Hn as (Hn & _). apply NoDup_app in Hn as (_ & Hdis & _). apply Forall_forall. intros d Hin Hid.
    apply (Hdis _ Hid). apply list_elem_of_fmap. eauto.
Qed.

(** The runner's own descriptors. *)
Definition fixed_descs : list Desc :=
  buildsHelper_Describe ++ run_Describe ++ [apiRequestStatuses; numJobFailuresDesc; numErrorsDesc; version_info].
Definition machine_names : list string := ["docker+machine"; "docker-ssh+machine"].
Definition own_descs : list Desc := fixed_descs ++ (machine_names ≫= provider_Describe).
Definition own_dim (n : string) : string * list string := default ("", []) (dim ∘ snd <$> list_find (λ d, fqName d = n) own_descs).

Lemma own_descs_ok :
  Forall (λ d, valid_desc d = true ∧ dim d = own_dim (fqName d)) own_descs ∧ NoDup (desc_id <$> own_descs) ∧
  Forall (λ d, HasPrefix (fqName d) "gitlab_runner_" = true) own_descs.
Proof. split_and!; apply (bool_decide_unpack _); vm_compute; exact I. Qed.

Lemma concat_fst {A B C} (f : A → list C) (l : list (A * B)) : concat (f ∘ fst <$> l) = l.*1 ≫= f.
Proof. induction l as [|x l IH]; [done|]. cbn. f_equal. exact IH. Qed.

(** The collectors of the library use other names. *)
Definition mixed_dim (F : string → string * list string) (n : string) : string * list string :=
  if HasPrefix n "gitlab_runner_" then own_dim n else F n.

Lemma own_and_library_ok F ds :
  Forall (λ d, valid_desc d = true ∧ dim d = F (fqName d) ∧ HasPrefix (fqName d) "gitlab_runner_" = false) ds →
  Forall (λ d, valid_desc d = true ∧ dim d = mixed_dim F (fqName d)) (own_descs ++ ds).
Proof.
  intros Hlib. destruct own_descs_ok as (Hown & _ & Hpre). apply Forall_app. split.
  - apply Forall_forall. intros d Hd. rewrite Forall_forall in Hown, Hpre. unfold mixed_dim. rewrite (Hpre d Hd). by apply Hown.
  - eapply Forall_impl; [exact Hlib|]. intros d (Hv & Hf & Hp). unfold mixed_dim. by rewrite Hp.
Qed.

Lemma own_and_library_distinct ds :
  Forall (λ d, HasPrefix (fqName d) "gitlab_runner_" = false) ds → NoDup (desc_id <$> ds) →
  NoDup ((desc_id <$> own_descs) ++ (desc_id <$> ds)).
Proof.
  intros Hlib Hnd. destruct own_descs_ok as (_ & Hids & Hpre). apply NoDup_app. split; [done|]. split; [|done].
  intros i (d & -> & Hd)%list_elem_of_fmap (d' & Heq & Hd')%list_elem_of_fmap. rewrite Forall_forall in Hpre, Hlib.
  injection Heq as Hn _. pose proof (Hpre d Hd) as H1. pose proof (Hlib d' Hd') as H2. cbv beta in H1, H2. rewrite Hn in H1. congruence.
Qed.

Section Server.
Context {GT : GoText} {PF : Platform} {SE : ShellEnv} (app : AppVersionInfo) (runnerCommand : string)
        (gcs_factory s3_factory : Factory).

(** The providers of machines are the two that the start registers. *)
Lemma collectors_are_machines p n v : (n, v) ∈ executors_of runnerCommand p → is_collector v = true → n ∈ machine_names.
Proof.
  intros H. unfold executors_of, docker_init, shell_provider, machine_names in *.
  destruct p; try (by apply elem_of_nil in H); destruct windows; simpl in H;
    repeat (apply elem_of_cons in H as [H|H]; [injection H as -> ->; simpl; try done; set_solver|]); by apply elem_of_nil in H.
Qed.

Lemma machine_names_registered n : n ∈ machine_names →
  ∃ v, (n, v) ∈ executors_of runnerCommand PMachine ∧ is_collector v = true.
Proof.
  intros H. apply elem_of_cons in H as [->|H]; [eexists; split; [left|done]|].
  apply list_elem_of_singleton in H as ->. eexists; split; [right; left|done].
Qed.

Lemma collector_names order pr providers :
  init_order order → init_all app runnerCommand gcs_factory s3_factory order = Some pr →
  providers ≡ₚ map_to_list (pr_executors pr) →
  (filter (λ x, is_collector x.2) providers).*1 ≡ₚ machine_names.
Proof.
  intros Hord Hin Hp. destruct (startup_reached app runnerCommand gcs_factory s3_factory order Hord) as (pr' & E & _ & _ & Hex).
  rewrite Hin in E. injection E as <-. apply NoDup_Permutation.
  - eapply sublist_NoDup; [|apply fmap_sublist, (sublist_filter _ providers)]. rewrite Hp. apply NoDup_fst_map_to_list.
  - apply (bool_decide_unpack _). vm_compute. exact I.
  - intros n. split.
    + intros ([n' v] & -> & [Hc Hv]%list_elem_of_filter)%list_elem_of_fmap. rewrite Hp in Hv.
      apply elem_of_map_to_list, Hex in Hv as [p Hv]. apply (collectors_are_machines p n' v Hv). by apply Is_true_true.
    + intros Hn. destruct (machine_names_registered n Hn) as (v & Hv & Hc). apply list_elem_of_fmap. exists (n, v). split; [done|].
      apply list_elem_of_filter. split; [by apply Is_true_true|]. rewrite Hp. apply elem_of_map_to_list, Hex. eauto.
Qed.

(** The metrics server starts. After any start of the program, and in whatever order the
    providers are walked, no registration of a collector panics: no two descriptors have the
    same name and constant labels, and those of one name agree in labels and help, also the two
    pools of machines, which share their names. The collectors of the library are assumed to
    have valid descriptors of their own under other names. *)
Theorem metrics_server_starts order pr providers library F :
  init_order order → init_all app runnerCommand gcs_factory s3_factory order = Some pr →
  providers ≡ₚ map_to_list (pr_executors pr) →
  Forall (λ d, valid_desc d = true ∧ dim d = F (fqName d) ∧ HasPrefix (fqName d) "gitlab_runner_" = false) (concat library) →
  NoDup (desc_id <$> concat library) →
  is_Some (serveMetrics library providers).
Proof.
  intros Hord Hin Hp Hlib Hnd. pose proof (collector_names order pr providers Hord Hin Hp) as Hc.
  set (machines := concat (provider_Describe ∘ fst <$> filter (λ x, is_collector x.2) providers)).
  assert (Hm : machines ≡ₚ machine_names ≫= provider_Describe) by (unfold machines; by rewrite concat_fst, Hc).
  assert (Hall : fixed_descs ++ concat library ++ machines ≡ₚ own_descs ++ concat library)
    by (rewrite Hm; unfold own_descs; solve_Permutation).
  apply (MustRegister_ok (mixed_dim F)); [intros n x; simpl; by rewrite lookup_empty|..].
  all: rewrite !concat_app; change (concat [_; _; _; _; _; _]) with fixed_descs; fold machines; rewrite Hall.
  - by apply own_and_library_ok.
  - rewrite fmap_app. apply own_and_library_distinct; [|done]. eapply Forall_impl; [exact Hlib|]. naive_solver.
Qed.
End Server.

(** ** The page *)

(** What the collectors send, by the name of the metric: the values of the labels of each
    sample, constant labels included. *)
Abbreviation family := (string * list (list string))%type.

Definition reason_text (r : JobFailureReason) : string :=
  match r with
  | NoneFailure => "" | ScriptFailure => "script_failure" | RunnerSystemFailure => "runner_system_failure"
  | JobExecutionTimeout => "job_execution_timeout"
  end.
Definition level_text (l : level) : string :=
  match l with PanicLevel => "panic" | FatalLevel => "fatal" | ErrorLevel => "error" | WarnLevel => "warning" | InfoLevel => "info" | DebugLevel => "debug" end.

(** The state of the service that is shown; [sv_order] is the order in which the counters of the
    runners are walked, [sv_machines] the providers of machines by their names. *)
Record service := mkService {
  sv_config : Config; sv_builds : buildsHelper; sv_order : list (string * runnerCounter); sv_api : APIRequestStatusesMap;
  sv_failures : FailuresCollector; sv_errors : LogHook; sv_app : AppVersionInfo; sv_built : string;
  sv_machines : list (string * machineProvider); sv_now : Z }.

Definition run_families (s : service) : list family :=
  [(fqName concurrentDesc, [[]]); (fqName limitDesc, (λ x, [x.1]) <$> (run_Collect (sv_config s)).2)].
Definition builds_families (s : service) : list family :=
  let '(states, counters) := buildsHelper_Collect (sv_order s) (sv_builds s) in
  [(fqName numBuildsDesc, (λ '((runner, state, stage, executor), _), [runner; state; stage; executor]) <$> map_to_list states);
   (fqName requestConcurrencyDesc, (λ x, [x.1]) <$> map_to_list counters);
   (fqName requestConcurrencyExceededDesc, (λ x, [x.1]) <$> map_to_list counters)].
Definition api_Collect (m : APIRequestStatusesMap) : list (list string) :=
  (λ '((runner, endpoint, status), _), [runner; endpoint; Itoa status]) <$> map_to_list m.
Definition version_labels (app : AppVersionInfo) (built : string) : list string :=
  [App_Name app; App_Version app; App_Revision app; App_Branch app; App_GOVersion app; built; App_OS app; App_Architecture app].
Definition families (s : service) : list family :=
  run_families s ++ builds_families s ++
  [(fqName apiRequestStatuses, api_Collect (sv_api s));
   (fqName numJobFailuresDesc, (λ '((runner, reason), _), [runner; reason_text reason]) <$> fc_Collect (sv_failures s));
   (fqName numErrorsDesc, (λ x, [level_text x.1]) <$> LogHook_Collect (sv_errors s));
   (fqName version_info, [version_labels (sv_app s) (sv_built s)]);
   (fqName (currentStatesDesc ""), sv_machines s ≫= λ '(name, m), (λ x, [name; x.1]) <$> states_Collect (sv_now s) m)].

Definition samples (fs : list family) : list (string * list string) := fs ≫= λ '(n, ls), (λ l, (n, l)) <$> ls.

(** A request for the page, with what the library's own collectors send: a label that is not
    UTF-8 makes [MustNewConstMetric] panic; a sample that is there twice makes the gathering of
    the metrics fail, and the handler answers any failure with status 500. *)
Definition metrics_page (s : service) (library : list family) : option Z :=
  let all := samples (families s ++ library) in
  if negb (forallb (λ x, forallb utf8_ok x.2) all) then None
  else Some (if bool_decide (NoDup all) then 200 else 500)%Z.

(** *** Samples that are there once *)

Lemma Itoa_injective x y : Itoa x = Itoa y → x = y.
Proof.
  assert (Hz : ∀ z, NilZero.int_of_string (Itoa z) = Some (Z.to_int z)).
  { intros z. unfold Itoa. apply NilZero.isi; destruct z as [|p|p]; simpl; try discriminate; intros [= H];
      by apply DecimalPos.Unsigned.to_uint_nonnil in H. }
  intros H. apply DecimalZ.to_int_inj. pose proof (Hz x) as Hx. rewrite H, Hz in Hx. by injection Hx.
Qed.

(** Metrics of different names do not meet. *)
Lemma samples_NoDup fs : NoDup fs.*1 → NoDup (samples fs) ↔ Forall (λ f, NoDup f.2) fs.
Proof.
  intros Hn. induction fs as [|[n ls] fs IH]; [split; [intros _; apply Forall_nil_2|intros _; apply NoDup_nil_2]|].
  apply NoDup_cons in Hn as [Hnot Hn]. specialize (IH Hn). unfold samples in *. cbn [mbind list_bind].
  rewrite NoDup_app, Forall_cons, <- IH. simpl. split.
  - intros (H1 & _ & H3). split; [|done]. by apply NoDup_fmap_1 in H1.
  - intros [H1 H3]. split_and!; [apply NoDup_fmap_2; [by intros ? ? [=]|done]| |done].
    intros x (l & -> & _)%list_elem_of_fmap ([n' ls'] & Hx & Hf)%list_elem_of_bind.
    apply list_elem_of_fmap in Hx as (l' & [= <- _] & _). apply Hnot. apply list_elem_of_fmap. by exists (n, ls').
Qed.

(** The samples of a map are told apart by its keys. *)
Lemma keyed_NoDup `{Countable K} {A B} (f : K * A → B) (m : gmap K A) :
  (∀ x y, f x = f y → x.1 = y.1) → NoDup (f <$> map_to_list m).
Proof.
  intros Hf. apply NoDup_fmap_2_strong; [|apply NoDup_map_to_list]. intros [k1 v1] [k2 v2] H1 H2 He.
  apply Hf in He. simpl in He. subst k2. apply elem_of_map_to_list in H1, H2. by simplify_eq.
Qed.

Lemma machine_samples_NoDup now (ms : list (string * machineProvider)) :
  NoDup ms.*1 → NoDup (ms ≫= λ '(name, m), (λ x, [name; x.1]) <$> states_Collect now m).
Proof.
  intros Hn. induction ms as [|[name m] ms IH]; [apply NoDup_nil_2|]. apply NoDup_cons in Hn as [Hnot Hn].
  cbn [mbind list_bind]. apply NoDup_app. split_and!; [| |by apply IH].
  - cbn. repeat (apply NoDup_cons_2; [set_solver|]). apply NoDup_nil_2.
  - intros l (x & -> & _)%list_elem_of_fmap ([name' m'] & Hx & Hin)%list_elem_of_bind.
    apply list_elem_of_fmap in Hx as (y & [= <- _] & _). apply Hnot, list_elem_of_fmap. by exists (name, m').
Qed.

(** Every metric but one has each sample once; the one is the limit of the runners. *)
Lemma families_NoDup s : NoDup (sv_machines s).*1 →
  Forall (λ f, NoDup f.2) (families s) ↔ NoDup (ShortDescription ∘ Credentials_ <$> Runners (sv_config s)).
Proof.
  intros Hm.
  assert (Hl : NoDup ((λ x : string * Z, [x.1]) <$> (run_Collect (sv_config s)).2) ↔
               NoDup (ShortDescription ∘ Credentials_ <$> Runners (sv_config s))).
  { assert (E : (λ x : string * Z, [x.1]) <$> (run_Collect (sv_config s)).2 =
      (λ n : string, [n]) <$> (ShortDescription ∘ Credentials_ <$> Runners (sv_config s)))
      by (unfold run_Collect; simpl; by rewrite <- !list_fmap_compose).
    rewrite E. split; [apply NoDup_fmap_1|apply (NoDup_fmap_2 _); by intros ? ? [=]]. }
  rewrite <- Hl. unfold families. rewrite Forall_app. split; [intros [H _]; by apply Forall_cons in H as [_ [H _]%Forall_cons]|].
  intros H. split; [repeat apply Forall_cons_2; try apply Forall_nil_2; [apply NoDup_singleton|exact H]|].
  unfold builds_families. destruct (buildsHelper_Collect _ _) as [states counters]. cbn [app].
  repeat apply Forall_cons_2; try apply Forall_nil_2; simpl.
  - apply keyed_NoDup. by intros [[[[? ?] ?] ?] ?] [[[[? ?] ?] ?] ?] [= -> -> -> ->].
  - apply keyed_NoDup. by intros ? ? [= ->].
  - apply keyed_NoDup. by intros ? ? [= ->].
  - apply keyed_NoDup. by intros [[[? ?] ?] ?] [[[? ?] ?] ?] [= -> -> ->%Itoa_injective].
  - apply keyed_NoDup. intros [[? r1] ?] [[? r2] ?] [= -> Hr]. simpl. f_equal. by destruct r1, r2.
  - apply (bool_decide_unpack _). vm_compute. exact I.
  - apply NoDup_singleton.
  - exact (machine_samples_NoDup (sv_now s) (sv_machines s) Hm).
Qed.

Definition own_names : list string :=
  [fqName concurrentDesc; fqName limitDesc; fqName numBuildsDesc; fqName requestConcurrencyDesc; fqName requestConcurrencyExceededDesc;
   fqName apiRequestStatuses; fqName numJobFailuresDesc; fqName numErrorsDesc; fqName version_info; fqName (currentStatesDesc "")].

Lemma families_names s : (families s).*1 = own_names.
Proof. unfold families, builds_families. by destruct (buildsHelper_Collect _ _). Qed.

Lemma own_names_NoDup : NoDup own_names.
Proof. apply (bool_decide_unpack _). vm_compute. exact I. Qed.

(** C40: The page of metrics is shown exactly when no two configured runners have the same short
    token, which is the first eight characters of the token. If two have it, as when a runner
    is configured twice, the limit of the runners is sent twice under the same labels and
    every request for the page, with all its other metrics, is answered with status 500. *)
Theorem metrics_page_status s library :
  NoDup (sv_machines s).*1 → NoDup (library.*1) → (∀ n, n ∈ library.*1 → n ∉ own_names) → Forall (λ f, NoDup f.2) library →
  forallb (λ x, forallb utf8_ok x.2) (samples (families s ++ library)) = true →
  metrics_page s library =
    Some (if bool_decide (NoDup (ShortDescription ∘ Credentials_ <$> Runners (sv_config s))) then 200 else 500)%Z.
Proof.
  intros Hm Hl Hdis Hf Hu. unfold metrics_page. cbv zeta. rewrite Hu. cbn [negb].
  rewrite (bool_decide_ext _ (NoDup (ShortDescription ∘ Credentials_ <$> Runners (sv_config s)))); [done|].
  rewrite samples_NoDup.
  - rewrite Forall_app, families_NoDup by done. tauto.
  - rewrite fmap_app, families_names. apply NoDup_app. split; [apply own_names_NoDup|]. split; [|done].
    intros n Hn Hin. by apply (Hdis n Hin).
Qed.

(** A service with a runner that is configured [n] times, and the metrics of the library. *)
Module DemoMetrics.
Import BuildProofs.DemoBuild Shells.DemoShell.
Definition config (n : nat) : Config :=
  {| Concurrent := 1; CheckInterval := 0; User := ""; Runners := repeat (some_runner 0 0) n; Session_ := Session_ NewConfig |}.
Definition service_of (n : nat) : service :=
  mkService (config n) (mkHelper ∅ [] ∅ []) [] ∅ ∅ NewLogHook app "" [("docker+machine", newMachineProvider)] 0.
Definition library : list family := [("go_goroutines", [[]]); ("process_open_fds", [[]])].

Lemma metrics_page_status_witness : metrics_page (service_of 2) library = Some 500%Z ∧ metrics_page (service_of 1) library = Some 200%Z.
Proof.
  assert (H1 : NoDup (["docker+machine"] : list string)) by (apply (bool_decide_unpack _); vm_compute; exact I).
  assert (H2 : NoDup (library.*1)) by (apply (bool_decide_unpack _); vm_compute; exact I).
  assert (H3 : Forall (λ n, n ∉ own_names) (library.*1)) by (apply (bool_decide_unpack _); vm_compute; exact I).
  rewrite Forall_forall in H3.
  assert (H4 : Forall (λ f : family, NoDup f.2) library) by (apply (bool_decide_unpack _); vm_compute; exact I).
  split; [rewrite (metrics_page_status (service_of 2) library H1 H2 H3 H4)|rewrite (metrics_page_status (service_of 1) library H1 H2 H3 H4)];
    vm_compute; reflexivity.
Defined.

Definition go_descs : list (list Desc) := [[NewDesc "go_goroutines" "Number of goroutines that currently exist." [] []]].

Lemma metrics_server_starts_witness :
  ∃ pr, init_all app "gitlab-runner" DemoStartup.no_factory DemoStartup.no_factory main_order = Some pr ∧
        is_Some (serveMetrics go_descs (map_to_list (pr_executors pr))).
Proof.
  destruct (startup_reached app "gitlab-runner" DemoStartup.no_factory DemoStartup.no_factory main_order main_order_ok) as (pr & E & _).
  exists pr. split; [exact E|].
  apply (metrics_server_starts app "gitlab-runner" DemoStartup.no_factory DemoStartup.no_factory main_order pr _ go_descs
           (λ _, ("Number of goroutines that currently exist.", []))); [apply main_order_ok|exact E|done| |].
  - apply (bool_decide_unpack _). vm_compute. exact I.
  - apply (bool_decide_unpack _). vm_compute. exact I.
Defined.
End DemoMetrics.
